(* ===== verification/_CoqProject ===== *)
-Q . S2P
Prelude.v
TestKit.v
Bytes.v
Solana.v
Criteria.v
CriteriaTests.v
Attestation.v
AttestationTests.v
Adapters.v
Locker.v
Merkle.v
Sha.v
Pda.v
LockerTests.v
ScannerState.v
Scanner.v
ScannerTests.v
ScannerTrace.v
ScannerExamples.v
Runtime.v
VaultState.v
Borsh.v
Accounts.v
AmmCpi.v
Salvage.v
SalvageSpec.v
VaultTests.v
Vault.v
VaultInv.v
SalvageLive.v
Storage.v
VaultSpec.v
Payout.v
Escrow.v
VaultExamples.v
Snapshot.v
Builder.v
BuilderSpec.v
Tree.v
MerkleTests.v
Artifact.v
Document.v
DocumentExamples.v
SnapshotTests.v
Protocol.v
Cli.v
Delivery.v
ProtocolExamples.v
StorageExamples.v
CliExamples.v
