(* ===== verification/Prelude.v ===== *)
(** * GraveYield: the scanner, the vault and the snapshotter

    GraveYield recovers the value locked in abandoned liquidity pools. Three
    Rust crates carry its logic and are modelled here:

    - [programs/grave-scanner], an on-chain program that certifies a pool as
      derelict: six criteria, checked in a Phase 1 that writes an anchor and again
      at least two epochs later in a Phase 2 that writes a certificate;
    - [programs/grave-vault], an on-chain program that salvages a certified pool
      (burns the salvor's LP, converts the memecoin side, splits the proceeds)
      and then pays the pool's LP holders against a Merkle root;
    - [snapshotter], the off-chain crate and binary that build that root: the
      enumeration of LP accounts and locks, the tree, the published document.

    They meet in data: the vault reads the scanner's certificates by address, the
    root the snapshotter seals is a parameter of the salvage, and its proofs are
    parameters of the claims. Protocol.v is about that composition.

    ** Files and sources

    - Prelude.v: [result] (Rust's [Result], with [?] as bind and [require!]),
      integers at their width ([checked_add_u], [saturating_sub_u], ...: the Z
      result and an explicit range test), folds that can fail, tactics.
      Bytes.v: byte strings, little-endian integers, base58 keys.
      Solana.v: accounts, clock, instructions, PDA derivation.
    - Scanner. Criteria.v: criteria.rs. Attestation.v: attestation.rs.
      Adapters.v: adapters/mod.rs, raydium_v4.rs and the four stubs. Locker.v:
      adapters/locker.rs. ScannerState.v: state/, constants.rs, errors.rs.
      Scanner.v: instructions/ and lib.rs. ScannerTrace.v: runs between the
      two phases. ScannerExamples.v: a concrete run.
    - Vault. VaultState.v: state/, constants.rs, errors.rs. Merkle.v: merkle.rs.
      Runtime.v: the ledger and what cross-program calls do. AmmCpi.v: cpi/.
      Salvage.v: salvage_pool.rs, with SalvageSpec.v. Vault.v: the other
      instructions and lib.rs. VaultInv.v: the transition system and its
      invariant. SalvageLive.v: what can still fail once the proceeds are in.
      VaultSpec.v: the promises. Payout.v: sequences of claims. Escrow.v: an abstract
      specification and its refinement. VaultExamples.v: a concrete salvage.
    - Snapshotter. Snapshot.v: model.rs, error.rs, locked.rs, source.rs, rpc.rs.
      Builder.v: builder.rs, with BuilderSpec.v. Tree.v: tree.rs. Artifact.v:
      artifact.rs without its JSON. Document.v: the JSON of artifact.rs and
      model.rs, with DocumentExamples.v. Cli.v: bin/grave-snapshotter-cli.rs.
    - Protocol.v: the crates together. Delivery.v: from the binary's command line
      to a claim. ProtocolExamples.v and CliExamples.v: concrete runs.
    - Wire format. Borsh.v: the encodings Borsh and Anchor publish for derived
      structs and accounts, which are not code of this repository (its layout
      tests pin six of the eight). Accounts.v: the eight account types of both
      programs as bytes. Storage.v, with StorageExamples.v: what the
      instructions write fits its types and is read back.
    - Conformance. TestKit.v, and CriteriaTests.v, AttestationTests.v,
      LockerTests.v, ScannerTests.v, VaultTests.v, MerkleTests.v,
      SnapshotTests.v and the end of Accounts.v: the unit, adversary and
      property tests beside the Rust code, replayed on the model. Sha.v and
      Pda.v: SHA-256 and the derivation of program addresses, executable, which
      the replays run on.

    ** How state and operations correspond

    A program's accounts are a record of finite maps, one per PDA family, keyed
    by what its seeds vary in ([ScannerState], [VaultState]); an absent key is an
    account that does not exist. A handler is a function from its accounts,
    parameters and environment (clock, sysvars, remaining accounts) and the
    state to an error or to the new state and the events. The account
    constraints Anchor generates come first, in declaration order, then the
    handler's statements in theirs. [scanner_exec] and [vault_exec] dispatch; a
    failed instruction leaves no state, as a failed transaction does. The vault
    also threads a [Ledger] (lamports and token accounts). [vault_step] adds to
    the vault's instructions everything else that may happen on the chain. The
    snapshotter's [BTreeMap]s are finite maps iterated in key order; its traits
    are classes ([LpAccountSource], [LockedLpEvidence]) with the in-memory and
    RPC implementations as instances.

    ** What the theorems show

    - End to end (Protocol.v, Delivery.v): [file_pays_holders] from a command
      line to the lamports of a claim, [lp_holder_gets_paid] from the builder,
      [published_text_pays_everyone] from a JSON text of unknown origin;
      [salvage_twice_certified], [published_root_is_exact].
    - Scanner: the evaluator is the conjunction of the six criteria
      ([evaluate_iff_derelict]); the exact effect of both phases; a state
      invariant by induction on steps and a refinement to seven abstract effects
      ([scanner_refines_effects]); live certificates are not overwritten,
      invalidated anchors never certify, only the authority governs; whoever
      has an anchor can finish with Phase 2, whatever others do before the sweep
      opens, unless the configured TTL overflows the clock, and then it is
      MathOverflow ([anchored_pool_certifies]); what an
      accepted attestation proves, and what it does not; the evidence scan of
      Criterion 5 and the layout parser.
    - Vault: the accounting invariant in every reachable state; the LP-holder
      account is debited by claims only; every holder of an honest snapshot can
      claim, all of them in any order and with the same result, leaving less
      than a lamport per claim; the whole program refines an executable escrow of
      which its event log is a run ([vault_refines_escrow],
      [event_log_accounts]); salvage admission, conversion and settlement on
      every branch; after the unwrap nothing fails a salvage but a memecoin
      account that is gone ([settlement_outcome]); Merkle soundness up to an
      exhibited collision; records are sealed; governance.
    - Snapshotter: [build] computes the right balance for every owner, does not
      depend on the order of its input, and succeeds exactly when it should on
      unlocked pools; the tree's proofs verify on-chain and are as short as the
      tree is deep; a built snapshot always seals and passes
      [verify_integrity], which accepts exactly the documents that re-derive;
      the document's texts load as what was written, and whatever loads is
      typed; the binary's exit on whatever the node answers and on its command
      line, and what its file is worth ([cli_delivers]).
    - Accounts: however the programs are run, every account they hold has values
      of its declared widths, takes exactly its space and is read back as
      written ([accounts_survive_storage]), and none is read as another, but for
      the two configs, which only their owner tells apart
      ([accounts_never_confused]).
    - Conformance: a test is a boolean definition of the test's name (true when
      all its assertions hold), a suite is proved by evaluation, a proptest is a
      [Prop] over what its strategies draw and is proved ([..._holds]); one is
      refuted as written ([boundary_totals_conserve_fails]). The mainnet
      addresses in the tests and the AMM authority come out of Pda.v as pinned,
      the account discriminators out of Sha.v.

    ** Bounds and fuel

    Loops over lists are structural folds. Two loops take fuel. The tree's
    [while] loop gets one unit per leaf and one more: a level of more than one
    node has a shorter next level ([tree_fuel]). The SlotHashes lookup gets one
    unit per byte of the sysvar, of which an entry takes forty
    ([slot_hash_lookup_spec]). Integers are Z with the
    code's width tested where the code tests it; where it adds unchecked (two
    fields in [verify_integrity]) overflow is a panic, as the build's
    [overflow-checks] make it.

    ** Parameters

    Code outside the repository is a class: [PdaDerivation]
    ([find_program_address]; [PdaTyped] says a key and a byte), [Runtime] with
    [RuntimeLaws] (System program, SPL Token, Raydium, Jupiter: that no call
    debits an address of the vault that did not sign, that a covered transfer
    goes through), [Sha256] (32 bytes, nothing else; collision resistance appears as
    a conclusion or as an explicit set of known strings without collisions),
    [RpcClient] (the node may answer anything, but a slot is a [u64]),
    [DataFormat] with its laws (serde and serde_json: reading inverts writing, a
    text loads as the value it was written from, up to serde_json's recursion
    limit), [Base58] (printing and parsing
    of a key) and [Host] (the node behind a URL, the file system).
    The Examples files instantiate each with a concrete one, most of them with
    a toy that has the laws; Sha.v and Pda.v are the real functions.

    ** Not modelled

    The encoding of instruction data and events (that of accounts is); in the
    transition systems, accounts are records and not their bytes; rent for the
    accounts Anchor creates; compute limits; the rent check the
    runtime makes of every account when a transaction ends, except on the
    LP-holder accounts ([rent_ok]); a failed [RefCell] borrow (the
    handlers never hold two); the texts of formatted error messages; the
    grammar of JSON and base58, which are parameters; debug assertions (the
    builder is modelled on the release profile); tests that only ask for the
    absence of a panic in a function that is total here, and the JSON of RPC
    filters; the harnesses under tests/; the
    TypeScript SDK, indexer and operations, which only call the programs. *)

From Stdlib Require Export ZArith Lia Strings.Byte.
From stdpp Require Export base tactics option list sorting countable gmap.
#[export] Set Default Goal Selector "!".
#[export] Set Warnings "-notation-overridden,-ambiguous-paths".

(** Boolean tests and arithmetic below are on [Z]. *)
Open Scope Z_scope.
#[global] Arguments Z.ltb : simpl never.
#[global] Arguments Z.leb : simpl never.
#[global] Arguments Z.eqb : simpl never.

Declare Scope gy_scope.
Delimit Scope gy_scope with gy.

(** ** Fallible computations: Rust's [Result] *)

Inductive result (E A : Type) : Type :=
| Ok (a : A)
| Err (e : E).
Arguments Ok {E A} a.
Arguments Err {E A} e.

#[export] Instance result_ret E : MRet (result E) := fun A a => Ok a.
#[export] Instance result_bind E : MBind (result E) := fun A B f m =>
  match m with Ok a => f a | Err e => Err e end.

#[export] Instance result_eq_dec E A `{EqDecision E, EqDecision A} :
  EqDecision (result E A).
Proof. solve_decision. Defined.

(** [require!(b, e)] *)
Definition require {E} (b : bool) (e : E) : result E unit :=
  if b then Ok tt else Err e.

(** [o.ok_or(e)] *)
Definition ok_or {E A} (o : option A) (e : E) : result E A :=
  match o with Some a => Ok a | None => Err e end.

(** [r.map_err(f)] *)
Definition map_err {E F A} (f : E -> F) (r : result E A) : result F A :=
  match r with Ok a => Ok a | Err e => Err (f e) end.

Definition is_ok {E A} (r : result E A) : bool :=
  match r with Ok _ => true | Err _ => false end.

Section ResultLemmas.
Context {E A B : Type}.

Lemma bind_Ok (m : result E A) (f : A -> result E B) b :
  (m ≫= f) = Ok b <-> exists a, m = Ok a /\ f a = Ok b.
Proof.
  destruct m as [a|e]; simpl; split; try naive_solver.
Qed.

Lemma bind_Err (m : result E A) (f : A -> result E B) e :
  (m ≫= f) = Err e <-> m = Err e \/ exists a, m = Ok a /\ f a = Err e.
Proof. destruct m as [a|e']; simpl; split; naive_solver. Qed.

Lemma require_Ok (b : bool) (e : E) u : require b e = Ok u <-> b = true.
Proof. destruct b, u; simpl; naive_solver. Qed.

Lemma require_true (b : bool) (e : E) : b = true -> require b e = Ok tt.
Proof. by intros ->. Qed.

Lemma require_false (b : bool) (e : E) : b = false -> require b e = Err e.
Proof. by intros ->. Qed.

Lemma require_Err (b : bool) (e e' : E) :
  require b e = Err e' <-> b = false /\ e = e'.
Proof. destruct b; simpl; naive_solver. Qed.

Lemma ok_or_Ok (o : option A) (e : E) a : ok_or o e = Ok a <-> o = Some a.
Proof. destruct o; simpl; naive_solver. Qed.

Lemma ok_or_Err (o : option A) (e e' : E) :
  ok_or o e = Err e' <-> o = None /\ e = e'.
Proof. destruct o; simpl; naive_solver. Qed.

Lemma is_ok_true (r : result E A) : is_ok r = true <-> exists a, r = Ok a.
Proof. destruct r; simpl; naive_solver. Qed.
End ResultLemmas.

(** Inverts a successful run of the error monad: every bind becomes its two
    halves, every guard the boolean that held. *)
Ltac res_inv H :=
  lazymatch type of H with
  | (mbind _ _) = Ok _ =>
      let a := fresh "r" in let H1 := fresh "Hr" in
      apply bind_Ok in H as (a & H1 & H); res_inv H1;
      (try (lazymatch type of H with _ => idtac end)); res_inv H
  | require _ _ = Ok _ => apply require_Ok in H
  | ok_or _ _ = Ok _ => apply ok_or_Ok in H
  | mret _ = Ok _ => cbv [mret result_ret] in H; res_inv H
  | Ok _ = Ok _ => injection H; clear H; intros; subst
  | Err _ = Ok _ => discriminate H
  | _ => idtac
  end.

(** Turns the boolean facts of the context into propositions. *)
Lemma negb_eq_true b : negb b = true <-> b = false.
Proof. by destruct b. Qed.
Lemma negb_eq_false b : negb b = false <-> b = true.
Proof. by destruct b. Qed.

Ltac bool_simpl_in H :=
  repeat match type of H with
  | context [?a && ?b = true] => rewrite (andb_true_iff a b) in H
  | context [?a || ?b = false] => rewrite (orb_false_iff a b) in H
  | context [(?a <=? ?b) = true] => rewrite (Z.leb_le a b) in H
  | context [(?a <? ?b) = true] => rewrite (Z.ltb_lt a b) in H
  | context [(?a =? ?b) = true] => rewrite (Z.eqb_eq a b) in H
  | context [(?a <=? ?b) = false] => rewrite (Z.leb_gt a b) in H
  | context [(?a <? ?b) = false] => rewrite (Z.ltb_ge a b) in H
  | context [(?a =? ?b) = false] => rewrite (Z.eqb_neq a b) in H
  | context [bool_decide ?P = true] => rewrite (bool_decide_eq_true P) in H
  | context [bool_decide ?P = false] => rewrite (bool_decide_eq_false P) in H
  | context [negb ?b = true] => rewrite (negb_eq_true b) in H
  | context [negb ?b = false] => rewrite (negb_eq_false b) in H
  end.

Ltac bool_simpl :=
  repeat match goal with
  | H : context [_ = true] |- _ => progress bool_simpl_in H
  | H : context [_ = false] |- _ => progress bool_simpl_in H
  | H : _ /\ _ |- _ => destruct H
  end.

Ltac bool_goal :=
  repeat first
    [ rewrite andb_true_iff | rewrite orb_false_iff
    | rewrite Z.leb_le | rewrite Z.ltb_lt | rewrite Z.eqb_eq
    | rewrite Z.leb_gt | rewrite Z.ltb_ge | rewrite Z.eqb_neq
    | rewrite bool_decide_eq_true | rewrite bool_decide_eq_false
    | rewrite negb_eq_true | rewrite negb_eq_false ].

(** ** Machine integers

    Values are mathematical integers; the width is explicit in every
    operation that can overflow. *)

Definition is_u (w z : Z) : Prop := 0 <= z < 2 ^ w.
Definition is_i (w z : Z) : Prop := - 2 ^ (w - 1) <= z < 2 ^ (w - 1).
Abbreviation is_u8 := (is_u 8).
Abbreviation is_u16 := (is_u 16).
Abbreviation is_u32 := (is_u 32).
Abbreviation is_u64 := (is_u 64).
Abbreviation is_u128 := (is_u 128).
Abbreviation is_i64 := (is_i 64).
Abbreviation is_i128 := (is_i 128).

Definition in_u (w z : Z) : bool := (0 <=? z) && (z <? 2 ^ w).
Definition in_i (w z : Z) : bool := (- 2 ^ (w - 1) <=? z) && (z <? 2 ^ (w - 1)).

Definition u_max (w : Z) : Z := 2 ^ w - 1.

(** [a.checked_op(b)] at width [w]. *)
Definition checked_add_u (w a b : Z) : option Z :=
  if in_u w (a + b) then Some (a + b) else None.
Definition checked_sub_u (w a b : Z) : option Z :=
  if in_u w (a - b) then Some (a - b) else None.
Definition checked_mul_u (w a b : Z) : option Z :=
  if in_u w (a * b) then Some (a * b) else None.
Definition checked_div_u (a b : Z) : option Z :=
  if b =? 0 then None else Some (a / b).
Definition checked_add_i (w a b : Z) : option Z :=
  if in_i w (a + b) then Some (a + b) else None.
Definition checked_sub_i (w a b : Z) : option Z :=
  if in_i w (a - b) then Some (a - b) else None.
(** [a.checked_shl(s)]: [None] when the shift amount reaches the width; bits
    shifted out are lost. *)
Definition checked_shl_u (w a s : Z) : option Z :=
  if s <? w then Some (Z.shiftl a s mod 2 ^ w) else None.
Definition saturating_sub_u (a b : Z) : Z := Z.max 0 (a - b).
Definition saturating_add_u (w a b : Z) : Z := Z.min (a + b) (u_max w).
(** [a as uw] *)
Definition cast_u (w a : Z) : Z := a mod 2 ^ w.
(** [uw::try_from(a)] *)
Definition try_into_u (w a : Z) : option Z := if in_u w a then Some a else None.

Section IntLemmas.
Variable w : Z.

Lemma in_u_spec z : in_u w z = true <-> is_u w z.
Proof. unfold in_u, is_u. bool_goal. lia. Qed.

Lemma in_i_spec z : in_i w z = true <-> is_i w z.
Proof. unfold in_i, is_i. bool_goal. lia. Qed.

Lemma checked_add_u_Some a b r :
  checked_add_u w a b = Some r <-> r = a + b /\ is_u w (a + b).
Proof.
  unfold checked_add_u. rewrite <- in_u_spec.
  destruct (in_u w (a + b)); naive_solver.
Qed.

Lemma checked_sub_u_Some a b r :
  checked_sub_u w a b = Some r <-> r = a - b /\ is_u w (a - b).
Proof.
  unfold checked_sub_u. rewrite <- in_u_spec.
  destruct (in_u w (a - b)); naive_solver.
Qed.

Lemma checked_mul_u_Some a b r :
  checked_mul_u w a b = Some r <-> r = a * b /\ is_u w (a * b).
Proof.
  unfold checked_mul_u. rewrite <- in_u_spec.
  destruct (in_u w (a * b)); naive_solver.
Qed.

Lemma checked_div_u_Some a b r :
  checked_div_u a b = Some r <-> r = a / b /\ b <> 0.
Proof.
  unfold checked_div_u. destruct (b =? 0) eqn:Hb; bool_simpl; naive_solver.
Qed.

Lemma checked_add_i_Some a b r :
  checked_add_i w a b = Some r <-> r = a + b /\ is_i w (a + b).
Proof.
  unfold checked_add_i. rewrite <- in_i_spec.
  destruct (in_i w (a + b)); naive_solver.
Qed.

Lemma checked_sub_i_Some a b r :
  checked_sub_i w a b = Some r <-> r = a - b /\ is_i w (a - b).
Proof.
  unfold checked_sub_i. rewrite <- in_i_spec.
  destruct (in_i w (a - b)); naive_solver.
Qed.

Lemma try_into_u_Some a r : try_into_u w a = Some r <-> r = a /\ is_u w a.
Proof.
  unfold try_into_u. rewrite <- in_u_spec. destruct (in_u w a); naive_solver.
Qed.

Lemma checked_add_u_None a b :
  checked_add_u w a b = None <-> ~ is_u w (a + b).
Proof.
  unfold checked_add_u. rewrite <- in_u_spec.
  destruct (in_u w (a + b)); naive_solver.
Qed.

Lemma checked_mul_u_None a b :
  checked_mul_u w a b = None <-> ~ is_u w (a * b).
Proof.
  unfold checked_mul_u. rewrite <- in_u_spec.
  destruct (in_u w (a * b)); naive_solver.
Qed.

Lemma cast_u_small a : is_u w a -> cast_u w a = a.
Proof. unfold is_u, cast_u. intros. by apply Z.mod_small. Qed.
End IntLemmas.

Lemma is_u_mono w w' z : w <= w' -> is_u w z -> is_u w' z.
Proof.
  unfold is_u. intros Hw [? ?]. split; [done|].
  eapply Z.lt_le_trans; [done|]. destruct (Z.le_gt_cases 0 w).
  - apply Z.pow_le_mono_r; lia.
  - rewrite Z.pow_neg_r in *; lia.
Qed.

Ltac unfold_ints :=
  unfold is_u, is_i, u_max, saturating_add_u, saturating_sub_u in *;
  repeat match goal with
  | H : context [2 ^ ?n] |- _ =>
      let v := eval vm_compute in (2 ^ n) in
      lazymatch v with Z.pow _ _ => fail | _ => change (2 ^ n) with v in H end
  | |- context [2 ^ ?n] =>
      let v := eval vm_compute in (2 ^ n) in
      lazymatch v with Z.pow _ _ => fail | _ => change (2 ^ n) with v end
  end.
Ltac ints := unfold_ints; lia.

(** Inverts checked arithmetic in the hypotheses. *)
Ltac checked_inv :=
  repeat match goal with
  | H : checked_add_u _ _ _ = Some _ |- _ => apply checked_add_u_Some in H as [-> H]
  | H : checked_sub_u _ _ _ = Some _ |- _ => apply checked_sub_u_Some in H as [-> H]
  | H : checked_mul_u _ _ _ = Some _ |- _ => apply checked_mul_u_Some in H as [-> H]
  | H : checked_div_u _ _ = Some _ |- _ => apply checked_div_u_Some in H as [-> H]
  | H : checked_add_i _ _ _ = Some _ |- _ => apply checked_add_i_Some in H as [-> H]
  | H : checked_sub_i _ _ _ = Some _ |- _ => apply checked_sub_i_Some in H as [-> H]
  | H : try_into_u _ _ = Some _ |- _ => apply try_into_u_Some in H as [-> H]
  end.

(** Decides the range of a concrete integer by evaluation. *)
Ltac in_range :=
  solve [ apply in_u_spec; vm_compute; reflexivity
        | apply in_i_spec; vm_compute; reflexivity ].

(** Runs the next guard of a successful computation, proving its condition
    with [tac]. *)
Ltac step_guard tac :=
  apply bind_Ok; exists tt; split; [apply require_true; bool_goal; tac|].

(** ** Loops with early return *)

(** [for x in l { s = f(s, x)?; }] *)
Fixpoint foldM {E S A} (f : S -> A -> result E S) (s : S) (l : list A) : result E S :=
  match l with
  | [] => Ok s
  | x :: l => s' ← f s x; foldM f s' l
  end.

Lemma foldM_app {E S A} (f : S -> A -> result E S) s l1 l2 :
  foldM f s (l1 ++ l2) = (s' ← foldM f s l1; foldM f s' l2).
Proof.
  revert s. induction l1 as [|x l1 IH]; intros s; simpl; [done|].
  destruct (f s x); simpl; auto.
Qed.

(** A loop that only ever extends an accumulator is described by one pass
    per element: [inv] holds at the end for everything consumed. *)
Lemma foldM_ind {E S A} (f : S -> A -> result E S) (P : list A -> S -> Prop) s0 l s :
  P [] s0 ->
  (forall done s x s', P done s -> f s x = Ok s' -> P (done ++ [x]) s') ->
  foldM f s0 l = Ok s -> P l s.
Proof.
  intros H0 Hstep.
  assert (Hgen : forall todo done s1, P done s1 -> foldM f s1 todo = Ok s -> P (done ++ todo) s).
  { induction todo as [|x todo IH]; intros dn s1 HP; simpl.
    - intros [= <-]. by rewrite app_nil_r.
    - intros H. apply bind_Ok in H as (s2 & H1 & H2).
      replace (dn ++ x :: todo) with ((dn ++ [x]) ++ todo) by by rewrite <- app_assoc.
      eauto. }
  intros H. by apply (Hgen l [] s0).
Qed.

(** ** Sums *)

Definition sum_Z (l : list Z) : Z := foldr Z.add 0 l.

Lemma sum_Z_app l k : sum_Z (l ++ k) = sum_Z l + sum_Z k.
Proof. unfold sum_Z. induction l; simpl; lia. Qed.

Lemma sum_Z_nonneg l : Forall (fun z => 0 <= z) l -> 0 <= sum_Z l.
Proof. unfold sum_Z. induction 1; simpl; lia. Qed.

Lemma sum_Z_perm l k : l ≡ₚ k -> sum_Z l = sum_Z k.
Proof. unfold sum_Z. induction 1; simpl; lia. Qed.

#[export] Instance sum_Z_proper : Proper (Permutation ==> eq) sum_Z.
Proof. intros l k. apply sum_Z_perm. Qed.

Lemma sum_Z_elem l z : Forall (fun z => 0 <= z) l -> z ∈ l -> z <= sum_Z l.
Proof.
  unfold sum_Z. induction 1 as [|x l Hx Hl IH]; intros Hz; [by apply elem_of_nil in Hz|].
  apply sum_Z_nonneg in Hl. unfold sum_Z in Hl. simpl.
  apply elem_of_cons in Hz as [->|Hz]; [lia|]. specialize (IH Hz). lia.
Qed.

(** Decides a closed proposition by evaluation. *)
Ltac computed := apply (bool_decide_unpack _); vm_compute; exact I.
