(* ===== verification/TestKit.v ===== *)
(** * TestKit: the repository's own tests, on the model

    The unit tests beside the Rust code are replayed in the [...Tests] files: a
    test is a definition with the test's name, true when all its assertions
    hold, and a suite is proved by running it. A proptest is a [Prop] over all
    the inputs its strategies range over, and is proved. *)

From S2P Require Import Prelude.

Section Assertions.
Context {E A : Type}.

(** [assert_eq!(r.unwrap(), a)] *)
Definition yields `{EqDecision A} (r : result E A) (a : A) : bool :=
  match r with Ok x => bool_decide (x = a) | Err _ => false end.

(** [assert_eq!(r.unwrap_err(), e)] *)
Definition refused_with `{EqDecision E} (r : result E A) (e : E) : bool :=
  match r with Ok _ => false | Err x => bool_decide (x = e) end.

(** [assert!(r.is_err())] *)
Definition fails (r : result E A) : bool := negb (is_ok r).
End Assertions.

(** [assert_eq!(a, b)] *)
Definition same {A} `{EqDecision A} (a b : A) : bool := bool_decide (a = b).

(** All the tests of a suite pass. *)
Definition all_pass (tests : list bool) : bool := forallb (fun b => b) tests.

Ltac run_suite := vm_compute; reflexivity.
