(* ===== verification/Bytes.v ===== *)
(** * Bytes: byte strings, little-endian integers, keys

    What the three crates share below their own logic: byte slices with
    Rust's range indexing, [to_le_bytes]/[from_le_bytes], the byte-wise
    lexicographic order that [Ord] gives [Pubkey] and [[u8; 32]], and the
    base58 notation of program ids. *)

From Stdlib Require Import Ascii String.
From S2P Require Import Prelude.

Lemma byte_to_N_inj a b : Byte.to_N a = Byte.to_N b -> a = b.
Proof. intros H. apply (f_equal Byte.of_N) in H. rewrite !Byte.of_to_N in H. by injection H. Qed.

(** Through [N]: the derived decision procedure does not evaluate well. *)
#[export] Instance byte_eq_decision : EqDecision byte := fun a b =>
  match decide (Byte.to_N a = Byte.to_N b) with
  | left H => left (byte_to_N_inj a b H)
  | right H => right (fun E => H (f_equal Byte.to_N E))
  end.

#[export] Program Instance byte_countable : Countable byte :=
  inj_countable Byte.to_N Byte.of_N _.
Next Obligation. intros b. apply Byte.of_to_N. Qed.

(** ** Bytes as integers *)

Definition byte_Z (b : byte) : Z := Z.of_N (Byte.to_N b).
Definition Z_byte (z : Z) : byte := default x00 (Byte.of_N (Z.to_N (z mod 256))).

(** [z.to_le_bytes()] on [n] bytes. *)
Fixpoint le_bytes (n : nat) (z : Z) : list byte :=
  match n with
  | O => []
  | S n => Z_byte z :: le_bytes n (z / 256)
  end.

(** [from_le_bytes] (unsigned). *)
Fixpoint le_Z (l : list byte) : Z :=
  match l with
  | [] => 0
  | b :: l => byte_Z b + 256 * le_Z l
  end.

(** Two's complement reading of a [w]-bit pattern: [i64::from_le_bytes]. *)
Definition to_signed (w z : Z) : Z := if z <? 2 ^ (w - 1) then z else z - 2 ^ w.
Definition le_i64 (l : list byte) : Z := to_signed 64 (le_Z l).

(** [&d[off..off + len]]; the caller checks the range. *)
Definition slice {A} (off len : nat) (l : list A) : list A := take len (drop off l).

(** The byte at an index already checked to be in range. *)
Definition byte_at (l : list byte) (i : nat) : Z := byte_Z (nth i l x00).

(** [d[a..b] = v] (copy_from_slice). *)
Definition zeroes (n : nat) : list byte := replicate n x00.

Section ByteLemmas.
Lemma byte_Z_bound b : 0 <= byte_Z b < 256.
Proof.
  unfold byte_Z. assert (Byte.to_N b < 256)%N; [|lia].
  pose proof (Byte.to_N_bounded b). lia.
Qed.

Lemma byte_Z_Z_byte z : byte_Z (Z_byte z) = z mod 256.
Proof.
  unfold byte_Z, Z_byte.
  pose proof (Z.mod_pos_bound z 256 ltac:(lia)).
  destruct (Byte.of_N (Z.to_N (z mod 256))) as [b|] eqn:Hb; simpl.
  - apply Byte.to_of_N in Hb. lia.
  - apply Byte.of_N_None_iff in Hb. lia.
Qed.

Lemma Z_byte_byte_Z b : Z_byte (byte_Z b) = b.
Proof.
  unfold Z_byte. rewrite Z.mod_small by apply byte_Z_bound.
  unfold byte_Z. by rewrite N2Z.id, Byte.of_to_N.
Qed.

Lemma byte_Z_inj a b : byte_Z a = byte_Z b -> a = b.
Proof. intros H. by rewrite <- (Z_byte_byte_Z a), H, Z_byte_byte_Z. Qed.

Lemma le_bytes_length n z : length (le_bytes n z) = n.
Proof. revert z. induction n; intros; simpl; auto. Qed.

Lemma pow256_S (n : nat) : 2 ^ (8 * Z.of_nat (S n)) = 256 * 2 ^ (8 * Z.of_nat n).
Proof.
  rewrite Nat2Z.inj_succ, Z.mul_succ_r, Z.pow_add_r by lia.
  change (2 ^ 8) with 256. ring.
Qed.

Lemma le_Z_bound l : 0 <= le_Z l < 2 ^ (8 * Z.of_nat (length l)).
Proof.
  induction l as [|b l IH]; [simpl; lia|].
  cbn [length le_Z]. rewrite pow256_S. pose proof (byte_Z_bound b). lia.
Qed.

Lemma le_Z_le_bytes n z :
  le_Z (le_bytes n z) = z mod 2 ^ (8 * Z.of_nat n).
Proof.
  revert z. induction n as [|n IH]; intros z.
  { simpl. by rewrite Z.mod_1_r. }
  cbn [le_bytes le_Z]. rewrite IH, byte_Z_Z_byte, pow256_S.
  rewrite Z.rem_mul_r by lia. lia.
Qed.

Lemma le_bytes_le_Z l : le_bytes (length l) (le_Z l) = l.
Proof.
  induction l as [|b l IH]; [done|]. cbn [length le_bytes le_Z].
  pose proof (byte_Z_bound b).
  rewrite (Z.mul_comm 256), Z.div_add by lia.
  rewrite (Z.div_small (byte_Z b)) by lia. rewrite Z.add_0_l, IH. f_equal.
  apply byte_Z_inj. rewrite byte_Z_Z_byte, Z.mod_add by lia.
  by apply Z.mod_small.
Qed.

(** [from_le_bytes(to_le_bytes(z)) == z] on in-range values. *)
Lemma le_roundtrip (n : nat) w z :
  w = 8 * Z.of_nat n -> is_u w z -> le_Z (le_bytes n z) = z.
Proof. intros -> Hz. rewrite le_Z_le_bytes. by apply Z.mod_small. Qed.

Lemma le_bytes_inj n z z' :
  is_u (8 * Z.of_nat n) z -> is_u (8 * Z.of_nat n) z' ->
  le_bytes n z = le_bytes n z' -> z = z'.
Proof.
  intros ?? H. apply (f_equal le_Z) in H.
  by rewrite !(le_roundtrip _ (8 * Z.of_nat n)) in H.
Qed.

Lemma le_Z_is_u l w : w = 8 * Z.of_nat (length l) -> is_u w (le_Z l).
Proof. intros ->. apply le_Z_bound. Qed.

Lemma to_signed_bound w z : 0 < w -> is_u w z -> is_i w (to_signed w z).
Proof.
  unfold is_u, is_i, to_signed. intros.
  replace w with (1 + (w - 1)) in * by lia.
  rewrite Z.pow_add_r in * by lia. replace (1 + (w - 1) - 1) with (w - 1) in * by lia.
  destruct (Z.ltb_spec z (2 ^ (w - 1))); lia.
Qed.

(** [i64::from_le_bytes(i64::to_le_bytes(z)) == z]. *)
Lemma le_i64_roundtrip z : is_i64 z -> le_i64 (le_bytes 8 z) = z.
Proof.
  intros Hz. unfold le_i64. rewrite le_Z_le_bytes.
  change (8 * Z.of_nat 8) with 64. unfold to_signed. unfold_ints.
  destruct (Z.ltb_spec (z mod 18446744073709551616) 9223372036854775808); 
    pose proof (Z.div_mod z 18446744073709551616);
    pose proof (Z.mod_pos_bound z 18446744073709551616); lia.
Qed.
End ByteLemmas.

Section SliceLemmas.
Context {A : Type}.
Implicit Types l k : list A.

Lemma slice_length off len l :
  (off + len <= length l)%nat -> length (slice off len l) = len.
Proof. intros. unfold slice. rewrite length_take, length_drop. lia. Qed.

Lemma slice_length_le off len l : (length (slice off len l) <= len)%nat.
Proof. unfold slice. rewrite length_take. lia. Qed.

Lemma slice_app_l l k len : length l = len -> slice 0 len (l ++ k) = l.
Proof. intros <-. unfold slice. by rewrite drop_0, take_app_length. Qed.

Lemma slice_app_r l k off len :
  (length l <= off)%nat -> slice off len (l ++ k) = slice (off - length l) len k.
Proof. intros. unfold slice. by rewrite drop_app_ge. Qed.

Lemma slice_app_l' l k off len :
  (off + len <= length l)%nat -> slice off len (l ++ k) = slice off len l.
Proof.
  intros. unfold slice. rewrite drop_app_le by lia.
  rewrite take_app_le; [done|]. rewrite length_drop. lia.
Qed.

Lemma slice_slice a b c d l :
  (c + d <= b)%nat -> slice c d (slice a b l) = slice (a + c) d l.
Proof.
  intros. unfold slice. rewrite skipn_firstn_comm, take_take, drop_drop.
  f_equal. lia.
Qed.

(** A field: skip [l], take [x]. *)
Lemma slice_mid l x (r : list A) o n :
  length l = o -> length x = n -> slice o n (l ++ x ++ r) = x.
Proof.
  intros <- <-. rewrite slice_app_r by done. rewrite Nat.sub_diag. by apply slice_app_l.
Qed.

Lemma slice_end l x o n :
  length l = o -> length x = n -> slice o n (l ++ x) = x.
Proof. intros. rewrite <- (app_nil_r x) at 1. by apply slice_mid. Qed.

Lemma slice_full l : slice 0 (length l) l = l.
Proof. unfold slice. by rewrite drop_0, firstn_all. Qed.
End SliceLemmas.

(** ** Keys and their order *)

(** [Pubkey] and [[u8; 32]]: byte strings, of 32 bytes when well formed. *)
Definition Pubkey : Type := list byte.
Definition wf_key (k : list byte) : Prop := length k = 32%nat.

#[export] Instance wf_key_dec k : Decision (wf_key k).
Proof. unfold wf_key. apply _. Defined.

(** [Pubkey::default()] *)
Definition default_key : Pubkey := zeroes 32.

(** A key for examples. *)
Definition key_of (b : byte) : Pubkey := replicate 32 b.

(** Lexicographic [<] on byte strings: Rust's derived [Ord] of [[u8; 32]]. *)
Fixpoint bytes_ltb (a b : list byte) : bool :=
  match a, b with
  | _, [] => false
  | [], _ :: _ => true
  | x :: a, y :: b =>
      if byte_Z x <? byte_Z y then true
      else if byte_Z y <? byte_Z x then false else bytes_ltb a b
  end.
Definition bytes_lt (a b : list byte) : Prop := bytes_ltb a b = true.
Definition bytes_le (a b : list byte) : Prop := bytes_ltb b a = false.

#[export] Instance bytes_lt_dec : RelDecision bytes_lt.
Proof. intros a b. unfold bytes_lt. apply _. Defined.
#[export] Instance bytes_le_dec : RelDecision bytes_le.
Proof. intros a b. unfold bytes_le. apply _. Defined.

Section BytesOrder.
Lemma bytes_ltb_irrefl a : bytes_ltb a a = false.
Proof. induction a as [|x a IH]; simpl; [done|]. by rewrite Z.ltb_irrefl. Qed.

Lemma bytes_ltb_trans a b c :
  bytes_ltb a b = true -> bytes_ltb b c = true -> bytes_ltb a c = true.
Proof.
  revert b c. induction a as [|x a IH]; intros [|y b] [|z c]; simpl; try done.
  destruct (Z.ltb_spec (byte_Z x) (byte_Z y)), (Z.ltb_spec (byte_Z y) (byte_Z z)),
    (Z.ltb_spec (byte_Z x) (byte_Z z)), (Z.ltb_spec (byte_Z y) (byte_Z x)),
    (Z.ltb_spec (byte_Z z) (byte_Z y)), (Z.ltb_spec (byte_Z z) (byte_Z x));
    try done; try lia; eauto.
Qed.

Lemma bytes_ltb_trichotomy a b :
  bytes_ltb a b = false -> bytes_ltb b a = false -> a = b.
Proof.
  revert b. induction a as [|x a IH]; intros [|y b]; simpl; try done.
  destruct (Z.ltb_spec (byte_Z x) (byte_Z y)), (Z.ltb_spec (byte_Z y) (byte_Z x));
    try done; try lia.
  intros. f_equal; [|auto]. apply byte_Z_inj. lia.
Qed.

Lemma bytes_ltb_asymm a b : bytes_ltb a b = true -> bytes_ltb b a = false.
Proof.
  intros H. destruct (bytes_ltb b a) eqn:H'; [|done].
  by rewrite <- (bytes_ltb_irrefl a), (bytes_ltb_trans a b a).
Qed.

#[export] Instance bytes_lt_strict : StrictOrder bytes_lt.
Proof.
  split.
  - intros a. unfold complement, bytes_lt. by rewrite bytes_ltb_irrefl.
  - intros a b c. apply bytes_ltb_trans.
Qed.

#[export] Instance bytes_le_refl : Reflexive bytes_le.
Proof. intros a. apply bytes_ltb_irrefl. Qed.

#[export] Instance bytes_le_trans : Transitive bytes_le.
Proof.
  unfold bytes_le. intros a b c Hab Hbc.
  destruct (bytes_ltb c a) eqn:Hca; [|done].
  destruct (bytes_ltb a b) eqn:Hab'.
  - by rewrite (bytes_ltb_trans c a b) in Hbc.
  - by rewrite (bytes_ltb_trichotomy a b), Hbc in Hca.
Qed.

#[export] Instance bytes_le_antisymm : AntiSymm (=) bytes_le.
Proof. intros a b ??. by apply bytes_ltb_trichotomy. Qed.

#[export] Instance bytes_le_total : Total bytes_le.
Proof.
  intros a b. unfold bytes_le. destruct (bytes_ltb b a) eqn:H; [|by left].
  right. by apply bytes_ltb_asymm.
Qed.

Lemma bytes_lt_le a b : bytes_lt a b -> bytes_le a b.
Proof. apply bytes_ltb_asymm. Qed.

Lemma bytes_lt_ne a b : bytes_lt a b -> a <> b.
Proof. intros H ->. by apply irreflexivity in H; [|apply _]. Qed.

Lemma bytes_le_lt_eq a b : bytes_le a b -> a <> b -> bytes_lt a b.
Proof.
  unfold bytes_le, bytes_lt. intros. destruct (bytes_ltb a b) eqn:H'; [done|].
  by destruct (bytes_ltb_trichotomy a b).
Qed.
End BytesOrder.

(** ** [pubkey!("...")]: base58 *)

Definition base58_alphabet : string :=
  "123456789ABCDEFGHJKLMNPQRSTUVWXYZabcdefghijkmnopqrstuvwxyz"%string.

Fixpoint string_index (c : ascii) (s : string) (i : Z) : option Z :=
  match s with
  | EmptyString => None
  | String c' s => if Ascii.eqb c c' then Some i else string_index c s (i + 1)
  end.

Fixpoint base58_Z (s : string) (acc : Z) : option Z :=
  match s with
  | EmptyString => Some acc
  | String c s =>
      d ← string_index c base58_alphabet 0; base58_Z s (acc * 58 + d)
  end.

(** The 32 big-endian bytes a base58 program id stands for. *)
Definition pubkey (s : string) : Pubkey :=
  match base58_Z s 0 with
  | Some z => reverse (le_bytes 32 z)
  | None => []
  end.

Lemma default_key_wf : wf_key default_key.
Proof. reflexivity. Qed.

Create HintDb gy discriminated.
#[export] Hint Resolve default_key_wf byte_Z_bound le_bytes_length : gy.
#[export] Hint Rewrite le_bytes_length @length_app @length_take @length_drop : gy_len.

(** ** Cutting and reading slices *)

Section SliceSplit.
Context {A : Type}.
Implicit Types l : list A.

Lemma slice_split o a b l : slice o (a + b) l = slice o a l ++ slice (o + a) b l.
Proof.
  unfold slice. rewrite <- (take_drop a (take (a + b) (drop o l))).
  f_equal.
  - rewrite take_take. f_equal. lia.
  - rewrite skipn_firstn_comm, drop_drop. f_equal. lia.
Qed.

(** A slice is a concatenation exactly when its two parts are. *)
Lemma slice_app_iff o n a l x y :
  length x = a -> (a <= n)%nat -> (o + n <= length l)%nat ->
  slice o n l = x ++ y <-> slice o a l = x /\ slice (o + a) (n - a) l = y.
Proof.
  intros Hx Ha Hn. replace n with (a + (n - a))%nat at 1 by lia. rewrite slice_split.
  split; [|by intros [-> ->]].
  intros H. apply app_inj_1 in H; [done|]. rewrite slice_length; [done|lia].
Qed.
End SliceSplit.

(** [d.len()] *)
Definition len_Z {A} (l : list A) : Z := Z.of_nat (length l).

(** [u16::from_le_bytes([d[i], d[i + 1]])] *)
Definition u16_at (d : list byte) (i : nat) : Z := byte_at d i + 256 * byte_at d (S i).

Lemma u16_at_slice d i : (i + 2 <= length d)%nat -> u16_at d i = le_Z (slice i 2 d).
Proof.
  intros H. unfold u16_at, byte_at, slice.
  destruct (drop i d) as [|x [|y l]] eqn:Hd;
    try (apply (f_equal length) in Hd; rewrite length_drop in Hd; simpl in Hd; lia).
  assert (Hx : d !! i = Some x) by (rewrite <- (Nat.add_0_r i), <- lookup_drop, Hd; done).
  assert (Hy : d !! S i = Some y) by (rewrite <- Nat.add_1_r, <- lookup_drop, Hd; done).
  rewrite !nth_lookup, Hx, Hy. simpl. lia.
Qed.

(** A 16-bit field holds [v] exactly when its two bytes are [v]'s. *)
Lemma u16_at_eq d i v :
  is_u16 v -> (i + 2 <= length d)%nat ->
  u16_at d i = v <-> slice i 2 d = le_bytes 2 v.
Proof.
  intros Hv Hi. rewrite u16_at_slice by done. split.
  - intros <-. rewrite <- (slice_length i 2 d) at 2 by done. by rewrite le_bytes_le_Z.
  - intros ->. by apply (le_roundtrip 2 16).
Qed.

Lemma u16_at_is_u d i : is_u16 (u16_at d i).
Proof.
  unfold u16_at, byte_at. pose proof (byte_Z_bound (nth i d x00)).
  pose proof (byte_Z_bound (nth (S i) d x00)). ints.
Qed.
