(* ===== verification/Solana.v ===== *)
(** * Solana: what the runtime hands to a program

    The data the two on-chain programs read from their environment: account
    infos, instructions, the clock, the instructions sysvar and the PDA
    derivation. None of it is code of this repository, so everything that
    computes is a parameter (a field of a record or a class method); only the
    data shapes and the documented failure kinds are fixed here. *)

From Stdlib Require Import Ascii String.
From S2P Require Import Prelude Bytes.

(** ** Accounts, instructions, clock *)

(** [AccountInfo], the fields the programs read. *)
Record AccountInfo := mkAccountInfo {
  ai_key : Pubkey;
  ai_lamports : Z;
  ai_data : list byte;
  ai_owner : Pubkey;
  ai_executable : bool;
}.

Record AccountMeta := mkAccountMeta {
  am_pubkey : Pubkey;
  am_is_signer : bool;
  am_is_writable : bool;
}.

Record Instruction := mkInstruction {
  ix_program_id : Pubkey;
  ix_accounts : list AccountMeta;
  ix_data : list byte;
}.

(** [Clock] sysvar, the fields the programs read. *)
Record Clock := mkClock {
  clock_slot : Z;
  clock_epoch : Z;
  clock_unix_timestamp : Z;
}.

Record wf_clock (c : Clock) : Prop := {
  wf_clock_slot : is_u64 (clock_slot c);
  wf_clock_epoch : is_u64 (clock_epoch c);
  wf_clock_ts : is_i64 (clock_unix_timestamp c);
}.

#[export] Instance AccountMeta_eq_dec : EqDecision AccountMeta.
Proof. solve_decision. Defined.
#[export] Instance Instruction_eq_dec : EqDecision Instruction.
Proof. solve_decision. Defined.

(** ** The instructions sysvar

    [load_current_index_checked] and [load_instruction_at_checked] are the
    runtime's; [None] is their error. *)
Record InstructionsSysvar := mkInstructionsSysvar {
  isv_current_index : option Z;
  isv_instruction_at : Z -> option Instruction;
}.

(** The sysvar the runtime builds for the transaction with top-level
    instructions [ixs] while the [idx]-th of them executes. *)
Definition sysvar_of_tx (ixs : list Instruction) (idx : nat) : InstructionsSysvar := {|
  isv_current_index := Some (Z.of_nat idx);
  isv_instruction_at i := if i <? 0 then None else ixs !! Z.to_nat i;
|}.

(** ** Program-derived addresses

    [Pubkey::find_program_address seeds program] and its bump: a function of
    the runtime the programs only call. *)
Class PdaDerivation :=
  find_program_address : list (list byte) -> Pubkey -> Pubkey * Z.

(** ** Failures of a transaction

    A handler fails with one of its program's error codes or with one of the
    failures Anchor's account constraints (and the checked build) produce
    before or around it. *)
Inductive framework_error : Type :=
| AccountAlreadyInUse     (* [init] on an existing PDA *)
| AccountNotInitialized   (* [Account<T>] on a missing PDA *)
| AccountNotSigner
| ConstraintSeeds
| ConstraintAddress
| ConstraintToken         (* token mint / authority constraints *)
| InvalidProgramId
| CpiFailed               (* an error returned by the invoked program *)
| ArithmeticPanic.        (* overflow-checks = true *)

Inductive tx_error (E : Type) : Type :=
| Program (e : E)
| Framework (f : framework_error).
Arguments Program {E} e.
Arguments Framework {E} f.

#[export] Instance framework_error_eq_dec : EqDecision framework_error.
Proof. solve_decision. Defined.
#[export] Instance tx_error_eq_dec E `{EqDecision E} : EqDecision (tx_error E).
Proof. solve_decision. Defined.

(** Lifts a program-level result into a handler. *)
Definition prog {E A} (r : result E A) : result (tx_error E) A := map_err Program r.

Lemma prog_Ok {E A} (r : result E A) a : prog r = Ok a <-> r = Ok a.
Proof. destruct r; simpl; naive_solver. Qed.

Lemma prog_Err {E A} (r : result E A) (e : tx_error E) :
  prog r = Err e <-> exists e', r = Err e' /\ e = Program e'.
Proof. destruct r; simpl; naive_solver. Qed.

(** A transaction that fails leaves the state as it was. *)
Definition commit {E S A} (st : S) (r : result E (S * A)) : S :=
  match r with Ok (st', _) => st' | Err _ => st end.

(** ** Well-known program ids *)

Definition SPL_TOKEN_ID : Pubkey :=
  Eval vm_compute in pubkey "TokenkegQfeZyiNwAJbNbGKPFXCWuBvf9Ss623VQ5DA".
Definition WSOL_MINT : Pubkey :=
  Eval vm_compute in pubkey "So11111111111111111111111111111111111111112".
