(* ===== verification/Criteria.v ===== *)
(** * Criteria: the six derelict-pool criteria

    [programs/grave-scanner/src/criteria.rs]: the pure evaluator both phases
    of [evaluate_pool] call, together with the program's error enum
    ([errors.rs]) and locked thresholds ([constants.rs]) it reads. *)

From S2P Require Import Prelude Bytes Solana.

(** ** errors.rs *)

Inductive GraveScannerError : Type :=
| Unauthorized
| PoolNotEligible
| LaunchPriceNotFound
| UnsupportedAmm
| MathOverflow
| InvalidClock
| InvariantViolation
| AmmAdapterUnimplemented
| LockerAdapterUnimplemented
| PoolDataParseError
| ProtocolPaused
| CriteriaBitmapMismatch
| AnchorNotFound
| EpochConfirmationPending
| AnchorInvalidated
| AnchorNotStale
| CertTtlBelowMinimum
| LockerMarkerAccountRequired
| LockerLockEvidenceRequired
| InvalidLockerAccount
| LockerAccountMismatch
| AttestationMissing
| InvalidAttestationOffsets
| AttestationOracleMismatch
| AttestationBindingMismatch
| AttestationTimestampInvalid
| AttestationStale
| AttestationSlotHashMismatch
| AttestationSlotInvalid
| InvalidLaunchPrice
| LaunchPriceMintMismatch
| CertStillValid.

#[export] Instance GraveScannerError_eq_dec : EqDecision GraveScannerError.
Proof. solve_decision. Defined.

(** The discriminants; Anchor adds [ERROR_CODE_OFFSET] = 6000. *)
Definition scanner_discriminant (e : GraveScannerError) : Z :=
  match e with
  | Unauthorized => 0 | PoolNotEligible => 1 | LaunchPriceNotFound => 2
  | UnsupportedAmm => 3 | MathOverflow => 4 | InvalidClock => 5
  | InvariantViolation => 6 | AmmAdapterUnimplemented => 7
  | LockerAdapterUnimplemented => 8 | PoolDataParseError => 9
  | ProtocolPaused => 10 | CriteriaBitmapMismatch => 11
  | AnchorNotFound => 15 | EpochConfirmationPending => 16
  | AnchorInvalidated => 17 | AnchorNotStale => 18 | CertTtlBelowMinimum => 19
  | LockerMarkerAccountRequired => 20 | LockerLockEvidenceRequired => 21
  | InvalidLockerAccount => 22 | LockerAccountMismatch => 23
  | AttestationMissing => 24 | InvalidAttestationOffsets => 25
  | AttestationOracleMismatch => 26 | AttestationBindingMismatch => 27
  | AttestationTimestampInvalid => 28 | AttestationStale => 29
  | AttestationSlotHashMismatch => 30 | AttestationSlotInvalid => 31
  | InvalidLaunchPrice => 32 | LaunchPriceMintMismatch => 33
  | CertStillValid => 34
  end.
Definition scanner_error_code (e : GraveScannerError) : Z := 6000 + scanner_discriminant e.

(** ** constants.rs *)

Definition DEFAULT_INACTIVITY_SECONDS : Z := 90 * 24 * 60 * 60.
Definition DEFAULT_PRICE_COLLAPSE_BPS : Z := 9900.
Definition DEFAULT_MIN_TVL_LAMPORTS : Z := 500000000.
Definition MIN_EPOCH_CONFIRMATION : Z := 2.
Definition DEFAULT_LP_BURN_DUST_THRESHOLD : Z := 1000.
Definition DEFAULT_ANCHOR_STALENESS_SECONDS : Z := 14 * 24 * 60 * 60.
Definition DEFAULT_CERT_TTL_SECONDS : Z := 60 * 60.
Definition MIN_CERT_TTL_SECONDS : Z := 600.
Definition APPROX_EPOCH_DURATION_SECONDS : Z := 2 * 24 * 60 * 60.
Definition MIN_ANCHOR_STALENESS_SECONDS : Z :=
  (MIN_EPOCH_CONFIRMATION + 1) * APPROX_EPOCH_DURATION_SECONDS.

(** ** The bitmap *)

Definition CRITERION_INACTIVITY : Z := Z.shiftl 1 0.
Definition CRITERION_PRICE_COLLAPSE : Z := Z.shiftl 1 1.
Definition CRITERION_MIN_TVL : Z := Z.shiftl 1 2.
Definition CRITERION_LP_NOT_BURNED : Z := Z.shiftl 1 3.
Definition CRITERION_NO_LOCK : Z := Z.shiftl 1 4.
Definition CRITERION_EPOCH_CONFIRMED : Z := Z.shiftl 1 5.

Definition ALL_CRITERIA_MASK : Z :=
  Z.lor (Z.lor (Z.lor (Z.lor (Z.lor CRITERION_INACTIVITY CRITERION_PRICE_COLLAPSE)
    CRITERION_MIN_TVL) CRITERION_LP_NOT_BURNED) CRITERION_NO_LOCK)
    CRITERION_EPOCH_CONFIRMED.

(** ** Inputs, thresholds, phase *)

Record CriteriaInputs := mkCriteriaInputs {
  last_swap_unix_ts : Z;             (* i64 *)
  current_unix_ts : Z;               (* i64 *)
  launch_price_q64x64 : Z;           (* u128 *)
  current_price_q64x64 : Z;          (* u128 *)
  current_tvl_lamports : Z;          (* u64 *)
  lp_supply : Z;                     (* u64 *)
  lp_locked_amount : Z;              (* u64 *)
  current_epoch : Z;                 (* u64 *)
  anchor_first_eligible_epoch : option Z;
}.

Record CriteriaThresholds := mkCriteriaThresholds {
  inactivity_seconds : Z;            (* u64 *)
  price_collapse_bps : Z;            (* u16 *)
  min_tvl_lamports : Z;              (* u64 *)
  lp_burn_dust_threshold : Z;        (* u64 *)
}.

Inductive Phase := One | Two.

Record wf_inputs (i : CriteriaInputs) : Prop := {
  wf_last_swap : is_i64 (last_swap_unix_ts i);
  wf_current : is_i64 (current_unix_ts i);
  wf_launch : is_u128 (launch_price_q64x64 i);
  wf_price : is_u128 (current_price_q64x64 i);
  wf_tvl : is_u64 (current_tvl_lamports i);
  wf_lp_supply : is_u64 (lp_supply i);
  wf_lp_locked : is_u64 (lp_locked_amount i);
  wf_epoch : is_u64 (current_epoch i);
}.

(** ** Evaluator *)

Definition compute_drop_bps (launch_q64x64 current_q64x64 : Z)
    : result GraveScannerError Z :=
  if launch_q64x64 <=? current_q64x64 then Ok 0
  else
    delta ← ok_or (checked_sub_u 128 launch_q64x64 current_q64x64) MathOverflow;
    scaled ← ok_or (checked_mul_u 128 delta 10000) MathOverflow;
    bps ← ok_or (checked_div_u scaled launch_q64x64) MathOverflow;
    mret (if 10000 <? bps then 10000 else cast_u 16 bps).

Definition evaluate (inputs : CriteriaInputs) (thresholds : CriteriaThresholds)
    (phase : Phase) : result GraveScannerError Z :=
  let bitmap := 0 in
  (* Criterion 1 - inactivity. *)
  require (last_swap_unix_ts inputs <=? current_unix_ts inputs) InvalidClock;;
  elapsed ← ok_or (checked_sub_i 128 (current_unix_ts inputs) (last_swap_unix_ts inputs))
              MathOverflow;
  let elapsed_seconds := cast_u 128 elapsed in
  require (inactivity_seconds thresholds <=? elapsed_seconds) PoolNotEligible;;
  let bitmap := Z.lor bitmap CRITERION_INACTIVITY in
  (* Criterion 2 - price collapse. *)
  require (0 <? launch_price_q64x64 inputs) LaunchPriceNotFound;;
  drop_bps ← compute_drop_bps (launch_price_q64x64 inputs) (current_price_q64x64 inputs);
  require (price_collapse_bps thresholds <=? drop_bps) PoolNotEligible;;
  let bitmap := Z.lor bitmap CRITERION_PRICE_COLLAPSE in
  (* Criterion 3 - residual TVL. *)
  require (min_tvl_lamports thresholds <=? current_tvl_lamports inputs) PoolNotEligible;;
  let bitmap := Z.lor bitmap CRITERION_MIN_TVL in
  (* Criterion 4 - LP supply not burned to dust. *)
  require (lp_burn_dust_threshold thresholds <? lp_supply inputs) PoolNotEligible;;
  let bitmap := Z.lor bitmap CRITERION_LP_NOT_BURNED in
  (* Criterion 5 - no LP tokens locked. *)
  require (lp_locked_amount inputs =? 0) PoolNotEligible;;
  let bitmap := Z.lor bitmap CRITERION_NO_LOCK in
  (* Criterion 6 - multi-epoch confirmation. *)
  bitmap ←
    match phase with
    | One => mret (Z.lor bitmap CRITERION_EPOCH_CONFIRMED)
    | Two =>
        anchor_epoch ← ok_or (anchor_first_eligible_epoch inputs) AnchorNotFound;
        let elapsed_epochs := saturating_sub_u (current_epoch inputs) anchor_epoch in
        require (MIN_EPOCH_CONFIRMATION <=? elapsed_epochs) EpochConfirmationPending;;
        mret (Z.lor bitmap CRITERION_EPOCH_CONFIRMED)
    end;
  require (bitmap =? ALL_CRITERIA_MASK) PoolNotEligible;;
  mret bitmap.

(** ** Specification

    A pool is derelict when the six facts hold, in plain arithmetic. *)

Definition price_collapsed (launch current bps : Z) : Prop :=
  bps * launch <= (launch - current) * 10000 \/ bps <= 0.

Record derelict (i : CriteriaInputs) (t : CriteriaThresholds) (ph : Phase) : Prop := {
  d_inactive : last_swap_unix_ts i + inactivity_seconds t <= current_unix_ts i;
  d_clock : last_swap_unix_ts i <= current_unix_ts i;
  d_launch : 0 < launch_price_q64x64 i;
  d_collapsed :
    price_collapsed (launch_price_q64x64 i) (current_price_q64x64 i) (price_collapse_bps t);
  d_tvl : min_tvl_lamports t <= current_tvl_lamports i;
  d_supply : lp_burn_dust_threshold t < lp_supply i;
  d_unlocked : lp_locked_amount i = 0;
  d_confirmed : ph = Two ->
    exists e, anchor_first_eligible_epoch i = Some e /\
      e + MIN_EPOCH_CONFIRMATION <= current_epoch i;
}.

(** The drop computation does not overflow [u128]. *)
Definition drop_fits (launch current : Z) : Prop :=
  launch <= current \/ (launch - current) * 10000 < 2 ^ 128.

Section DropLemmas.
Variables launch current : Z.
Hypothesis Hl : is_u128 launch.
Hypothesis Hc : is_u128 current.

Lemma compute_drop_bps_floated : launch <= current -> compute_drop_bps launch current = Ok 0.
Proof. intros H. unfold compute_drop_bps. by rewrite (proj2 (Z.leb_le _ _) H). Qed.

(** Below launch the function is the floor of the drop, or an overflow. *)
Lemma compute_drop_bps_fallen :
  current < launch ->
  compute_drop_bps launch current =
    if (launch - current) * 10000 <? 2 ^ 128
    then Ok ((launch - current) * 10000 / launch) else Err MathOverflow.
Proof.
  intros H. unfold compute_drop_bps. rewrite (proj2 (Z.leb_gt _ _) H).
  unfold checked_sub_u. rewrite (proj2 (in_u_spec 128 _)) by ints. simpl.
  unfold checked_mul_u.
  destruct (Z.ltb_spec ((launch - current) * 10000) (2 ^ 128)) as [Hlt|Hge].
  - rewrite (proj2 (in_u_spec 128 _)) by ints. simpl.
    unfold checked_div_u. destruct (Z.eqb_spec launch 0); [ints|]. simpl.
    assert (Hb : 0 <= (launch - current) * 10000 / launch <= 10000).
    { split; [apply Z.div_pos; ints|]. apply Z.div_le_upper_bound; ints. }
    destruct (Z.ltb_spec 10000 ((launch - current) * 10000 / launch)); [lia|].
    rewrite cast_u_small; [done|]. ints.
  - destruct (in_u 128 _) eqn:Hin; [|done]. apply in_u_spec in Hin. unfold is_u in Hin. lia.
Qed.

Lemma compute_drop_bps_Ok_iff :
  (exists b, compute_drop_bps launch current = Ok b) <-> drop_fits launch current.
Proof.
  unfold drop_fits. destruct (Z.le_gt_cases launch current) as [H|H].
  - rewrite compute_drop_bps_floated by done. naive_solver.
  - rewrite compute_drop_bps_fallen by lia.
    destruct (Z.ltb_spec ((launch - current) * 10000) (2 ^ 128)); [naive_solver|].
    split; [intros [? [=]]|]. lia.
Qed.

Lemma compute_drop_bps_threshold b bps :
  0 < launch -> compute_drop_bps launch current = Ok b ->
  (bps <= b <-> price_collapsed launch current bps).
Proof.
  intros Hpos. unfold price_collapsed. destruct (Z.le_gt_cases launch current) as [H|H].
  - rewrite compute_drop_bps_floated by done. intros [= <-]. split; [lia|]. intros [?|?]; nia.
  - rewrite compute_drop_bps_fallen by lia.
    destruct (_ <? _); [|done]. intros [= <-].
    split.
    + intros Hb. left. pose proof (Z.mul_div_le ((launch - current) * 10000) launch Hpos). nia.
    + intros [Hb|Hb].
      * apply Z.div_le_lower_bound; [done|]. lia.
      * pose proof (Z.div_pos ((launch - current) * 10000) launch). lia.
Qed.
End DropLemmas.

(** [compute_drop_bps] never exceeds 100%, returns exactly
    [floor((launch - current) * 10_000 / launch)] on a fall and 0 on a
    re-float, and fails (with [MathOverflow]) exactly when the scaled
    difference does not fit [u128]. *)
Theorem compute_drop_bps_spec launch current :
  is_u128 launch -> is_u128 current ->
  match compute_drop_bps launch current with
  | Ok b =>
      0 <= b <= 10000 /\ drop_fits launch current /\
      b = if launch <=? current then 0 else (launch - current) * 10000 / launch
  | Err e => e = MathOverflow /\ ~ drop_fits launch current
  end.
Proof.
  intros Hl Hc. pose proof (compute_drop_bps_Ok_iff _ _ Hl Hc) as Hiff.
  destruct (Z.le_gt_cases launch current) as [H|H].
  - rewrite (proj2 (Z.leb_le _ _) H), compute_drop_bps_floated in * by done.
    naive_solver lia.
  - rewrite (proj2 (Z.leb_gt _ _) H). rewrite compute_drop_bps_fallen in * by done.
    destruct (_ <? _); [|naive_solver].
    split; [|naive_solver]. split.
    + apply Z.div_pos; ints.
    + apply Z.div_le_upper_bound; ints.
Qed.

Example compute_drop_bps_spec_witness :
  is_u128 1000 /\ is_u128 7 /\ compute_drop_bps 1000 7 = Ok 9930 /\ drop_fits 1000 7.
Proof.
  assert (H1 : is_u128 1000) by ints. assert (H2 : is_u128 7) by ints.
  split_and!; [done..|].
  pose proof (compute_drop_bps_spec 1000 7 H1 H2) as H.
  vm_compute compute_drop_bps in H. apply H.
Defined.

Section Evaluate.
Variables (i : CriteriaInputs) (t : CriteriaThresholds) (ph : Phase).
Hypothesis Hi : wf_inputs i.

Lemma evaluate_elapsed :
  last_swap_unix_ts i <= current_unix_ts i ->
  checked_sub_i 128 (current_unix_ts i) (last_swap_unix_ts i) =
    Some (current_unix_ts i - last_swap_unix_ts i) /\
  cast_u 128 (current_unix_ts i - last_swap_unix_ts i) =
    current_unix_ts i - last_swap_unix_ts i.
Proof.
  destruct Hi. intros. split.
  - unfold checked_sub_i. rewrite (proj2 (in_i_spec 128 _)); [done|]. ints.
  - apply cast_u_small. ints.
Qed.

(** The evaluator with its arithmetic discharged: a cascade of guards. *)
Lemma evaluate_guards :
  evaluate i t ph =
    (require (last_swap_unix_ts i <=? current_unix_ts i) InvalidClock;;
     require (inactivity_seconds t <=? current_unix_ts i - last_swap_unix_ts i) PoolNotEligible;;
     require (0 <? launch_price_q64x64 i) LaunchPriceNotFound;;
     drop_bps ← compute_drop_bps (launch_price_q64x64 i) (current_price_q64x64 i);
     require (price_collapse_bps t <=? drop_bps) PoolNotEligible;;
     require (min_tvl_lamports t <=? current_tvl_lamports i) PoolNotEligible;;
     require (lp_burn_dust_threshold t <? lp_supply i) PoolNotEligible;;
     require (lp_locked_amount i =? 0) PoolNotEligible;;
     match ph with
     | One => Ok ALL_CRITERIA_MASK
     | Two =>
         e ← ok_or (anchor_first_eligible_epoch i) AnchorNotFound;
         require (MIN_EPOCH_CONFIRMATION <=? saturating_sub_u (current_epoch i) e)
           EpochConfirmationPending;;
         Ok ALL_CRITERIA_MASK
     end).
Proof.
  unfold evaluate.
  destruct (Z.leb_spec (last_swap_unix_ts i) (current_unix_ts i)) as [Hts|]; [|done].
  destruct (evaluate_elapsed Hts) as [-> He]. simpl. rewrite He.
  destruct (_ <=? _); [simpl|done]. destruct (_ <? _); [simpl|done].
  destruct (compute_drop_bps _ _); [simpl|done].
  destruct (_ <=? _); [simpl|done]. destruct (_ <=? _); [simpl|done].
  destruct (_ <? _); [simpl|done]. destruct (_ =? 0); [simpl|done].
  destruct ph; [done|].
  destruct (anchor_first_eligible_epoch i); [simpl|done].
  by destruct (_ <=? _).
Qed.

Lemma evaluate_Ok_mask b : evaluate i t ph = Ok b -> b = ALL_CRITERIA_MASK.
Proof.
  rewrite evaluate_guards. intros H. res_inv H. destruct ph; [by res_inv H|].
  res_inv H. done.
Qed.

Lemma evaluate_derelict_iff :
  is_ok (evaluate i t ph) = true <->
  derelict i t ph /\ drop_fits (launch_price_q64x64 i) (current_price_q64x64 i).
Proof.
  rewrite evaluate_guards, is_ok_true. split.
  - intros [b H]. res_inv H. bool_simpl.
    pose proof (compute_drop_bps_Ok_iff _ _ (wf_launch _ Hi) (wf_price _ Hi)) as Hfit.
    split; [|apply Hfit; eauto]. constructor; try lia.
    + eapply compute_drop_bps_threshold; eauto using wf_launch, wf_price.
    + intros ->. res_inv H. unfold saturating_sub_u in *. bool_simpl.
      eexists; split; [done|]. unfold MIN_EPOCH_CONFIRMATION in *. lia.
  - intros [[] Hfit].
    apply compute_drop_bps_Ok_iff in Hfit as [d Hd]; eauto using wf_launch, wf_price.
    eapply compute_drop_bps_threshold in d_collapsed0;
      eauto using wf_launch, wf_price.
    rewrite Hd. exists ALL_CRITERIA_MASK.
    repeat (apply bind_Ok; eexists; split; [by (apply require_true; bool_goal; lia)|]).
    apply bind_Ok; eexists; split; [done|].
    repeat (apply bind_Ok; eexists; split; [by (apply require_true; bool_goal; lia)|]).
    destruct ph; [done|]. destruct d_confirmed0 as (e & -> & He); [done|]. simpl.
    rewrite require_true; [done|].
    unfold saturating_sub_u, MIN_EPOCH_CONFIRMATION in *. bool_goal. lia.
Qed.
End Evaluate.

(** C22. The evaluator accepts a pool exactly when it is derelict in the plain
    arithmetic sense (and the drop fits [u128]); it then always reports the
    full six-bit mask. *)
Theorem evaluate_iff_derelict i t ph b :
  wf_inputs i ->
  evaluate i t ph = Ok b <->
    b = ALL_CRITERIA_MASK /\ derelict i t ph /\
    drop_fits (launch_price_q64x64 i) (current_price_q64x64 i).
Proof.
  intros Hi. rewrite <- evaluate_derelict_iff, is_ok_true by done. split.
  - intros H. split; [by eapply evaluate_Ok_mask|eauto].
  - intros [-> [b' H]]. by rewrite H, (evaluate_Ok_mask _ _ _ Hi _ H).
Qed.

Definition sample_inputs : CriteriaInputs :=
  mkCriteriaInputs 0 8640000 (2 ^ 64) (2 ^ 56) 1000000000 1000000 0 1000 (Some 998).
Definition sample_thresholds : CriteriaThresholds :=
  mkCriteriaThresholds DEFAULT_INACTIVITY_SECONDS DEFAULT_PRICE_COLLAPSE_BPS
    DEFAULT_MIN_TVL_LAMPORTS DEFAULT_LP_BURN_DUST_THRESHOLD.

Example evaluate_iff_derelict_witness :
  wf_inputs sample_inputs /\ derelict sample_inputs sample_thresholds Two.
Proof.
  assert (Hw : wf_inputs sample_inputs) by (constructor; simpl; ints).
  split; [done|].
  apply (evaluate_iff_derelict sample_inputs sample_thresholds Two 63 Hw).
  vm_compute. reflexivity.
Defined.
