(* ===== verification/CriteriaTests.v ===== *)
(** * CriteriaTests: the tests of criteria.rs

    [programs/grave-scanner/src/criteria.rs], modules [tests],
    [adversary_tests] and [proptests]. *)

From S2P Require Import Prelude TestKit Bytes Solana Criteria.

(** ** Fixtures *)

Definition default_thresholds : CriteriaThresholds := mkCriteriaThresholds (90 * 24 * 60 * 60) 9900 500000000 1000.

Definition passing_inputs : CriteriaInputs := {|
  last_swap_unix_ts := 0;
  current_unix_ts := 100 * 24 * 60 * 60;
  launch_price_q64x64 := Z.shiftl 1 64;
  current_price_q64x64 := Z.shiftl 1 56;
  current_tvl_lamports := 1000000000;
  lp_supply := 1000000;
  lp_locked_amount := 0;
  current_epoch := 1000;
  anchor_first_eligible_epoch := Some 998;
|}.

(** Field assignments. *)
Definition set_last_swap v i := mkCriteriaInputs v (current_unix_ts i) (launch_price_q64x64 i)
  (current_price_q64x64 i) (current_tvl_lamports i) (lp_supply i) (lp_locked_amount i) (current_epoch i)
  (anchor_first_eligible_epoch i).
Definition set_prices l c i := mkCriteriaInputs (last_swap_unix_ts i) (current_unix_ts i) l c
  (current_tvl_lamports i) (lp_supply i) (lp_locked_amount i) (current_epoch i) (anchor_first_eligible_epoch i).
Definition set_current_price v i := set_prices (launch_price_q64x64 i) v i.
Definition set_launch v i := set_prices v (current_price_q64x64 i) i.
Definition set_tvl v i := mkCriteriaInputs (last_swap_unix_ts i) (current_unix_ts i) (launch_price_q64x64 i)
  (current_price_q64x64 i) v (lp_supply i) (lp_locked_amount i) (current_epoch i) (anchor_first_eligible_epoch i).
Definition set_supply v i := mkCriteriaInputs (last_swap_unix_ts i) (current_unix_ts i) (launch_price_q64x64 i)
  (current_price_q64x64 i) (current_tvl_lamports i) v (lp_locked_amount i) (current_epoch i)
  (anchor_first_eligible_epoch i).
Definition set_locked v i := mkCriteriaInputs (last_swap_unix_ts i) (current_unix_ts i) (launch_price_q64x64 i)
  (current_price_q64x64 i) (current_tvl_lamports i) (lp_supply i) v (current_epoch i) (anchor_first_eligible_epoch i).
Definition set_epochs e a i := mkCriteriaInputs (last_swap_unix_ts i) (current_unix_ts i) (launch_price_q64x64 i)
  (current_price_q64x64 i) (current_tvl_lamports i) (lp_supply i) (lp_locked_amount i) e a.

Definition one (i : CriteriaInputs) := evaluate i default_thresholds One.
Definition two (i : CriteriaInputs) := evaluate i default_thresholds Two.
Definition u128_max : Z := u_max 128.

(** ** [mod tests] *)

Definition evaluate_phase_one_all_pass_returns_full_mask : bool :=
  yields (one passing_inputs) ALL_CRITERIA_MASK && yields (one passing_inputs) 63.
Definition evaluate_phase_two_with_sufficient_epoch_gap_passes : bool :=
  yields (two passing_inputs) ALL_CRITERIA_MASK.
Definition criterion_one_rejects_recently_active_pool : bool :=
  let i := set_last_swap (current_unix_ts passing_inputs - 10 * 24 * 60 * 60) passing_inputs in
  refused_with (one i) PoolNotEligible.
Definition criterion_two_rejects_pool_below_collapse_threshold : bool :=
  fails (one (set_current_price (launch_price_q64x64 passing_inputs / 2) passing_inputs)).
Definition criterion_two_treats_floor_at_zero_as_full_drop : bool :=
  yields (one (set_current_price 0 passing_inputs)) ALL_CRITERIA_MASK.
Definition criterion_two_rejects_pool_that_re_floated : bool :=
  fails (one (set_current_price (launch_price_q64x64 passing_inputs * 2) passing_inputs)).
Definition criterion_two_rejects_zero_launch_price : bool :=
  refused_with (one (set_launch 0 passing_inputs)) LaunchPriceNotFound.
Definition compute_drop_bps_handles_minimum_representable_price : bool :=
  yields (compute_drop_bps 1 0) 10000 && yields (compute_drop_bps 1 1) 0 && yields (compute_drop_bps 1 2) 0.
Definition compute_drop_bps_handles_large_representable_price : bool :=
  let launch := Z.shiftl 1 100 in
  yields (compute_drop_bps launch 0) 10000 && yields (compute_drop_bps launch (launch / 4)) 7500.
Definition compute_drop_bps_beyond_real_reserve_scale_fails_closed : bool :=
  let launch := Z.shiftl (u_max 64) 64 in
  let max_safe := u128_max / 10000 in
  refused_with (compute_drop_bps launch 0) MathOverflow
  && yields (compute_drop_bps max_safe 0) 10000
  && refused_with (compute_drop_bps (max_safe + 1) 0) MathOverflow.
Definition criterion_three_rejects_pool_below_min_tvl : bool := fails (one (set_tvl 100000000 passing_inputs)).
Definition criterion_four_rejects_pool_with_burned_lp : bool := fails (one (set_supply 0 passing_inputs)).
Definition criterion_five_rejects_pool_with_locked_lp : bool := fails (one (set_locked 1 passing_inputs)).
Definition criterion_six_rejects_phase_two_inside_confirmation_gap : bool :=
  refused_with (two (set_epochs 999 (Some 998) passing_inputs)) EpochConfirmationPending.
Definition criterion_six_rejects_phase_two_without_anchor_epoch : bool :=
  refused_with (two (set_epochs 1000 None passing_inputs)) AnchorNotFound.
Definition compute_drop_bps_at_99_percent : bool :=
  let launch := Z.shiftl 1 64 in
  match compute_drop_bps launch (launch / 100) with
  | Ok bps => (9899 <=? bps) && (bps <=? 9900)
  | Err _ => false
  end.
Definition compute_drop_bps_at_zero_current : bool := yields (compute_drop_bps (Z.shiftl 1 64) 0) 10000.
Definition compute_drop_bps_returns_zero_when_current_above_launch : bool :=
  yields (compute_drop_bps (Z.shiftl 1 64) (Z.shiftl 2 64)) 0.

(** ** [mod adversary_tests] *)

Definition adv_ts01_clock_regression_refused_invalid_clock : bool :=
  refused_with (one (set_last_swap (current_unix_ts passing_inputs + 60) passing_inputs)) InvalidClock.
Definition adv_ap02_active_pool_boundary_is_exact : bool :=
  let win := inactivity_seconds default_thresholds in
  let now := current_unix_ts passing_inputs in
  refused_with (one (set_last_swap (now - (win - 1)) passing_inputs)) PoolNotEligible
  && yields (one (set_last_swap (now - win) passing_inputs)) 63.
Definition adv_fd03_zero_launch_price_refused_and_ordering_pinned : bool :=
  let i := set_launch 0 passing_inputs in
  refused_with (one i) LaunchPriceNotFound
  && refused_with (one (set_last_swap (current_unix_ts i - 60) i)) PoolNotEligible.
Definition adv_ds04_dust_boundary_is_strict : bool :=
  let dust := lp_burn_dust_threshold default_thresholds in
  let zero_threshold := mkCriteriaThresholds (90 * 24 * 60 * 60) 9900 500000000 0 in
  refused_with (one (set_supply dust passing_inputs)) PoolNotEligible
  && yields (one (set_supply (dust + 1) passing_inputs)) 63
  && refused_with (evaluate (set_supply 0 passing_inputs) zero_threshold One) PoolNotEligible.
Definition adv_ec05_min_tvl_boundary_is_inclusive : bool :=
  let tvl := min_tvl_lamports default_thresholds in
  refused_with (one (set_tvl (tvl - 1) passing_inputs)) PoolNotEligible
  && yields (one (set_tvl tvl passing_inputs)) 63.
Definition adv_el06_no_upper_tvl_bound_pinned : bool := yields (one (set_tvl (u_max 64) passing_inputs)) 63.
Definition adv_mp07_collapse_boundary_is_exact : bool :=
  let launch := 10000 * Z.shiftl 1 32 in
  yields (one (set_prices launch (launch / 100) passing_inputs)) 63
  && refused_with (one (set_prices launch (launch / 100 + 1) passing_inputs)) PoolNotEligible
  && refused_with (one (set_prices launch launch passing_inputs)) PoolNotEligible.
Definition adv_dc08_price_math_decimals_agnostic : bool :=
  let launch := Z.shiftl 1 64 in
  let max_safe := u128_max / 10000 in
  yields (compute_drop_bps launch (launch / 2)) 5000
  && yields (compute_drop_bps max_safe (max_safe / 4)) 7500
  && refused_with (compute_drop_bps (max_safe + 1) 0) MathOverflow.
Definition adv_lk09_single_locked_lamport_refuses : bool :=
  refused_with (one (set_locked 1 passing_inputs)) PoolNotEligible.
Definition adv_ep10_epoch_gap_boundary_is_exact : bool :=
  refused_with (two (set_epochs (998 + MIN_EPOCH_CONFIRMATION - 1) (Some 998) passing_inputs)) EpochConfirmationPending
  && yields (two (set_epochs (998 + MIN_EPOCH_CONFIRMATION) (Some 998) passing_inputs)) 63.

(** ** [mod proptests] *)

Definition drop_bps_total_and_clamped : Prop := forall launch current,
  is_u128 launch -> is_u128 current ->
  match compute_drop_bps launch current with
  | Ok bps => bps <= 10000
  | Err e => e = MathOverflow
  end.

(** The strategies' ranges, [prop_assume] included. *)
Definition drop_bps_monotone_and_refloat_guard : Prop := forall launch frac_a frac_step,
  10000 <= launch <= u128_max / 10000 -> 0 <= frac_a < 10000 -> 1 <= frac_step <= 10000 ->
  let frac_b := Z.min (frac_a + frac_step) 10000 in
  let current_a := launch * frac_a / 10000 in
  let current_b := launch * frac_b / 10000 in
  current_a < current_b -> current_b <= launch ->
  (exists bps_a bps_b, compute_drop_bps launch current_a = Ok bps_a /\ compute_drop_bps launch current_b = Ok bps_b
     /\ bps_b <= bps_a)
  /\ compute_drop_bps launch launch = Ok 0 /\ compute_drop_bps launch (launch + 1) = Ok 0.

Definition drop_bps_exact_boundaries : Prop := forall q,
  1 <= q <= u128_max / 10000 / 100 ->
  let launch := 100 * q in
  compute_drop_bps launch (launch / 100) = Ok 9900 /\ compute_drop_bps launch 0 = Ok 10000
  /\ compute_drop_bps 10000 9999 = Ok 1 /\ compute_drop_bps 0 0 = Ok 0.

(** ** The suites pass *)

Lemma criteria_tests_pass : all_pass [
  evaluate_phase_one_all_pass_returns_full_mask; evaluate_phase_two_with_sufficient_epoch_gap_passes;
  criterion_one_rejects_recently_active_pool; criterion_two_rejects_pool_below_collapse_threshold;
  criterion_two_treats_floor_at_zero_as_full_drop; criterion_two_rejects_pool_that_re_floated;
  criterion_two_rejects_zero_launch_price; compute_drop_bps_handles_minimum_representable_price;
  compute_drop_bps_handles_large_representable_price; compute_drop_bps_beyond_real_reserve_scale_fails_closed;
  criterion_three_rejects_pool_below_min_tvl; criterion_four_rejects_pool_with_burned_lp;
  criterion_five_rejects_pool_with_locked_lp; criterion_six_rejects_phase_two_inside_confirmation_gap;
  criterion_six_rejects_phase_two_without_anchor_epoch; compute_drop_bps_at_99_percent;
  compute_drop_bps_at_zero_current; compute_drop_bps_returns_zero_when_current_above_launch] = true.
Proof. run_suite. Qed.

Lemma criteria_adversary_tests_pass : all_pass [
  adv_ts01_clock_regression_refused_invalid_clock; adv_ap02_active_pool_boundary_is_exact;
  adv_fd03_zero_launch_price_refused_and_ordering_pinned; adv_ds04_dust_boundary_is_strict;
  adv_ec05_min_tvl_boundary_is_inclusive; adv_el06_no_upper_tvl_bound_pinned;
  adv_mp07_collapse_boundary_is_exact; adv_dc08_price_math_decimals_agnostic;
  adv_lk09_single_locked_lamport_refuses; adv_ep10_epoch_gap_boundary_is_exact] = true.
Proof. run_suite. Qed.

(** Within the strategies' range the function is the floor. *)
Lemma max_safe_fits launch : launch <= u128_max / 10000 -> launch * 10000 < 2 ^ 128.
Proof.
  intros H. assert (10000 * (u128_max / 10000) <= u128_max) by (apply Z.mul_div_le; lia).
  assert (u128_max < 2 ^ 128) by (vm_compute; reflexivity).
  lia.
Qed.

Lemma drop_in_range launch current :
  0 <= current < launch -> launch <= u128_max / 10000 ->
  compute_drop_bps launch current = Ok ((launch - current) * 10000 / launch).
Proof.
  intros Hc Hl%max_safe_fits. rewrite compute_drop_bps_fallen by (unfold is_u; lia).
  rewrite (proj2 (Z.ltb_lt _ _)) by lia. done.
Qed.

Lemma drop_bps_total_and_clamped_holds : drop_bps_total_and_clamped.
Proof.
  intros launch current Hl Hc. destruct (Z.le_gt_cases launch current) as [H|H].
  - rewrite compute_drop_bps_floated by done. done.
  - rewrite compute_drop_bps_fallen by (unfold is_u in *; lia). destruct (_ <? _); [|done].
    unfold is_u in *. apply Z.div_le_upper_bound; lia.
Qed.

Lemma drop_bps_monotone_and_refloat_guard_holds : drop_bps_monotone_and_refloat_guard.
Proof.
  intros launch frac_a frac_step [Hl Hm] Ha Hs frac_b current_a current_b Hlt Hle.
  assert (H0 : 0 <= current_a) by (apply Z.div_pos; nia).
  split_and!; [|apply compute_drop_bps_floated; lia..].
  rewrite (drop_in_range launch current_a) by (done || lia).
  destruct (Z.lt_ge_cases current_b launch) as [Hb|Hb].
  - rewrite (drop_in_range launch current_b) by (done || lia). eexists _, _. split_and!; [done..|].
    apply Z.div_le_mono; lia.
  - rewrite compute_drop_bps_floated by lia. eexists _, _. split_and!; [done..|]. apply Z.div_pos; lia.
Qed.

Lemma drop_bps_exact_boundaries_holds : drop_bps_exact_boundaries.
Proof.
  intros q [Hq Hm] launch.
  assert (Hl : launch <= u128_max / 10000).
  { transitivity (100 * (u128_max / 10000 / 100)); [unfold launch; lia | apply Z.mul_div_le; lia]. }
  assert (Hd : launch / 100 = q) by (unfold launch; rewrite Z.mul_comm, Z.div_mul; lia).
  split_and!; [..|done|done].
  - rewrite Hd, drop_in_range by (done || (unfold launch; lia)). f_equal. unfold launch.
    replace ((100 * q - q) * 10000) with (9900 * (100 * q)) by lia. apply Z.div_mul. lia.
  - rewrite drop_in_range by (done || (unfold launch; lia)). f_equal.
    rewrite Z.sub_0_r, Z.mul_comm. apply Z.div_mul. unfold launch. lia.
Qed.
