(* ===== verification/Attestation.v ===== *)
(** * Attestation: oracle-signed evidence

    [programs/grave-scanner/src/attestation.rs]: the offset contract with the
    Ed25519 precompile, the [SlotHashes] lookup and the field checks of the
    112-byte last-swap message and the 168-byte launch-price message. The
    instructions sysvar loaders, the signature scheme and what the precompile
    verifies belong to the runtime and are parameters. *)

From Stdlib Require Import Ascii String.
From S2P Require Import Prelude Bytes Solana Criteria.

Definition ED25519_PROGRAM_ID : Pubkey :=
  Eval vm_compute in pubkey "Ed25519SigVerify111111111111111111111111111".

Definition ATTESTATION_MSG_LEN : Z := 112.
Definition ED25519_HEADER_LEN : Z := 16.
Definition ED25519_SIG_LEN : Z := 64.
Definition ED25519_PK_LEN : Z := 32.
Definition CUR_INSTRUCTION_INDEX : Z := 65535.
Definition IX_DATA_MSG_OFFSET : Z := 8 + 32 + 32.
Definition IX_DATA_MIN_LEN : Z := IX_DATA_MSG_OFFSET + ATTESTATION_MSG_LEN.
Definition PRECOMPILE_PK_OFFSET : Z := ED25519_HEADER_LEN.
Definition PRECOMPILE_SIG_OFFSET : Z := ED25519_HEADER_LEN + ED25519_PK_LEN.
Definition PRECOMPILE_MIN_LEN : Z := ED25519_HEADER_LEN + ED25519_PK_LEN + ED25519_SIG_LEN.
Definition LAUNCH_PRICE_MSG_LEN : Z := 168.
Definition LAUNCH_PRICE_MSG_OFFSET : Z := 8 + 32 + 32 + 32 + 32 + 16.
Definition LAUNCH_PRICE_IX_MIN_LEN : Z := LAUNCH_PRICE_MSG_OFFSET + LAUNCH_PRICE_MSG_LEN.

(** ** Message fields *)

Definition message_last_swap_unix_ts (msg : list byte) : Z := le_i64 (slice 64 8 msg).
Definition message_issued_slot (msg : list byte) : Z := le_Z (slice 72 8 msg).

Definition launch_price_message_price (msg : list byte) : Z := le_Z (slice 144 16 msg).
Definition launch_price_message_first_swap_slot (msg : list byte) : Z :=
  le_Z (slice 128 8 msg).
Definition launch_price_message_first_swap_ts (msg : list byte) : Z :=
  le_i64 (slice 136 8 msg).
Definition launch_price_message_issued_slot (msg : list byte) : Z := le_Z (slice 160 8 msg).

(** ** The offset contract *)

Definition verify_ed25519_offsets_at (precompile_ix : Instruction) (scanner_ix_index : Z)
    (scanner_ix_data : list byte) (oracle : Pubkey)
    (msg_offset msg_len min_scanner_data_len : Z) : result GraveScannerError unit :=
  require (bool_decide (ix_program_id precompile_ix = ED25519_PROGRAM_ID)) AttestationMissing;;
  let d := ix_data precompile_ix in
  require (PRECOMPILE_MIN_LEN <=? len_Z d) InvalidAttestationOffsets;;
  let num_signatures := byte_at d 0 in
  let sig_offset := u16_at d 2 in
  let sig_ix_index := u16_at d 4 in
  let pk_offset := u16_at d 6 in
  let pk_ix_index := u16_at d 8 in
  let msg_data_offset := u16_at d 10 in
  let msg_data_size := u16_at d 12 in
  let msg_ix_index := u16_at d 14 in
  require (num_signatures =? 1) InvalidAttestationOffsets;;
  require ((sig_ix_index =? CUR_INSTRUCTION_INDEX) && (sig_offset =? PRECOMPILE_SIG_OFFSET)
           && (sig_offset + ED25519_SIG_LEN <=? len_Z d)) InvalidAttestationOffsets;;
  require ((pk_ix_index =? CUR_INSTRUCTION_INDEX) && (pk_offset =? PRECOMPILE_PK_OFFSET)
           && (pk_offset + ED25519_PK_LEN <=? len_Z d)) InvalidAttestationOffsets;;
  require (bool_decide (slice (Z.to_nat pk_offset) (Z.to_nat ED25519_PK_LEN) d = oracle))
    AttestationOracleMismatch;;
  require (msg_ix_index =? scanner_ix_index) InvalidAttestationOffsets;;
  require ((msg_data_offset =? msg_offset) && (msg_data_size =? msg_len))
    InvalidAttestationOffsets;;
  require (min_scanner_data_len <=? len_Z scanner_ix_data) InvalidAttestationOffsets.

Definition verify_ed25519_offsets (precompile_ix : Instruction) (scanner_ix_index : Z)
    (scanner_ix_data : list byte) (oracle : Pubkey) : result GraveScannerError unit :=
  verify_ed25519_offsets_at precompile_ix scanner_ix_index scanner_ix_data oracle
    IX_DATA_MSG_OFFSET ATTESTATION_MSG_LEN IX_DATA_MIN_LEN.

(** ** SlotHashes *)

(** The [for i in 0..count] loop. Each iteration either returns or moves 40
    bytes further into the data, so [length data] iterations are enough
    whatever [count] says. *)
Fixpoint slot_hash_loop (fuel : nat) (data : list byte) (target_slot i count : Z)
    : option (list byte) :=
  match fuel with
  | O => None
  | S fuel =>
      if count <=? i then None
      else
        let base := 8 + i * 40 in
        if len_Z data <? base + 40 then None
        else if le_Z (slice (Z.to_nat base) 8 data) =? target_slot
        then Some (slice (Z.to_nat (base + 8)) 32 data)
        else slot_hash_loop fuel data target_slot (i + 1) count
  end.

Definition slot_hash_lookup (data : list byte) (target_slot : Z) : option (list byte) :=
  if len_Z data <? 8 then None
  else slot_hash_loop (length data) data target_slot 0 (le_Z (slice 0 8 data)).

(** ** Message validation *)

Definition verify_attestation_message (msg : list byte) (amm_program_id pool_address : Pubkey)
    (now_unix_ts now_slot : Z) (slot_hashes_data : list byte) : result GraveScannerError Z :=
  require (bool_decide (slice 0 32 msg = amm_program_id)
           && bool_decide (slice 32 32 msg = pool_address)) AttestationBindingMismatch;;
  let ts := message_last_swap_unix_ts msg in
  require ((0 <? ts) && (ts <=? now_unix_ts)) AttestationTimestampInvalid;;
  let issued_slot := message_issued_slot msg in
  require ((0 <? issued_slot) && (issued_slot <=? now_slot)) AttestationSlotInvalid;;
  let hash := slot_hash_lookup slot_hashes_data issued_slot in
  require (bool_decide (is_Some hash)) AttestationStale;;
  require (bool_decide (hash = Some (slice 80 32 msg))) AttestationSlotHashMismatch;;
  mret ts.

Record AttestationRef := mkAttestationRef {
  att_msg : list byte;
  att_amm_program_id : Pubkey;
  att_pool_address : Pubkey;
  att_oracle : Pubkey;
}.

Definition load_instruction_pair (instruction_sysvar : InstructionsSysvar)
    : result GraveScannerError (Instruction * Instruction * Z) :=
  current_index ← ok_or (isv_current_index instruction_sysvar) AttestationMissing;
  require (1 <=? current_index) AttestationMissing;;
  scanner_ix ← ok_or (isv_instruction_at instruction_sysvar current_index) AttestationMissing;
  precompile_ix ← ok_or (isv_instruction_at instruction_sysvar (current_index - 1))
    AttestationMissing;
  mret (precompile_ix, scanner_ix, current_index).

Definition verify_last_swap_attestation (instruction_sysvar : InstructionsSysvar)
    (slot_hashes : list byte) (att : AttestationRef) (now_unix_ts now_slot : Z)
    : result GraveScannerError Z :=
  '(precompile_ix, scanner_ix, current_index) ← load_instruction_pair instruction_sysvar;
  verify_ed25519_offsets precompile_ix current_index (ix_data scanner_ix) (att_oracle att);;
  verify_attestation_message (att_msg att) (att_amm_program_id att) (att_pool_address att)
    now_unix_ts now_slot slot_hashes.

Record LaunchPriceAttestationRef := mkLaunchPriceAttestationRef {
  lpa_msg : list byte;
  lpa_amm_program_id : Pubkey;
  lpa_pool_address : Pubkey;
  lpa_base_mint : Pubkey;
  lpa_quote_mint : Pubkey;
  lpa_launch_price_q64x64 : Z;
  lpa_oracle : Pubkey;
}.

Definition verify_launch_price_message (att : LaunchPriceAttestationRef)
    (now_unix_ts now_slot : Z) : result GraveScannerError (Z * Z * Z) :=
  let msg := lpa_msg att in
  require (bool_decide (slice 0 32 msg = lpa_amm_program_id att)
           && bool_decide (slice 32 32 msg = lpa_pool_address att)) AttestationBindingMismatch;;
  require (bool_decide (slice 64 32 msg = lpa_base_mint att)
           && bool_decide (slice 96 32 msg = lpa_quote_mint att)) AttestationBindingMismatch;;
  let price := launch_price_message_price msg in
  require (price =? lpa_launch_price_q64x64 att) AttestationBindingMismatch;;
  require (0 <? price) InvalidLaunchPrice;;
  let first_swap_ts := launch_price_message_first_swap_ts msg in
  require ((0 <? first_swap_ts) && (first_swap_ts <=? now_unix_ts)) AttestationTimestampInvalid;;
  let first_swap_slot := launch_price_message_first_swap_slot msg in
  require ((0 <? first_swap_slot) && (first_swap_slot <=? now_slot)) AttestationSlotInvalid;;
  let issued_slot := launch_price_message_issued_slot msg in
  require ((0 <? issued_slot) && (issued_slot <=? now_slot)) AttestationSlotInvalid;;
  mret (price, first_swap_slot, first_swap_ts).

Definition verify_launch_price_attestation (instruction_sysvar : InstructionsSysvar)
    (att : LaunchPriceAttestationRef) (now_unix_ts now_slot : Z)
    : result GraveScannerError (Z * Z * Z) :=
  '(precompile_ix, scanner_ix, current_index) ← load_instruction_pair instruction_sysvar;
  verify_ed25519_offsets_at precompile_ix current_index (ix_data scanner_ix) (lpa_oracle att)
    LAUNCH_PRICE_MSG_OFFSET LAUNCH_PRICE_MSG_LEN LAUNCH_PRICE_IX_MIN_LEN;;
  verify_launch_price_message att now_unix_ts now_slot.

(** ** Specification of the offset contract *)

(** The seven fields of [Ed25519SignatureOffsets] in the canonical placement:
    key and signature inside the precompile instruction, message inside
    instruction [idx]. *)
Definition ed25519_offsets (idx off len : Z) : list byte :=
  le_bytes 2 PRECOMPILE_SIG_OFFSET ++ le_bytes 2 CUR_INSTRUCTION_INDEX ++
  le_bytes 2 PRECOMPILE_PK_OFFSET ++ le_bytes 2 CUR_INSTRUCTION_INDEX ++
  le_bytes 2 off ++ le_bytes 2 len ++ le_bytes 2 idx.

(** The data of the precompile instruction the canonical builder emits. *)
Definition ed25519_canonical_data (idx off len : Z) (pk sig : list byte) : list byte :=
  [x01; x00] ++ ed25519_offsets idx off len ++ pk ++ sig.

Lemma ed25519_offsets_fields d idx off len :
  is_u16 idx -> is_u16 off -> is_u16 len -> (16 <= length d)%nat ->
  slice 2 14 d = ed25519_offsets idx off len <->
    u16_at d 2 = PRECOMPILE_SIG_OFFSET /\ u16_at d 4 = CUR_INSTRUCTION_INDEX /\
    u16_at d 6 = PRECOMPILE_PK_OFFSET /\ u16_at d 8 = CUR_INSTRUCTION_INDEX /\
    u16_at d 10 = off /\ u16_at d 12 = len /\ u16_at d 14 = idx.
Proof.
  intros Hidx Hoff Hlen Hd. unfold ed25519_offsets.
  assert (is_u16 PRECOMPILE_SIG_OFFSET) by in_range.
  assert (is_u16 PRECOMPILE_PK_OFFSET) by in_range.
  assert (is_u16 CUR_INSTRUCTION_INDEX) by in_range.
  rewrite !u16_at_eq by (done || lia).
  do 6 (rewrite (slice_app_iff _ _ 2) by (try apply le_bytes_length; simpl; lia)).
  simpl Nat.add. simpl Nat.sub. tauto.
Qed.

Lemma verify_ed25519_offsets_at_iff ix idx sdata oracle off len minlen :
  is_u16 idx -> is_u16 off -> is_u16 len ->
  verify_ed25519_offsets_at ix idx sdata oracle off len minlen = Ok tt <->
    ix_program_id ix = ED25519_PROGRAM_ID /\
    PRECOMPILE_MIN_LEN <= len_Z (ix_data ix) /\
    byte_at (ix_data ix) 0 = 1 /\
    slice 2 14 (ix_data ix) = ed25519_offsets idx off len /\
    slice 16 32 (ix_data ix) = oracle /\
    minlen <= len_Z sdata.
Proof.
  intros Hidx Hoff Hlen. unfold verify_ed25519_offsets_at. set (d := ix_data ix).
  assert (Hfields : PRECOMPILE_MIN_LEN <= len_Z d ->
    slice 2 14 d = ed25519_offsets idx off len <-> _)
    by (intros; apply ed25519_offsets_fields; auto;
        unfold len_Z, PRECOMPILE_MIN_LEN, ED25519_HEADER_LEN, ED25519_PK_LEN, ED25519_SIG_LEN in *;
        lia).
  split.
  - intros H. res_inv H. bool_simpl.
    rewrite Hfields by done. split_and!; try done; try lia.
    match goal with H : slice _ _ d = oracle |- _ => rewrite <- H end.
    match goal with H : u16_at d 6 = _ |- _ => by rewrite H end.
  - intros (Hid & Hl & Hn & Hs & Hpk & Hm).
    apply Hfields in Hs as (E2 & E4 & E6 & E8 & E10 & E12 & E14); [|done].
    rewrite E2, E4, E6, E8, E10, E12, E14, Hn.
    unfold PRECOMPILE_MIN_LEN, PRECOMPILE_SIG_OFFSET, PRECOMPILE_PK_OFFSET,
      ED25519_HEADER_LEN, ED25519_PK_LEN, ED25519_SIG_LEN in *.
    rewrite (bool_decide_eq_true_2 _ Hid), (proj2 (Z.leb_le _ _) Hl). simpl.
    rewrite !(proj2 (Z.leb_le _ (len_Z d))) by lia.
    change (Z.to_nat 16) with 16%nat. change (Z.to_nat 32) with 32%nat.
    rewrite (bool_decide_eq_true_2 _ Hpk), !Z.eqb_refl. simpl.
    by rewrite (proj2 (Z.leb_le _ _) Hm).
Qed.

(** ** Specification of the SlotHashes lookup *)

Definition slot_at (data : list byte) (k : Z) : Z := le_Z (slice (Z.to_nat (8 + k * 40)) 8 data).
Definition hash_at (data : list byte) (k : Z) : list byte :=
  slice (Z.to_nat (8 + k * 40 + 8)) 32 data.

(** Entry [k] is the first entry, from entry [i] on, for slot [s]. *)
Definition first_entry (data : list byte) (s i count k : Z) : Prop :=
  i <= k < count /\ 8 + k * 40 + 40 <= len_Z data /\ slot_at data k = s /\
  forall j, i <= j < k -> slot_at data j <> s.

Lemma slot_hash_loop_spec fuel data s i count h :
  0 <= i -> len_Z data < 8 + (i + Z.of_nat fuel) * 40 + 40 ->
  slot_hash_loop fuel data s i count = Some h <->
    exists k, first_entry data s i count k /\ h = hash_at data k.
Proof.
  unfold first_entry. revert i. induction fuel as [|fuel IH]; intros i Hi Hf.
  { split; [done|]. intros (k & (? & ? & _) & _). lia. }
  cbn [slot_hash_loop]. destruct (Z.leb_spec count i).
  { split; [done|]. intros (k & (? & ? & _) & _). lia. }
  destruct (Z.ltb_spec (len_Z data) (8 + i * 40 + 40)).
  { split; [done|]. intros (k & (? & ? & _) & _). lia. }
  fold (slot_at data i). fold (hash_at data i).
  destruct (Z.eqb_spec (slot_at data i) s) as [Hs|Hs].
  - split.
    + intros [= <-]. exists i. split_and!; lia || done || (intros; lia).
    + intros (k & ((? & ?) & ? & Hk & Hfst) & ->).
      destruct (decide (k = i)) as [->|]; [done|]. destruct (Hfst i); [lia|done].
  - rewrite IH by lia. split; intros (k & ((? & ?) & ? & Hk & Hfst) & ->); exists k.
    + split_and!; try lia; try done. intros j ?.
      destruct (decide (j = i)) as [->|]; [done|]. apply Hfst. lia.
    + destruct (decide (k = i)) as [->|]; [done|].
      split_and!; try lia; try done. intros j ?. apply Hfst. lia.
Qed.

(** [slot_hash_lookup] finds exactly the first of the declared, fully
    present entries whose slot is the target, and no iteration bound is ever
    the reason for a miss: the loop's answer is the same for the count the
    sysvar declares, however large. *)
Theorem slot_hash_lookup_spec data s h :
  slot_hash_lookup data s = Some h <->
    8 <= len_Z data /\
    exists k, first_entry data s 0 (le_Z (slice 0 8 data)) k /\ h = hash_at data k.
Proof.
  unfold slot_hash_lookup. destruct (Z.ltb_spec (len_Z data) 8).
  { split; [done|]. lia. }
  rewrite slot_hash_loop_spec by (unfold len_Z; lia). naive_solver.
Qed.

(** ** The messages as encodings of their fields *)

Definition encode_last_swap (amm pool : Pubkey) (ts slot : Z) (hash : list byte) : list byte :=
  amm ++ pool ++ le_bytes 8 ts ++ le_bytes 8 slot ++ hash.

Definition encode_launch_price (amm pool base quote : Pubkey)
    (first_slot first_ts price issued_slot : Z) : list byte :=
  amm ++ pool ++ base ++ quote ++ le_bytes 8 first_slot ++ le_bytes 8 first_ts ++
  le_bytes 16 price ++ le_bytes 8 issued_slot.

Section LastSwapMessage.
Variables (amm pool hash : list byte) (ts slot : Z).
Hypothesis Hamm : wf_key amm.
Hypothesis Hpool : wf_key pool.
Hypothesis Hhash : wf_key hash.
Let msg := encode_last_swap amm pool ts slot hash.

Lemma encode_last_swap_fields :
  slice 0 32 msg = amm /\ slice 32 32 msg = pool /\
  slice 64 8 msg = le_bytes 8 ts /\ slice 72 8 msg = le_bytes 8 slot /\
  slice 80 32 msg = hash.
Proof.
  unfold msg, encode_last_swap. unfold wf_key in *.
  split_and!.
  - by apply slice_app_l.
  - by apply slice_mid.
  - rewrite (app_assoc amm). apply slice_mid; [rewrite length_app; lia|done].
  - rewrite (app_assoc pool), (app_assoc amm).
    apply slice_mid; [rewrite !length_app, le_bytes_length; lia|done].
  - rewrite (app_assoc (le_bytes 8 ts)), (app_assoc pool), (app_assoc amm).
    apply slice_end; [rewrite !length_app, !le_bytes_length; lia|done].
Qed.

Lemma encode_last_swap_values :
  is_i64 ts -> is_u64 slot ->
  message_last_swap_unix_ts msg = ts /\ message_issued_slot msg = slot.
Proof.
  intros. unfold message_last_swap_unix_ts, message_issued_slot.
  destruct encode_last_swap_fields as (_ & _ & -> & -> & _).
  split; [by apply le_i64_roundtrip|by apply (le_roundtrip 8 64)].
Qed.
End LastSwapMessage.

Lemma verify_attestation_message_iff msg amm pool now now_slot sh ts :
  verify_attestation_message msg amm pool now now_slot sh = Ok ts <->
    slice 0 32 msg = amm /\ slice 32 32 msg = pool /\
    ts = message_last_swap_unix_ts msg /\ 0 < ts <= now /\
    0 < message_issued_slot msg <= now_slot /\
    slot_hash_lookup sh (message_issued_slot msg) = Some (slice 80 32 msg).
Proof.
  unfold verify_attestation_message. split.
  - intros H. res_inv H. bool_simpl. naive_solver.
  - intros (Ha & Hp & -> & Hts & Hs & Hh). rewrite Hh.
    rewrite (bool_decide_eq_true_2 _ Ha), (bool_decide_eq_true_2 _ Hp). simpl.
    do 2 step_guard lia. step_guard done. done.
Qed.

(** The indexer's 112-byte encoding and the on-chain reader agree: an
    encoded message is accepted exactly when it is bound to this pool's
    fields, its timestamp is neither zero nor in the future, and its slot is
    in [SlotHashes] under the attested hash; the timestamp read back is the
    encoded one. *)
Theorem last_swap_message_roundtrip amm pool hash ts slot now now_slot sh r :
  wf_key amm -> wf_key pool -> wf_key hash -> is_i64 ts -> is_u64 slot ->
  verify_attestation_message (encode_last_swap amm pool ts slot hash) amm pool
      now now_slot sh = Ok r <->
    r = ts /\ 0 < ts <= now /\ 0 < slot <= now_slot /\
    slot_hash_lookup sh slot = Some hash.
Proof.
  intros Ha Hp Hh Hts Hs. rewrite verify_attestation_message_iff.
  destruct (encode_last_swap_fields amm pool hash ts slot Ha Hp Hh) as (-> & -> & _ & _ & ->).
  destruct (encode_last_swap_values amm pool hash ts slot Ha Hp Hh Hts Hs) as [-> ->].
  naive_solver.
Qed.

Section LaunchPriceMessage.
Variables (amm pool base quote : list byte) (fslot fts price slot : Z).
Hypothesis Hamm : wf_key amm.
Hypothesis Hpool : wf_key pool.
Hypothesis Hbase : wf_key base.
Hypothesis Hquote : wf_key quote.
Let msg := encode_launch_price amm pool base quote fslot fts price slot.

Lemma encode_launch_price_keys :
  slice 0 32 msg = amm /\ slice 32 32 msg = pool /\ slice 64 32 msg = base /\
  slice 96 32 msg = quote.
Proof.
  unfold msg, encode_launch_price. unfold wf_key in *. split_and!.
  - by apply slice_app_l.
  - by apply slice_mid.
  - rewrite (app_assoc amm). apply slice_mid; [rewrite length_app; lia|done].
  - rewrite (app_assoc pool), (app_assoc amm).
    apply slice_mid; [rewrite !length_app; lia|done].
Qed.

Lemma encode_launch_price_numbers :
  slice 128 8 msg = le_bytes 8 fslot /\ slice 136 8 msg = le_bytes 8 fts /\
  slice 144 16 msg = le_bytes 16 price /\ slice 160 8 msg = le_bytes 8 slot.
Proof.
  unfold msg, encode_launch_price. unfold wf_key in *.
  set (k := amm ++ pool ++ base ++ quote).
  replace (amm ++ pool ++ base ++ quote ++ _) with (k ++ le_bytes 8 fslot ++ le_bytes 8 fts ++
    le_bytes 16 price ++ le_bytes 8 slot) by (unfold k; by rewrite <- !app_assoc).
  assert (Hk : length k = 128%nat) by (unfold k; rewrite !length_app; lia).
  split_and!.
  - by apply slice_mid.
  - rewrite (app_assoc k).
    apply slice_mid; [rewrite length_app, le_bytes_length; lia|done].
  - rewrite (app_assoc (le_bytes 8 fslot)), (app_assoc k).
    apply slice_mid; [rewrite !length_app, !le_bytes_length; lia|done].
  - rewrite (app_assoc (le_bytes 8 fts)), (app_assoc (le_bytes 8 fslot)), (app_assoc k).
    apply slice_end; [rewrite !length_app, !le_bytes_length; lia|done].
Qed.
End LaunchPriceMessage.

Lemma verify_launch_price_message_iff att now now_slot r :
  verify_launch_price_message att now now_slot = Ok r <->
    let msg := lpa_msg att in
    slice 0 32 msg = lpa_amm_program_id att /\ slice 32 32 msg = lpa_pool_address att /\
    slice 64 32 msg = lpa_base_mint att /\ slice 96 32 msg = lpa_quote_mint att /\
    launch_price_message_price msg = lpa_launch_price_q64x64 att /\
    0 < launch_price_message_price msg /\
    0 < launch_price_message_first_swap_ts msg <= now /\
    0 < launch_price_message_first_swap_slot msg <= now_slot /\
    0 < launch_price_message_issued_slot msg <= now_slot /\
    r = (launch_price_message_price msg, launch_price_message_first_swap_slot msg,
         launch_price_message_first_swap_ts msg).
Proof.
  unfold verify_launch_price_message. simpl. split.
  - intros H. res_inv H. bool_simpl. split_and!; done || lia.
  - intros (H1 & H2 & H3 & H4 & H5 & ?).
    rewrite (bool_decide_eq_true_2 _ H1), (bool_decide_eq_true_2 _ H2),
      (bool_decide_eq_true_2 _ H3), (bool_decide_eq_true_2 _ H4), H5, Z.eqb_refl in *.
    simpl. do 4 step_guard lia. naive_solver.
Qed.

(** A launch-price message is accepted exactly when it encodes the pool,
    the pair and the price the instruction echoes, the price is positive and
    the attested slots and timestamp are neither zero nor in the future; the
    values returned are the encoded ones. *)
Theorem launch_price_message_roundtrip
    amm pool base quote fslot fts price slot echo oracle now now_slot r :
  wf_key amm -> wf_key pool -> wf_key base -> wf_key quote ->
  is_u64 fslot -> is_i64 fts -> is_u128 price -> is_u64 slot ->
  verify_launch_price_message
    (mkLaunchPriceAttestationRef
       (encode_launch_price amm pool base quote fslot fts price slot)
       amm pool base quote echo oracle) now now_slot = Ok r <->
    r = (price, fslot, fts) /\ price = echo /\ 0 < price /\ 0 < fts <= now /\
    0 < fslot <= now_slot /\ 0 < slot <= now_slot.
Proof.
  intros Ha Hp Hb Hq Hfs Hft Hpr Hs. rewrite verify_launch_price_message_iff. simpl.
  destruct (encode_launch_price_keys amm pool base quote fslot fts price slot
    Ha Hp Hb Hq) as (-> & -> & -> & ->).
  unfold launch_price_message_price, launch_price_message_first_swap_slot,
    launch_price_message_first_swap_ts, launch_price_message_issued_slot.
  destruct (encode_launch_price_numbers amm pool base quote fslot fts price slot
    Ha Hp Hb Hq) as (-> & -> & -> & ->).
  rewrite (le_roundtrip 8 64 fslot), (le_i64_roundtrip fts), (le_roundtrip 16 128 price),
    (le_roundtrip 8 64 slot) by done.
  naive_solver.
Qed.

(** ** What the runtime vouches for

    The signature scheme is a parameter, and so is its use: before a handler
    runs, every Ed25519 precompile instruction of the transaction has had the
    signature it describes verified, reading key, signature and message where
    its offsets say ([0xFFFF] is the precompile instruction itself). *)
Class Ed25519 := ed25519_verify : forall (pk msg sig : list byte), bool.

Section Runtime.
Context `{Ed25519}.

Definition precompile_data_at (ixs : list Instruction) (self : Instruction) (idx : Z)
    : list byte :=
  if idx =? CUR_INSTRUCTION_INDEX then ix_data self
  else default [] (ix_data <$> ixs !! Z.to_nat idx).

(** The signature an accepted single-signature precompile instruction has had
    verified. *)
Definition precompile_verified (ixs : list Instruction) (ix : Instruction) : Prop :=
  let d := ix_data ix in
  let read off n idx := slice (Z.to_nat (u16_at d off)) n (precompile_data_at ixs ix (u16_at d idx)) in
  ix_program_id ix = ED25519_PROGRAM_ID -> byte_at d 0 = 1 ->
  ed25519_verify (read 6%nat 32%nat 8%nat) (read 10%nat (Z.to_nat (u16_at d 12)) 14%nat)
    (read 2%nat 64%nat 4%nat) = true.

Definition runtime_accepts (ixs : list Instruction) : Prop :=
  Forall (precompile_verified ixs) ixs.

(** The handler's arguments are decoded from the executing top-level
    instruction: a direct invocation. *)
Definition embeds (ixs : list Instruction) (idx : nat) (off : Z) (msg : list byte) : Prop :=
  exists ix, ixs !! idx = Some ix /\
    slice (Z.to_nat off) (length msg) (ix_data ix) = msg.

Lemma load_instruction_pair_Ok ixs idx p s i :
  load_instruction_pair (sysvar_of_tx ixs idx) = Ok (p, s, i) <->
    (1 <= idx)%nat /\ ixs !! idx = Some s /\ ixs !! (idx - 1)%nat = Some p /\ i = Z.of_nat idx.
Proof.
  unfold load_instruction_pair, sysvar_of_tx. simpl. split.
  - intros H0. res_inv H0. bool_simpl.
    destruct (Z.ltb_spec (Z.of_nat idx) 0); [lia|].
    destruct (Z.ltb_spec (Z.of_nat idx - 1) 0); [lia|].
    rewrite Nat2Z.id in *. replace (Z.to_nat (Z.of_nat idx - 1)) with (idx - 1)%nat in * by lia.
    split_and!; done || lia.
  - intros (? & Hs & Hp & ->). step_guard lia.
    destruct (Z.ltb_spec (Z.of_nat idx) 0); [lia|].
    destruct (Z.ltb_spec (Z.of_nat idx - 1) 0); [lia|].
    rewrite Nat2Z.id, Hs. simpl.
    replace (Z.to_nat (Z.of_nat idx - 1)) with (idx - 1)%nat by lia. by rewrite Hp.
Qed.

(** A passed offset check means the oracle signed the span of the executing
    top-level instruction the offsets are pinned to. *)
Lemma offsets_signed_span ixs idx p s oracle off len minlen :
  runtime_accepts ixs -> is_u16 off -> is_u16 len -> Z.of_nat idx < 65535 ->
  ixs !! idx = Some s -> ixs !! (idx - 1)%nat = Some p ->
  verify_ed25519_offsets_at p (Z.of_nat idx) (ix_data s) oracle off len minlen = Ok tt ->
  exists sig, ed25519_verify oracle (slice (Z.to_nat off) (Z.to_nat len) (ix_data s)) sig = true.
Proof.
  intros Hrt Ho Hl Hidx Hs Hp Hv.
  apply verify_ed25519_offsets_at_iff in Hv as (Hid & Hlen & Hn & Hf & Hpk & _);
    [|ints|done..].
  eapply Forall_lookup_1 in Hrt; [|exact Hp].
  specialize (Hrt Hid Hn). cbv beta zeta in Hrt.
  apply ed25519_offsets_fields in Hf as (E2 & E4 & E6 & E8 & E10 & E12 & E14);
    [|ints|done..|].
  2: { unfold len_Z, PRECOMPILE_MIN_LEN, ED25519_HEADER_LEN, ED25519_PK_LEN,
         ED25519_SIG_LEN in Hlen. lia. }
  rewrite E2, E4, E6, E8, E10, E12, E14 in Hrt. unfold precompile_data_at in Hrt.
  unfold CUR_INSTRUCTION_INDEX in Hrt. rewrite Z.eqb_refl in Hrt.
  destruct (Z.eqb_spec (Z.of_nat idx) 65535); [lia|].
  rewrite Nat2Z.id, Hs in Hrt. simpl in Hrt.
  change (Z.to_nat PRECOMPILE_PK_OFFSET) with 16%nat in Hrt. rewrite Hpk in Hrt. eauto.
Qed.

(** C23. Top-level invocation: when the handler's message is the one embedded
    in the executing instruction, an accepted last-swap attestation was signed
    by the configured oracle over exactly that message, names this pool, has a
    past timestamp (the one returned) and a slot hash found in [SlotHashes]. *)
Theorem last_swap_attestation_sound ixs idx sh att now now_slot ts :
  runtime_accepts ixs -> Z.of_nat idx < 65535 ->
  length (att_msg att) = 112%nat ->
  embeds ixs idx IX_DATA_MSG_OFFSET (att_msg att) ->
  verify_last_swap_attestation (sysvar_of_tx ixs idx) sh att now now_slot = Ok ts ->
  (exists sig, ed25519_verify (att_oracle att) (att_msg att) sig = true) /\
  slice 0 32 (att_msg att) = att_amm_program_id att /\
  slice 32 32 (att_msg att) = att_pool_address att /\
  ts = message_last_swap_unix_ts (att_msg att) /\ 0 < ts <= now /\
  slot_hash_lookup sh (message_issued_slot (att_msg att)) = Some (slice 80 32 (att_msg att)).
Proof.
  intros Hrt Hidx Hlen (ix & Hix & Hmsg) Hv.
  unfold verify_last_swap_attestation in Hv. apply bind_Ok in Hv as ([[p s] i] & Hl & Hv).
  apply load_instruction_pair_Ok in Hl as (_ & Hs & Hp & ->). simplify_eq.
  apply bind_Ok in Hv as ([] & Ho & Hv).
  apply (offsets_signed_span ixs) in Ho; [|done|in_range|in_range|done..].
  change (Z.to_nat ATTESTATION_MSG_LEN) with 112%nat in Ho.
  rewrite <- Hlen, Hmsg in Ho.
  apply verify_attestation_message_iff in Hv. naive_solver.
Qed.

(** Top-level invocation: the same for the launch price - the oracle
    signed exactly the message, and price, slot and timestamp returned are
    the signed ones. *)
Theorem launch_price_attestation_sound ixs idx att now now_slot price fslot fts :
  runtime_accepts ixs -> Z.of_nat idx < 65535 ->
  length (lpa_msg att) = 168%nat ->
  embeds ixs idx LAUNCH_PRICE_MSG_OFFSET (lpa_msg att) ->
  verify_launch_price_attestation (sysvar_of_tx ixs idx) att now now_slot
    = Ok (price, fslot, fts) ->
  (exists sig, ed25519_verify (lpa_oracle att) (lpa_msg att) sig = true) /\
  slice 0 32 (lpa_msg att) = lpa_amm_program_id att /\
  slice 32 32 (lpa_msg att) = lpa_pool_address att /\
  slice 64 32 (lpa_msg att) = lpa_base_mint att /\
  slice 96 32 (lpa_msg att) = lpa_quote_mint att /\
  price = launch_price_message_price (lpa_msg att) /\
  price = lpa_launch_price_q64x64 att /\ 0 < price.
Proof.
  intros Hrt Hidx Hlen (ix & Hix & Hmsg) Hv.
  unfold verify_launch_price_attestation in Hv.
  apply bind_Ok in Hv as ([[p s] i] & Hl & Hv).
  apply load_instruction_pair_Ok in Hl as (_ & Hs & Hp & ->). simplify_eq.
  apply bind_Ok in Hv as ([] & Ho & Hv).
  apply (offsets_signed_span ixs) in Ho; [|done|in_range|in_range|done..].
  change (Z.to_nat LAUNCH_PRICE_MSG_LEN) with 168%nat in Ho.
  rewrite <- Hlen, Hmsg in Ho.
  apply verify_launch_price_message_iff in Hv. naive_solver.
Qed.
End Runtime.

(** C25. The signature check never reads the handler's own message: once some
    attestation of the configured oracle passes in a transaction, any other
    message naming any pool, with any past timestamp and a current slot hash,
    passes in its place. Only the direct-invocation premise of the soundness
    theorem ties the two, and the program does not check that it is invoked
    directly rather than by another program. *)
Theorem attestation_ignores_handler_message isv sh att forged now now_slot ts ts' :
  verify_last_swap_attestation isv sh att now now_slot = Ok ts ->
  att_oracle forged = att_oracle att ->
  verify_attestation_message (att_msg forged) (att_amm_program_id forged)
    (att_pool_address forged) now now_slot sh = Ok ts' ->
  verify_last_swap_attestation isv sh forged now now_slot = Ok ts'.
Proof.
  unfold verify_last_swap_attestation. intros H Ho Hm.
  apply bind_Ok in H as ([[p s] i] & -> & H). apply bind_Ok in H as ([] & H & _).
  simpl. rewrite Ho, H. done.
Qed.

(** ** A concrete transaction *)

Definition sample_oracle := key_of x07.
Definition sample_amm := key_of x01.
Definition sample_pool := key_of x02.
Definition sample_hash := key_of xaa.
Definition sample_slot_hashes : list byte := le_bytes 8 1 ++ le_bytes 8 500 ++ sample_hash.

(** A signature scheme for the examples: a signature starts with its key. *)
Definition sample_ed25519 : Ed25519 := fun pk _ sig => bool_decide (take 32 sig = pk).
Definition sample_sig : list byte := sample_oracle ++ zeroes 32.

(** A two-instruction transaction: the precompile, then the instruction whose
    data embeds [msg] at [off]. *)
Definition sample_tx (off : Z) (msg : list byte) : list Instruction :=
  [mkInstruction ED25519_PROGRAM_ID []
     (ed25519_canonical_data 1 off (len_Z msg) sample_oracle sample_sig);
   mkInstruction (key_of x05) [] (zeroes (Z.to_nat off) ++ msg)].

Definition sample_att (ts : Z) : AttestationRef :=
  mkAttestationRef (encode_last_swap sample_amm sample_pool ts 500 sample_hash)
    sample_amm sample_pool sample_oracle.

Definition sample_launch_att : LaunchPriceAttestationRef :=
  mkLaunchPriceAttestationRef
    (encode_launch_price sample_amm sample_pool (key_of x03) WSOL_MINT 400 900 (2 ^ 64) 450)
    sample_amm sample_pool (key_of x03) WSOL_MINT (2 ^ 64) sample_oracle.

Lemma sample_tx_accepted ts :
  runtime_accepts (H := sample_ed25519) (sample_tx 72 (att_msg (sample_att ts))) /\
  runtime_accepts (H := sample_ed25519) (sample_tx 152 (lpa_msg sample_launch_att)).
Proof.
  split; (apply Forall_cons; split; [|apply Forall_singleton; intros [=]]);
    intros _ _; vm_compute; reflexivity.
Qed.

Example slot_hash_lookup_spec_example :
  slot_hash_lookup sample_slot_hashes 500 = Some sample_hash /\
  slot_hash_lookup sample_slot_hashes 501 = None.
Proof. split; vm_compute; reflexivity. Qed.

Example last_swap_message_roundtrip_witness :
  verify_attestation_message (att_msg (sample_att 1000)) sample_amm sample_pool 2000 600
    sample_slot_hashes = Ok 1000.
Proof.
  refine (proj2 (last_swap_message_roundtrip sample_amm sample_pool sample_hash 1000 500 2000 600
    sample_slot_hashes 1000 eq_refl eq_refl eq_refl _ _) _); [in_range..|].
  split_and!; [done|lia..|vm_compute; reflexivity].
Defined.

Example launch_price_message_roundtrip_witness :
  is_ok (verify_launch_price_message
    (mkLaunchPriceAttestationRef
      (encode_launch_price sample_amm sample_pool (key_of x03) WSOL_MINT 400 900 (2 ^ 64) 450)
      sample_amm sample_pool (key_of x03) WSOL_MINT (2 ^ 64) sample_oracle) 2000 600) = true.
Proof.
  apply is_ok_true. exists (2 ^ 64, 400, 900).
  apply (launch_price_message_roundtrip sample_amm sample_pool (key_of x03) WSOL_MINT
    400 900 (2 ^ 64) 450 (2 ^ 64) sample_oracle 2000 600);
    [reflexivity..|in_range|in_range|in_range|in_range|].
  split_and!; done || lia.
Defined.

Example last_swap_attestation_sound_witness :
  exists sig, sample_ed25519 sample_oracle (att_msg (sample_att 1000)) sig = true.
Proof.
  refine (proj1 (last_swap_attestation_sound (H := sample_ed25519)
    (sample_tx 72 (att_msg (sample_att 1000))) 1 sample_slot_hashes (sample_att 1000)
    2000 600 1000 _ _ _ _ _)).
  - apply (sample_tx_accepted 1000).
  - lia.
  - reflexivity.
  - eexists. split; reflexivity.
  - vm_compute. reflexivity.
Defined.

Example launch_price_attestation_sound_witness :
  exists sig, sample_ed25519 sample_oracle (lpa_msg sample_launch_att) sig = true.
Proof.
  refine (proj1 (launch_price_attestation_sound (H := sample_ed25519)
    (sample_tx 152 (lpa_msg sample_launch_att)) 1 sample_launch_att 2000 600
    (2 ^ 64) 400 900 _ _ _ _ _)).
  - apply (sample_tx_accepted 1000).
  - lia.
  - reflexivity.
  - eexists. split; reflexivity.
  - vm_compute. reflexivity.
Defined.

(** The same transaction also carries a forged message for another pool that
    the oracle never signed (timestamp 1: inactive since 1970). *)
Definition forged_att : AttestationRef :=
  mkAttestationRef (encode_last_swap sample_amm (key_of x66) 1 500 sample_hash)
    sample_amm (key_of x66) sample_oracle.

Example attestation_ignores_handler_message_witness :
  att_msg forged_att <> att_msg (sample_att 1000) /\
  verify_last_swap_attestation (sysvar_of_tx (sample_tx 72 (att_msg (sample_att 1000))) 1)
    sample_slot_hashes forged_att 2000 600 = Ok 1.
Proof.
  split; [by vm_compute|].
  apply (attestation_ignores_handler_message _ _ (sample_att 1000) _ _ _ 1000);
    vm_compute; reflexivity.
Defined.
