(* ===== verification/AttestationTests.v ===== *)
(** * AttestationTests: the tests of attestation.rs

    [programs/grave-scanner/src/attestation.rs], modules [tests],
    [launch_price_tests] and [proptests]. The keys [Pubkey::new_unique] draws
    are distinct; here they are fixed. The three proptests that only ask for the
    absence of a panic say nothing of a total function and are left out. *)

From S2P Require Import Prelude TestKit Bytes Solana Criteria Attestation.

(** ** [mod tests]: fixtures *)

Definition build_precompile_data_at (sig pk : list byte) (msg_ix_index msg_off msg_len : Z) : list byte :=
  [x01; x00] ++ le_bytes 2 PRECOMPILE_SIG_OFFSET ++ le_bytes 2 CUR_INSTRUCTION_INDEX
  ++ le_bytes 2 PRECOMPILE_PK_OFFSET ++ le_bytes 2 CUR_INSTRUCTION_INDEX
  ++ le_bytes 2 msg_off ++ le_bytes 2 msg_len ++ le_bytes 2 msg_ix_index ++ pk ++ sig.
Definition build_precompile_data (sig pk : list byte) (msg_ix_index : Z) : list byte :=
  build_precompile_data_at sig pk msg_ix_index IX_DATA_MSG_OFFSET ATTESTATION_MSG_LEN.

Definition build_scanner_data (amm pool : Pubkey) (msg : list byte) : list byte := zeroes 8 ++ amm ++ pool ++ msg.
Definition build_msg (amm pool : Pubkey) (ts slot : Z) (hash : list byte) : list byte :=
  amm ++ pool ++ le_bytes 8 ts ++ le_bytes 8 slot ++ hash.
Definition build_slot_hashes (entries : list (Z * list byte)) : list byte :=
  le_bytes 8 (len_Z entries) ++ concat (map (fun e => le_bytes 8 (fst e) ++ snd e) entries).
Definition ok_ed25519_ix (oracle : Pubkey) (scanner_ix_index : Z) : Instruction :=
  mkInstruction ED25519_PROGRAM_ID [] (build_precompile_data (replicate 64 x07) oracle scanner_ix_index).

(** [d[i] = b] *)
Definition set_byte (i : nat) (b : byte) (d : list byte) : list byte := <[i := b]> d.

Definition oracle : Pubkey := key_of xc1.
Definition attacker : Pubkey := key_of xc2.
Definition amm : Pubkey := key_of xc3.
Definition pool : Pubkey := key_of xc4.
Definition other_pool : Pubkey := key_of xc5.

(** ** [mod tests] *)

(** The last-swap message of [ts] at [slot] is accepted through both checks. *)
Definition accepts_last_swap (now_ts ts slot now_slot : Z) (hash : list byte) (hashes : list byte) : bool :=
  let msg := build_msg amm pool ts slot hash in
  yields (verify_ed25519_offsets (ok_ed25519_ix oracle 1) 1 (build_scanner_data amm pool msg) oracle) tt
  && yields (verify_attestation_message msg amm pool now_ts now_slot hashes) ts.

Definition stale_pool_attestation_accepted_with_old_timestamp : bool :=
  let slot := 30000000 in
  let hash := xab :: zeroes 31 in
  accepts_last_swap 1800000000 (1800000000 - 100 * 24 * 60 * 60) slot (slot + 10) hash
    (build_slot_hashes [(29999000, key_of x01); (slot, hash)]).
Definition recently_active_pool_attestation_accepted_with_fresh_timestamp : bool :=
  let slot := 30000000 in
  accepts_last_swap 1800000000 (1800000000 - 60) slot slot (key_of x09) (build_slot_hashes [(slot, key_of x09)]).

(** The offset check on a default message, with another precompile
    instruction or cut scanner data. *)
Definition offsets_of (ix : Instruction) (scanner_data : list byte -> list byte) : result GraveScannerError unit :=
  verify_ed25519_offsets ix 1
    (scanner_data (build_scanner_data amm pool (build_msg amm pool 1700000000 30000000 (zeroes 32)))) oracle.

Definition manipulated_timestamp_fails_offset_validation_wrong_oracle : bool :=
  refused_with (offsets_of (ok_ed25519_ix attacker 1) id) AttestationOracleMismatch.
Definition manipulated_timestamp_fails_when_signed_message_is_not_params_msg : bool :=
  let bad_header := set_byte 11 x00 (set_byte 10 (Z_byte 40) (build_precompile_data (replicate 64 x07) oracle 1)) in
  refused_with (offsets_of (mkInstruction ED25519_PROGRAM_ID [] bad_header) id) InvalidAttestationOffsets.
Definition non_ed25519_preceding_instruction_is_missing_attestation : bool :=
  refused_with (offsets_of (mkInstruction (key_of xc6) [] (build_precompile_data (replicate 64 x07) oracle 1)) id)
    AttestationMissing.
Definition multi_signature_precompile_rejected : bool :=
  refused_with (offsets_of (mkInstruction ED25519_PROGRAM_ID []
    (set_byte 0 x02 (build_precompile_data (replicate 64 x07) oracle 1))) id) InvalidAttestationOffsets.
Definition message_pointing_at_another_instruction_rejected : bool :=
  refused_with (offsets_of (ok_ed25519_ix oracle 2) id) InvalidAttestationOffsets.
Definition truncated_scanner_instruction_data_rejected : bool :=
  refused_with (offsets_of (ok_ed25519_ix oracle 1) (take (Z.to_nat (IX_DATA_MIN_LEN - 1))))
    InvalidAttestationOffsets.

Definition manipulated_timestamp_fails_on_binding_mismatch : bool :=
  refused_with (verify_attestation_message (build_msg amm pool 1700000000 30000000 (zeroes 32)) amm other_pool
    1800000000 30000100 (build_slot_hashes [(30000000, zeroes 32)])) AttestationBindingMismatch.

(** The message check of [ts] at [slot], with the chain's own zero hash. *)
Definition message_of (ts slot : Z) : result GraveScannerError Z :=
  verify_attestation_message (build_msg amm pool ts slot (zeroes 32)) amm pool 1800000000 30000100
    (build_slot_hashes [(30000000, zeroes 32)]).
Definition manipulated_timestamp_rejects_zero_and_future_timestamps : bool :=
  refused_with (message_of 0 30000000) AttestationTimestampInvalid
  && refused_with (message_of (1800000000 + 1) 30000000) AttestationTimestampInvalid.
Definition manipulated_timestamp_rejects_future_and_zero_issued_slots : bool :=
  refused_with (message_of 1700000000 (30000100 + 1)) AttestationSlotInvalid
  && refused_with (message_of 1700000000 0) AttestationSlotInvalid.

Definition stale_attestation_rejected_once_slot_ages_out_of_window : bool :=
  refused_with (verify_attestation_message (build_msg amm pool 1700000000 30000000 (key_of x03)) amm pool
    1800000000 30010500 (build_slot_hashes [(30010000, key_of x03); (30010500, key_of x04)])) AttestationStale.
Definition slot_hash_mismatch_rejected : bool :=
  refused_with (verify_attestation_message (build_msg amm pool 1700000000 30000000 (key_of x01)) amm pool
    1800000000 30000100 (build_slot_hashes [(30000000, key_of x02)])) AttestationSlotHashMismatch.

Definition slot_hashes_lookup_finds_entry_and_fails_closed_on_malformed_data : bool :=
  let data := build_slot_hashes [(100, key_of x05); (200, key_of x06)] in
  same (slot_hash_lookup data 100) (Some (key_of x05)) && same (slot_hash_lookup data 200) (Some (key_of x06))
  && same (slot_hash_lookup data 300) None && same (slot_hash_lookup [] 100) None
  && same (slot_hash_lookup [x01; x00; x00] 100) None
  && same (slot_hash_lookup (take (8 + 40 + 20) data) 200) None.

Definition canonical_layout_constants_are_stable : bool :=
  same ATTESTATION_MSG_LEN 112 && same IX_DATA_MSG_OFFSET 72 && same IX_DATA_MIN_LEN 184
  && same PRECOMPILE_SIG_OFFSET 48 && same PRECOMPILE_PK_OFFSET 16 && same PRECOMPILE_MIN_LEN 112
  && same ED25519_HEADER_LEN 16 && same CUR_INSTRUCTION_INDEX 0xffff.

Lemma attestation_tests_pass : all_pass [
  stale_pool_attestation_accepted_with_old_timestamp; recently_active_pool_attestation_accepted_with_fresh_timestamp;
  manipulated_timestamp_fails_offset_validation_wrong_oracle;
  manipulated_timestamp_fails_when_signed_message_is_not_params_msg;
  manipulated_timestamp_fails_on_binding_mismatch; manipulated_timestamp_rejects_zero_and_future_timestamps;
  manipulated_timestamp_rejects_future_and_zero_issued_slots;
  stale_attestation_rejected_once_slot_ages_out_of_window; slot_hash_mismatch_rejected;
  non_ed25519_preceding_instruction_is_missing_attestation; multi_signature_precompile_rejected;
  message_pointing_at_another_instruction_rejected; truncated_scanner_instruction_data_rejected;
  slot_hashes_lookup_finds_entry_and_fails_closed_on_malformed_data; canonical_layout_constants_are_stable] = true.
Proof. run_suite. Qed.

(** ** [mod launch_price_tests]: fixtures *)

Definition base : Pubkey := key_of xc7.
Definition quote : Pubkey := key_of xc8.
Definition foreign : Pubkey := key_of xc9.

Definition build_record_ix_data (amm pool base quote : Pubkey) (price : Z) (msg : list byte) : list byte :=
  zeroes 8 ++ amm ++ pool ++ base ++ quote ++ le_bytes 16 price ++ msg.
Definition build_lp_msg (amm pool base quote : Pubkey) (first_swap_slot first_swap_ts price issued_slot : Z)
    : list byte :=
  amm ++ pool ++ base ++ quote ++ le_bytes 8 first_swap_slot ++ le_bytes 8 first_swap_ts ++ le_bytes 16 price
  ++ le_bytes 8 issued_slot.
Definition precompile_ix_at (program_id oracle : Pubkey) (msg_off : Z) : Instruction :=
  mkInstruction program_id [] (build_precompile_data_at (replicate 64 x07) oracle 1 msg_off LAUNCH_PRICE_MSG_LEN).
Definition ok_precompile_ix (oracle : Pubkey) : Instruction :=
  precompile_ix_at ED25519_PROGRAM_ID oracle LAUNCH_PRICE_MSG_OFFSET.

(** [Fixture], less the oracle (fixed) and the clock. *)
Record Fixture := mkFixture {
  f_pool : Pubkey; f_base : Pubkey; f_quote : Pubkey; f_price : Z; f_msg : list byte;
}.
Definition now_ts : Z := 1800000000.
Definition now_slot : Z := 30000000.
Definition with_message (first_slot first_ts price issued : Z) : Fixture :=
  mkFixture pool base quote price (build_lp_msg amm pool base quote first_slot first_ts price issued).
Definition valid_fixture : Fixture := with_message 29000000 (now_ts - 90 * 24 * 60 * 60) (2 ^ 64) 29900000.
Definition lp_ref (f : Fixture) : LaunchPriceAttestationRef :=
  mkLaunchPriceAttestationRef (f_msg f) amm (f_pool f) (f_base f) (f_quote f) (f_price f) oracle.
Definition verify_message (f : Fixture) : result GraveScannerError (Z * Z * Z) :=
  verify_launch_price_message (lp_ref f) now_ts now_slot.

(** ** [mod launch_price_tests] *)

Definition valid_launch_price_attestation_accepted : bool :=
  yields (verify_message valid_fixture) (f_price valid_fixture, 29000000, now_ts - 90 * 24 * 60 * 60).

Definition record_data : list byte :=
  build_record_ix_data amm pool base quote (f_price valid_fixture) (f_msg valid_fixture).
Definition record_offsets (ix : Instruction) (scanner_data : list byte) : result GraveScannerError unit :=
  verify_ed25519_offsets_at ix 1 scanner_data oracle LAUNCH_PRICE_MSG_OFFSET LAUNCH_PRICE_MSG_LEN
    LAUNCH_PRICE_IX_MIN_LEN.

Definition full_path_accepts_canonical_offsets_and_binding : bool :=
  yields (record_offsets (ok_precompile_ix oracle) record_data) tt
  && same (len_Z record_data) LAUNCH_PRICE_IX_MIN_LEN.
Definition msg_offset_moved_off_canonical_152_rejected : bool :=
  refused_with (record_offsets (precompile_ix_at ED25519_PROGRAM_ID oracle IX_DATA_MSG_OFFSET) record_data)
    InvalidAttestationOffsets.
Definition truncated_record_instruction_data_rejected : bool :=
  refused_with (record_offsets (ok_precompile_ix oracle)
    (take (Z.to_nat (LAUNCH_PRICE_IX_MIN_LEN - 1)) record_data)) InvalidAttestationOffsets.
Definition non_ed25519_preceding_instruction_rejected : bool :=
  refused_with (record_offsets (precompile_ix_at foreign oracle LAUNCH_PRICE_MSG_OFFSET) record_data)
    AttestationMissing.
Definition wrong_oracle_key_rejected : bool :=
  refused_with (record_offsets (ok_precompile_ix attacker) record_data) AttestationOracleMismatch.

(** [f.pool = ...], [f.base = ...], [f.quote = ...], [f.price += 1]. *)
Definition rebound (p b q : Pubkey) (price : Z) : Fixture := mkFixture p b q price (f_msg valid_fixture).
Definition binding_mismatch_pool_rejected : bool :=
  refused_with (verify_message (rebound foreign base quote (2 ^ 64))) AttestationBindingMismatch.
Definition binding_mismatch_base_mint_rejected : bool :=
  refused_with (verify_message (rebound pool foreign quote (2 ^ 64))) AttestationBindingMismatch.
Definition binding_mismatch_quote_mint_rejected : bool :=
  refused_with (verify_message (rebound pool base foreign (2 ^ 64))) AttestationBindingMismatch.
Definition binding_mismatch_price_rejected : bool :=
  refused_with (verify_message (rebound pool base quote (2 ^ 64 + 1))) AttestationBindingMismatch.

Definition zero_launch_price_rejected : bool :=
  refused_with (verify_message (with_message 29000000 1700000000 0 29900000)) InvalidLaunchPrice.
Definition extreme_price_values_accepted_and_preserved : bool :=
  forallb (fun price =>
    match verify_message (with_message 29000000 1700000000 price 29900000) with
    | Ok (out_price, _, _) => same out_price price
    | Err _ => false
    end) [1; 3; Z.shiftl (u_max 64) 64].
Definition first_swap_timestamp_zero_or_future_rejected : bool :=
  refused_with (verify_message (with_message 29000000 0 (2 ^ 64) 29900000)) AttestationTimestampInvalid
  && refused_with (verify_message (with_message 29000000 (now_ts + 1) (2 ^ 64) 29900000)) AttestationTimestampInvalid.
Definition first_swap_slot_zero_or_future_rejected : bool :=
  refused_with (verify_message (with_message 0 1700000000 (2 ^ 64) 29900000)) AttestationSlotInvalid
  && refused_with (verify_message (with_message (now_slot + 1) 1700000000 (2 ^ 64) 29900000)) AttestationSlotInvalid.
Definition issued_slot_zero_or_future_rejected : bool :=
  refused_with (verify_message (with_message 29000000 1700000000 (2 ^ 64) 0)) AttestationSlotInvalid
  && refused_with (verify_message (with_message 29000000 1700000000 (2 ^ 64) (now_slot + 1))) AttestationSlotInvalid.
Definition launch_price_layout_constants_are_stable : bool :=
  same LAUNCH_PRICE_MSG_LEN 168 && same LAUNCH_PRICE_MSG_OFFSET 152 && same LAUNCH_PRICE_IX_MIN_LEN 320.

Lemma launch_price_tests_pass : all_pass [
  valid_launch_price_attestation_accepted; full_path_accepts_canonical_offsets_and_binding;
  msg_offset_moved_off_canonical_152_rejected; truncated_record_instruction_data_rejected;
  non_ed25519_preceding_instruction_rejected; wrong_oracle_key_rejected; binding_mismatch_pool_rejected;
  binding_mismatch_base_mint_rejected; binding_mismatch_quote_mint_rejected; binding_mismatch_price_rejected;
  zero_launch_price_rejected; extreme_price_values_accepted_and_preserved;
  first_swap_timestamp_zero_or_future_rejected; first_swap_slot_zero_or_future_rejected;
  issued_slot_zero_or_future_rejected; launch_price_layout_constants_are_stable] = true.
Proof. run_suite. Qed.

(** ** [mod proptests] *)

(** Drawn entries: no two of a slot and, as the last assertion needs, no two of
    consecutive ones. Random slots are this way but for a vanishing chance. *)
Record drawn_entries (entries : list (Z * list byte)) : Prop := {
  de_count : (length entries <= 8)%nat;
  de_typed : Forall (fun e => is_u64 (fst e) /\ length (snd e) = 32%nat) entries;
  de_distinct : NoDup (map fst entries);
  de_apart : forall a b, a ∈ map fst entries -> b ∈ map fst entries -> b <> cast_u 64 (a + 1);
}.

Definition slot_hash_lookup_resolves_only_exact_slot : Prop := forall entries pick target_slot target_hash,
  drawn_entries entries -> entries !! pick = Some (target_slot, target_hash) ->
  let data := build_slot_hashes entries in
  slot_hash_lookup data target_slot = Some target_hash
  /\ slot_hash_lookup data (cast_u 64 (target_slot + 1)) = None.

Lemma chunk_slice {A} (f : A -> list byte) n l k x :
  Forall (fun y => length (f y) = n) l -> l !! k = Some x -> slice (n * k) n (concat (map f l)) = f x.
Proof.
  intros Hl. revert k. induction Hl as [|y l Hy Hl IH]; intros [|k]; [done..| |]; cbn [map concat lookup].
  - intros [= ->]. rewrite Nat.mul_0_r. by apply slice_app_l.
  - intros Hk. rewrite slice_app_r by (rewrite Hy; lia). rewrite Hy. replace (n * S k - n)%nat with (n * k)%nat by lia. by apply IH.
Qed.

Section SlotHashes.
Variable entries : list (Z * list byte).
Hypothesis Htyped : Forall (fun e => is_u64 (fst e) /\ length (snd e) = 32%nat) entries.
Hypothesis Hcount : is_u64 (len_Z entries).

Definition chunk (e : Z * list byte) : list byte := le_bytes 8 (fst e) ++ snd e.

Lemma chunk_length : Forall (fun e => length (chunk e) = 40%nat) entries.
Proof.
  eapply Forall_impl; [exact Htyped|]. intros e [_ He]. unfold chunk. by rewrite length_app, le_bytes_length, He.
Qed.

Lemma slot_hashes_length : len_Z (build_slot_hashes entries) = 8 + 40 * len_Z entries.
Proof.
  unfold len_Z, build_slot_hashes. rewrite length_app, le_bytes_length. fold chunk.
  assert (length (concat (map chunk entries)) = 40 * length entries)%nat as ->; [|lia].
  pose proof chunk_length as Hl. clear Htyped Hcount.
  induction Hl as [|e l He Hl IH]; [done|]. cbn [map concat length]. rewrite length_app. lia.
Qed.

Lemma slot_hashes_count : le_Z (slice 0 8 (build_slot_hashes entries)) = len_Z entries.
Proof.
  unfold build_slot_hashes. rewrite slice_app_l by apply le_bytes_length. by apply (le_roundtrip 8 64).
Qed.

(** Entry [k] of the sysvar is entry [k] of the list. *)
Lemma slot_hashes_entry k e :
  entries !! k = Some e ->
  slot_at (build_slot_hashes entries) (Z.of_nat k) = fst e /\ hash_at (build_slot_hashes entries) (Z.of_nat k) = snd e.
Proof.
  intros Hk. destruct (proj1 (Forall_lookup _ _) Htyped k e Hk) as [Hs Hh].
  assert (Hc : slice (8 + 40 * k) 40 (build_slot_hashes entries) = chunk e).
  { unfold build_slot_hashes. rewrite slice_app_r by (rewrite le_bytes_length; lia). rewrite le_bytes_length.
    replace (8 + 40 * k - 8)%nat with (40 * k)%nat by lia. by apply chunk_slice; [apply chunk_length|]. }
  unfold slot_at, hash_at.
  replace (Z.to_nat (8 + Z.of_nat k * 40)) with (8 + 40 * k + 0)%nat by lia.
  replace (Z.to_nat (8 + Z.of_nat k * 40 + 8)) with (8 + 40 * k + 8)%nat by lia.
  rewrite <- (slice_slice (8 + 40 * k) 40 0 8), <- (slice_slice (8 + 40 * k) 40 8 32) by lia. rewrite !Hc. unfold chunk. split.
  - rewrite slice_app_l by apply le_bytes_length. by apply (le_roundtrip 8 64).
  - by apply slice_end; [apply le_bytes_length|].
Qed.

(** What the sysvar declares is found, and nothing else is. *)
Lemma slot_hashes_lookup s h :
  slot_hash_lookup (build_slot_hashes entries) s = Some h <->
  exists k, entries !! k = Some (s, h) /\ forall j e, (j < k)%nat -> entries !! j = Some e -> fst e <> s.
Proof.
  rewrite slot_hash_lookup_spec, slot_hashes_count. unfold first_entry. split.
  - intros (_ & k & (Hk & _ & Hs & Hfst) & ->).
    destruct (lookup_lt_is_Some_2 entries (Z.to_nat k)) as [e He]; [unfold len_Z in *; lia|].
    destruct (slot_hashes_entry _ _ He) as [H1 H2]. rewrite Z2Nat.id in H1, H2 by lia.
    exists (Z.to_nat k). rewrite H2, <- Hs, H1, <- surjective_pairing. split; [done|].
    intros j x Hj Hx. rewrite <- H1, Hs. destruct (slot_hashes_entry _ _ Hx) as [<- _]. apply Hfst. lia.
  - intros (k & He & Hfst). split; [rewrite slot_hashes_length; unfold len_Z; lia|]. exists (Z.of_nat k). destruct (slot_hashes_entry _ _ He) as [H1 H2].
    pose proof (lookup_lt_Some _ _ _ He). split; [|done].
    pose proof slot_hashes_length as Hlen. rewrite Hlen. unfold len_Z in *. split_and!; [lia..|done|].
    intros j Hj. destruct (lookup_lt_is_Some_2 entries (Z.to_nat j)) as [e Hj']; [lia|].
    destruct (slot_hashes_entry _ _ Hj') as [H3 _]. rewrite Z2Nat.id in H3 by lia. rewrite H3.
    eapply Hfst; [|done]. lia.
Qed.
End SlotHashes.

Lemma slot_hash_proptest_holds : slot_hash_lookup_resolves_only_exact_slot.
Proof.
  intros entries pick s h [Hn Ht Hd Ha] Hp data. assert (Hc : is_u64 (len_Z entries)) by (unfold len_Z; ints).
  split.
  - apply slot_hashes_lookup; [done..|]. exists pick. split; [done|]. intros j e Hj He Heq.
    assert (j = pick); [|lia]. eapply (NoDup_lookup _ j pick s Hd); rewrite list_lookup_fmap.
    + by rewrite He, <- Heq.
    + by rewrite Hp.
  - destruct (slot_hash_lookup data _) as [x|] eqn:Hx; [|done]. exfalso.
    apply slot_hashes_lookup in Hx as (k & Hk & _); [|done..].
    eapply Ha; [| |reflexivity]; apply list_elem_of_fmap.
    + by exists (s, h); split; [|eapply list_elem_of_lookup_2].
    + eexists (_, x). split; [reflexivity|]. by eapply list_elem_of_lookup_2.
Qed.
