(* ===== verification/Adapters.v ===== *)
(** * Adapters: pool account parsing

    [programs/grave-scanner/src/adapters/{mod,raydium_v4,raydium_clmm,
    orca_whirlpool,pumpswap,meteora}.rs]: the AMM-agnostic snapshot, the
    dispatch on the pool's owner, the Raydium V4 layout parser and the four
    stubs. *)

From Stdlib Require Import Ascii String.
From S2P Require Import Prelude Bytes Solana Criteria.

Definition RAYDIUM_V4_PROGRAM_ID : Pubkey :=
  Eval vm_compute in pubkey "675kPX9MHTjS2zt1qfr1NYHuzeLXfQM9H24wFSUt1Mp8".
Definition RAYDIUM_CLMM_PROGRAM_ID : Pubkey :=
  Eval vm_compute in pubkey "CAMMCzo5YL8w4VFF8KVHrK22GGUsp5VTaW7grrKgrWqK".
Definition ORCA_WHIRLPOOL_PROGRAM_ID : Pubkey :=
  Eval vm_compute in pubkey "whirLbMiicVdio4qvUfM5KAg6Ct8VwpYzGff3uctyCc".
Definition PUMPSWAP_PROGRAM_ID : Pubkey :=
  Eval vm_compute in pubkey "PSwapMdSai8tjrEXcxFeQth87xC4rRsa4VA5mhGhXkP".
Definition METEORA_PROGRAM_ID : Pubkey :=
  Eval vm_compute in pubkey "LBUZKhRxPF3XUpBCjp4YzTKgLccjZhTSDM9YuVaPwxo".

(** ** PoolData *)

Record PoolData := mkPoolData {
  base_reserve : Z;
  quote_reserve : Z;
  pd_lp_supply : Z;
  base_mint : Pubkey;
  quote_mint : Pubkey;
  lp_mint : Pubkey;
}.

Record wf_pool_data (p : PoolData) : Prop := {
  wf_base_reserve : is_u64 (base_reserve p);
  wf_quote_reserve : is_u64 (quote_reserve p);
  wf_pd_lp_supply : is_u64 (pd_lp_supply p);
}.

Definition pool_price_q64x64 (self : PoolData) : result GraveScannerError Z :=
  require (0 <? base_reserve self) PoolDataParseError;;
  scaled ← ok_or (checked_shl_u 128 (quote_reserve self) 64) MathOverflow;
  ok_or (checked_div_u scaled (base_reserve self)) MathOverflow.

(** ** The Raydium V4 parser *)

Definition AMM_INFO_SIZE : nat := 752.
Definition TOKEN_ACCOUNT_SIZE : nat := 165.
Definition MINT_ACCOUNT_SIZE : nat := 82.
Definition COIN_VAULT : nat := 336.
Definition PC_VAULT : nat := 368.
Definition COIN_VAULT_MINT : nat := 400.
Definition PC_VAULT_MINT : nat := 432.
Definition LP_MINT : nat := 464.
Definition TOKEN_ACCOUNT_MINT : nat := 0.
Definition TOKEN_ACCOUNT_AMOUNT : nat := 64.
Definition MINT_SUPPLY : nat := 36.

Definition read_pubkey (data : list byte) (offset : nat) : result GraveScannerError Pubkey :=
  require (bool_decide (offset + 32 <= length data)%nat) PoolDataParseError;;
  mret (slice offset 32 data).

Definition read_u64_le (data : list byte) (offset : nat) : result GraveScannerError Z :=
  require (bool_decide (offset + 8 <= length data)%nat) PoolDataParseError;;
  mret (le_Z (slice offset 8 data)).

(** [remaining_accounts.iter().find(|i| i.key == key)] *)
Definition find_account (key : Pubkey) (remaining_accounts : list AccountInfo)
    : option AccountInfo :=
  List.find (fun i => bool_decide (ai_key i = key)) remaining_accounts.

Definition raydium_v4_parse (pool_account_info : AccountInfo)
    (remaining_accounts : list AccountInfo) : result GraveScannerError PoolData :=
  let data := ai_data pool_account_info in
  require (bool_decide (length data = AMM_INFO_SIZE)) PoolDataParseError;;
  coin_vault ← read_pubkey data COIN_VAULT;
  pc_vault ← read_pubkey data PC_VAULT;
  coin_vault_mint ← read_pubkey data COIN_VAULT_MINT;
  pc_vault_mint ← read_pubkey data PC_VAULT_MINT;
  lp_mint ← read_pubkey data LP_MINT;
  coin_vault_info ← ok_or (find_account coin_vault remaining_accounts) PoolDataParseError;
  pc_vault_info ← ok_or (find_account pc_vault remaining_accounts) PoolDataParseError;
  lp_mint_info ← ok_or (find_account lp_mint remaining_accounts) PoolDataParseError;
  require (bool_decide (ai_owner coin_vault_info = SPL_TOKEN_ID)) PoolDataParseError;;
  require (bool_decide (ai_owner pc_vault_info = SPL_TOKEN_ID)) PoolDataParseError;;
  require (bool_decide (ai_owner lp_mint_info = SPL_TOKEN_ID)) PoolDataParseError;;
  require (bool_decide (TOKEN_ACCOUNT_SIZE <= length (ai_data coin_vault_info))%nat)
    PoolDataParseError;;
  coin_actual_mint ← read_pubkey (ai_data coin_vault_info) TOKEN_ACCOUNT_MINT;
  coin_amount ← read_u64_le (ai_data coin_vault_info) TOKEN_ACCOUNT_AMOUNT;
  require (bool_decide (TOKEN_ACCOUNT_SIZE <= length (ai_data pc_vault_info))%nat)
    PoolDataParseError;;
  pc_actual_mint ← read_pubkey (ai_data pc_vault_info) TOKEN_ACCOUNT_MINT;
  pc_amount ← read_u64_le (ai_data pc_vault_info) TOKEN_ACCOUNT_AMOUNT;
  require (bool_decide (MINT_ACCOUNT_SIZE <= length (ai_data lp_mint_info))%nat)
    PoolDataParseError;;
  lp_supply ← read_u64_le (ai_data lp_mint_info) MINT_SUPPLY;
  require (bool_decide (coin_actual_mint = coin_vault_mint)) PoolDataParseError;;
  require (bool_decide (pc_actual_mint = pc_vault_mint)) PoolDataParseError;;
  mret (mkPoolData coin_amount pc_amount lp_supply coin_vault_mint pc_vault_mint lp_mint).

(** ** The stubs *)

Definition raydium_clmm_parse (_ : AccountInfo) (_ : list AccountInfo)
    : result GraveScannerError PoolData := Err AmmAdapterUnimplemented.
Definition orca_whirlpool_parse (_ : AccountInfo) (_ : list AccountInfo)
    : result GraveScannerError PoolData := Err AmmAdapterUnimplemented.
Definition pumpswap_parse (_ : AccountInfo) (_ : list AccountInfo)
    : result GraveScannerError PoolData := Err AmmAdapterUnimplemented.
Definition meteora_parse (_ : AccountInfo) (_ : list AccountInfo)
    : result GraveScannerError PoolData := Err AmmAdapterUnimplemented.

(** ** Dispatch *)

Definition extract_pool_data (pool_account_info : AccountInfo) (expected_pool_address : Pubkey)
    (remaining_accounts : list AccountInfo) : result GraveScannerError PoolData :=
  require (bool_decide (ai_key pool_account_info = expected_pool_address)) UnsupportedAmm;;
  let owner := ai_owner pool_account_info in
  if decide (owner = RAYDIUM_V4_PROGRAM_ID) then
    raydium_v4_parse pool_account_info remaining_accounts
  else if decide (owner = RAYDIUM_CLMM_PROGRAM_ID) then
    raydium_clmm_parse pool_account_info remaining_accounts
  else if decide (owner = ORCA_WHIRLPOOL_PROGRAM_ID) then
    orca_whirlpool_parse pool_account_info remaining_accounts
  else if decide (owner = PUMPSWAP_PROGRAM_ID) then
    pumpswap_parse pool_account_info remaining_accounts
  else if decide (owner = METEORA_PROGRAM_ID) then
    meteora_parse pool_account_info remaining_accounts
  else Err UnsupportedAmm.

(** ** Specification of a parsed Raydium pool *)

(** [a] is the account the parser reads for [key]: the first one supplied
    under that key, and it belongs to the SPL Token program. *)
Definition supplies (ras : list AccountInfo) (key : Pubkey) (a : AccountInfo) : Prop :=
  find_account key ras = Some a /\ ai_owner a = SPL_TOKEN_ID.

(** An SPL token account of mint [m] holding [amt]. *)
Definition token_account_holds (a : AccountInfo) (m : Pubkey) (amt : Z) : Prop :=
  (TOKEN_ACCOUNT_SIZE <= length (ai_data a))%nat /\
  slice TOKEN_ACCOUNT_MINT 32 (ai_data a) = m /\
  le_Z (slice TOKEN_ACCOUNT_AMOUNT 8 (ai_data a)) = amt.

Record raydium_view (pool : AccountInfo) (ras : list AccountInfo) (p : PoolData) : Prop := {
  rv_size : length (ai_data pool) = AMM_INFO_SIZE;
  rv_base_mint : base_mint p = slice COIN_VAULT_MINT 32 (ai_data pool);
  rv_quote_mint : quote_mint p = slice PC_VAULT_MINT 32 (ai_data pool);
  rv_lp_mint : lp_mint p = slice LP_MINT 32 (ai_data pool);
  rv_base : exists a, supplies ras (slice COIN_VAULT 32 (ai_data pool)) a /\
    token_account_holds a (base_mint p) (base_reserve p);
  rv_quote : exists a, supplies ras (slice PC_VAULT 32 (ai_data pool)) a /\
    token_account_holds a (quote_mint p) (quote_reserve p);
  rv_supply : exists a, supplies ras (lp_mint p) a /\
    (MINT_ACCOUNT_SIZE <= length (ai_data a))%nat /\
    le_Z (slice MINT_SUPPLY 8 (ai_data a)) = pd_lp_supply p;
}.

Lemma read_pubkey_in data off :
  (off + 32 <= length data)%nat -> read_pubkey data off = Ok (slice off 32 data).
Proof. intros. unfold read_pubkey. by rewrite bool_decide_eq_true_2. Qed.

Lemma read_u64_le_in data off :
  (off + 8 <= length data)%nat -> read_u64_le data off = Ok (le_Z (slice off 8 data)).
Proof. intros. unfold read_u64_le. by rewrite bool_decide_eq_true_2. Qed.

(** An error monad whose every failure is [e]. *)
Definition only_fails_with {E A} (e : E) (r : result E A) : Prop :=
  forall e', r = Err e' -> e' = e.

Lemma only_fails_bind {E A B} (e : E) (m : result E A) (f : A -> result E B) :
  only_fails_with e m -> (forall a, only_fails_with e (f a)) -> only_fails_with e (m ≫= f).
Proof. intros Hm Hf e' H. apply bind_Err in H as [H|(a & _ & H)]; [by apply Hm|by eapply Hf]. Qed.

Lemma only_fails_require {E} (e : E) b : only_fails_with e (require b e).
Proof. intros e' H. apply require_Err in H. naive_solver. Qed.

Lemma only_fails_ok_or {E A} (e : E) (o : option A) : only_fails_with e (ok_or o e).
Proof. intros e' H. apply ok_or_Err in H. naive_solver. Qed.

Lemma only_fails_ok {E A} (e : E) (a : A) : only_fails_with e (Ok a).
Proof. intros e' [=]. Qed.

#[export] Hint Resolve only_fails_bind only_fails_require only_fails_ok_or only_fails_ok : gy.

Lemma raydium_v4_parse_fails pool ras :
  only_fails_with PoolDataParseError (raydium_v4_parse pool ras).
Proof.
  unfold raydium_v4_parse, read_pubkey, read_u64_le, mret, result_ret.
  repeat (apply only_fails_bind; [auto 10 with gy|intros ?]); auto with gy.
Qed.

Lemma token_account_reads a :
  (TOKEN_ACCOUNT_SIZE <= length (ai_data a))%nat ->
  read_pubkey (ai_data a) TOKEN_ACCOUNT_MINT = Ok (slice TOKEN_ACCOUNT_MINT 32 (ai_data a)) /\
  read_u64_le (ai_data a) TOKEN_ACCOUNT_AMOUNT =
    Ok (le_Z (slice TOKEN_ACCOUNT_AMOUNT 8 (ai_data a))).
Proof.
  unfold TOKEN_ACCOUNT_SIZE, TOKEN_ACCOUNT_MINT, TOKEN_ACCOUNT_AMOUNT. intros.
  split; [apply read_pubkey_in|apply read_u64_le_in]; lia.
Qed.

Lemma amm_info_reads d off :
  length d = AMM_INFO_SIZE -> (off <= 720)%nat -> read_pubkey d off = Ok (slice off 32 d).
Proof. unfold AMM_INFO_SIZE. intros. apply read_pubkey_in. lia. Qed.

Lemma raydium_v4_parse_Ok pool ras p :
  raydium_v4_parse pool ras = Ok p -> raydium_view pool ras p.
Proof.
  unfold raydium_v4_parse. intros H.
  apply bind_Ok in H as ([] & Hlen & H). apply require_Ok in Hlen. bool_simpl.
  rewrite !amm_info_reads in H
    by (try done; unfold COIN_VAULT, PC_VAULT, COIN_VAULT_MINT, PC_VAULT_MINT, LP_MINT; lia).
  simpl in H. res_inv H. bool_simpl.
  repeat match goal with
  | H : read_pubkey (ai_data ?a) TOKEN_ACCOUNT_MINT = Ok _ |- _ =>
      rewrite (proj1 (token_account_reads a ltac:(done))) in H; simplify_eq H; intros
  | H : read_u64_le (ai_data ?a) TOKEN_ACCOUNT_AMOUNT = Ok _ |- _ =>
      rewrite (proj2 (token_account_reads a ltac:(done))) in H; simplify_eq H; intros
  | H : read_u64_le (ai_data ?a) MINT_SUPPLY = Ok _ |- _ =>
      rewrite read_u64_le_in in H by (unfold MINT_ACCOUNT_SIZE, MINT_SUPPLY in *; lia);
      simplify_eq H; intros
  end.
  subst. constructor; simpl; try done.
  all: eexists; repeat split; done.
Qed.

Lemma raydium_view_parse pool ras p :
  raydium_view pool ras p -> raydium_v4_parse pool ras = Ok p.
Proof.
  destruct p as [b q s bm qm lm].
  intros [Hlen Hbm Hqm Hlm (ca & [Hc Hco] & Hcl & Hcm & Hca)
    (pa & [Hp Hpo] & Hpl & Hpm & Hpa) (la & [Hl Hlo] & Hll & Hls)]. simpl in *.
  unfold raydium_v4_parse. rewrite (bool_decide_eq_true_2 _ Hlen). simpl.
  rewrite !amm_info_reads
    by (try done; unfold COIN_VAULT, PC_VAULT, COIN_VAULT_MINT, PC_VAULT_MINT, LP_MINT; lia).
  simpl. rewrite <- Hlm, Hc, Hp, Hl. simpl.
  rewrite !bool_decide_eq_true_2 by done. simpl.
  destruct (token_account_reads ca Hcl) as [-> ->].
  destruct (token_account_reads pa Hpl) as [-> ->]. simpl.
  rewrite read_u64_le_in by (unfold MINT_ACCOUNT_SIZE, MINT_SUPPLY in *; lia). simpl.
  rewrite !bool_decide_eq_true_2 by (etrans; done). simpl.
  by rewrite Hca, Hpa, Hls, <- Hbm, <- Hqm.
Qed.

(** The Raydium V4 parser returns a snapshot exactly when the 752-byte
    pool names two SPL token accounts and an SPL mint that are all supplied,
    of sufficient size, and of the mints the pool claims; the snapshot is
    what they say. Every other input fails, always with
    [PoolDataParseError]. *)
Theorem raydium_v4_parse_spec pool ras :
  match raydium_v4_parse pool ras with
  | Ok p => raydium_view pool ras p
  | Err e => e = PoolDataParseError /\ forall p, ~ raydium_view pool ras p
  end.
Proof.
  destruct (raydium_v4_parse pool ras) as [p|e] eqn:H; [by apply raydium_v4_parse_Ok|].
  split; [by eapply raydium_v4_parse_fails|].
  intros p Hv. apply raydium_view_parse in Hv. congruence.
Qed.

Lemma le_Z_slice_u64 d off : (off + 8 <= length d)%nat -> is_u64 (le_Z (slice off 8 d)).
Proof. intros. apply le_Z_is_u. by rewrite slice_length. Qed.

Lemma raydium_view_wf pool ras p : raydium_view pool ras p -> wf_pool_data p.
Proof.
  intros [Hlen _ _ _ (ca & _ & Hcl & _ & Hb) (pa & _ & Hpl & _ & Hq) (la & _ & Hll & Hs)].
  unfold TOKEN_ACCOUNT_SIZE, MINT_ACCOUNT_SIZE, TOKEN_ACCOUNT_AMOUNT, MINT_SUPPLY in *.
  constructor; [rewrite <- Hb|rewrite <- Hq|rewrite <- Hs]; apply le_Z_slice_u64; lia.
Qed.

Lemma extract_pool_data_Ok pool key ras p :
  extract_pool_data pool key ras = Ok p <->
    ai_key pool = key /\ ai_owner pool = RAYDIUM_V4_PROGRAM_ID /\
    raydium_v4_parse pool ras = Ok p.
Proof.
  unfold extract_pool_data. split.
  - intros H. apply bind_Ok in H as ([] & Hk & H). apply require_Ok in Hk. bool_simpl.
    repeat case_decide; by simplify_eq/=.
  - intros (Hk & Ho & Hp). rewrite bool_decide_eq_true_2 by done. simpl. by rewrite decide_True.
Qed.

Lemma find_account_perm ras ras' key :
  NoDup (map ai_key ras) -> ras ≡ₚ ras' -> find_account key ras = find_account key ras'.
Proof.
  intros Hnd Hp. revert Hnd. unfold find_account.
  induction Hp as [|x l l' _ IH|x y l|l l' l'' H1 IH1 H2 IH2]; intros Hnd; simpl in *.
  - done.
  - apply NoDup_cons in Hnd as [_ Hnd]. by rewrite IH.
  - destruct (bool_decide (ai_key y = key)) eqn:Hy, (bool_decide (ai_key x = key)) eqn:Hx; try done.
    bool_simpl. apply NoDup_cons in Hnd as [Hnd _]. rewrite elem_of_cons in Hnd. naive_solver.
  - rewrite IH1 by done. apply IH2. by rewrite <- H1.
Qed.

Lemma raydium_view_perm pool ras ras' p :
  NoDup (map ai_key ras) -> ras ≡ₚ ras' -> raydium_view pool ras p <-> raydium_view pool ras' p.
Proof.
  intros Hnd Hp.
  assert (Hs : forall k a, supplies ras k a <-> supplies ras' k a).
  { intros. unfold supplies. by rewrite (find_account_perm ras ras'). }
  split; intros []; constructor; try done; by setoid_rewrite Hs || by setoid_rewrite <- Hs.
Qed.

(** Only Raydium V4 pools are ever read: the dispatch yields a snapshot
    exactly when the account is the expected one, its owner is the Raydium V4
    program and the parser accepts it; and with distinct account keys the
    order of the supplied accounts is irrelevant. *)
Theorem extract_pool_data_spec pool key ras ras' p :
  NoDup (map ai_key ras) -> ras ≡ₚ ras' ->
  (extract_pool_data pool key ras = Ok p <->
    ai_key pool = key /\ ai_owner pool = RAYDIUM_V4_PROGRAM_ID /\ raydium_view pool ras' p).
Proof.
  intros Hnd Hp. rewrite extract_pool_data_Ok, <- (raydium_view_perm pool ras ras' p) by done.
  split; intros (? & ? & H); split_and!; try done.
  - by apply raydium_v4_parse_Ok.
  - by apply raydium_view_parse.
Qed.

(** ** Price *)

Lemma pool_price_q64x64_spec p :
  is_u64 (quote_reserve p) ->
  pool_price_q64x64 p =
    if 0 <? base_reserve p then Ok (quote_reserve p * 2 ^ 64 / base_reserve p)
    else Err PoolDataParseError.
Proof.
  intros Hq. unfold pool_price_q64x64. destruct (Z.ltb_spec 0 (base_reserve p)); [simpl|done].
  unfold checked_shl_u. simpl. unfold checked_div_u.
  destruct (Z.eqb_spec (base_reserve p) 0); [lia|].
  rewrite Z.shiftl_mul_pow2, Z.mod_small by ints. done.
Qed.

Lemma pool_price_q64x64_range p v :
  wf_pool_data p -> pool_price_q64x64 p = Ok v -> is_u128 v.
Proof.
  intros [Hb Hq _]. rewrite pool_price_q64x64_spec by done.
  destruct (Z.ltb_spec 0 (base_reserve p)); [|done]. intros [= <-]. split.
  - apply Z.div_pos; ints.
  - apply Z.div_lt_upper_bound; [done|]. unfold_ints. nia.
Qed.

(** The Q64.64 price is [floor(quote * 2^64 / base)] and always fits
    [u128]; the only failure is a pool without base reserve, and it is
    [PoolDataParseError]. *)
Theorem pool_price_exact p :
  wf_pool_data p ->
  match pool_price_q64x64 p with
  | Ok v => 0 < base_reserve p /\ is_u128 v /\
      v * base_reserve p <= quote_reserve p * 2 ^ 64 < (v + 1) * base_reserve p
  | Err e => e = PoolDataParseError /\ base_reserve p = 0
  end.
Proof.
  intros Hwf. destruct (pool_price_q64x64 p) as [v|e] eqn:Hv.
  - pose proof (pool_price_q64x64_range _ _ Hwf Hv). destruct Hwf as [Hb Hq _].
    rewrite pool_price_q64x64_spec in Hv by done.
    destruct (Z.ltb_spec 0 (base_reserve p)) as [Hpos|]; [|done]. simplify_eq.
    split_and!; try done.
    + rewrite Z.mul_comm. by apply Z.mul_div_le.
    + pose proof (Z.mul_succ_div_gt (quote_reserve p * 2 ^ 64) (base_reserve p) Hpos). lia.
  - destruct Hwf as [Hb Hq _]. rewrite pool_price_q64x64_spec in Hv by done.
    destruct (Z.ltb_spec 0 (base_reserve p)); [done|]. simplify_eq. split; [done|]. ints.
Qed.

(** ** Building accounts, for the examples *)

Definition amm_info (coin_vault pc_vault coin_mint pc_mint lp : Pubkey) : list byte :=
  zeroes 336 ++ coin_vault ++ pc_vault ++ coin_mint ++ pc_mint ++ lp ++ zeroes 256.
Definition spl_token_account (mint owner : Pubkey) (amount : Z) : list byte :=
  mint ++ owner ++ le_bytes 8 amount ++ zeroes 93.
Definition spl_mint (supply : Z) : list byte := zeroes 36 ++ le_bytes 8 supply ++ zeroes 38.

Definition sample_pool_account (pool_key : Pubkey) : AccountInfo :=
  mkAccountInfo pool_key 1 (amm_info (key_of x11) (key_of x12) (key_of x13) WSOL_MINT (key_of x14))
    RAYDIUM_V4_PROGRAM_ID false.
Definition sample_vaults (base quote supply : Z) : list AccountInfo :=
  [mkAccountInfo (key_of x11) 1 (spl_token_account (key_of x13) (key_of x01) base) SPL_TOKEN_ID false;
   mkAccountInfo (key_of x12) 1 (spl_token_account WSOL_MINT (key_of x01) quote) SPL_TOKEN_ID false;
   mkAccountInfo (key_of x14) 1 (spl_mint supply) SPL_TOKEN_ID false].
Definition sample_pool_data (base quote supply : Z) : PoolData :=
  mkPoolData base quote supply (key_of x13) WSOL_MINT (key_of x14).

Example extract_pool_data_spec_witness :
  raydium_view (sample_pool_account (key_of x02)) (reverse (sample_vaults 1000 2000 3000))
    (sample_pool_data 1000 2000 3000).
Proof.
  refine (proj2 (proj2 (proj1 (extract_pool_data_spec (sample_pool_account (key_of x02))
    (key_of x02) (sample_vaults 1000 2000 3000) (reverse (sample_vaults 1000 2000 3000))
    (sample_pool_data 1000 2000 3000) _ _) _))).
  - by apply (bool_decide_unpack _); vm_compute.
  - symmetry. apply reverse_Permutation.
  - vm_compute. reflexivity.
Defined.

Example pool_price_exact_witness :
  wf_pool_data (sample_pool_data 1000 2000 3000) /\
  pool_price_q64x64 (sample_pool_data 1000 2000 3000) = Ok (2 ^ 65) /\
  2 ^ 65 * 1000 <= 2000 * 2 ^ 64 < (2 ^ 65 + 1) * 1000.
Proof.
  assert (Hwf : wf_pool_data (sample_pool_data 1000 2000 3000)) by (constructor; in_range).
  assert (Hv : pool_price_q64x64 (sample_pool_data 1000 2000 3000) = Ok (2 ^ 65))
    by (vm_compute; reflexivity).
  pose proof (pool_price_exact _ Hwf) as H. rewrite Hv in H.
  exact (conj Hwf (conj Hv (proj2 (proj2 H)))).
Defined.
