(* ===== verification/Locker.v ===== *)
(** * Locker: Criterion 5 evidence

    [programs/grave-scanner/src/adapters/locker.rs]: the UNCX Raydium V4
    locker adapter. The PDA derivation is the runtime's
    ([Solana.PdaDerivation]); everything else is read off the accounts. *)

From Stdlib Require Import Ascii String.
From S2P Require Import Prelude Bytes Solana Criteria.

Definition UNCX_PROGRAM_ID : Pubkey :=
  Eval vm_compute in pubkey "GsSCS3vPWrtJ5Y9aEVVT65fmrex5P5RGHXdZvsdbWgfo".
Definition TOKEN_LOCK_DISC : list byte := [x49; xe4; x90; xf1; x9a; x2c; x5d; xee].
Definition MARKER_DISC : list byte := [xc2; xd5; x88; xe2; x4a; x7e; x7b; xb2].

(** Byte-string literals [b"..."]. *)
Definition bytes_of (s : string) : list byte := list_byte_of_string s.

Definition TOKEN_LOCK_SEED : list byte := bytes_of "uncx_locker".
Definition MARKER_SEED : list byte := bytes_of "global_lp_tracker".
Definition TOKEN_LOCK_SIZE : nat := 146.
Definition MARKER_SIZE : nat := 9.
Definition AMM_ID : nat := 9.
Definition LOCK_LP_MINT : nat := 41.
Definition LOCK_GLOBAL_ID : nat := 73.
Definition CURRENT_LOCKED_AMOUNT : nat := 106.

Section Locker.
Context `{PdaDerivation}.

Definition token_lock_address (lock_global_id : Z) : Pubkey :=
  fst (find_program_address [TOKEN_LOCK_SEED; le_bytes 8 lock_global_id] UNCX_PROGRAM_ID).

Definition marker_address (amm_id : Pubkey) : Pubkey :=
  fst (find_program_address [MARKER_SEED; amm_id] UNCX_PROGRAM_ID).

(** The four locals of the loop. *)
Record LockScan := mkLockScan {
  marker_present_on_chain : bool;
  marker_supplied : bool;
  locks_seen : Z;                    (* u32 *)
  total_locked : Z;                  (* u64 *)
}.

Definition scan_start : LockScan := mkLockScan false false 0 0.

(** The body of the loop over [remaining_accounts]. *)
Definition scan_account (lp_mint pool_address expected_marker : Pubkey)
    (s : LockScan) (account : AccountInfo) : result GraveScannerError LockScan :=
  let data := ai_data account in
  if bool_decide (length data = 0%nat) && (ai_lamports account =? 0) then
    if decide (ai_key account = expected_marker)
    then Ok (mkLockScan (marker_present_on_chain s) true (locks_seen s) (total_locked s))
    else Ok s
  else if negb (bool_decide (ai_owner account = UNCX_PROGRAM_ID)) then Ok s
  else if decide (ai_key account = expected_marker) then
    require (bool_decide (length data = MARKER_SIZE)) InvalidLockerAccount;;
    require (bool_decide (take 8 data = MARKER_DISC)) InvalidLockerAccount;;
    mret (mkLockScan true true (locks_seen s) (total_locked s))
  else
    require (bool_decide (length data = TOKEN_LOCK_SIZE)) InvalidLockerAccount;;
    require (bool_decide (take 8 data = TOKEN_LOCK_DISC)) InvalidLockerAccount;;
    let lock_global_id := le_Z (slice LOCK_GLOBAL_ID 8 data) in
    require (bool_decide (ai_key account = token_lock_address lock_global_id))
      InvalidLockerAccount;;
    require (bool_decide (slice AMM_ID 32 data = pool_address)) LockerAccountMismatch;;
    require (bool_decide (slice LOCK_LP_MINT 32 data = lp_mint)) LockerAccountMismatch;;
    let current_locked := le_Z (slice CURRENT_LOCKED_AMOUNT 8 data) in
    total ← ok_or (checked_add_u 64 (total_locked s) current_locked) MathOverflow;
    seen ← ok_or (checked_add_u 32 (locks_seen s) 1) MathOverflow;
    mret (mkLockScan (marker_present_on_chain s) (marker_supplied s) seen total).

Definition uncx_locked_lp_amount (lp_mint pool_address : Pubkey)
    (remaining_accounts : list AccountInfo) : result GraveScannerError Z :=
  let expected_marker := marker_address pool_address in
  s ← foldM (scan_account lp_mint pool_address expected_marker) scan_start remaining_accounts;
  require (marker_supplied s) LockerMarkerAccountRequired;;
  (if marker_present_on_chain s
   then require (0 <? locks_seen s) LockerLockEvidenceRequired
   else require (locks_seen s =? 0) InvalidLockerAccount);;
  mret (total_locked s).

Definition locked_lp_amount (lp_mint pool_address : Pubkey)
    (remaining_accounts : list AccountInfo) : result GraveScannerError Z :=
  uncx_locked_lp_amount lp_mint pool_address remaining_accounts.

(** ** What one account contributes *)

Inductive evidence :=
| Irrelevant
| MarkerAbsent        (* the derived marker, not on chain *)
| MarkerOnChain       (* a valid marker account *)
| Lock (amount : Z)   (* a valid TokenLock of this pool and mint *)
| Malformed.          (* owned by the locker, but none of the above *)

#[export] Instance evidence_eq_dec : EqDecision evidence.
Proof. solve_decision. Defined.

Definition valid_lock (lp_mint pool : Pubkey) (a : AccountInfo) : Prop :=
  length (ai_data a) = TOKEN_LOCK_SIZE /\ take 8 (ai_data a) = TOKEN_LOCK_DISC /\
  ai_key a = token_lock_address (le_Z (slice LOCK_GLOBAL_ID 8 (ai_data a))) /\
  slice AMM_ID 32 (ai_data a) = pool /\ slice LOCK_LP_MINT 32 (ai_data a) = lp_mint.

Definition valid_marker (a : AccountInfo) : Prop :=
  length (ai_data a) = MARKER_SIZE /\ take 8 (ai_data a) = MARKER_DISC.

#[export] Instance valid_lock_dec lp_mint pool a : Decision (valid_lock lp_mint pool a).
Proof. unfold valid_lock. apply _. Defined.
#[export] Instance valid_marker_dec a : Decision (valid_marker a).
Proof. unfold valid_marker. apply _. Defined.

Definition on_chain (a : AccountInfo) : Prop :=
  ~ (length (ai_data a) = 0%nat /\ ai_lamports a = 0).
#[export] Instance on_chain_dec a : Decision (on_chain a).
Proof. unfold on_chain. apply _. Defined.

Definition classify (lp_mint pool : Pubkey) (a : AccountInfo) : evidence :=
  if decide (on_chain a) then
    if decide (ai_owner a = UNCX_PROGRAM_ID) then
      if decide (ai_key a = marker_address pool)
      then if decide (valid_marker a) then MarkerOnChain else Malformed
      else if decide (valid_lock lp_mint pool a)
      then Lock (le_Z (slice CURRENT_LOCKED_AMOUNT 8 (ai_data a))) else Malformed
    else Irrelevant
  else if decide (ai_key a = marker_address pool) then MarkerAbsent else Irrelevant.

(** The amounts of the locks among some evidence. *)
Definition lock_amount (e : evidence) : option Z :=
  match e with Lock n => Some n | _ => None end.
Definition lock_amounts (es : list evidence) : list Z := omap lock_amount es.

(** When evidence proves the locked amount [n]. *)
Record proves (es : list evidence) (n : Z) : Prop := {
  pv_wellformed : Malformed ∉ es;
  pv_marker : MarkerAbsent ∈ es \/ MarkerOnChain ∈ es;
  pv_complete : MarkerOnChain ∈ es <-> lock_amounts es <> [];
  pv_total : n = sum_Z (lock_amounts es);
  pv_fits : is_u64 n;
  pv_count : is_u32 (Z.of_nat (length (lock_amounts es)));
}.

(** ** The scan in terms of evidence *)

Lemma scan_account_classify lp_mint pool s a :
  match classify lp_mint pool a with
  | Irrelevant => scan_account lp_mint pool (marker_address pool) s a = Ok s
  | MarkerAbsent => scan_account lp_mint pool (marker_address pool) s a =
      Ok (mkLockScan (marker_present_on_chain s) true (locks_seen s) (total_locked s))
  | MarkerOnChain => scan_account lp_mint pool (marker_address pool) s a =
      Ok (mkLockScan true true (locks_seen s) (total_locked s))
  | Lock n => is_u64 n /\ scan_account lp_mint pool (marker_address pool) s a =
      (total ← ok_or (checked_add_u 64 (total_locked s) n) MathOverflow;
       seen ← ok_or (checked_add_u 32 (locks_seen s) 1) MathOverflow;
       Ok (mkLockScan (marker_present_on_chain s) (marker_supplied s) seen total))
  | Malformed => is_ok (scan_account lp_mint pool (marker_address pool) s a) = false
  end.
Proof.
  unfold classify, scan_account. destruct (decide (on_chain a)) as [Hon|Hon].
  - replace (bool_decide (length (ai_data a) = 0%nat) && (ai_lamports a =? 0)) with false
      by (unfold on_chain in Hon; symmetry; apply not_true_iff_false; intros Hf; bool_simpl; tauto).
    destruct (decide (ai_owner a = UNCX_PROGRAM_ID)) as [Ho|Ho];
      [rewrite bool_decide_eq_true_2 by done|by rewrite bool_decide_eq_false_2 by done].
    cbn [negb]. destruct (decide (ai_key a = marker_address pool)) as [Hk|Hk].
    + destruct (decide (valid_marker a)) as [[? ?]|Hv].
      * by rewrite !bool_decide_eq_true_2 by done.
      * apply not_true_iff_false. rewrite is_ok_true. intros [s' Hok]. res_inv Hok. bool_simpl.
        by apply Hv.
    + destruct (decide (valid_lock lp_mint pool a)) as [Hv|Hv].
      * pose proof Hv as (Hlen & ? & ? & ? & ?). rewrite !bool_decide_eq_true_2 by done.
        split; [|done]. apply le_Z_is_u. rewrite slice_length; [done|].
        rewrite Hlen. unfold CURRENT_LOCKED_AMOUNT, TOKEN_LOCK_SIZE. lia.
      * apply not_true_iff_false. rewrite is_ok_true. intros [s' Hok]. res_inv Hok. bool_simpl.
        by apply Hv.
  - replace (bool_decide (length (ai_data a) = 0%nat) && (ai_lamports a =? 0)) with true
      by (unfold on_chain in Hon; symmetry; bool_goal; by apply dec_stable).
    by destruct (decide (ai_key a = marker_address pool)).
Qed.

(** The loop's state after evidence [es], from a given state. *)
Definition is_on_chain (e : evidence) : bool :=
  match e with MarkerOnChain => true | _ => false end.
Definition is_marker (e : evidence) : bool :=
  match e with MarkerAbsent | MarkerOnChain => true | _ => false end.
Definition is_malformed (e : evidence) : bool :=
  match e with Malformed => true | _ => false end.

Definition scan_result (s : LockScan) (es : list evidence) : LockScan :=
  mkLockScan (marker_present_on_chain s || existsb is_on_chain es)
    (marker_supplied s || existsb is_marker es)
    (locks_seen s + Z.of_nat (length (lock_amounts es)))
    (total_locked s + sum_Z (lock_amounts es)).

Definition scan_fits (s : LockScan) : Prop :=
  is_u64 (total_locked s) /\ is_u32 (locks_seen s).

Lemma lock_amounts_nonneg lp_mint pool l :
  Forall (fun n => 0 <= n) (lock_amounts (map (classify lp_mint pool) l)).
Proof.
  apply Forall_forall. intros n Hn. apply list_elem_of_omap in Hn as (e & He & Hn).
  apply list_elem_of_In, in_map_iff in He as (a & <- & _).
  pose proof (scan_account_classify lp_mint pool scan_start a) as Hs.
  destruct (classify lp_mint pool a); simplify_eq/=. unfold is_u in Hs. lia.
Qed.

Lemma scan_loop lp_mint pool l s s' :
  scan_fits s ->
  let es := map (classify lp_mint pool) l in
  foldM (scan_account lp_mint pool (marker_address pool)) s l = Ok s' <->
    existsb is_malformed es = false /\ s' = scan_result s es /\ scan_fits s'.
Proof.
  simpl. revert s. induction l as [|a l IH]; intros s Hs.
  { destruct s as [p m c t]. unfold scan_result. simpl.
    rewrite !orb_false_r, !Z.add_0_r. split; [by intros [= <-]|by intros (_ & -> & _)]. }
  pose proof (scan_account_classify lp_mint pool s a) as Ha.
  pose proof (lock_amounts_nonneg lp_mint pool l) as Hnn. apply sum_Z_nonneg in Hnn.
  cbn [foldM map]. destruct s as [p m c t], Hs as [Ht Hc]. unfold scan_fits, scan_result in *.
  destruct (classify lp_mint pool a) as [| | |n|]; simpl in *.
  - rewrite Ha. simpl. rewrite IH by done. done.
  - rewrite Ha. simpl. rewrite IH by done. simpl. by rewrite !orb_true_r, ?orb_true_l.
  - rewrite Ha. simpl. rewrite IH by done. simpl. by rewrite !orb_true_r.
  - destruct Ha as [Hn ->]. unfold checked_add_u.
    destruct (in_u 64 (t + n)) eqn:Hfit; simpl.
    2: { apply not_true_iff_false in Hfit. rewrite in_u_spec in Hfit.
         split; [done|]. intros (_ & -> & Hf & _). simpl in Hf. destruct Hfit. ints. }
    destruct (in_u 32 (c + 1)) eqn:Hfit'; simpl.
    2: { apply not_true_iff_false in Hfit'. rewrite in_u_spec in Hfit'.
         split; [done|]. intros (_ & -> & _ & Hf). simpl in Hf. destruct Hfit'. ints. }
    apply in_u_spec in Hfit, Hfit'. rewrite IH by done. simpl.
    rewrite Nat2Z.inj_succ, <- !Z.add_assoc, Z.add_1_l. done.
  - destruct (scan_account _ _ _ _ a); simpl in *; [done|]. naive_solver.
Qed.

Lemma existsb_elem (f : evidence -> bool) es : existsb f es = true <-> exists e, e ∈ es /\ f e = true.
Proof. rewrite existsb_exists. by setoid_rewrite list_elem_of_In. Qed.

Lemma malformed_iff es : existsb is_malformed es = false <-> Malformed ∉ es.
Proof.
  rewrite <- not_true_iff_false, existsb_elem. split; [intros Hn ?; apply Hn; by exists Malformed|].
  intros Hn (e & He & ?). by destruct e.
Qed.

Lemma on_chain_iff es : existsb is_on_chain es = true <-> MarkerOnChain ∈ es.
Proof.
  rewrite existsb_elem. split; [intros (e & He & ?); by destruct e|]. intros. by exists MarkerOnChain.
Qed.

Lemma marker_iff es :
  existsb is_marker es = true <-> MarkerAbsent ∈ es \/ MarkerOnChain ∈ es.
Proof.
  rewrite existsb_elem. split.
  - intros (e & He & ?). destruct e; naive_solver.
  - intros [?|?]; by eexists.
Qed.

(** C35. Criterion 5: the adapter reports a locked amount exactly when the
    supplied accounts prove it - nothing malformed, the pool's marker
    supplied, locks supplied if and only if the marker is on chain - and the
    amount is the sum over the supplied locks. *)
Theorem locked_lp_amount_spec lp_mint pool ras n :
  locked_lp_amount lp_mint pool ras = Ok n <-> proves (map (classify lp_mint pool) ras) n.
Proof.
  unfold locked_lp_amount, uncx_locked_lp_amount. set (es := map (classify lp_mint pool) ras).
  assert (Hstart : scan_fits scan_start) by (split; in_range).
  pose proof (fun s' => scan_loop lp_mint pool ras scan_start s' Hstart) as Hloop.
  cbv zeta in Hloop |- *. fold es in Hloop.
  unfold scan_result, scan_fits in Hloop. split.
  - intros H0. apply bind_Ok in H0 as (s & Hs & H0).
    apply Hloop in Hs as (Hm & -> & Hf & Hc). apply malformed_iff in Hm. simpl in *. res_inv H0. rewrite Z.add_0_l in *.
    constructor; try done; [by apply marker_iff|].
    rewrite <- on_chain_iff. destruct (existsb is_on_chain es); res_inv Hr0; bool_simpl;
      destruct (lock_amounts es); simpl in *; naive_solver lia.
  - intros [Hm Hmk Hcomp -> Hf Hc]. apply malformed_iff in Hm.
    apply bind_Ok. eexists. split; [apply Hloop; split_and!; done|]. simpl.
    rewrite (proj2 (marker_iff es) Hmk). simpl. rewrite <- on_chain_iff in Hcomp.
    destruct (existsb is_on_chain es), (lock_amounts es); simpl in *; naive_solver.
Qed.

#[export] Instance proves_proper : Proper (Permutation ==> eq ==> iff) proves.
Proof.
  assert (Himp : forall es es' n, es ≡ₚ es' -> proves es n -> proves es' n).
  { intros es es' n Hp [].
    assert (Hl : lock_amounts es ≡ₚ lock_amounts es') by (unfold lock_amounts; by rewrite Hp).
    assert (Hnil : lock_amounts es = [] <-> lock_amounts es' = []).
    { split; intros Hn; rewrite Hn in Hl; [|symmetry in Hl];
        by apply Permutation_nil_r in Hl || by apply Permutation_nil_l in Hl. }
    constructor; try done.
    - by rewrite <- Hp.
    - by rewrite <- !Hp.
    - assert (MarkerOnChain ∈ es' <-> MarkerOnChain ∈ es) by (by rewrite Hp). tauto.
    - by rewrite <- Hl.
    - by rewrite <- Hl. }
  intros es es' Hp n n' <-. split; apply Himp; done.
Qed.

(** The order in which the caller lists the accounts never changes the
    locked amount that is proved. *)
Theorem locked_lp_amount_perm lp_mint pool ras ras' n :
  ras ≡ₚ ras' ->
  locked_lp_amount lp_mint pool ras = Ok n -> locked_lp_amount lp_mint pool ras' = Ok n.
Proof. rewrite !locked_lp_amount_spec. by intros ->. Qed.

(** C39. A marker address that somebody has funded with lamports, without the
    locker program ever owning it, makes Criterion 5 unprovable: whatever
    accounts are supplied, the adapter fails. *)
Theorem funded_marker_blocks_evidence lp_mint pool ras :
  (forall a, a ∈ ras -> ai_key a = marker_address pool ->
     ai_lamports a <> 0 /\ ai_owner a <> UNCX_PROGRAM_ID) ->
  is_ok (locked_lp_amount lp_mint pool ras) = false.
Proof.
  intros Hm. apply not_true_iff_false. rewrite is_ok_true. intros [n Hn].
  apply locked_lp_amount_spec in Hn as [_ Hmk _ _ _ _].
  assert (Hin : exists a, a ∈ ras /\
    (classify lp_mint pool a = MarkerAbsent \/ classify lp_mint pool a = MarkerOnChain)).
  { destruct Hmk as [Hin|Hin]; apply list_elem_of_In, in_map_iff in Hin as (a & ? & Ha);
      exists a; rewrite list_elem_of_In; tauto. }
  destruct Hin as (a & Ha & Hcl). unfold classify in Hcl.
  destruct (decide (ai_key a = marker_address pool)) as [Hk|Hk].
  - destruct (Hm a Ha Hk) as [Hl Ho]. rewrite decide_True in Hcl by (unfold on_chain; tauto).
    rewrite decide_False in Hcl by done. naive_solver.
  - repeat case_decide; naive_solver.
Qed.
End Locker.

(** ** Examples *)

(** A stand-in for the runtime's derivation: the seeds themselves, cut or
    padded to 32 bytes. *)
Definition sample_pda : PdaDerivation := fun seeds _ => (take 32 (concat seeds ++ zeroes 32), 255).

Section Examples.
#[local] Existing Instance sample_pda.

Definition example_pool : Pubkey := replicate 32 x02.
Definition example_lp : Pubkey := replicate 32 x14.
Definition marker_account (lamports : Z) (data : list byte) (owner : Pubkey) : AccountInfo :=
  mkAccountInfo (marker_address example_pool) lamports data owner false.
Definition lock_account (id amount : Z) : AccountInfo :=
  mkAccountInfo (token_lock_address id) 1
    (TOKEN_LOCK_DISC ++ [xff] ++ example_pool ++ example_lp ++ le_bytes 8 id ++ zeroes 25 ++
     le_bytes 8 amount ++ zeroes 32) UNCX_PROGRAM_ID false.
Definition marker_on_chain : AccountInfo := marker_account 1 (MARKER_DISC ++ [xff]) UNCX_PROGRAM_ID.

Example locker_absent_marker :
  locked_lp_amount example_lp example_pool [marker_account 0 [] default_key] = Ok 0.
Proof. vm_compute. reflexivity. Qed.

Example locked_lp_amount_perm_witness :
  locked_lp_amount example_lp example_pool [lock_account 7 500; marker_on_chain; lock_account 9 0]
    = Ok 500.
Proof.
  apply (locked_lp_amount_perm example_lp example_pool
    [marker_on_chain; lock_account 9 0; lock_account 7 500]).
  - apply (Permutation_app_comm [marker_on_chain; lock_account 9 0] [lock_account 7 500]).
  - vm_compute. reflexivity.
Defined.

Example funded_marker_blocks_evidence_witness :
  is_ok (locked_lp_amount example_lp example_pool [marker_account 890880 [] default_key]) = false.
Proof.
  apply funded_marker_blocks_evidence. intros a Ha _. apply list_elem_of_singleton in Ha as ->.
  by vm_compute.
Defined.
End Examples.
