(* ===== verification/Merkle.v ===== *)
(** * Merkle: the LP-snapshot proof verifier

    [programs/grave-vault/src/merkle.rs]. SHA-256 is the runtime's: a
    parameter, known only to return 32 bytes. Soundness is therefore stated
    with an explicit collision as the alternative: an accepted proof of a leaf
    that is not in the tree exhibits two different byte strings, both listed,
    with the same hash. *)

From S2P Require Import Prelude Bytes.

Class Sha256 := sha256 : list byte -> list byte.
Class Sha256Laws `{Sha256} := sha256_length x : length (sha256 x) = 32%nat.

Section Merkle.
Context `{Sha256}.

(** ** The verifier *)

Definition leaf_preimage (holder : Pubkey) (lp_balance : Z) : list byte :=
  holder ++ le_bytes 8 lp_balance.
Definition compute_leaf (holder : Pubkey) (lp_balance : Z) : list byte :=
  sha256 (leaf_preimage holder lp_balance).

(** The 64 bytes hashed at one level: [min(a, b) || max(a, b)]. *)
Definition pair_preimage (a b : list byte) : list byte :=
  if bool_decide (bytes_le a b) then a ++ b else b ++ a.
Definition hash_pair (a b : list byte) : list byte := sha256 (pair_preimage a b).

Definition verify_proof (root leaf : list byte) (proof : list (list byte)) : bool :=
  bool_decide (foldl hash_pair leaf proof = root).

(** ** Trees and their roots *)

Inductive mtree :=
| MLeaf (owner : Pubkey) (lp_balance : Z)
| MNode (l r : mtree).

Fixpoint mroot (t : mtree) : list byte :=
  match t with
  | MLeaf h b => compute_leaf h b
  | MNode l r => hash_pair (mroot l) (mroot r)
  end.

Fixpoint mleaves (t : mtree) : list (Pubkey * Z) :=
  match t with
  | MLeaf h b => [(h, b)]
  | MNode l r => mleaves l ++ mleaves r
  end.

Fixpoint mdepth (t : mtree) : nat :=
  match t with
  | MLeaf _ _ => 0%nat
  | MNode l r => S (Nat.max (mdepth l) (mdepth r))
  end.

(** Everything that is hashed to compute the root. *)
Fixpoint mpreimages (t : mtree) : list (list byte) :=
  match t with
  | MLeaf h b => [leaf_preimage h b]
  | MNode l r => pair_preimage (mroot l) (mroot r) :: mpreimages l ++ mpreimages r
  end.

(** Everything the verifier hashes above [current]. *)
Fixpoint path_above (current : list byte) (proof : list (list byte)) : list (list byte) :=
  match proof with
  | [] => []
  | s :: proof => pair_preimage current s :: path_above (hash_pair current s) proof
  end.
Definition path_preimages (h : Pubkey) (b : Z) (proof : list (list byte)) : list (list byte) :=
  leaf_preimage h b :: path_above (compute_leaf h b) proof.

(** Two of the listed strings collide. *)
Definition collision (xs ys : list (list byte)) : Prop :=
  exists x y, x ∈ xs /\ y ∈ ys /\ x <> y /\ sha256 x = sha256 y.

Definition wf_entry (e : Pubkey * Z) : Prop := wf_key (fst e) /\ is_u64 (snd e).
Definition wf_hash (h : list byte) : Prop := length h = 32%nat.

(** ** Facts about one level *)

Lemma pair_preimage_comm a b : pair_preimage a b = pair_preimage b a.
Proof.
  unfold pair_preimage. case_bool_decide as H1; case_bool_decide as H2; try done.
  - by assert (a = b) as -> by (by apply (anti_symm bytes_le)).
  - destruct (total bytes_le a b); naive_solver.
Qed.

Lemma hash_pair_comm a b : hash_pair a b = hash_pair b a.
Proof. unfold hash_pair. by rewrite pair_preimage_comm. Qed.

(** A level's preimage determines the pair, up to order. *)
Lemma pair_preimage_inj a b c d :
  wf_hash a -> wf_hash b -> wf_hash c -> wf_hash d ->
  pair_preimage a b = pair_preimage c d -> (a = c /\ b = d) \/ (a = d /\ b = c).
Proof.
  unfold wf_hash, pair_preimage. intros Ha Hb Hc Hd.
  repeat case_bool_decide; intros [??]%app_inj_1; naive_solver congruence.
Qed.

Lemma leaf_preimage_inj h b h' b' :
  wf_entry (h, b) -> wf_entry (h', b') -> leaf_preimage h b = leaf_preimage h' b' ->
  h = h' /\ b = b'.
Proof.
  unfold wf_entry, wf_key, leaf_preimage. simpl. intros [Hh Hb] [Hh' Hb'] [-> Heq]%app_inj_1.
  - split; [done|]. by apply (le_bytes_inj 8).
  - congruence.
Qed.

Lemma path_above_app c p s :
  path_above c (p ++ [s]) = path_above c p ++ [pair_preimage (foldl hash_pair c p) s].
Proof. revert c. induction p as [|x p IH]; intros c; simpl; [done|]. by rewrite IH. Qed.

Lemma path_preimages_snoc h b p s :
  path_preimages h b (p ++ [s]) =
  path_preimages h b p ++ [pair_preimage (foldl hash_pair (compute_leaf h b) p) s].
Proof. unfold path_preimages. by rewrite path_above_app. Qed.

Lemma foldl_snoc_hash c p s :
  foldl hash_pair c (p ++ [s]) = hash_pair (foldl hash_pair c p) s.
Proof. by rewrite foldl_app. Qed.

Context {HL : Sha256Laws}.

Lemma leaf_preimage_length h b : wf_key h -> length (leaf_preimage h b) = 40%nat.
Proof. unfold leaf_preimage, wf_key. rewrite length_app, le_bytes_length. lia. Qed.

Lemma pair_preimage_length a b : wf_hash a -> wf_hash b -> length (pair_preimage a b) = 64%nat.
Proof. unfold wf_hash, pair_preimage. case_bool_decide; rewrite length_app; lia. Qed.

Lemma mroot_wf t : wf_hash (mroot t).
Proof. destruct t; apply sha256_length. Qed.

Lemma path_end_wf h b p : wf_hash (foldl hash_pair (compute_leaf h b) p).
Proof.
  destruct p as [|s p _] using rev_ind; [apply sha256_length|].
  rewrite foldl_snoc_hash. apply sha256_length.
Qed.

#[local] Hint Resolve mroot_wf path_end_wf : core.

(** Two preimages with one hash either are the same string or collide. *)
Lemma same_or_collision x y xs ys :
  sha256 x = sha256 y -> x ∈ xs -> y ∈ ys -> x = y \/ collision xs ys.
Proof. intros. destruct (decide (x = y)); [by left|right; exists x, y; auto]. Qed.

Lemma collision_mono xs xs' ys ys' :
  xs ⊆ xs' -> ys ⊆ ys' -> collision xs ys -> collision xs' ys'.
Proof. intros Hx Hy (x & y & ? & ? & ? & ?). exists x, y. auto. Qed.

Lemma member_or_collision t : forall h b proof,
  Forall wf_entry (mleaves t) -> wf_entry (h, b) -> Forall wf_hash proof ->
  foldl hash_pair (compute_leaf h b) proof = mroot t ->
  (h, b) ∈ mleaves t \/ collision (path_preimages h b proof) (mpreimages t).
Proof.
  induction t as [h' b'|l IHl r IHr]; intros h b proof Ht He Hp Hr.
  - cbn [mleaves] in Ht. rewrite Forall_singleton in Ht.
    destruct proof as [|s p _] using rev_ind; simpl in Hr.
    + destruct (same_or_collision (leaf_preimage h b) (leaf_preimage h' b')
        (path_preimages h b []) (mpreimages (MLeaf h' b'))) as [Heq|]; [done|left|left|left|by right].
      destruct (leaf_preimage_inj _ _ _ _ He Ht Heq) as [-> ->]. by apply list_elem_of_singleton.
    + rewrite foldl_snoc_hash in Hr. rewrite Forall_app, Forall_singleton in Hp. destruct Hp as [_ Hs].
      right. eexists _, _. split_and!; [| |..|exact Hr].
      * rewrite path_preimages_snoc. apply elem_of_app. right. by apply list_elem_of_singleton.
      * left.
      * intros Heq%(f_equal length). rewrite pair_preimage_length, leaf_preimage_length in Heq
          by (done || apply Ht || apply path_end_wf). done.
  - simpl in Ht. apply Forall_app in Ht as [Htl Htr].
    destruct proof as [|s p _] using rev_ind; simpl in Hr.
    + right. eexists _, _. split_and!; [left|left| |exact Hr].
      intros Heq%(f_equal length). rewrite pair_preimage_length, leaf_preimage_length in Heq
        by (done || apply He || apply mroot_wf). done.
    + rewrite foldl_snoc_hash in Hr. rewrite Forall_app, Forall_singleton in Hp. destruct Hp as [Hp Hs].
      rewrite path_preimages_snoc. simpl.
      destruct (same_or_collision
        (pair_preimage (foldl hash_pair (compute_leaf h b) p) s) (pair_preimage (mroot l) (mroot r))
        (path_preimages h b p ++ [pair_preimage (foldl hash_pair (compute_leaf h b) p) s])
        (mpreimages (MNode l r))) as [Heq|]; [done|set_solver|left| |by right].
      assert (foldl hash_pair (compute_leaf h b) p = mroot l
              \/ foldl hash_pair (compute_leaf h b) p = mroot r) as [Hl|Hr'].
      { apply pair_preimage_inj in Heq as [[??]|[??]]; auto. }
      * destruct (IHl h b p) as [|Hc]; [done..|left; set_solver|right].
        eapply collision_mono; [| |exact Hc]; set_solver.
      * destruct (IHr h b p) as [|Hc]; [done..|left; set_solver|right].
        eapply collision_mono; [| |exact Hc]; set_solver.
Qed.

(** Every leaf of a tree has a proof no longer than the tree is deep. *)
Lemma mproof_exists t h b :
  (h, b) ∈ mleaves t ->
  exists proof, Forall wf_hash proof /\ (length proof <= mdepth t)%nat
    /\ foldl hash_pair (compute_leaf h b) proof = mroot t.
Proof.
  induction t as [h' b'|l IHl r IHr]; simpl.
  - intros [= -> ->]%list_elem_of_singleton. by exists [].
  - intros [Hin|Hin]%elem_of_app.
    + destruct (IHl Hin) as (p & Hp & Hlen & Hr). exists (p ++ [mroot r]).
      rewrite foldl_snoc_hash, Hr, length_app, Forall_app, Forall_singleton. simpl.
      split_and!; [done|apply mroot_wf|lia|done].
    + destruct (IHr Hin) as (p & Hp & Hlen & Hr). exists (p ++ [mroot l]).
      rewrite foldl_snoc_hash, Hr, length_app, Forall_app, Forall_singleton. simpl.
      split_and!; [done|apply mroot_wf|lia|apply hash_pair_comm].
Qed.

(** C17. Soundness of the claim verifier, without assuming anything of SHA-256
    beyond its output length: if [verify_proof] accepts a proof of
    (holder, balance) against the root of a snapshot tree, then that very
    entry is a leaf of the tree, or the proof together with the tree exhibits a
    SHA-256 collision: two different strings, one hashed by the verifier and
    one hashed by the tree's builder, with the same hash. In particular a
    foreign leaf, an inner node presented as a leaf and a shortened or extended
    proof are all rejected short of a collision. *)
Theorem verify_proof_sound t holder balance proof :
  Forall wf_entry (mleaves t) -> wf_entry (holder, balance) -> Forall wf_hash proof ->
  verify_proof (mroot t) (compute_leaf holder balance) proof = true ->
  (holder, balance) ∈ mleaves t
  \/ collision (path_preimages holder balance proof) (mpreimages t).
Proof.
  intros Ht He Hp Hv. apply bool_decide_eq_true in Hv. by apply member_or_collision.
Qed.

(** ** Without collisions among the strings anyone has hashed

    [known] is any set of strings that contains no two with the same hash. *)
Definition collision_free (known : list byte -> Prop) : Prop :=
  forall x y, known x -> known y -> sha256 x = sha256 y -> x = y.

Lemma member_of_known known t h b proof :
  collision_free known ->
  Forall known (mpreimages t) -> Forall known (path_preimages h b proof) ->
  Forall wf_entry (mleaves t) -> wf_entry (h, b) -> Forall wf_hash proof ->
  verify_proof (mroot t) (compute_leaf h b) proof = true -> (h, b) ∈ mleaves t.
Proof.
  intros Hcf Hkt Hkp Ht He Hp Hv. apply bool_decide_eq_true in Hv.
  destruct (member_or_collision t h b proof) as [|(x & y & Hx & Hy & Hne & Heq)]; [done..|].
  rewrite Forall_forall in Hkt, Hkp. destruct Hne. auto.
Qed.
End Merkle.

(** ** A concrete hash for the examples

    Not a cryptographic hash; 32 bytes, and distinct on the strings the
    examples hash. *)
Definition toy_mix (acc : Z) (b : byte) : Z :=
  Z.land (acc * 1000003 + byte_Z b + 1) 18446744073709551615.
Definition toy_sha256 : Sha256 := fun x => le_bytes 8 (foldl toy_mix 7 x) ++ zeroes 24.
Lemma toy_sha256_laws : Sha256Laws (H := toy_sha256).
Proof. intros x. reflexivity. Qed.

Section Examples.
#[local] Existing Instance toy_sha256.
#[local] Existing Instance toy_sha256_laws.

Definition example_tree : mtree :=
  MNode (MNode (MLeaf (key_of x01) 100) (MLeaf (key_of x02) 200)) (MLeaf (key_of x03) 300).
Definition example_proof : list (list byte) :=
  [compute_leaf (key_of x01) 100; compute_leaf (key_of x03) 300].

Example example_verifies :
  verify_proof (mroot example_tree) (compute_leaf (key_of x02) 200) example_proof = true.
Proof. by vm_compute. Qed.

Lemma verify_proof_sound_witness :
  (key_of x02, 200) ∈ mleaves example_tree
  \/ collision (path_preimages (key_of x02) 200 example_proof) (mpreimages example_tree).
Proof.
  apply (verify_proof_sound example_tree (key_of x02) 200 example_proof).
  - repeat (apply Forall_cons; split; [split; [reflexivity|in_range]|]). apply Forall_nil. exact I.
  - split; [reflexivity|in_range].
  - repeat (apply Forall_cons; split; [reflexivity|]). apply Forall_nil. exact I.
  - vm_compute. reflexivity.
Defined.
End Examples.
