(* ===== verification/Sha.v ===== *)
(** * Sha: SHA-256 itself

    The hash is the runtime's and a parameter of the theorems; here it is
    FIPS 180-4's function, executable, so that the repository's tests run on
    the real digests. Words are 32-bit. *)

From Stdlib Require Import String.
From S2P Require Import Prelude Bytes Merkle.

Definition w32 (x : Z) : Z := Z.land x 0xffffffff.
Definition rotr (n x : Z) : Z := Z.lor (Z.shiftr x n) (w32 (Z.shiftl x (32 - n))).

Definition ch (x y z : Z) : Z := Z.lxor (Z.land x y) (Z.land (Z.lxor x 0xffffffff) z).
Definition maj (x y z : Z) : Z := Z.lxor (Z.lxor (Z.land x y) (Z.land x z)) (Z.land y z).
Definition big_sigma0 (x : Z) : Z := Z.lxor (Z.lxor (rotr 2 x) (rotr 13 x)) (rotr 22 x).
Definition big_sigma1 (x : Z) : Z := Z.lxor (Z.lxor (rotr 6 x) (rotr 11 x)) (rotr 25 x).
Definition small_sigma0 (x : Z) : Z := Z.lxor (Z.lxor (rotr 7 x) (rotr 18 x)) (Z.shiftr x 3).
Definition small_sigma1 (x : Z) : Z := Z.lxor (Z.lxor (rotr 17 x) (rotr 19 x)) (Z.shiftr x 10).

(** The constants are the first 32 bits of the fractional parts of the roots of
    the first primes: cube roots for the rounds, square roots for the start. *)
Fixpoint cube_root (bits : nat) (root n : Z) : Z :=
  let next := root + 2 ^ Z.of_nat bits in
  let root := if next ^ 3 <=? n then next else root in
  match bits with
  | O => root
  | S bits => cube_root bits root n
  end.
Definition is_prime (n : Z) : bool := forallb (fun d => negb (n mod Z.of_nat d =? 0)) (seq 2 (Z.to_nat n - 2)).
Definition primes : list Z :=
  Eval vm_compute in List.filter is_prime (map Z.of_nat (seq 2 310)).
Definition round_constants : list Z :=
  Eval vm_compute in map (fun p => w32 (cube_root 35 0 (Z.shiftl p 96))) primes.
Definition start (i : nat) : Z := w32 (Z.sqrt (Z.shiftl (nth i primes 0) 64)).

Record Digest := mkDigest { da : Z; db : Z; dc : Z; dd : Z; de : Z; df : Z; dg : Z; dh : Z }.
Definition initial_digest : Digest := Eval vm_compute in
  mkDigest (start 0) (start 1) (start 2) (start 3) (start 4) (start 5) (start 6) (start 7).

(** Big-endian words. *)
Definition be_bytes (n : nat) (z : Z) : list byte := rev (le_bytes n z).
Fixpoint words (n : nat) (l : list byte) : list Z :=
  match n with
  | O => []
  | S n => le_Z (rev (take 4 l)) :: words n (drop 4 l)
  end.

(** The schedule, latest word first. *)
Definition next_word (w : list Z) : Z :=
  w32 (small_sigma1 (nth 1 w 0) + nth 6 w 0 + small_sigma0 (nth 14 w 0) + nth 15 w 0).
Definition schedule (block : list byte) : list Z :=
  rev (Nat.iter 48 (fun w => next_word w :: w) (rev (words 16 block))).

Definition sha_round (s : Digest) (kw : Z * Z) : Digest :=
  let t1 := dh s + big_sigma1 (de s) + ch (de s) (df s) (dg s) + fst kw + snd kw in
  let t2 := big_sigma0 (da s) + maj (da s) (db s) (dc s) in
  mkDigest (w32 (t1 + t2)) (da s) (db s) (dc s) (w32 (dd s + t1)) (de s) (df s) (dg s).

Definition compress (s : Digest) (block : list byte) : Digest :=
  let r := foldl sha_round s (combine round_constants (schedule block)) in
  mkDigest (w32 (da s + da r)) (w32 (db s + db r)) (w32 (dc s + dc r)) (w32 (dd s + dd r))
    (w32 (de s + de r)) (w32 (df s + df r)) (w32 (dg s + dg r)) (w32 (dh s + dh r)).

Definition padded (m : list byte) : list byte :=
  m ++ [x80] ++ zeroes (Z.to_nat ((55 - len_Z m) mod 64)) ++ be_bytes 8 (8 * len_Z m).

Fixpoint blocks (n : nat) (s : Digest) (l : list byte) : Digest :=
  match n with
  | O => s
  | S n => blocks n (compress s (take 64 l)) (drop 64 l)
  end.

Definition digest_bytes (s : Digest) : list byte :=
  concat (map (be_bytes 4) [da s; db s; dc s; dd s; de s; df s; dg s; dh s]).

Definition fips_sha256 : Sha256 := fun m =>
  let p := padded m in digest_bytes (blocks (length p / 64) initial_digest p).

#[local] Existing Instance fips_sha256.

Lemma fips_sha256_laws : Sha256Laws.
Proof.
  intros m. unfold sha256, fips_sha256, digest_bytes, be_bytes. cbn [map concat].
  by rewrite !length_app, !length_rev, !le_bytes_length.
Qed.

(** The standard's own examples: one block, and the two-block message. *)
Definition be_Z (l : list byte) : Z := le_Z (rev l).
Lemma fips_examples :
  be_Z (sha256 []) = 0xe3b0c44298fc1c149afbf4c8996fb92427ae41e4649b934ca495991b7852b855
  /\ be_Z (sha256 (list_byte_of_string "abc")) = 0xba7816bf8f01cfea414140de5dae2223b00361a396177a9cb410ff61f20015ad
  /\ be_Z (sha256 (list_byte_of_string "abcdbcdecdefdefgefghfghighijhijkijkljklmklmnlmnomnopnopq"))
     = 0x248d6a61d20638b8e5c026930c3e6039a33ce45964ff2167f6ecedd419db06c1.
Proof. split_and!; vm_compute; reflexivity. Qed.
