(* ===== verification/Pda.v ===== *)
(** * Pda: program addresses as the chain derives them

    [find_program_address] is the runtime's and a parameter of the theorems;
    here it is the documented derivation, executable, so that the repository's
    mainnet vectors can be recomputed: the first bump, from 255 down, whose
    SHA-256 is not the encoding of a point of edwards25519. *)

From Stdlib Require Import String.
From S2P Require Import Prelude Bytes Solana Merkle Sha.

(** The field's prime and the curve's constant. *)
Definition p25519 : Z := 2 ^ 255 - 19.
Definition d25519 : Z := 0x52036cee2b6ffe738cc740797779e89800700a4d4141d8ab75eb4dca135978a3.

(** The Jacobi symbol [(a / n)], [n] odd, [t] the sign so far. Each step
    removes a bit of [a] or of [n]. *)
Fixpoint jacobi (fuel : nat) (a n t : Z) : Z :=
  match fuel with
  | O => 0
  | S fuel =>
      if a =? 0 then (if n =? 1 then t else 0)
      else if Z.even a then
        jacobi fuel (Z.shiftr a 1) n (if (Z.land n 7 =? 3) || (Z.land n 7 =? 5) then - t else t)
      else if a <? n then
        jacobi fuel (n - a) a (if (Z.land a 3 =? 3) && (Z.land n 3 =? 3) then - t else t)
      else jacobi fuel (a - n) n t
  end.

(** [y] is the ordinate of a point: [(y^2 - 1) / (d y^2 + 1)] is a square, which
    it is when the product of the two is. *)
Definition is_on_curve (encoded : list byte) : bool :=
  let y := le_Z encoded mod 2 ^ 255 in
  let yy := y * y mod p25519 in
  let x2 := (yy - 1) * (d25519 * yy + 1) mod p25519 in
  0 <=? (if x2 =? 0 then 0 else jacobi 1100 x2 p25519 1).

Definition pda_marker : list byte := list_byte_of_string "ProgramDerivedAddress".

Fixpoint first_off_curve (seeds prog : list byte) (bump : nat) : Pubkey * Z :=
  let address := fips_sha256 (seeds ++ [Z_byte (Z.of_nat bump)] ++ prog ++ pda_marker) in
  if is_on_curve address
  then match bump with O => ([], -1) | S bump => first_off_curve seeds prog bump end
  else (address, Z.of_nat bump).

Definition chain_pda : PdaDerivation := fun seeds prog => first_off_curve (concat seeds) prog 255.
