(* ===== verification/LockerTests.v ===== *)
(** * LockerTests: the tests of the locker adapter

    [programs/grave-scanner/src/adapters/locker.rs], [mod tests]. The mainnet
    addresses and the account discriminators are recomputed with the chain's
    own derivation and hash (Pda.v, Sha.v); the scans hold of any derivation
    that keeps the addresses apart and run on a cheap one. *)

From Stdlib Require Import String.
From S2P Require Import Prelude TestKit Bytes Solana Criteria Locker Merkle Sha Pda.

(** ** Fixtures *)

Definition MAINNET_LOCK_ID : Z := 114.
Definition MAINNET_LOCK_KEY : Pubkey := Eval vm_compute in pubkey "UUn9vAq45fNqCyU9sdUcXPjQWetd6eC6CEwsnFBFTim".
Definition MAINNET_AMM : Pubkey := Eval vm_compute in pubkey "7sF2Drsnq3XGdUGDaRF1hKox59hfp5w98UGoqjgqtCsu".
Definition MAINNET_LP_MINT : Pubkey := Eval vm_compute in pubkey "66HgdKb9swcu7o8acpuk9m64Q9EDwUY8ivb7TVt9CBFb".
Definition MAINNET_LOCK_CURRENT : Z := 419.
Definition MAINNET_LOCK_INITIAL : Z := 2360835469419.
Definition MAINNET_LOCK_DATE : Z := 1747133716.
Definition MAINNET_UNLOCK_DATE : Z := 1778669685.
Definition MAINNET_LOCK_OWNER : Pubkey := Eval vm_compute in pubkey "GaW1AH9XntATuiME3wCjHbrDqqAD4c24XTKZj9aDjATy".
Definition MAINNET_MARKER : Pubkey := Eval vm_compute in pubkey "FeckXtFruWKBS8bPJCAE7JQzUq8hvo44E4qHPaLXpTpG".
Definition RAYDIUM_V4 : Pubkey := Eval vm_compute in pubkey "675kPX9MHTjS2zt1qfr1NYHuzeLXfQM9H24wFSUt1Mp8".

(** [TestAccount] and [Pubkey::new_unique()]. *)
Definition test_account (key owner : Pubkey) (data : list byte) (lamports : Z) : AccountInfo :=
  mkAccountInfo key lamports data owner false.
Definition new_unique : Pubkey := key_of xc1.
Definition locker (key : Pubkey) (data : list byte) : AccountInfo := test_account key UNCX_PROGRAM_ID data 1000000.
Definition locker_junk (data : list byte) : AccountInfo := locker new_unique data.
Definition nonexistent (key : Pubkey) : AccountInfo := test_account key (zeroes 32) [] 0.
Definition foreign (key owner : Pubkey) (data : list byte) (lamports : Z) : AccountInfo :=
  test_account key owner data lamports.

(** The layout of the UNCX source. *)
Definition build_token_lock (lock_global_id : Z) (amm_id lp_mint : Pubkey)
    (initial current lock_date unlock_date : Z) (owner : Pubkey) : list byte :=
  TOKEN_LOCK_DISC ++ [xff] ++ amm_id ++ lp_mint ++ le_bytes 8 lock_global_id ++ le_bytes 8 lock_date
  ++ le_bytes 8 unlock_date ++ [x01] ++ le_bytes 8 initial ++ le_bytes 8 current ++ owner.
Definition build_marker : list byte := MARKER_DISC ++ [xff].

(** ** The pins *)

Definition anchor_discriminators_match_anchor_spec : bool :=
  same (take 8 (fips_sha256 (bytes_of "account:TokenLock"))) TOKEN_LOCK_DISC
  && same (take 8 (fips_sha256 (bytes_of "account:GlobalLpMintMarker"))) MARKER_DISC.

Section Scans.
Context `{PdaDerivation}.

Definition mainnet_vector_token_lock_pda_derivation : bool :=
  same (token_lock_address MAINNET_LOCK_ID) MAINNET_LOCK_KEY.
Definition mainnet_vector_marker_pda_derivation : bool := same (marker_address MAINNET_AMM) MAINNET_MARKER.

(** The scan of the mainnet pool; a lock of it; its marker. *)
Definition scan (accounts : list AccountInfo) : result GraveScannerError Z :=
  locked_lp_amount MAINNET_LP_MINT MAINNET_AMM accounts.
Definition lock_of (amm_id lp_mint : Pubkey) (id initial current : Z) : AccountInfo :=
  locker (token_lock_address id) (build_token_lock id amm_id lp_mint initial current 0 0 (zeroes 32)).
Definition lock (id initial current : Z) : AccountInfo := lock_of MAINNET_AMM MAINNET_LP_MINT id initial current.
Definition marker : AccountInfo := locker (marker_address MAINNET_AMM) build_marker.

(** ** Accepted evidence *)

Definition unlocked_pool_with_no_marker_ever_returns_zero : bool :=
  yields (scan [nonexistent (marker_address MAINNET_AMM)]) 0.
Definition mainnet_vector_single_live_lock_returns_current_amount : bool :=
  yields (scan [marker; locker (token_lock_address MAINNET_LOCK_ID)
    (build_token_lock MAINNET_LOCK_ID MAINNET_AMM MAINNET_LP_MINT MAINNET_LOCK_INITIAL MAINNET_LOCK_CURRENT
      MAINNET_LOCK_DATE MAINNET_UNLOCK_DATE MAINNET_LOCK_OWNER)]) MAINNET_LOCK_CURRENT.
Definition multiple_locks_are_summed : bool := yields (scan [marker; lock 114 100 40; lock 115 500 60]) 100.
Definition fully_withdrawn_lock_contributes_zero : bool := yields (scan [marker; lock 30 100 0]) 0.
Definition non_locker_accounts_are_ignored : bool :=
  yields (scan [foreign MAINNET_AMM RAYDIUM_V4 (zeroes 752) 1; foreign new_unique (zeroes 32) [] 5; marker;
    lock 114 100 42]) 42.
Definition empty_nonexistent_lock_accounts_are_skipped : bool :=
  yields (scan [marker; nonexistent (token_lock_address 9999999); lock 114 100 7]) 7.

(** ** Refused evidence *)

Definition missing_marker_account_reverts : bool := refused_with (scan []) LockerMarkerAccountRequired.
Definition marker_without_lock_evidence_reverts : bool := refused_with (scan [marker]) LockerLockEvidenceRequired.
Definition token_lock_bound_to_other_pool_reverts : bool :=
  refused_with (scan [marker; lock_of new_unique MAINNET_LP_MINT 114 100 5]) LockerAccountMismatch.
Definition token_lock_bound_to_other_mint_reverts : bool :=
  refused_with (scan [marker; lock_of MAINNET_AMM new_unique 114 100 5]) LockerAccountMismatch.
Definition forged_lock_id_reverts : bool :=
  refused_with (scan [marker; locker new_unique (ai_data (lock 114 100 5))]) InvalidLockerAccount.
Definition wrong_discriminator_reverts : bool :=
  let bad := alter (fun b => Z_byte (Z.lxor (byte_Z b) 255)) 0%nat (ai_data (lock 114 100 5)) in
  refused_with (scan [marker; locker (token_lock_address 114) bad]) InvalidLockerAccount.
Definition wrong_account_size_reverts : bool :=
  refused_with (scan [marker; locker (token_lock_address 114) (take 145 (ai_data (lock 114 100 5)))])
    InvalidLockerAccount.
Definition malformed_marker_reverts : bool :=
  refused_with (scan [locker (marker_address MAINNET_AMM) (build_marker ++ [x00])]) InvalidLockerAccount.
Definition locker_owned_unknown_account_reverts : bool :=
  refused_with (scan [marker; locker_junk (replicate 81 x01)]) InvalidLockerAccount.
Definition contradictory_evidence_empty_marker_with_lock_reverts : bool :=
  refused_with (scan [nonexistent (marker_address MAINNET_AMM); lock 114 100 5]) InvalidLockerAccount.
Definition lock_amount_overflow_reverts : bool :=
  refused_with (scan [marker; lock 114 (u_max 64) (u_max 64 - 1); lock 115 (u_max 64) 10]) MathOverflow.
Definition ghost_marker_key_mismatch_is_ignored_then_required_fires : bool :=
  refused_with (scan [nonexistent new_unique]) LockerMarkerAccountRequired.
End Scans.

(** ** The suites pass *)

Lemma locker_vectors_pass : all_pass [
  anchor_discriminators_match_anchor_spec; mainnet_vector_token_lock_pda_derivation (H := chain_pda);
  mainnet_vector_marker_pda_derivation (H := chain_pda)] = true.
Proof. run_suite. Qed.

#[local] Existing Instance sample_pda.
Lemma locker_tests_pass : all_pass [
  unlocked_pool_with_no_marker_ever_returns_zero; mainnet_vector_single_live_lock_returns_current_amount;
  multiple_locks_are_summed; fully_withdrawn_lock_contributes_zero; non_locker_accounts_are_ignored;
  empty_nonexistent_lock_accounts_are_skipped; missing_marker_account_reverts;
  marker_without_lock_evidence_reverts; token_lock_bound_to_other_pool_reverts;
  token_lock_bound_to_other_mint_reverts; forged_lock_id_reverts; wrong_discriminator_reverts;
  wrong_account_size_reverts; malformed_marker_reverts; locker_owned_unknown_account_reverts;
  contradictory_evidence_empty_marker_with_lock_reverts; lock_amount_overflow_reverts;
  ghost_marker_key_mismatch_is_ignored_then_required_fires] = true.
Proof. run_suite. Qed.
