(* ===== verification/ScannerState.v ===== *)
(** * ScannerState: the accounts of GraveScanner

    [programs/grave-scanner/src/state/*.rs] and the instruction parameters and
    events of [instructions/*.rs]. A PDA family is a finite map from its seeds
    to the account's contents; the program's single config PDA is an option. *)

From Stdlib Require Import Ascii String.
From S2P Require Import Prelude Bytes Solana Criteria Locker.

Definition SCANNER_ID : Pubkey :=
  Eval vm_compute in pubkey "EFJpKtWx5gDnc4Hh6GEEgPLUrPh377E4Nfic8jsJAQJL".

Definition PROTOCOL_CONFIG_SEED : list byte := bytes_of "protocol_config".
Definition ELIGIBILITY_ANCHOR_SEED : list byte := bytes_of "eligibility_anchor".
Definition ELIGIBILITY_CERT_SEED : list byte := bytes_of "eligibility_cert".
Definition LAUNCH_PRICE_SEED : list byte := bytes_of "launch_price".

(** ** Accounts *)

Record ProtocolConfig := mkProtocolConfig {
  cfg_authority : Pubkey;
  cfg_pending_authority : Pubkey;
  cfg_pending_authority_eta : Z;      (* i64 *)
  cfg_inactivity_seconds : Z;         (* u64 *)
  cfg_price_collapse_bps : Z;         (* u16 *)
  cfg_min_tvl_lamports : Z;           (* u64 *)
  cfg_anchor_staleness_seconds : Z;   (* u64 *)
  cfg_lp_burn_dust_threshold : Z;     (* u64 *)
  cfg_cert_ttl_seconds : Z;           (* i64 *)
  cfg_paused : bool;
  cfg_activity_oracle : Pubkey;
  cfg_launch_price_oracle : Pubkey;
  cfg_bump : Z;                       (* u8 *)
  cfg_reserved : list byte;           (* [u8; 64] *)
}.

Record EligibilityAnchor := mkEligibilityAnchor {
  anchor_amm_program_id : Pubkey;
  anchor_pool_address : Pubkey;
  anchor_writer : Pubkey;
  first_eligible_epoch : Z;           (* u64 *)
  written_at : Z;                     (* i64 *)
  invalidated : bool;
  anchor_criteria_bitmap : Z;         (* u8 *)
  anchor_bump : Z;
  anchor_reserved : list byte;
}.

Definition is_complete (self : EligibilityAnchor) : bool :=
  anchor_criteria_bitmap self =? ALL_CRITERIA_MASK.
Definition is_invalidated (self : EligibilityAnchor) : bool := invalidated self.

Record EligibilityCert := mkEligibilityCert {
  cert_amm_program_id : Pubkey;
  cert_pool_address : Pubkey;
  cert_writer : Pubkey;
  anchor_epoch : Z;                   (* u64 *)
  cert_epoch : Z;                     (* u64 *)
  issued_at : Z;                      (* i64 *)
  expires_at : Z;                     (* i64 *)
  cert_criteria_bitmap : Z;           (* u8 *)
  reissue_generation : Z;             (* u64 *)
  cert_bump : Z;
  cert_reserved : list byte;
}.

Definition is_expired (self : EligibilityCert) (now : Z) : bool := expires_at self <=? now.

(** What [init_if_needed] leaves in a freshly created cert PDA. *)
Definition zeroed_cert : EligibilityCert :=
  mkEligibilityCert default_key default_key default_key 0 0 0 0 0 0 0 (zeroes 56).

Record LaunchPrice := mkLaunchPrice {
  lp_amm_program_id : Pubkey;
  lp_pool_address : Pubkey;
  lp_base_mint : Pubkey;
  lp_quote_mint : Pubkey;
  lp_launch_price_q64x64 : Z;         (* u128 *)
  lp_first_swap_slot : Z;             (* u64 *)
  lp_first_swap_unix_ts : Z;          (* i64 *)
  lp_recorded_slot : Z;               (* u64 *)
  lp_recorded_at : Z;                 (* i64 *)
  lp_bump : Z;
  lp_reserved : list byte;
}.

(** The seeds [(amm_program_id, pool_address)] of the per-pool PDAs. *)
Definition PoolKey : Type := Pubkey * Pubkey.

Record ScannerState := mkScannerState {
  sc_config : option ProtocolConfig;
  sc_launch_prices : gmap PoolKey LaunchPrice;
  sc_anchors : gmap PoolKey EligibilityAnchor;
  sc_certs : gmap PoolKey EligibilityCert;
}.

Definition scanner_genesis : ScannerState := mkScannerState None ∅ ∅ ∅.

Definition set_config (c : ProtocolConfig) (st : ScannerState) : ScannerState :=
  mkScannerState (Some c) (sc_launch_prices st) (sc_anchors st) (sc_certs st).
Definition set_launch_price (k : PoolKey) (l : LaunchPrice) (st : ScannerState) : ScannerState :=
  mkScannerState (sc_config st) (<[k := l]> (sc_launch_prices st)) (sc_anchors st) (sc_certs st).
Definition set_anchor (k : PoolKey) (a : EligibilityAnchor) (st : ScannerState) : ScannerState :=
  mkScannerState (sc_config st) (sc_launch_prices st) (<[k := a]> (sc_anchors st)) (sc_certs st).
Definition close_anchor (k : PoolKey) (st : ScannerState) : ScannerState :=
  mkScannerState (sc_config st) (sc_launch_prices st) (delete k (sc_anchors st)) (sc_certs st).
Definition set_cert (k : PoolKey) (c : EligibilityCert) (st : ScannerState) : ScannerState :=
  mkScannerState (sc_config st) (sc_launch_prices st) (sc_anchors st) (<[k := c]> (sc_certs st)).

(** ** Instruction parameters *)

Record InitializeParams := mkInitializeParams {
  ip_authority : Pubkey;
  ip_inactivity_seconds : Z;
  ip_price_collapse_bps : Z;
  ip_min_tvl_lamports : Z;
  ip_anchor_staleness_seconds : Z;
  ip_lp_burn_dust_threshold : Z;
  ip_cert_ttl_seconds : Z;
}.

Record UpdateProtocolConfigParams := mkUpdateProtocolConfigParams {
  up_inactivity_seconds : option Z;
  up_price_collapse_bps : option Z;
  up_min_tvl_lamports : option Z;
  up_anchor_staleness_seconds : option Z;
  up_lp_burn_dust_threshold : option Z;
  up_cert_ttl_seconds : option Z;
  up_activity_oracle : option Pubkey;
  up_launch_price_oracle : option Pubkey;
}.

Record RecordLaunchPriceParams := mkRecordLaunchPriceParams {
  rp_amm_program_id : Pubkey;
  rp_pool_address : Pubkey;
  rp_base_mint : Pubkey;
  rp_quote_mint : Pubkey;
  rp_launch_price_q64x64 : Z;
  rp_msg : list byte;
}.

(** [EvaluatePoolPhase1Params] and [EvaluatePoolPhase2Params] have the same
    three fields. *)
Record EvaluatePoolParams := mkEvaluatePoolParams {
  ev_amm_program_id : Pubkey;
  ev_pool_address : Pubkey;
  ev_msg : list byte;
}.
Definition pool_key (p : EvaluatePoolParams) : PoolKey := (ev_amm_program_id p, ev_pool_address p).

(** ** Events *)

Inductive ScannerEvent :=
| EligibilityAnchorWritten (amm pool writer : Pubkey) (first_eligible_epoch criteria_bitmap : Z)
| EligibilityCertIssued (amm pool writer : Pubkey)
    (anchor_epoch cert_epoch expires_at criteria_bitmap generation : Z)
| AnchorInvalidatedEvent (amm pool invalidated_by : Pubkey)
| AnchorSwept (amm pool swept_by rent_returned_to : Pubkey)
| ProtocolPauseChanged (paused : bool) (changed_by : Pubkey).
