(* ===== verification/Scanner.v ===== *)
(** * Scanner: the eight instructions of GraveScanner

    [programs/grave-scanner/src/instructions/*.rs]: each handler with the
    account constraints Anchor checks around it, over [ScannerState]; the
    transition system they form; its invariants. *)

From S2P Require Import Prelude Bytes Solana Criteria Attestation Adapters Locker ScannerState.

(** What a scanner instruction reads besides its own PDAs. [env_clock] is
    [Clock::get()]; [env_slot_hashes] the address-constrained sysvar's data. *)
Record ScannerEnv := mkScannerEnv {
  env_clock : option Clock;
  env_instructions : InstructionsSysvar;
  env_slot_hashes : list byte;
  env_remaining : list AccountInfo;
}.

Definition scanner_error : Type := tx_error GraveScannerError.
Definition outcome : Type := result scanner_error (ScannerState * list ScannerEvent).

(** [Account<'info, T>] on an address that holds no account of the program. *)
Definition load {A} (o : option A) : result scanner_error A :=
  ok_or o (Framework AccountNotInitialized).
(** [has_one = authority @ Unauthorized] *)
Definition has_one_authority (cfg : ProtocolConfig) (authority : Pubkey)
    : result scanner_error unit :=
  require (bool_decide (cfg_authority cfg = authority)) (Program Unauthorized).
Definition get_clock (env : ScannerEnv) : result scanner_error Clock :=
  ok_or (env_clock env) (Program InvalidClock).

Section Handlers.
Context `{PdaDerivation}.

Definition config_bump : Z := snd (find_program_address [PROTOCOL_CONFIG_SEED] SCANNER_ID).
Definition pool_bump (seed : list byte) (k : PoolKey) : Z :=
  snd (find_program_address [seed; fst k; snd k] SCANNER_ID).

(** ** initialize *)

Definition or_default (v d : Z) : Z := if v =? 0 then d else v.

Definition initialize_config (params : InitializeParams) : result GraveScannerError ProtocolConfig :=
  staleness ←
    (if ip_anchor_staleness_seconds params =? 0
     then mret DEFAULT_ANCHOR_STALENESS_SECONDS
     else require (MIN_ANCHOR_STALENESS_SECONDS <=? ip_anchor_staleness_seconds params)
            InvariantViolation;;
          mret (ip_anchor_staleness_seconds params));
  let cert_ttl := or_default (ip_cert_ttl_seconds params) DEFAULT_CERT_TTL_SECONDS in
  require (MIN_CERT_TTL_SECONDS <=? cert_ttl) CertTtlBelowMinimum;;
  mret {|
    cfg_authority := ip_authority params;
    cfg_pending_authority := default_key;
    cfg_pending_authority_eta := 0;
    cfg_inactivity_seconds :=
      or_default (ip_inactivity_seconds params) DEFAULT_INACTIVITY_SECONDS;
    cfg_price_collapse_bps :=
      or_default (ip_price_collapse_bps params) DEFAULT_PRICE_COLLAPSE_BPS;
    cfg_min_tvl_lamports := or_default (ip_min_tvl_lamports params) DEFAULT_MIN_TVL_LAMPORTS;
    cfg_anchor_staleness_seconds := staleness;
    cfg_lp_burn_dust_threshold :=
      or_default (ip_lp_burn_dust_threshold params) DEFAULT_LP_BURN_DUST_THRESHOLD;
    cfg_cert_ttl_seconds := cert_ttl;
    cfg_paused := false;
    cfg_activity_oracle := ip_authority params;
    cfg_launch_price_oracle := ip_authority params;
    cfg_bump := config_bump;
    cfg_reserved := zeroes 64;
  |}.

Definition initialize (params : InitializeParams) (st : ScannerState) : outcome :=
  require (bool_decide (sc_config st = None)) (Framework AccountAlreadyInUse);;
  cfg ← prog (initialize_config params);
  mret (set_config cfg st, []).

(** ** update_protocol_config *)

(** [if let Some(v) = o { check(v)?; field = v }] *)
Definition update_field {A} (o : option A) (old : A) (check : A -> result GraveScannerError unit)
    : result GraveScannerError A :=
  match o with
  | Some v => check v;; mret v
  | None => mret old
  end.
Definition unchecked {A} (_ : A) : result GraveScannerError unit := Ok tt.

Definition apply_config_update (cfg : ProtocolConfig) (params : UpdateProtocolConfigParams)
    : result GraveScannerError ProtocolConfig :=
  inactivity ← update_field (up_inactivity_seconds params) (cfg_inactivity_seconds cfg) unchecked;
  collapse ← update_field (up_price_collapse_bps params) (cfg_price_collapse_bps cfg)
    (fun v => require (v <=? 10000) InvariantViolation);
  tvl ← update_field (up_min_tvl_lamports params) (cfg_min_tvl_lamports cfg) unchecked;
  staleness ← update_field (up_anchor_staleness_seconds params) (cfg_anchor_staleness_seconds cfg)
    (fun v => require (MIN_ANCHOR_STALENESS_SECONDS <=? v) InvariantViolation);
  dust ← update_field (up_lp_burn_dust_threshold params) (cfg_lp_burn_dust_threshold cfg) unchecked;
  ttl ← update_field (up_cert_ttl_seconds params) (cfg_cert_ttl_seconds cfg)
    (fun v => require (MIN_CERT_TTL_SECONDS <=? v) CertTtlBelowMinimum);
  activity ← update_field (up_activity_oracle params) (cfg_activity_oracle cfg) unchecked;
  launch ← update_field (up_launch_price_oracle params) (cfg_launch_price_oracle cfg) unchecked;
  mret {|
    cfg_authority := cfg_authority cfg;
    cfg_pending_authority := cfg_pending_authority cfg;
    cfg_pending_authority_eta := cfg_pending_authority_eta cfg;
    cfg_inactivity_seconds := inactivity;
    cfg_price_collapse_bps := collapse;
    cfg_min_tvl_lamports := tvl;
    cfg_anchor_staleness_seconds := staleness;
    cfg_lp_burn_dust_threshold := dust;
    cfg_cert_ttl_seconds := ttl;
    cfg_paused := cfg_paused cfg;
    cfg_activity_oracle := activity;
    cfg_launch_price_oracle := launch;
    cfg_bump := cfg_bump cfg;
    cfg_reserved := cfg_reserved cfg;
  |}.

Definition update_protocol_config (authority : Pubkey) (params : UpdateProtocolConfigParams)
    (st : ScannerState) : outcome :=
  cfg ← load (sc_config st);
  has_one_authority cfg authority;;
  cfg' ← prog (apply_config_update cfg params);
  mret (set_config cfg' st, []).

(** ** emergency_pause *)

Definition with_paused (paused : bool) (cfg : ProtocolConfig) : ProtocolConfig := {|
  cfg_authority := cfg_authority cfg;
  cfg_pending_authority := cfg_pending_authority cfg;
  cfg_pending_authority_eta := cfg_pending_authority_eta cfg;
  cfg_inactivity_seconds := cfg_inactivity_seconds cfg;
  cfg_price_collapse_bps := cfg_price_collapse_bps cfg;
  cfg_min_tvl_lamports := cfg_min_tvl_lamports cfg;
  cfg_anchor_staleness_seconds := cfg_anchor_staleness_seconds cfg;
  cfg_lp_burn_dust_threshold := cfg_lp_burn_dust_threshold cfg;
  cfg_cert_ttl_seconds := cfg_cert_ttl_seconds cfg;
  cfg_paused := paused;
  cfg_activity_oracle := cfg_activity_oracle cfg;
  cfg_launch_price_oracle := cfg_launch_price_oracle cfg;
  cfg_bump := cfg_bump cfg;
  cfg_reserved := cfg_reserved cfg;
|}.

Definition emergency_pause (authority : Pubkey) (paused : bool) (st : ScannerState) : outcome :=
  cfg ← load (sc_config st);
  has_one_authority cfg authority;;
  require (negb (Bool.eqb (cfg_paused cfg) paused)) (Program InvariantViolation);;
  mret (set_config (with_paused paused cfg) st, [ProtocolPauseChanged paused authority]).

(** ** record_launch_price *)

Definition record_launch_price (env : ScannerEnv) (params : RecordLaunchPriceParams)
    (st : ScannerState) : outcome :=
  let k := (rp_amm_program_id params, rp_pool_address params) in
  cfg ← load (sc_config st);
  require (bool_decide (sc_launch_prices st !! k = None)) (Framework AccountAlreadyInUse);;
  require (negb (cfg_paused cfg)) (Program ProtocolPaused);;
  clock ← get_clock env;
  '(launch_price_q64x64, first_swap_slot, first_swap_unix_ts) ←
    prog (verify_launch_price_attestation (env_instructions env)
      (mkLaunchPriceAttestationRef (rp_msg params) (rp_amm_program_id params)
        (rp_pool_address params) (rp_base_mint params) (rp_quote_mint params)
        (rp_launch_price_q64x64 params) (cfg_launch_price_oracle cfg))
      (clock_unix_timestamp clock) (clock_slot clock));
  mret (set_launch_price k {|
    lp_amm_program_id := rp_amm_program_id params;
    lp_pool_address := rp_pool_address params;
    lp_base_mint := rp_base_mint params;
    lp_quote_mint := rp_quote_mint params;
    lp_launch_price_q64x64 := launch_price_q64x64;
    lp_first_swap_slot := first_swap_slot;
    lp_first_swap_unix_ts := first_swap_unix_ts;
    lp_recorded_slot := clock_slot clock;
    lp_recorded_at := clock_unix_timestamp clock;
    lp_bump := pool_bump LAUNCH_PRICE_SEED k;
    lp_reserved := zeroes 16;
  |} st, []).

(** ** evaluate_pool *)

Definition thresholds_of (cfg : ProtocolConfig) : CriteriaThresholds := {|
  inactivity_seconds := cfg_inactivity_seconds cfg;
  price_collapse_bps := cfg_price_collapse_bps cfg;
  min_tvl_lamports := cfg_min_tvl_lamports cfg;
  lp_burn_dust_threshold := cfg_lp_burn_dust_threshold cfg;
|}.

(** The inputs both handlers assemble. *)
Definition inputs_of (ts : Z) (clock : Clock) (launch_price : LaunchPrice) (price : Z)
    (pool_data : PoolData) (locked : Z) (anchor_epoch : option Z) : CriteriaInputs := {|
  last_swap_unix_ts := ts;
  current_unix_ts := clock_unix_timestamp clock;
  launch_price_q64x64 := lp_launch_price_q64x64 launch_price;
  current_price_q64x64 := price;
  current_tvl_lamports := quote_reserve pool_data;
  lp_supply := pd_lp_supply pool_data;
  lp_locked_amount := locked;
  current_epoch := clock_epoch clock;
  anchor_first_eligible_epoch := anchor_epoch;
|}.

(** The verification stack, the same statements in both handlers: attestation,
    pool snapshot, mint pair, locker evidence, criteria. *)
Definition run_evaluation (env : ScannerEnv) (clock : Clock) (cfg : ProtocolConfig)
    (launch_price : LaunchPrice) (params : EvaluatePoolParams) (pool : AccountInfo)
    (phase : Phase) (anchor_epoch : option Z) : result GraveScannerError Z :=
  attested_last_swap_ts ←
    verify_last_swap_attestation (env_instructions env) (env_slot_hashes env)
      (mkAttestationRef (ev_msg params) (ev_amm_program_id params) (ev_pool_address params)
        (cfg_activity_oracle cfg))
      (clock_unix_timestamp clock) (clock_slot clock);
  pool_data ← extract_pool_data pool (ev_pool_address params) (env_remaining env);
  require (bool_decide (lp_base_mint launch_price = base_mint pool_data)
           && bool_decide (lp_quote_mint launch_price = quote_mint pool_data))
    LaunchPriceMintMismatch;;
  locked ← locked_lp_amount (lp_mint pool_data) (ev_pool_address params) (env_remaining env);
  price ← pool_price_q64x64 pool_data;
  evaluate (inputs_of attested_last_swap_ts clock launch_price price pool_data locked anchor_epoch)
    (thresholds_of cfg) phase.

Definition evaluate_pool_phase1 (env : ScannerEnv) (writer : Pubkey) (pool : AccountInfo)
    (params : EvaluatePoolParams) (st : ScannerState) : outcome :=
  let k := pool_key params in
  cfg ← load (sc_config st);
  launch_price ← load (sc_launch_prices st !! k);
  require (bool_decide (sc_anchors st !! k = None)) (Framework AccountAlreadyInUse);;
  require (negb (cfg_paused cfg)) (Program ProtocolPaused);;
  clock ← get_clock env;
  bitmap ← prog (run_evaluation env clock cfg launch_price params pool One None);
  mret (set_anchor k {|
    anchor_amm_program_id := ev_amm_program_id params;
    anchor_pool_address := ev_pool_address params;
    anchor_writer := writer;
    first_eligible_epoch := clock_epoch clock;
    written_at := clock_unix_timestamp clock;
    invalidated := false;
    anchor_criteria_bitmap := bitmap;
    anchor_bump := pool_bump ELIGIBILITY_ANCHOR_SEED k;
    anchor_reserved := zeroes 64;
  |} st,
  [EligibilityAnchorWritten (ev_amm_program_id params) (ev_pool_address params) writer
     (clock_epoch clock) bitmap]).

Definition evaluate_pool_phase2 (env : ScannerEnv) (writer : Pubkey) (pool : AccountInfo)
    (params : EvaluatePoolParams) (st : ScannerState) : outcome :=
  let k := pool_key params in
  cfg ← load (sc_config st);
  anchor ← load (sc_anchors st !! k);
  launch_price ← load (sc_launch_prices st !! k);
  let eligibility_cert := default zeroed_cert (sc_certs st !! k) in
  require (negb (cfg_paused cfg)) (Program ProtocolPaused);;
  clock ← get_clock env;
  require (negb (invalidated anchor)) (Program AnchorInvalidated);;
  bitmap ← prog (run_evaluation env clock cfg launch_price params pool Two
    (Some (first_eligible_epoch anchor)));
  require (bitmap =? anchor_criteria_bitmap anchor) (Program CriteriaBitmapMismatch);;
  require (is_expired eligibility_cert (clock_unix_timestamp clock)) (Program CertStillValid);;
  expires ← prog (ok_or
    (checked_add_i 64 (clock_unix_timestamp clock) (cfg_cert_ttl_seconds cfg)) MathOverflow);
  generation ← prog (ok_or (checked_add_u 64 (reissue_generation eligibility_cert) 1) MathOverflow);
  mret (set_cert k {|
    cert_amm_program_id := ev_amm_program_id params;
    cert_pool_address := ev_pool_address params;
    cert_writer := writer;
    anchor_epoch := first_eligible_epoch anchor;
    cert_epoch := clock_epoch clock;
    issued_at := clock_unix_timestamp clock;
    expires_at := expires;
    cert_criteria_bitmap := bitmap;
    reissue_generation := generation;
    cert_bump := pool_bump ELIGIBILITY_CERT_SEED k;
    cert_reserved := zeroes 56;
  |} st,
  [EligibilityCertIssued (ev_amm_program_id params) (ev_pool_address params) writer
     (first_eligible_epoch anchor) (clock_epoch clock) expires bitmap generation]).

(** ** invalidate_anchor *)

Definition with_invalidated (a : EligibilityAnchor) : EligibilityAnchor := {|
  anchor_amm_program_id := anchor_amm_program_id a;
  anchor_pool_address := anchor_pool_address a;
  anchor_writer := anchor_writer a;
  first_eligible_epoch := first_eligible_epoch a;
  written_at := written_at a;
  invalidated := true;
  anchor_criteria_bitmap := anchor_criteria_bitmap a;
  anchor_bump := anchor_bump a;
  anchor_reserved := anchor_reserved a;
|}.

Definition invalidate_anchor (authority : Pubkey) (k : PoolKey) (st : ScannerState) : outcome :=
  cfg ← load (sc_config st);
  anchor ← load (sc_anchors st !! k);
  has_one_authority cfg authority;;
  require (negb (invalidated anchor)) (Program AnchorInvalidated);;
  mret (set_anchor k (with_invalidated anchor) st,
    [AnchorInvalidatedEvent (anchor_amm_program_id anchor) (anchor_pool_address anchor) authority]).

(** ** sweep_stale_anchor *)

Definition sweep_gate (first_eligible_epoch configured_staleness_seconds current_epoch : Z)
    : result GraveScannerError unit :=
  let staleness_seconds := Z.max configured_staleness_seconds MIN_ANCHOR_STALENESS_SECONDS in
  staleness_epochs ← ok_or
    (checked_div_u
      (saturating_add_u 64 staleness_seconds (saturating_sub_u APPROX_EPOCH_DURATION_SECONDS 1))
      APPROX_EPOCH_DURATION_SECONDS) MathOverflow;
  earliest_sweep_epoch ← ok_or (checked_add_u 64 first_eligible_epoch staleness_epochs) MathOverflow;
  require (earliest_sweep_epoch <? current_epoch) AnchorNotStale.

(** Any anchor account of the program may be passed: it is named by its key. *)
Definition sweep_stale_anchor (env : ScannerEnv) (caller anchor_writer_key : Pubkey)
    (k : PoolKey) (st : ScannerState) : outcome :=
  cfg ← load (sc_config st);
  anchor ← load (sc_anchors st !! k);
  require (bool_decide (anchor_writer anchor = anchor_writer_key)) (Program Unauthorized);;
  clock ← get_clock env;
  prog (sweep_gate (first_eligible_epoch anchor) (cfg_anchor_staleness_seconds cfg)
    (clock_epoch clock));;
  mret (close_anchor k st,
    [AnchorSwept (anchor_amm_program_id anchor) (anchor_pool_address anchor) caller
      (anchor_writer anchor)]).

(** ** The program entry points *)

Inductive ScannerIx :=
| IxInitialize (params : InitializeParams)
| IxRecordLaunchPrice (params : RecordLaunchPriceParams)
| IxEvaluatePhase1 (writer : Pubkey) (pool : AccountInfo) (params : EvaluatePoolParams)
| IxEvaluatePhase2 (writer : Pubkey) (pool : AccountInfo) (params : EvaluatePoolParams)
| IxInvalidateAnchor (authority : Pubkey) (k : PoolKey)
| IxSweepStaleAnchor (caller anchor_writer : Pubkey) (k : PoolKey)
| IxUpdateProtocolConfig (authority : Pubkey) (params : UpdateProtocolConfigParams)
| IxEmergencyPause (authority : Pubkey) (paused : bool).

Definition scanner_exec (env : ScannerEnv) (ix : ScannerIx) (st : ScannerState) : outcome :=
  match ix with
  | IxInitialize params => initialize params st
  | IxRecordLaunchPrice params => record_launch_price env params st
  | IxEvaluatePhase1 writer pool params => evaluate_pool_phase1 env writer pool params st
  | IxEvaluatePhase2 writer pool params => evaluate_pool_phase2 env writer pool params st
  | IxInvalidateAnchor authority k => invalidate_anchor authority k st
  | IxSweepStaleAnchor caller w k => sweep_stale_anchor env caller w k st
  | IxUpdateProtocolConfig authority params => update_protocol_config authority params st
  | IxEmergencyPause authority paused => emergency_pause authority paused st
  end.

(** ** Well-typed inputs: the widths Rust's types guarantee *)

Record wf_env (env : ScannerEnv) : Prop := {
  wf_env_clock : forall c, env_clock env = Some c -> wf_clock c;
}.

Record wf_config (cfg : ProtocolConfig) : Prop := {
  wf_cfg_inactivity : is_u64 (cfg_inactivity_seconds cfg);
  wf_cfg_collapse : is_u16 (cfg_price_collapse_bps cfg);
  wf_cfg_tvl : is_u64 (cfg_min_tvl_lamports cfg);
  wf_cfg_dust : is_u64 (cfg_lp_burn_dust_threshold cfg);
  wf_cfg_staleness : is_u64 (cfg_anchor_staleness_seconds cfg);
  wf_cfg_ttl : is_i64 (cfg_cert_ttl_seconds cfg);
}.

Definition opt_is (P : Z -> Prop) (o : option Z) : Prop := forall z, o = Some z -> P z.

Definition wf_ix (ix : ScannerIx) : Prop :=
  match ix with
  | IxInitialize p =>
      is_u64 (ip_inactivity_seconds p) /\ is_u16 (ip_price_collapse_bps p) /\
      is_u64 (ip_min_tvl_lamports p) /\ is_u64 (ip_anchor_staleness_seconds p) /\
      is_u64 (ip_lp_burn_dust_threshold p) /\ is_i64 (ip_cert_ttl_seconds p)
  | IxUpdateProtocolConfig _ p =>
      opt_is is_u64 (up_inactivity_seconds p) /\ opt_is is_u16 (up_price_collapse_bps p) /\
      opt_is is_u64 (up_min_tvl_lamports p) /\ opt_is is_u64 (up_anchor_staleness_seconds p) /\
      opt_is is_u64 (up_lp_burn_dust_threshold p) /\ opt_is is_i64 (up_cert_ttl_seconds p)
  | IxRecordLaunchPrice p => length (rp_msg p) = 168%nat
  | IxEvaluatePhase1 _ _ p | IxEvaluatePhase2 _ _ p => length (ev_msg p) = 112%nat
  | _ => True
  end.

(** ** The transition system *)

Inductive scanner_step : ScannerState -> list ScannerEvent -> ScannerState -> Prop :=
| scanner_step_ok env ix st st' evs :
    wf_env env -> wf_ix ix ->
    scanner_exec env ix st = Ok (st', evs) ->
    scanner_step st evs st'.

Inductive scanner_reachable : ScannerState -> Prop :=
| scanner_reachable_genesis : scanner_reachable scanner_genesis
| scanner_reachable_step st evs st' :
    scanner_reachable st -> scanner_step st evs st' -> scanner_reachable st'.

(** ** Invariant *)

Record config_ok (cfg : ProtocolConfig) : Prop := {
  co_wf : wf_config cfg;
  co_staleness : MIN_ANCHOR_STALENESS_SECONDS <= cfg_anchor_staleness_seconds cfg;
  co_ttl : MIN_CERT_TTL_SECONDS <= cfg_cert_ttl_seconds cfg;
}.

Record launch_price_ok (k : PoolKey) (l : LaunchPrice) : Prop := {
  lo_key : (lp_amm_program_id l, lp_pool_address l) = k;
  lo_price : 0 < lp_launch_price_q64x64 l;
  lo_range : is_u128 (lp_launch_price_q64x64 l);
}.

Record anchor_ok (k : PoolKey) (a : EligibilityAnchor) : Prop := {
  ao_key : (anchor_amm_program_id a, anchor_pool_address a) = k;
  ao_complete : is_complete a = true;
  ao_epoch : is_u64 (first_eligible_epoch a);
}.

Record cert_ok (k : PoolKey) (c : EligibilityCert) : Prop := {
  ct_key : (cert_amm_program_id c, cert_pool_address c) = k;
  ct_complete : cert_criteria_bitmap c = ALL_CRITERIA_MASK;
  ct_gap : anchor_epoch c + MIN_EPOCH_CONFIRMATION <= cert_epoch c;
  ct_ttl : issued_at c + MIN_CERT_TTL_SECONDS <= expires_at c;
  ct_generation : 1 <= reissue_generation c;
}.

Record scanner_inv (st : ScannerState) : Prop := {
  inv_config : forall cfg, sc_config st = Some cfg -> config_ok cfg;
  inv_launch : map_Forall launch_price_ok (sc_launch_prices st);
  inv_anchors : map_Forall anchor_ok (sc_anchors st);
  inv_certs : map_Forall cert_ok (sc_certs st);
}.

(** ** What the verification stack establishes *)

Record pool_evidence (env : ScannerEnv) (clock : Clock) (cfg : ProtocolConfig)
    (launch_price : LaunchPrice) (params : EvaluatePoolParams) (pool : AccountInfo)
    (ph : Phase) (ae : option Z) (ts : Z) (pd : PoolData) (price : Z) : Prop := {
  pe_attested : verify_last_swap_attestation (env_instructions env) (env_slot_hashes env)
      (mkAttestationRef (ev_msg params) (ev_amm_program_id params) (ev_pool_address params)
        (cfg_activity_oracle cfg)) (clock_unix_timestamp clock) (clock_slot clock) = Ok ts;
  pe_pool : ai_key pool = ev_pool_address params /\ ai_owner pool = RAYDIUM_V4_PROGRAM_ID;
  pe_view : raydium_view pool (env_remaining env) pd;
  pe_mints : lp_base_mint launch_price = base_mint pd /\ lp_quote_mint launch_price = quote_mint pd;
  pe_price : pool_price_q64x64 pd = Ok price;
  pe_unlocked : proves (map (classify (lp_mint pd) (ev_pool_address params)) (env_remaining env)) 0;
  pe_derelict : derelict (inputs_of ts clock launch_price price pd 0 ae) (thresholds_of cfg) ph;
  pe_fits : drop_fits (lp_launch_price_q64x64 launch_price) price;
}.

Lemma verify_last_swap_range isv sh att now slot ts :
  verify_last_swap_attestation isv sh att now slot = Ok ts -> 0 < ts <= now.
Proof.
  unfold verify_last_swap_attestation. intros Hv. apply bind_Ok in Hv as ([[p s] i] & _ & Hv).
  apply bind_Ok in Hv as ([] & _ & Hv). apply verify_attestation_message_iff in Hv. naive_solver.
Qed.

Lemma inputs_of_wf ts clock l price pd locked ae :
  wf_clock clock -> is_i64 ts -> is_u128 (lp_launch_price_q64x64 l) -> is_u128 price ->
  wf_pool_data pd -> is_u64 locked -> wf_inputs (inputs_of ts clock l price pd locked ae).
Proof. intros [] ??? [] ?. constructor; done. Qed.

Lemma run_evaluation_iff env clock cfg l params pool ph ae b :
  wf_clock clock -> is_u128 (lp_launch_price_q64x64 l) ->
  run_evaluation env clock cfg l params pool ph ae = Ok b <->
    b = ALL_CRITERIA_MASK /\ exists ts pd price, pool_evidence env clock cfg l params pool ph ae ts pd price.
Proof.
  intros Hc Hl. unfold run_evaluation. split.
  - intros Hr. res_inv Hr. bool_simpl. rename r into ts, r0 into pd, r2 into locked, r3 into price.
    apply extract_pool_data_Ok in Hr1 as (Hk & Ho & Hp). apply raydium_v4_parse_Ok in Hp.
    pose proof (raydium_view_wf _ _ _ Hp) as Hwf.
    apply locked_lp_amount_spec in Hr3.
    assert (Hwi : wf_inputs (inputs_of ts clock l price pd locked ae)).
    { apply inputs_of_wf; try done.
      - apply verify_last_swap_range in Hr0. destruct Hc as [_ _ ?]. ints.
      - by eapply pool_price_q64x64_range.
      - by destruct Hr3. }
    destruct (evaluate_derelict_iff _ (thresholds_of cfg) ph Hwi) as [Hd _].
    rewrite is_ok_true in Hd. destruct Hd as [Hd Hfit]; [eauto|].
    split; [by eapply evaluate_Ok_mask|]. exists ts, pd, price.
    assert (locked = 0) as -> by apply (d_unlocked _ _ _ Hd).
    constructor; try done.
  - intros (-> & ts & pd & price & [Ha [Hk Ho] Hv [Hb Hq] Hp Hu Hd Hf]).
    pose proof (raydium_view_wf _ _ _ Hv) as Hwf.
    assert (Hwi : wf_inputs (inputs_of ts clock l price pd 0 ae)).
    { apply inputs_of_wf; try done.
      - apply verify_last_swap_range in Ha. destruct Hc as [_ _ ?]. ints.
      - by eapply pool_price_q64x64_range. }
    rewrite Ha. cbn [mbind result_bind].
    rewrite (proj2 (extract_pool_data_Ok pool _ _ pd))
      by (split_and!; [done..|by apply raydium_view_parse]).
    cbn [mbind result_bind]. rewrite !bool_decide_eq_true_2 by done.
    cbn [require andb mbind result_bind].
    rewrite (proj2 (locked_lp_amount_spec _ _ _ 0) Hu), Hp. cbn [mbind result_bind].
    destruct (evaluate_derelict_iff _ (thresholds_of cfg) ph Hwi) as [_ He].
    destruct (proj1 (is_ok_true _) (He (conj Hd Hf))) as [b Hb'].
    rewrite Hb'. f_equal. by eapply evaluate_Ok_mask.
Qed.

(** ** Handlers, inverted *)

Lemma load_Ok {A} (o : option A) a : load o = Ok a <-> o = Some a.
Proof. apply ok_or_Ok. Qed.
Lemma get_clock_Ok env c : get_clock env = Ok c <-> env_clock env = Some c.
Proof. apply ok_or_Ok. Qed.
Lemma has_one_authority_Ok cfg a u : has_one_authority cfg a = Ok u <-> cfg_authority cfg = a.
Proof. unfold has_one_authority. rewrite require_Ok. apply bool_decide_eq_true. Qed.

(** Inverts a handler that succeeded. *)
Ltac handler_inv H :=
  res_inv H;
  repeat match goal with
  | H : load _ = Ok _ |- _ => apply load_Ok in H
  | H : get_clock _ = Ok _ |- _ => apply get_clock_Ok in H
  | H : has_one_authority _ _ = Ok _ |- _ => apply has_one_authority_Ok in H
  | H : prog _ = Ok _ |- _ => apply (proj1 (prog_Ok _ _)) in H; res_inv H
  end; bool_simpl.

Lemma initialize_config_ok p cfg :
  wf_ix (IxInitialize p) -> initialize_config p = Ok cfg ->
  config_ok cfg /\ cfg_authority cfg = ip_authority p /\ cfg_paused cfg = false.
Proof.
  intros (Hi & Hc & Ht & Hs & Hd & Htt) H0. unfold initialize_config in H0. res_inv H0.
  bool_simpl. split; [|done].
  assert (Hst : is_u64 r /\ MIN_ANCHOR_STALENESS_SECONDS <= r).
  { destruct (Z.eqb_spec (ip_anchor_staleness_seconds p) 0); res_inv Hr; [|by bool_simpl].
    split; [in_range|done]. }
  assert (Hdef : forall w v d, is_u w v -> is_u w d -> is_u w (or_default v d)).
  { intros w v d ??. unfold or_default. by destruct (v =? 0). }
  assert (Hdefi : forall v d, is_i64 v -> is_i64 d -> is_i64 (or_default v d)).
  { intros v d ??. unfold or_default. by destruct (v =? 0). }
  destruct Hst. constructor; [constructor; cbn|done|done].
  1-4: by apply Hdef; [|in_range]. 1: done.
  apply Hdefi; [done|in_range].
Qed.

Lemma update_field_Ok {A} (o : option A) old check v :
  update_field o old check = Ok v ->
  (o = None /\ v = old) \/ (o = Some v /\ check v = Ok tt).
Proof.
  unfold update_field. destruct o as [w|]; intros H0; res_inv H0; [right|by left].
  by destruct r.
Qed.

Lemma apply_config_update_ok a cfg p cfg' :
  wf_ix (IxUpdateProtocolConfig a p) -> config_ok cfg -> apply_config_update cfg p = Ok cfg' ->
  config_ok cfg' /\ cfg_authority cfg' = cfg_authority cfg /\ cfg_paused cfg' = cfg_paused cfg.
Proof.
  intros (Hi & Hc & Ht & Hs & Hd & Htt) [[] ? ?] H0. unfold apply_config_update in H0. res_inv H0.
  split; [|done].
  repeat match goal with
  | H : update_field _ _ _ = Ok _ |- _ => apply update_field_Ok in H
  end.
  constructor; [constructor; simpl|simpl..];
    match goal with
    | H : _ \/ (_ = Some ?r /\ _) |- context [?r] =>
        destruct H as [[? ->]|[? Hck]]; [done|]; try by eauto
    end; apply require_Ok in Hck; by bool_simpl.
Qed.

(** The anchor Phase 1 writes and the cert Phase 2 writes. *)
Definition new_anchor (writer : Pubkey) (params : EvaluatePoolParams) (clock : Clock)
    : EligibilityAnchor :=
  mkEligibilityAnchor (ev_amm_program_id params) (ev_pool_address params) writer
    (clock_epoch clock) (clock_unix_timestamp clock) false ALL_CRITERIA_MASK
    (pool_bump ELIGIBILITY_ANCHOR_SEED (pool_key params)) (zeroes 64).

Definition new_cert (writer : Pubkey) (params : EvaluatePoolParams) (clock : Clock)
    (cfg : ProtocolConfig) (anchor : EligibilityAnchor) (old : EligibilityCert) : EligibilityCert :=
  mkEligibilityCert (ev_amm_program_id params) (ev_pool_address params) writer
    (first_eligible_epoch anchor) (clock_epoch clock) (clock_unix_timestamp clock)
    (clock_unix_timestamp clock + cfg_cert_ttl_seconds cfg) ALL_CRITERIA_MASK
    (reissue_generation old + 1)
    (pool_bump ELIGIBILITY_CERT_SEED (pool_key params)) (zeroes 56).

(** Everything Phase 1 requires. *)
Record phase1_ready (env : ScannerEnv) (pool : AccountInfo) (params : EvaluatePoolParams)
    (st : ScannerState) (cfg : ProtocolConfig) (l : LaunchPrice) (clock : Clock) : Prop := {
  p1_config : sc_config st = Some cfg;
  p1_launch : sc_launch_prices st !! pool_key params = Some l;
  p1_fresh : sc_anchors st !! pool_key params = None;
  p1_running : cfg_paused cfg = false;
  p1_clock : env_clock env = Some clock;
  p1_evidence : exists ts pd price, pool_evidence env clock cfg l params pool One None ts pd price;
}.

(** Everything Phase 2 requires; [old] is the pool's cert account. *)
Record phase2_ready (env : ScannerEnv) (pool : AccountInfo) (params : EvaluatePoolParams)
    (st : ScannerState) (cfg : ProtocolConfig) (l : LaunchPrice) (clock : Clock)
    (anchor : EligibilityAnchor) (old : EligibilityCert) : Prop := {
  p2_config : sc_config st = Some cfg;
  p2_launch : sc_launch_prices st !! pool_key params = Some l;
  p2_anchor : sc_anchors st !! pool_key params = Some anchor;
  p2_old : old = default zeroed_cert (sc_certs st !! pool_key params);
  p2_running : cfg_paused cfg = false;
  p2_clock : env_clock env = Some clock;
  p2_live : invalidated anchor = false;
  p2_evidence : exists ts pd price,
    pool_evidence env clock cfg l params pool Two (Some (first_eligible_epoch anchor)) ts pd price;
  p2_expired : expires_at old <= clock_unix_timestamp clock;
  p2_fits : is_i64 (clock_unix_timestamp clock + cfg_cert_ttl_seconds cfg) /\
    is_u64 (reissue_generation old + 1);
}.

Lemma evaluate_pool_phase1_Ok env writer pool params st st' evs :
  wf_env env -> scanner_inv st ->
  evaluate_pool_phase1 env writer pool params st = Ok (st', evs) <->
    exists cfg l clock, phase1_ready env pool params st cfg l clock /\
      st' = set_anchor (pool_key params) (new_anchor writer params clock) st /\
      evs = [EligibilityAnchorWritten (ev_amm_program_id params) (ev_pool_address params) writer
        (clock_epoch clock) ALL_CRITERIA_MASK].
Proof.
  intros [Hwc] [_ Hil _ _]. unfold evaluate_pool_phase1. split.
  - intros H0. handler_inv H0. rename r into cfg, r0 into l, r3 into clock.
    apply run_evaluation_iff in Hr4 as [-> Hev];
      [|by apply Hwc|by eapply lo_range, Hil].
    exists cfg, l, clock. split; [by constructor|done].
  - intros (cfg & l & clock & [Hc Hl Hf Hp Hk He] & -> & ->).
    unfold load, get_clock. rewrite Hc, Hl, Hk. cbn [ok_or mbind result_bind].
    rewrite bool_decide_eq_true_2, Hp by done. cbn [require negb mbind result_bind].
    rewrite (proj2 (run_evaluation_iff env clock cfg l params pool One None ALL_CRITERIA_MASK
      (Hwc _ Hk) (lo_range _ _ (Hil _ _ Hl))) (conj eq_refl He)). done.
Qed.

(** With the evidence in place and no live certificate, what is left of Phase 2
    is the arithmetic of the new certificate. *)
Lemma evaluate_pool_phase2_tail env writer pool params st cfg l clock anchor old ts pd price :
  wf_env env -> scanner_inv st -> env_clock env = Some clock ->
  sc_config st = Some cfg -> cfg_paused cfg = false ->
  sc_launch_prices st !! pool_key params = Some l ->
  sc_anchors st !! pool_key params = Some anchor -> invalidated anchor = false ->
  pool_evidence env clock cfg l params pool Two (Some (first_eligible_epoch anchor)) ts pd price ->
  old = default zeroed_cert (sc_certs st !! pool_key params) -> expires_at old <= clock_unix_timestamp clock ->
  let c := new_cert writer params clock cfg anchor old in
  evaluate_pool_phase2 env writer pool params st =
    (_ ← prog (ok_or (checked_add_i 64 (clock_unix_timestamp clock) (cfg_cert_ttl_seconds cfg)) MathOverflow);
     _ ← prog (ok_or (checked_add_u 64 (reissue_generation old) 1) MathOverflow);
     mret (set_cert (pool_key params) c st,
       [EligibilityCertIssued (ev_amm_program_id params) (ev_pool_address params) writer
          (anchor_epoch c) (cert_epoch c) (expires_at c) (cert_criteria_bitmap c) (reissue_generation c)])).
Proof.
  intros [Hwc] [_ Hil Hia _] Hk Hc Hp Hl Ha Hi He -> Hx c. unfold evaluate_pool_phase2, load, get_clock.
  rewrite Hc, Hl, Ha, Hk. cbn [ok_or mbind result_bind]. rewrite Hp, Hi. cbn [require negb mbind result_bind].
  rewrite (proj2 (run_evaluation_iff env clock cfg l params pool Two
    (Some (first_eligible_epoch anchor)) ALL_CRITERIA_MASK
    (Hwc _ Hk) (lo_range _ _ (Hil _ _ Hl)))) by eauto.
  pose proof (ao_complete _ _ (Hia _ _ Ha)) as Hcomp. unfold is_complete in Hcomp. bool_simpl.
  rewrite Hcomp. cbn [prog map_err mbind result_bind]. rewrite Z.eqb_refl.
  unfold is_expired. rewrite (proj2 (Z.leb_le _ _) Hx). cbn [require mbind result_bind].
  destruct (checked_add_i 64 _ _) as [e|] eqn:Hf1; [|done]. apply checked_add_i_Some in Hf1 as [-> _].
  cbn [ok_or prog map_err mbind result_bind].
  destruct (checked_add_u 64 _ _) as [g|] eqn:Hf2; [|done]. by apply checked_add_u_Some in Hf2 as [-> _].
Qed.

Lemma evaluate_pool_phase2_Ok env writer pool params st st' evs :
  wf_env env -> scanner_inv st ->
  evaluate_pool_phase2 env writer pool params st = Ok (st', evs) <->
    exists cfg l clock anchor old, phase2_ready env pool params st cfg l clock anchor old /\
      let c := new_cert writer params clock cfg anchor old in
      st' = set_cert (pool_key params) c st /\
      evs = [EligibilityCertIssued (ev_amm_program_id params) (ev_pool_address params) writer
        (anchor_epoch c) (cert_epoch c) (expires_at c) (cert_criteria_bitmap c)
        (reissue_generation c)].
Proof.
  intros Hwe Hinv. split.
  - destruct Hwe as [Hwc], Hinv as [_ Hil Hia _]. unfold evaluate_pool_phase2. intros H0. handler_inv H0.
    rename r into cfg, r0 into anchor, r1 into l, r3 into clock.
    apply run_evaluation_iff in Hr5 as [-> Hev]; [|by apply Hwc|by eapply lo_range, Hil].
    checked_inv. exists cfg, l, clock, anchor, (default zeroed_cert (sc_certs st !! pool_key params)).
    split; [|done]. unfold is_expired in *. bool_simpl. by constructor.
  - intros (cfg & l & clock & anchor & old & [Hc Hl Ha Ho Hp Hk Hi (ts & pd & price & He) Hx [Hf1 Hf2]] & -> & ->).
    rewrite (evaluate_pool_phase2_tail env writer pool params st cfg l clock anchor old ts pd price) by done.
    rewrite (proj2 (checked_add_i_Some 64 _ _ _) (conj eq_refl Hf1)).
    by rewrite (proj2 (checked_add_u_Some 64 _ _ _) (conj eq_refl Hf2)).
Qed.

(** ... and when that arithmetic does not fit, it is what fails. *)
Lemma evaluate_pool_phase2_overflow env writer pool params st cfg l clock anchor old ts pd price :
  wf_env env -> scanner_inv st -> env_clock env = Some clock ->
  sc_config st = Some cfg -> cfg_paused cfg = false ->
  sc_launch_prices st !! pool_key params = Some l ->
  sc_anchors st !! pool_key params = Some anchor -> invalidated anchor = false ->
  pool_evidence env clock cfg l params pool Two (Some (first_eligible_epoch anchor)) ts pd price ->
  old = default zeroed_cert (sc_certs st !! pool_key params) -> expires_at old <= clock_unix_timestamp clock ->
  ~ (is_i64 (clock_unix_timestamp clock + cfg_cert_ttl_seconds cfg) /\ is_u64 (reissue_generation old + 1)) ->
  evaluate_pool_phase2 env writer pool params st = Err (Program MathOverflow).
Proof.
  intros Hwe Hinv Hk Hc Hp Hl Ha Hi He Ho Hx Hf.
  rewrite (evaluate_pool_phase2_tail env writer pool params st cfg l clock anchor old ts pd price) by done.
  destruct (checked_add_i 64 _ _) as [e|] eqn:Hf1; [|done]. apply checked_add_i_Some in Hf1 as [_ Hf1].
  destruct (checked_add_u 64 _ _) as [g|] eqn:Hf2; [|done]. apply checked_add_u_Some in Hf2 as [_ Hf2].
  by destruct Hf.
Qed.

Lemma verify_launch_price_Ok isv att now slot price fslot fts :
  length (lpa_msg att) = 168%nat ->
  verify_launch_price_attestation isv att now slot = Ok (price, fslot, fts) ->
  0 < price /\ is_u128 price.
Proof.
  intros Hlen Hv. unfold verify_launch_price_attestation in Hv.
  apply bind_Ok in Hv as ([[p s] i] & _ & Hv). apply bind_Ok in Hv as ([] & _ & Hv).
  apply verify_launch_price_message_iff in Hv as (_ & _ & _ & _ & _ & Hpos & _ & _ & _ & Hr).
  simplify_eq. split; [done|]. apply le_Z_is_u. rewrite slice_length; [done|lia].
Qed.

(** The sweep gate in plain arithmetic. *)
Definition sweep_epochs (staleness : Z) : Z :=
  (Z.min (Z.max staleness MIN_ANCHOR_STALENESS_SECONDS + 172799) (2 ^ 64 - 1)) / 172800.

Lemma sweep_gate_Ok e s cur :
  0 <= e -> sweep_gate e s cur = Ok tt <-> e + sweep_epochs s < cur /\ is_u64 (e + sweep_epochs s).
Proof.
  intros He. unfold sweep_gate, sweep_epochs, saturating_add_u, saturating_sub_u, u_max,
    APPROX_EPOCH_DURATION_SECONDS.
  change (Z.max 0 (2 * 24 * 60 * 60 - 1)) with 172799. change (2 * 24 * 60 * 60) with 172800.
  unfold checked_div_u. change (172800 =? 0) with false. cbn [ok_or mbind result_bind].
  set (n := Z.min _ _ / 172800). split.
  - intros Hg. res_inv Hg. checked_inv. by bool_simpl.
  - intros [Hlt Hfit]. rewrite (proj2 (checked_add_u_Some 64 e n _) (conj eq_refl Hfit)).
    cbn [ok_or mbind result_bind]. apply require_true. by bool_goal.
Qed.

Lemma sweep_epochs_floor s : MIN_EPOCH_CONFIRMATION + 1 <= sweep_epochs s.
Proof.
  unfold sweep_epochs, MIN_EPOCH_CONFIRMATION, MIN_ANCHOR_STALENESS_SECONDS,
    APPROX_EPOCH_DURATION_SECONDS. apply Z.div_le_lower_bound; [done|]. unfold_ints.
  unfold MIN_EPOCH_CONFIRMATION. lia.
Qed.

(** ** The abstract transitions

    What a successful instruction does to the state, and why it may. *)
Inductive scanner_effect (env : ScannerEnv) (who : option Pubkey) (st : ScannerState)
    : ScannerState -> Prop :=
| eff_initialize cfg :
    sc_config st = None -> config_ok cfg -> cfg_paused cfg = false ->
    scanner_effect env who st (set_config cfg st)
| eff_reconfigure cfg cfg' :
    sc_config st = Some cfg -> who = Some (cfg_authority cfg) ->
    config_ok cfg' -> cfg_authority cfg' = cfg_authority cfg ->
    scanner_effect env who st (set_config cfg' st)
| eff_launch cfg k l :
    sc_config st = Some cfg -> cfg_paused cfg = false ->
    sc_launch_prices st !! k = None -> launch_price_ok k l ->
    scanner_effect env who st (set_launch_price k l st)
| eff_anchor writer pool params cfg l clock :
    phase1_ready env pool params st cfg l clock -> wf_clock clock ->
    scanner_effect env who st (set_anchor (pool_key params) (new_anchor writer params clock) st)
| eff_cert writer pool params cfg l clock anchor old :
    phase2_ready env pool params st cfg l clock anchor old -> wf_clock clock ->
    scanner_effect env who st
      (set_cert (pool_key params) (new_cert writer params clock cfg anchor old) st)
| eff_invalidate cfg k a :
    sc_config st = Some cfg -> who = Some (cfg_authority cfg) ->
    sc_anchors st !! k = Some a -> invalidated a = false ->
    scanner_effect env who st (set_anchor k (with_invalidated a) st)
| eff_sweep cfg k a clock :
    sc_config st = Some cfg -> sc_anchors st !! k = Some a -> env_clock env = Some clock ->
    first_eligible_epoch a + MIN_EPOCH_CONFIRMATION + 1 < clock_epoch clock ->
    scanner_effect env who st (close_anchor k st).

(** The authority whose signature an instruction carries, when it needs one. *)
Definition ix_authority (ix : ScannerIx) : option Pubkey :=
  match ix with
  | IxInvalidateAnchor a _ | IxUpdateProtocolConfig a _ | IxEmergencyPause a _ => Some a
  | _ => None
  end.

Lemma with_paused_ok b cfg : config_ok cfg -> config_ok (with_paused b cfg).
Proof. intros [[] ??]. by constructor. Qed.

Lemma scanner_exec_effect env ix st st' evs :
  wf_env env -> wf_ix ix -> scanner_inv st ->
  scanner_exec env ix st = Ok (st', evs) -> scanner_effect env (ix_authority ix) st st'.
Proof.
  intros Hwe Hwi Hinv H0. destruct Hinv as [Hic Hil Hia Hice] eqn:E. clear E.
  destruct ix as [p|p|w pool p|w pool p|a k|c w k|a p|a b]; cbn [scanner_exec] in H0.
  - unfold initialize in H0. handler_inv H0.
    apply initialize_config_ok in Hr0 as (? & _ & ?); [|done]. by apply eff_initialize.
  - unfold record_launch_price in H0. handler_inv H0. destruct r3 as [[price fslot] fts].
    handler_inv H0. apply verify_launch_price_Ok in Hr3 as [? ?]; [|done].
    by eapply eff_launch.
  - apply evaluate_pool_phase1_Ok in H0 as (cfg & l & clock & Hr & -> & _); [|done..].
    eapply eff_anchor; [done|]. by eapply wf_env_clock, p1_clock.
  - apply evaluate_pool_phase2_Ok in H0 as (cfg & l & clock & an & old & Hr & -> & _); [|done..].
    eapply eff_cert; [done|]. by eapply wf_env_clock, p2_clock.
  - unfold invalidate_anchor in H0. handler_inv H0.
    eapply eff_invalidate; [done|simpl; congruence|done..].
  - unfold sweep_stale_anchor in H0. handler_inv H0. destruct r3.
    pose proof (ao_epoch _ _ (Hia _ _ Hr0)) as Hep.
    apply sweep_gate_Ok in Hr3 as [Hlt _]; [|apply Hep].
    pose proof (sweep_epochs_floor (cfg_anchor_staleness_seconds r)).
    eapply eff_sweep; [done..|]. lia.
  - unfold update_protocol_config in H0. handler_inv H0.
    apply (apply_config_update_ok a) in Hr1 as (? & ? & _); [|done|by apply Hic].
    eapply eff_reconfigure; [done|simpl; congruence|done..].
  - unfold emergency_pause in H0. handler_inv H0.
    eapply eff_reconfigure; [done|simpl; congruence|by apply with_paused_ok, Hic|done].
Qed.

Lemma new_cert_ok writer params clock cfg anchor old env pool st l :
  scanner_inv st -> wf_clock clock ->
  phase2_ready env pool params st cfg l clock anchor old ->
  cert_ok (pool_key params) (new_cert writer params clock cfg anchor old).
Proof.
  intros [Hic _ Hia Hice] Hwc [Hc Hl Ha Ho Hp Hk Hi (ts & pd & pr & He) Hx [Hf1 Hf2]].
  pose proof (pe_derelict _ _ _ _ _ _ _ _ _ _ _ He) as Hd.
  destruct (d_confirmed _ _ _ Hd eq_refl) as (e & He1 & He2). simpl in He1, He2. simplify_eq.
  pose proof (co_ttl _ (Hic _ Hc)). constructor; simpl; try done; try lia.
  destruct (sc_certs st !! pool_key params) as [c|] eqn:Hcert; simpl; [|lia].
  pose proof (ct_generation _ _ (Hice _ _ Hcert)). lia.
Qed.

Lemma scanner_inv_effect env who st st' :
  scanner_inv st -> scanner_effect env who st st' -> scanner_inv st'.
Proof.
  intros Hinv He. pose proof Hinv as [Hic Hil Hia Hice].
  destruct He; constructor; simpl; try done; try naive_solver;
    try (apply map_Forall_insert_2; [|done]).
  - done.
  - by constructor; [..|apply wf_clock_epoch].
  - by eapply new_cert_ok.
  - destruct (Hia _ _ H2). by constructor.
  - by apply map_Forall_delete.
Qed.

Lemma scanner_reachable_inv st : scanner_reachable st -> scanner_inv st.
Proof.
  induction 1 as [|st evs st' _ IH Hs].
  - constructor; [done|apply map_Forall_empty..].
  - destruct Hs as [env ix st st' evs ?? Hx]. eapply scanner_inv_effect; [done|].
    by eapply scanner_exec_effect.
Qed.

(** ** Properties *)

(** C8. Soundness and completeness of certification. On any reachable state
    Phase 2 succeeds exactly when the program is running, the pool has a
    launch price and a live (not invalidated) anchor, the oracle attestation,
    the Raydium snapshot, the mint pair and the locker evidence hold together
    with the six criteria at least two epochs after the anchor, no live cert
    exists, and the arithmetic fits its types: the price drop, the expiry (now
    plus the TTL) in an i64 and the next generation number in a u64. The cert
    written, and the event, are the ones these facts determine. *)
Theorem evaluate_pool_phase2_spec env writer pool params st st' evs :
  scanner_reachable st -> wf_env env ->
  evaluate_pool_phase2 env writer pool params st = Ok (st', evs) <->
    exists cfg l clock anchor old, phase2_ready env pool params st cfg l clock anchor old /\
      let c := new_cert writer params clock cfg anchor old in
      st' = set_cert (pool_key params) c st /\
      evs = [EligibilityCertIssued (ev_amm_program_id params) (ev_pool_address params) writer
        (anchor_epoch c) (cert_epoch c) (expires_at c) (cert_criteria_bitmap c)
        (reissue_generation c)].
Proof. intros Hr He. apply evaluate_pool_phase2_Ok; [done|by apply scanner_reachable_inv]. Qed.

(** Phase 1 likewise: an anchor is written, once per pool, exactly when
    the verification stack holds. *)
Theorem evaluate_pool_phase1_spec env writer pool params st st' evs :
  scanner_reachable st -> wf_env env ->
  evaluate_pool_phase1 env writer pool params st = Ok (st', evs) <->
    exists cfg l clock, phase1_ready env pool params st cfg l clock /\
      st' = set_anchor (pool_key params) (new_anchor writer params clock) st /\
      evs = [EligibilityAnchorWritten (ev_amm_program_id params) (ev_pool_address params) writer
        (clock_epoch clock) ALL_CRITERIA_MASK].
Proof. intros Hr He. apply evaluate_pool_phase1_Ok; [done|by apply scanner_reachable_inv]. Qed.

(** C7. In every reachable state the config respects its floors, every launch
    price is positive, every anchor and cert carries the full bitmap and sits
    at its own seeds, every cert was written at least two epochs after its
    anchor and lives for at least ten minutes. *)
Theorem scanner_invariant st : scanner_reachable st -> scanner_inv st.
Proof. apply scanner_reachable_inv. Qed.

(** Every successful instruction is one of the seven abstract transitions,
    with its justification: the handlers refine [scanner_effect]. *)
Theorem scanner_refines_effects env ix st st' evs :
  scanner_reachable st -> wf_env env -> wf_ix ix ->
  scanner_exec env ix st = Ok (st', evs) -> scanner_effect env (ix_authority ix) st st'.
Proof. intros Hr ??. apply scanner_exec_effect; [done..|]. by apply scanner_reachable_inv. Qed.

(** A recorded launch price is immutable. *)
Theorem launch_price_immutable env ix st st' evs k l :
  scanner_reachable st -> wf_env env -> wf_ix ix ->
  scanner_exec env ix st = Ok (st', evs) ->
  sc_launch_prices st !! k = Some l -> sc_launch_prices st' !! k = Some l.
Proof.
  intros Hr ?? Hx Hl. apply scanner_reachable_inv in Hr.
  apply scanner_exec_effect in Hx; [|done..]. destruct Hx; simpl; try done.
  rewrite lookup_insert_ne; congruence.
Qed.

(** C31. A live cert is never overwritten or removed: when an instruction
    changes a pool's cert, the cert had expired by that instruction's clock,
    and the new one is the next generation and live. *)
Theorem live_cert_never_overwritten env ix st st' evs k c :
  scanner_reachable st -> wf_env env -> wf_ix ix ->
  scanner_exec env ix st = Ok (st', evs) ->
  sc_certs st !! k = Some c -> sc_certs st' !! k <> Some c ->
  exists clock c', env_clock env = Some clock /\
    is_expired c (clock_unix_timestamp clock) = true /\
    sc_certs st' !! k = Some c' /\ is_expired c' (clock_unix_timestamp clock) = false /\
    reissue_generation c' = reissue_generation c + 1.
Proof.
  intros Hr ?? Hx Hc Hne. apply scanner_reachable_inv in Hr.
  apply scanner_exec_effect in Hx; [|done..].
  destruct Hx as [| | | |writer pool params cfg l clock anchor old Hp2 ?| |]; simpl in *; try done.
  destruct (decide (pool_key params = k)) as [<-|Hk]; [|by rewrite lookup_insert_ne in Hne].
  destruct Hp2 as [Hcfg _ _ -> _ Hclk _ _ Hexp _]. rewrite Hc in Hexp |- *. simpl in *.
  exists clock. rewrite lookup_insert_eq. eexists. split_and!; try done.
  - unfold is_expired. by apply Z.leb_le.
  - unfold is_expired. simpl. apply Z.leb_gt.
    pose proof (co_ttl _ (inv_config _ Hr _ Hcfg)) as Ht. unfold MIN_CERT_TTL_SECONDS in Ht. lia.
Qed.

(** C36. Invalidation is final: while an invalidated anchor exists no cert is
    issued for its pool, and the anchor only ever stays as it is or is swept. *)
Theorem invalidated_anchor_never_certified env ix st st' evs k a :
  scanner_reachable st -> wf_env env -> wf_ix ix ->
  scanner_exec env ix st = Ok (st', evs) ->
  sc_anchors st !! k = Some a -> invalidated a = true ->
  sc_certs st' !! k = sc_certs st !! k /\
  (sc_anchors st' !! k = Some a \/ sc_anchors st' !! k = None).
Proof.
  intros Hr ?? Hx Ha Hi. apply scanner_reachable_inv in Hr.
  apply scanner_exec_effect in Hx; [|done..].
  destruct Hx as [| | |writer pool params cfg l clock Hp ?|
    writer pool params cfg l clock anchor old Hp ?|cfg k0 a0|cfg k0 a0]; simpl; try by eauto.
  - assert (pool_key params <> k) by (destruct Hp; congruence).
    rewrite lookup_insert_ne by done. eauto.
  - assert (pool_key params <> k) by (destruct Hp; congruence).
    rewrite lookup_insert_ne by done. eauto.
  - rewrite lookup_insert_ne by congruence. eauto.
  - split; [done|]. destruct (decide (k0 = k)) as [->|].
    + right. apply lookup_delete_eq.
    + left. by rewrite lookup_delete_ne.
Qed.

(** C37. The multisig's powers are the multisig's alone: only an instruction
    signed by the configured authority changes the config or invalidates an
    anchor (an anchor may otherwise only be swept), and no instruction, the
    authority's own update_protocol_config included, changes who the authority
    is: it updates thresholds and the two oracle keys, and the documentation in
    lib.rs that it updates the authority keys does not hold of
    ProtocolConfig::authority. *)
Theorem only_authority_governs env ix st st' evs cfg :
  scanner_reachable st -> wf_env env -> wf_ix ix ->
  scanner_exec env ix st = Ok (st', evs) -> sc_config st = Some cfg ->
  (exists cfg', sc_config st' = Some cfg' /\ cfg_authority cfg' = cfg_authority cfg) /\
  (ix_authority ix <> Some (cfg_authority cfg) ->
     sc_config st' = Some cfg /\
     forall k a, sc_anchors st !! k = Some a ->
       sc_anchors st' !! k = Some a \/ sc_anchors st' !! k = None).
Proof.
  intros Hr ?? Hx Hc. apply scanner_reachable_inv in Hr.
  apply scanner_exec_effect in Hx; [|done..].
  destruct Hx as [| | |writer pool params cfg0 l clock Hp ?| |cfg0 k a|cfg0 k a];
    simpl in *; simplify_eq; split; eauto; try done; intros Hwho; split; try done; intros k' a' Ha'.
  - rewrite lookup_insert_ne; [by eauto|]. destruct Hp. congruence.
  - destruct (decide (k = k')) as [->|]; [right; apply lookup_delete_eq|left].
    by rewrite lookup_delete_ne.
Qed.

(** The sweep never closes an anchor while Phase 2 has had no chance: a
    swept anchor is at least four epochs old, while Phase 2 accepts from two
    epochs on - whatever window is configured. *)
Theorem sweep_leaves_phase2_window env caller w k st st' evs :
  scanner_reachable st -> wf_env env ->
  sweep_stale_anchor env caller w k st = Ok (st', evs) ->
  exists clock a, env_clock env = Some clock /\ sc_anchors st !! k = Some a /\
    first_eligible_epoch a + MIN_EPOCH_CONFIRMATION + 2 <= clock_epoch clock /\
    st' = close_anchor k st /\ anchor_writer a = w.
Proof.
  intros Hr He Hx. apply scanner_reachable_inv in Hr. unfold sweep_stale_anchor in Hx.
  handler_inv Hx. destruct r3. pose proof (ao_epoch _ _ (inv_anchors _ Hr _ _ Hr1)) as Hep.
  apply sweep_gate_Ok in Hr4 as [Hlt _]; [|apply Hep].
  pose proof (sweep_epochs_floor (cfg_anchor_staleness_seconds r)).
  exists r2, r0. split_and!; try done. lia.
Qed.

(** While paused, nothing is evaluated, certified or recorded - and
    nothing else is affected: governance, invalidation and sweeping behave
    exactly as when running. *)
Theorem pause_is_an_evaluation_switch env ix st cfg :
  sc_config st = Some cfg -> cfg_paused cfg = true ->
  match ix with
  | IxRecordLaunchPrice _ | IxEvaluatePhase1 _ _ _ | IxEvaluatePhase2 _ _ _ =>
      is_ok (scanner_exec env ix st) = false
  | IxInvalidateAnchor _ _ | IxSweepStaleAnchor _ _ _ | IxUpdateProtocolConfig _ _ =>
      is_ok (scanner_exec env ix (set_config (with_paused false cfg) st))
        = is_ok (scanner_exec env ix st)
  | _ => True
  end.
Proof.
  intros Hc Hp.
  destruct ix as [p|p|w pool p|w pool p|a k|c w k|a p|a b]; cbn [scanner_exec]; try done.
  - apply not_true_iff_false. rewrite is_ok_true. intros [? Hx].
    unfold record_launch_price in Hx. handler_inv Hx. congruence.
  - apply not_true_iff_false. rewrite is_ok_true. intros [? Hx].
    unfold evaluate_pool_phase1 in Hx. handler_inv Hx. congruence.
  - apply not_true_iff_false. rewrite is_ok_true. intros [? Hx].
    unfold evaluate_pool_phase2 in Hx. handler_inv Hx. congruence.
  - unfold invalidate_anchor, load, has_one_authority. rewrite Hc. simpl.
    destruct (sc_anchors st !! k); simpl; [|done].
    destruct (bool_decide _); simpl; [|done]. by destruct (invalidated _).
  - unfold sweep_stale_anchor, load, get_clock. rewrite Hc. simpl.
    destruct (sc_anchors st !! k); simpl; [|done].
    destruct (bool_decide _); simpl; [|done]. destruct (env_clock env); simpl; [|done].
    by destruct (sweep_gate _ _ _).
  - unfold update_protocol_config, load, has_one_authority. rewrite Hc. simpl.
    destruct (bool_decide _); simpl; [|done].
    unfold apply_config_update, update_field, unchecked. simpl.
    repeat (case_match; simpl; try done); repeat (destruct (require _ _); simpl; try done).
Qed.
End Handlers.
