(* ===== verification/ScannerTests.v ===== *)
(** * ScannerTests: the scanner's other tests

    [programs/grave-scanner/src]: the tests of [adapters/raydium_v4.rs],
    [adapters/mod.rs], [constants.rs], [errors.rs], [state/*.rs],
    [instructions/update_protocol_config.rs] and
    [instructions/sweep_stale_anchor.rs]. Keys drawn by [Pubkey::new_unique]
    are distinct fixed keys. *)

From S2P Require Import Prelude TestKit Bytes Solana Criteria Adapters Locker ScannerState Scanner.

(** ** [adapters/raydium_v4.rs] *)

Definition coin_vault : Pubkey := key_of xc1.
Definition pc_vault : Pubkey := key_of xc2.
Definition coin_mint : Pubkey := key_of xc3.
Definition pc_mint : Pubkey := key_of xc4.
Definition lp_mint_key : Pubkey := key_of xc5.
Definition pool_key : Pubkey := key_of xc6.
Definition other_key : Pubkey := key_of xc7.
Definition attacker_program : Pubkey := key_of xc8.

Definition build_synthetic_amm_info (coin_vault pc_vault coin_vault_mint pc_vault_mint lp_mint : Pubkey) : list byte :=
  zeroes 336 ++ coin_vault ++ pc_vault ++ coin_vault_mint ++ pc_vault_mint ++ lp_mint ++ zeroes 256.
Definition token_account (mint : Pubkey) (amount : Z) : list byte := mint ++ zeroes 32 ++ le_bytes 8 amount ++ zeroes 93.
Definition mint_account (supply : Z) : list byte := zeroes 36 ++ le_bytes 8 supply ++ zeroes 38.
Definition info (key owner : Pubkey) (data : list byte) : AccountInfo := mkAccountInfo key 1000000 data owner false.

Definition amm_info_size_matches_raydium_v4_canonical_752 : bool := same AMM_INFO_SIZE 752%nat.
Definition read_pubkey_extracts_value_at_offset : bool :=
  yields (read_pubkey (zeroes 100 ++ other_key ++ zeroes 68) 100) other_key.
Definition read_pubkey_rejects_out_of_bounds_read : bool := fails (read_pubkey (zeroes 10) 5).
Definition synthetic_fixture_roundtrips_all_five_pubkey_fields : bool :=
  let buf := build_synthetic_amm_info coin_vault pc_vault coin_mint pc_mint lp_mint_key in
  same (length buf) AMM_INFO_SIZE && yields (read_pubkey buf COIN_VAULT) coin_vault
  && yields (read_pubkey buf PC_VAULT) pc_vault && yields (read_pubkey buf COIN_VAULT_MINT) coin_mint
  && yields (read_pubkey buf PC_VAULT_MINT) pc_mint && yields (read_pubkey buf LP_MINT) lp_mint_key.

Definition synth_pool : AccountInfo :=
  info pool_key RAYDIUM_V4_PROGRAM_ID (build_synthetic_amm_info coin_vault pc_vault coin_mint pc_mint lp_mint_key).
(** The three accounts, with the owner and the embedded mint of the coin vault
    and the owner of the LP mint to vary. *)
Definition remaining (vault_owner vault_mint lp_owner : Pubkey) : list AccountInfo :=
  [info coin_vault vault_owner (token_account vault_mint 1000);
   info pc_vault SPL_TOKEN_ID (token_account pc_mint 2000); info lp_mint_key lp_owner (mint_account 10000)].

Definition adv_lp00_honest_fixture_parses : bool :=
  match raydium_v4_parse synth_pool (remaining SPL_TOKEN_ID coin_mint SPL_TOKEN_ID) with
  | Ok parsed =>
      same (base_reserve parsed) 1000 && same (quote_reserve parsed) 2000 && same (pd_lp_supply parsed) 10000
  | Err _ => false
  end.

#[local] Instance pool_data_eq_dec : EqDecision PoolData.
Proof. solve_decision. Defined.

Definition adv_lp01_missing_remaining_accounts_refused : bool :=
  refused_with (raydium_v4_parse synth_pool []) PoolDataParseError.
Definition adv_lp02_foreign_vault_owner_refused : bool :=
  refused_with (raydium_v4_parse synth_pool (remaining attacker_program coin_mint SPL_TOKEN_ID)) PoolDataParseError.
Definition adv_lp03_vault_mint_crosscheck_refused : bool :=
  refused_with (raydium_v4_parse synth_pool (remaining SPL_TOKEN_ID other_key SPL_TOKEN_ID)) PoolDataParseError.
Definition adv_lp04_foreign_lp_mint_owner_refused : bool :=
  refused_with (raydium_v4_parse synth_pool (remaining SPL_TOKEN_ID coin_mint attacker_program)) PoolDataParseError.
Definition adv_lp05_wrong_pool_size_refused : bool :=
  refused_with (raydium_v4_parse (info pool_key RAYDIUM_V4_PROGRAM_ID (zeroes 751)) []) PoolDataParseError.

(** ** [adapters/mod.rs] *)

Definition account_at (key owner : Pubkey) (data : list byte) : AccountInfo := info key owner data.

Definition adv_cpi01_pool_key_mismatch_refused : bool :=
  refused_with (extract_pool_data (account_at pool_key RAYDIUM_V4_PROGRAM_ID (zeroes 752)) other_key []) UnsupportedAmm.
Definition adv_cpi02_unknown_amm_owner_refused : bool :=
  refused_with (extract_pool_data (account_at pool_key attacker_program (zeroes 752)) pool_key []) UnsupportedAmm.
Definition adv_cpi03_registered_stubs_refuse_with_6007 : bool :=
  forallb (fun owner =>
    refused_with (extract_pool_data (account_at pool_key owner (zeroes 300)) pool_key []) AmmAdapterUnimplemented)
    [RAYDIUM_CLMM_PROGRAM_ID; ORCA_WHIRLPOOL_PROGRAM_ID; PUMPSWAP_PROGRAM_ID; METEORA_PROGRAM_ID].
Definition adv_cpi04_price_math_fails_closed_on_zero_base : bool :=
  let data base := mkPoolData base (u_max 64) 1 default_key default_key default_key in
  refused_with (pool_price_q64x64 (data 0)) PoolDataParseError
  && yields (pool_price_q64x64 (data 1)) (Z.shiftl (u_max 64) 64).

Lemma adapter_tests_pass : all_pass [
  amm_info_size_matches_raydium_v4_canonical_752; read_pubkey_extracts_value_at_offset;
  read_pubkey_rejects_out_of_bounds_read; synthetic_fixture_roundtrips_all_five_pubkey_fields;
  adv_lp00_honest_fixture_parses; adv_lp01_missing_remaining_accounts_refused;
  adv_lp02_foreign_vault_owner_refused; adv_lp03_vault_mint_crosscheck_refused;
  adv_lp04_foreign_lp_mint_owner_refused; adv_lp05_wrong_pool_size_refused;
  adv_cpi01_pool_key_mismatch_refused; adv_cpi02_unknown_amm_owner_refused;
  adv_cpi03_registered_stubs_refuse_with_6007; adv_cpi04_price_math_fails_closed_on_zero_base] = true.
Proof. run_suite. Qed.

(** ** [constants.rs] and [errors.rs] *)

(** [a.div_ceil(b)] *)
Definition div_ceil (a b : Z) : Z := (a + b - 1) / b.

Definition staleness_floor_keeps_phase2_window_open : bool :=
  same (div_ceil MIN_ANCHOR_STALENESS_SECONDS APPROX_EPOCH_DURATION_SECONDS) (MIN_EPOCH_CONFIRMATION + 1)
  && same MIN_ANCHOR_STALENESS_SECONDS 518400.

Definition on_chain_codes_match_docs : bool :=
  forallb (fun c => same (scanner_error_code (fst c)) (snd c)) [
    (Unauthorized, 6000); (PoolNotEligible, 6001); (LaunchPriceNotFound, 6002); (UnsupportedAmm, 6003);
    (MathOverflow, 6004); (InvalidClock, 6005); (InvariantViolation, 6006); (AmmAdapterUnimplemented, 6007);
    (LockerAdapterUnimplemented, 6008); (PoolDataParseError, 6009); (ProtocolPaused, 6010);
    (CriteriaBitmapMismatch, 6011); (AnchorNotFound, 6015); (EpochConfirmationPending, 6016);
    (AnchorInvalidated, 6017); (AnchorNotStale, 6018); (CertTtlBelowMinimum, 6019);
    (LockerMarkerAccountRequired, 6020); (LockerLockEvidenceRequired, 6021); (InvalidLockerAccount, 6022);
    (LockerAccountMismatch, 6023); (AttestationMissing, 6024); (InvalidAttestationOffsets, 6025);
    (AttestationOracleMismatch, 6026); (AttestationBindingMismatch, 6027); (AttestationTimestampInvalid, 6028);
    (AttestationStale, 6029); (AttestationSlotHashMismatch, 6030); (AttestationSlotInvalid, 6031);
    (InvalidLaunchPrice, 6032); (LaunchPriceMintMismatch, 6033); (CertStillValid, 6034)].

(** ** [state/eligibility_anchor.rs] and [state/eligibility_cert.rs] *)

Definition anchor (flag : bool) (bitmap : Z) : EligibilityAnchor :=
  mkEligibilityAnchor default_key default_key default_key 0 0 flag bitmap 0 (zeroes 64).
Definition is_complete_matches_all_criteria_mask : bool :=
  is_complete (anchor false ALL_CRITERIA_MASK)
  && negb (is_complete (anchor false (Z.land ALL_CRITERIA_MASK (Z.lxor CRITERION_INACTIVITY 255))))
  && negb (is_complete (anchor false 0)).
Definition is_invalidated_predicate_matches_field : bool :=
  negb (is_invalidated (anchor false ALL_CRITERIA_MASK)) && is_invalidated (anchor true ALL_CRITERIA_MASK).

Definition cert (expires : Z) : EligibilityCert :=
  mkEligibilityCert default_key default_key default_key 0 0 0 expires 0 0 0 (zeroes 56).
Definition is_expired_boundary_is_inclusive : bool :=
  negb (is_expired (cert 1000) 999) && is_expired (cert 1000) 1000 && is_expired (cert 1000) 1001.
Definition zeroed_fresh_account_is_reissuable : bool :=
  is_expired (cert 0) 0 && is_expired (cert 0) 1700000000 && same (reissue_generation (cert 0)) 0.
Definition live_cert_is_not_expired : bool := negb (is_expired (cert (1700000000 + 3600)) 1700000000).

(** ** [instructions/sweep_stale_anchor.rs] *)

Definition EPOCH : Z := APPROX_EPOCH_DURATION_SECONDS.
Definition MIN_EPOCHS : Z := div_ceil MIN_ANCHOR_STALENESS_SECONDS EPOCH.
Definition not_stale (r : result GraveScannerError unit) : bool :=
  refused_with r AnchorNotStale && same (scanner_error_code AnchorNotStale) 6018.
Definition sweepable (r : result GraveScannerError unit) : bool := is_ok r.

Definition sweep_rejected_while_window_not_elapsed_6018 : bool :=
  forallb (fun current => not_stale (sweep_gate 10 MIN_ANCHOR_STALENESS_SECONDS current)) [10; 11; 12].
Definition sweep_boundary_is_strict_inequality : bool :=
  not_stale (sweep_gate 10 MIN_ANCHOR_STALENESS_SECONDS (10 + MIN_EPOCHS))
  && sweepable (sweep_gate 10 MIN_ANCHOR_STALENESS_SECONDS (10 + MIN_EPOCHS + 1)).
Definition configured_window_below_floor_is_clamped_up : bool :=
  forallb (fun configured =>
    not_stale (sweep_gate 10 configured (10 + MIN_EPOCHS)) && sweepable (sweep_gate 10 configured (10 + MIN_EPOCHS + 1)))
    [0; MIN_ANCHOR_STALENESS_SECONDS - 1].
Definition configured_window_above_floor_widens_monotonically : bool :=
  sweepable (sweep_gate 10 MIN_ANCHOR_STALENESS_SECONDS (10 + MIN_EPOCHS + 1))
  && not_stale (sweep_gate 10 (MIN_ANCHOR_STALENESS_SECONDS + 1) (10 + MIN_EPOCHS + 1))
  && sweepable (sweep_gate 10 (MIN_ANCHOR_STALENESS_SECONDS + 1) (10 + MIN_EPOCHS + 2)).
Definition sweep_epoch_overflow_fails_closed_6004 : bool :=
  refused_with (sweep_gate (u_max 64) (u_max 64) (u_max 64)) MathOverflow && same (scanner_error_code MathOverflow) 6004.
Definition on_chain_6018_code_matches_docs : bool := same (scanner_error_code AnchorNotStale) 6018.

(** ** [instructions/update_protocol_config.rs] *)

#[local] Instance config_eq_dec : EqDecision ProtocolConfig.
Proof. solve_decision. Defined.

(** The handler assigns through [&mut]: the config it leaves and the error it
    returns, if any. *)
Definition Assign : Type := ProtocolConfig -> ProtocolConfig * option GraveScannerError.
Definition assign_field {A} (o : option A) (check : A -> result GraveScannerError unit)
    (set : A -> ProtocolConfig -> ProtocolConfig) : Assign := fun cfg =>
  match o with
  | Some v => match check v with Ok _ => (set v cfg, None) | Err e => (cfg, Some e) end
  | None => (cfg, None)
  end.
Definition and_then (a b : Assign) : Assign := fun cfg =>
  match a cfg with
  | (cfg, None) => b cfg
  | r => r
  end.

(** [cfg.field = v], for the fields given. *)
Definition set_fields (c : ProtocolConfig) (inactivity collapse tvl staleness dust ttl : option Z)
    (activity launch : option Pubkey) : ProtocolConfig :=
  mkProtocolConfig (cfg_authority c) (cfg_pending_authority c) (cfg_pending_authority_eta c)
    (default (cfg_inactivity_seconds c) inactivity) (default (cfg_price_collapse_bps c) collapse)
    (default (cfg_min_tvl_lamports c) tvl) (default (cfg_anchor_staleness_seconds c) staleness)
    (default (cfg_lp_burn_dust_threshold c) dust) (default (cfg_cert_ttl_seconds c) ttl) (cfg_paused c)
    (default (cfg_activity_oracle c) activity) (default (cfg_launch_price_oracle c) launch)
    (cfg_bump c) (cfg_reserved c).

Fixpoint in_order (l : list Assign) : Assign :=
  match l with
  | [] => fun cfg => (cfg, None)
  | a :: l => and_then a (in_order l)
  end.

Definition apply_in_place (params : UpdateProtocolConfigParams) : Assign := in_order [
  assign_field (up_inactivity_seconds params) unchecked
    (fun v c => set_fields c (Some v) None None None None None None None);
  assign_field (up_price_collapse_bps params) (fun v => require (v <=? 10000) InvariantViolation)
    (fun v c => set_fields c None (Some v) None None None None None None);
  assign_field (up_min_tvl_lamports params) unchecked
    (fun v c => set_fields c None None (Some v) None None None None None);
  assign_field (up_anchor_staleness_seconds params)
    (fun v => require (MIN_ANCHOR_STALENESS_SECONDS <=? v) InvariantViolation)
    (fun v c => set_fields c None None None (Some v) None None None None);
  assign_field (up_lp_burn_dust_threshold params) unchecked
    (fun v c => set_fields c None None None None (Some v) None None None);
  assign_field (up_cert_ttl_seconds params) (fun v => require (MIN_CERT_TTL_SECONDS <=? v) CertTtlBelowMinimum)
    (fun v c => set_fields c None None None None None (Some v) None None);
  assign_field (up_activity_oracle params) unchecked
    (fun v c => set_fields c None None None None None None (Some v) None);
  assign_field (up_launch_price_oracle params) unchecked
    (fun v c => set_fields c None None None None None None None (Some v))].

(** What the transaction keeps of it is [apply_config_update]: the assignments
    of a handler that fails are discarded. *)
Lemma apply_in_place_refines cfg params :
  apply_config_update cfg params =
  match apply_in_place params cfg with
  | (cfg', None) => Ok cfg'
  | (_, Some e) => Err e
  end.
Proof.
  destruct params as [i c t s d l a p], cfg.
  unfold apply_config_update, apply_in_place, in_order, update_field, and_then, assign_field, set_fields, unchecked. simpl.
  destruct i, c as [c|], t, s as [s|], d, l as [l|], a, p; simpl;
    repeat match goal with |- context [require ?b] => destruct b; simpl end; reflexivity.
Qed.

Definition base_config : ProtocolConfig := {|
  cfg_authority := key_of xd1; cfg_pending_authority := default_key; cfg_pending_authority_eta := 0;
  cfg_inactivity_seconds := 90 * 24 * 60 * 60; cfg_price_collapse_bps := 5000; cfg_min_tvl_lamports := 1;
  cfg_anchor_staleness_seconds := DEFAULT_ANCHOR_STALENESS_SECONDS; cfg_lp_burn_dust_threshold := 1000;
  cfg_cert_ttl_seconds := 3600; cfg_paused := false; cfg_activity_oracle := key_of xd2;
  cfg_launch_price_oracle := key_of xd3; cfg_bump := 255; cfg_reserved := zeroes 64;
|}.
Definition params (price_collapse_bps staleness ttl : option Z) : UpdateProtocolConfigParams :=
  mkUpdateProtocolConfigParams None price_collapse_bps None staleness None ttl None None.

(** The error, with its code, and the config as it is left. *)
Definition reverts (r : ProtocolConfig * option GraveScannerError) (code : Z) (left : ProtocolConfig) : bool :=
  match r with
  | (cfg, Some e) => same (scanner_error_code e) code && same cfg left
  | (_, None) => false
  end.
Definition applies (r : ProtocolConfig * option GraveScannerError) (f : ProtocolConfig -> bool) : bool :=
  match r with
  | (cfg, None) => f cfg
  | (_, Some _) => false
  end.

Definition price_collapse_bps_within_bound_is_applied : bool :=
  applies (apply_in_place (params (Some 9900) None None) base_config) (fun cfg => same (cfg_price_collapse_bps cfg) 9900).
Definition price_collapse_bps_boundary_10_000_is_accepted : bool :=
  applies (apply_in_place (params (Some 10000) None None) base_config)
    (fun cfg => same (cfg_price_collapse_bps cfg) 10000).
Definition price_collapse_bps_above_10_000_reverts_6006_without_mutation : bool :=
  reverts (apply_in_place (params (Some 10001) None None) base_config) 6006 base_config.
Definition staleness_window_below_floor_reverts_6006_and_boundary_applies : bool :=
  reverts (apply_in_place (params None (Some (MIN_ANCHOR_STALENESS_SECONDS - 1)) None) base_config) 6006 base_config
  && applies (apply_in_place (params None (Some MIN_ANCHOR_STALENESS_SECONDS) None) base_config)
       (fun cfg => same (cfg_anchor_staleness_seconds cfg) MIN_ANCHOR_STALENESS_SECONDS).
Definition cert_ttl_below_floor_reverts_6019_and_boundary_applies : bool :=
  reverts (apply_in_place (params None None (Some 599)) base_config) 6019 base_config
  && applies (apply_in_place (params None None (Some 600)) base_config) (fun cfg => same (cfg_cert_ttl_seconds cfg) 600).
Definition scalar_and_oracle_fields_apply_without_bounds : bool :=
  let p := mkUpdateProtocolConfigParams (Some 1) (Some DEFAULT_PRICE_COLLAPSE_BPS) (Some 42) None (Some 7) None
    (Some (key_of xd4)) (Some (key_of xd5)) in
  applies (apply_in_place p base_config) (fun cfg =>
    same (cfg_inactivity_seconds cfg) 1 && same (cfg_price_collapse_bps cfg) DEFAULT_PRICE_COLLAPSE_BPS
    && same (cfg_min_tvl_lamports cfg) 42 && same (cfg_lp_burn_dust_threshold cfg) 7
    && same (cfg_activity_oracle cfg) (key_of xd4) && same (cfg_launch_price_oracle cfg) (key_of xd5)).
Definition multi_field_partial_assign_returns_6019_after_earlier_valid_assignments : bool :=
  let p := mkUpdateProtocolConfigParams (Some 1) (Some 9900) None None None (Some 599) None None in
  reverts (apply_in_place p base_config) 6019 (set_fields base_config (Some 1) (Some 9900) None None None None None None).
Definition on_chain_6006_6019_codes_match_docs : bool :=
  same (scanner_error_code InvariantViolation) 6006 && same (scanner_error_code CertTtlBelowMinimum) 6019.

Lemma scanner_tests_pass : all_pass [
  staleness_floor_keeps_phase2_window_open; on_chain_codes_match_docs; is_complete_matches_all_criteria_mask;
  is_invalidated_predicate_matches_field; is_expired_boundary_is_inclusive; zeroed_fresh_account_is_reissuable;
  live_cert_is_not_expired; sweep_rejected_while_window_not_elapsed_6018; sweep_boundary_is_strict_inequality;
  configured_window_below_floor_is_clamped_up; configured_window_above_floor_widens_monotonically;
  sweep_epoch_overflow_fails_closed_6004; on_chain_6018_code_matches_docs] = true.
Proof. run_suite. Qed.

Lemma update_tests_pass : all_pass [
  price_collapse_bps_within_bound_is_applied; price_collapse_bps_boundary_10_000_is_accepted;
  price_collapse_bps_above_10_000_reverts_6006_without_mutation;
  staleness_window_below_floor_reverts_6006_and_boundary_applies;
  cert_ttl_below_floor_reverts_6019_and_boundary_applies; scalar_and_oracle_fields_apply_without_bounds;
  multi_field_partial_assign_returns_6019_after_earlier_valid_assignments;
  on_chain_6006_6019_codes_match_docs] = true.
Proof. run_suite. Qed.
