(* ===== verification/ScannerTrace.v ===== *)
(** * ScannerTrace: from anchor to certificate

    Runs of the scanner between the two phases: what nobody but the authority
    can take away from a writer whose pool stays derelict. *)

From S2P Require Import Prelude Bytes Solana Criteria Attestation Adapters Locker ScannerState Scanner.

Section ScannerTrace.
Context `{PdaDerivation}.

(** A step of somebody else, before an anchor of epoch [e] can be swept, that is
    not the authority's invalidation of the anchor at [k]. *)
Inductive window_step (k : PoolKey) (e : Z) (st : ScannerState) : ScannerState -> Prop :=
| window_exec env ix st' evs :
    wf_env env -> wf_ix ix -> scanner_exec env ix st = Ok (st', evs) ->
    (forall clock, env_clock env = Some clock -> clock_epoch clock <= e + MIN_EPOCH_CONFIRMATION + 1) ->
    (forall a, ix <> IxInvalidateAnchor a k) ->
    window_step k e st st'.

Lemma window_reachable k e st st' : window_step k e st st' -> scanner_reachable st -> scanner_reachable st'.
Proof. intros [env ix st'' evs Hwe Hwi Hx _ _] Hr. eapply scanner_reachable_step; [done|]. by econstructor. Qed.

(** The price and the anchor a step leaves in place. *)
(** What each instruction may do to an anchor that is there. *)
Lemma anchor_kept env ix st st' evs k a :
  scanner_reachable st -> wf_env env -> wf_ix ix -> scanner_exec env ix st = Ok (st', evs) ->
  sc_anchors st !! k = Some a ->
  sc_anchors st' !! k = Some a
  \/ (exists who, ix = IxInvalidateAnchor who k)
  \/ (exists clock, env_clock env = Some clock /\ first_eligible_epoch a + MIN_EPOCH_CONFIRMATION + 1 < clock_epoch clock).
Proof.
  intros Hr Hwe Hwi Hx Ha. pose proof (scanner_reachable_inv _ Hr) as Hinv.
  pose proof (scanner_exec_effect _ _ _ _ _ Hwe Hwi Hinv Hx) as Hef.
  destruct ix as [p|p|w pool p|w pool p|who k'|c w k'|who p|who b]; cbn [scanner_exec ix_authority] in Hx, Hef.
  5: { destruct (decide (k' = k)) as [->|Hne]; [right; left; by exists who|left].
       unfold invalidate_anchor in Hx. res_inv Hx. simpl. by rewrite lookup_insert_ne. }
  6: { left. unfold update_protocol_config in Hx. by res_inv Hx. }
  6: { left. unfold emergency_pause in Hx. by res_inv Hx. }
  all: destruct Hef as [| | |writer pool' params cfg l' clock Hp _| |cfg k0 a0 Hc Hwho _ _|cfg k0 a0 clock Hc Hk0 Hck Hlt];
    simpl; try by left.
  all: try (left; rewrite lookup_insert_ne; [done|]; destruct Hp; congruence).
  all: destruct (decide (k0 = k)) as [->|]; [right; right|left; by rewrite lookup_delete_ne].
  all: rewrite Ha in Hk0; injection Hk0 as <-; eauto.
Qed.

(** The price and the anchor a step within the window leaves in place. *)
Lemma window_keeps k st st' l a :
  scanner_reachable st -> window_step k (first_eligible_epoch a) st st' ->
  sc_launch_prices st !! k = Some l -> sc_anchors st !! k = Some a ->
  sc_launch_prices st' !! k = Some l /\ sc_anchors st' !! k = Some a.
Proof.
  intros Hr [env ix st'' evs Hwe Hwi Hx Hep Hni] Hl Ha. split; [by eapply launch_price_immutable|].
  destruct (anchor_kept _ _ _ _ _ _ _ Hr Hwe Hwi Hx Ha) as [|[(who & ->)|(clock & Hck & Hlt)]]; [done|by destruct (Hni who)|].
  specialize (Hep _ Hck). lia.
Qed.

Lemma windows_keep k st st' l a :
  rtc (window_step k (first_eligible_epoch a)) st st' -> scanner_reachable st ->
  sc_launch_prices st !! k = Some l -> sc_anchors st !! k = Some a ->
  scanner_reachable st' /\ sc_launch_prices st' !! k = Some l /\ sc_anchors st' !! k = Some a.
Proof.
  induction 1 as [st|st st1 st2 Hs _ IH]; intros Hr Hl Ha; [done|].
  destruct (window_keeps _ _ _ _ _ Hr Hs Hl Ha) as [Hl1 Ha1]. apply IH; [|done..]. by eapply window_reachable.
Qed.

(** C9. Whoever found a pool derelict can finish the job, unless the authority's
    certificate TTL overflows the clock. After a successful Phase 1, whatever
    transactions of whomever follow, as long as the clock is at most three
    epochs past the anchor's and the authority does not invalidate this anchor:
    the anchor and the launch price are untouched, and if the verification stack
    holds once more at an epoch at least two later, with the program running and
    no live certificate in place, then Phase 2 does exactly one of two things.
    When the expiry (now plus the configured TTL) fits an i64 and the next
    generation number fits a u64, it succeeds, and the pool has a certificate of
    the full bitmap, live, that names both epochs; when one of the two does not
    fit (the TTL has a floor and no ceiling, so a config update inside the
    window can bring this about), it fails with MathOverflow. *)
Theorem anchored_pool_certifies env1 writer1 pool1 params1 st st1 evs1 st2
    env2 writer2 pool2 params2 clock2 cfg2 ts pd price :
  scanner_reachable st -> wf_env env1 -> wf_ix (IxEvaluatePhase1 writer1 pool1 params1) ->
  evaluate_pool_phase1 env1 writer1 pool1 params1 st = Ok (st1, evs1) ->
  let k := pool_key params1 in
  exists clock1 l, env_clock env1 = Some clock1 /\ sc_launch_prices st !! k = Some l
  /\ let a := new_anchor writer1 params1 clock1 in
     let old := default zeroed_cert (sc_certs st2 !! k) in
     (rtc (window_step k (clock_epoch clock1)) st1 st2 ->
      sc_anchors st2 !! k = Some a /\ sc_launch_prices st2 !! k = Some l
      /\ (pool_key params2 = k -> wf_env env2 -> env_clock env2 = Some clock2 ->
          sc_config st2 = Some cfg2 -> cfg_paused cfg2 = false ->
          pool_evidence env2 clock2 cfg2 l params2 pool2 Two (Some (clock_epoch clock1)) ts pd price ->
          expires_at old <= clock_unix_timestamp clock2 ->
          if decide (is_i64 (clock_unix_timestamp clock2 + cfg_cert_ttl_seconds cfg2)
                     /\ is_u64 (reissue_generation old + 1))
          then exists st3 evs3 c, evaluate_pool_phase2 env2 writer2 pool2 params2 st2 = Ok (st3, evs3)
            /\ sc_certs st3 !! k = Some c /\ cert_criteria_bitmap c = ALL_CRITERIA_MASK
            /\ is_expired c (clock_unix_timestamp clock2) = false
            /\ anchor_epoch c = clock_epoch clock1 /\ cert_epoch c = clock_epoch clock2
          else evaluate_pool_phase2 env2 writer2 pool2 params2 st2 = Err (Program MathOverflow))).
Proof.
  intros Hr Hwe Hwi Hx k. pose proof (scanner_reachable_inv _ Hr) as Hinv.
  assert (Hr1 : scanner_reachable st1).
  { eapply scanner_reachable_step; [done|]. by apply (scanner_step_ok env1 (IxEvaluatePhase1 writer1 pool1 params1)). }
  apply evaluate_pool_phase1_Ok in Hx as (cfg & l & clock1 & [Hc Hl Hf Hp Hk _] & -> & _); [|done..].
  exists clock1, l. split_and!; [done..|]. intros a old Hrun.
  destruct (windows_keep k _ _ l a Hrun Hr1) as (Hr2 & Hl2 & Ha2); [done|simpl; by rewrite lookup_insert_eq|].
  split_and!; [done..|]. intros Hk2 Hwe2 Hck2 Hc2 Hrun2 Hev Hexp.
  pose proof (scanner_reachable_inv _ Hr2) as Hinv2. case_decide as Hfit.
  - eexists _, _, (new_cert writer2 params2 clock2 cfg2 a old). split_and!; try done.
    + apply evaluate_pool_phase2_Ok; [done..|]. exists cfg2, l, clock2, a, old. split; [|done].
      constructor; rewrite ?Hk2; try done. by exists ts, pd, price.
    + simpl. rewrite Hk2. apply lookup_insert_eq.
    + unfold is_expired. simpl. apply Z.leb_gt.
      pose proof (co_ttl _ (inv_config _ Hinv2 _ Hc2)) as Ht. unfold MIN_CERT_TTL_SECONDS in Ht. lia.
  - eapply (evaluate_pool_phase2_overflow _ _ _ _ _ cfg2 l clock2 a old ts pd price);
      rewrite ?Hk2; done.
Qed.
End ScannerTrace.
