(* ===== verification/ScannerExamples.v ===== *)
(** * ScannerExamples: a pool certified, step by step

    A concrete run of GraveScanner - initialize, record the launch price,
    Phase 1, two epochs later Phase 2 - on concrete bytes, and the instances of
    the theorems of [Scanner] it gives. *)

From S2P Require Import Prelude Bytes Solana Criteria Attestation Adapters Locker.
From S2P Require Import ScannerState Scanner ScannerTrace.

#[local] Existing Instance sample_pda.

Definition run_init : InitializeParams := mkInitializeParams sample_oracle 0 0 0 0 0 0.

Definition run_launch_msg : list byte :=
  encode_launch_price sample_amm sample_pool (key_of x13) WSOL_MINT 400 900 (2 ^ 64) 450.
Definition run_launch : RecordLaunchPriceParams :=
  mkRecordLaunchPriceParams sample_amm sample_pool (key_of x13) WSOL_MINT (2 ^ 64) run_launch_msg.
Definition run_eval : EvaluatePoolParams :=
  mkEvaluatePoolParams sample_amm sample_pool (att_msg (sample_att 1000)).

(** 0.5% of the launch price, 0.5 SOL of quote, no locker marker on chain. *)
Definition run_accounts : list AccountInfo :=
  sample_vaults 100000000000 500000000 1000000 ++
  [mkAccountInfo (marker_address sample_pool) 0 [] default_key false].

Definition run_env (epoch now : Z) (off : Z) (msg : list byte) : ScannerEnv :=
  mkScannerEnv (Some (mkClock 600 epoch now)) (sysvar_of_tx (sample_tx off msg) 1)
    sample_slot_hashes run_accounts.

Definition env_launch : ScannerEnv := run_env 100 2000 152 run_launch_msg.
Definition env_phase1 : ScannerEnv := run_env 100 9000000 72 (ev_msg run_eval).
Definition env_phase2 (now : Z) : ScannerEnv := run_env 102 now 72 (ev_msg run_eval).

Definition after (env : ScannerEnv) (ix : ScannerIx) (st : ScannerState)
    : ScannerState * list ScannerEvent :=
  match scanner_exec env ix st with Ok r => r | Err _ => (st, []) end.

Definition writer_key : Pubkey := key_of x0a.
Definition ix_phase1 : ScannerIx :=
  IxEvaluatePhase1 writer_key (sample_pool_account sample_pool) run_eval.
Definition ix_phase2 : ScannerIx :=
  IxEvaluatePhase2 writer_key (sample_pool_account sample_pool) run_eval.
Definition run_key : PoolKey := (sample_amm, sample_pool).

Definition st_init := Eval vm_compute in
  fst (after env_launch (IxInitialize run_init) scanner_genesis).
Definition st_launch := Eval vm_compute in
  fst (after env_launch (IxRecordLaunchPrice run_launch) st_init).
Definition st_anchor := Eval vm_compute in fst (after env_phase1 ix_phase1 st_launch).
Definition st_cert := Eval vm_compute in fst (after (env_phase2 9200000) ix_phase2 st_anchor).

Lemma run_env_wf epoch now off msg : is_u64 epoch -> is_i64 now -> wf_env (run_env epoch now off msg).
Proof. constructor. intros c [= <-]. by constructor; [in_range|..]. Qed.

Lemma reach env ix st st' evs :
  scanner_reachable st -> wf_env env -> wf_ix ix -> scanner_exec env ix st = Ok (st', evs) ->
  scanner_reachable st'.
Proof. intros. eapply scanner_reachable_step; [done|]. by econstructor. Qed.

Lemma st_init_reachable : scanner_reachable st_init.
Proof.
  eapply (reach env_launch (IxInitialize run_init)); [constructor|by apply run_env_wf; in_range|..].
  - split_and!; in_range.
  - vm_compute. reflexivity.
Qed.

Lemma st_launch_reachable : scanner_reachable st_launch.
Proof.
  eapply (reach env_launch (IxRecordLaunchPrice run_launch));
    [apply st_init_reachable|by apply run_env_wf; in_range|reflexivity|vm_compute; reflexivity].
Qed.

Lemma st_anchor_reachable : scanner_reachable st_anchor.
Proof.
  eapply (reach env_phase1 ix_phase1);
    [apply st_launch_reachable|by apply run_env_wf; in_range|reflexivity|vm_compute; reflexivity].
Qed.

Lemma st_cert_reachable : scanner_reachable st_cert.
Proof.
  eapply (reach (env_phase2 9200000) ix_phase2);
    [apply st_anchor_reachable|by apply run_env_wf; in_range|reflexivity|vm_compute; reflexivity].
Qed.

(** ** Instances *)

Lemma env_phase2_wf now : is_i64 now -> wf_env (env_phase2 now).
Proof. intros. by apply run_env_wf; [in_range|]. Qed.

Definition evs_cert := Eval vm_compute in snd (after (env_phase2 9200000) ix_phase2 st_anchor).

Lemma exec_cert :
  scanner_exec (env_phase2 9200000) ix_phase2 st_anchor = Ok (st_cert, evs_cert).
Proof. vm_compute. reflexivity. Qed.

Example evaluate_pool_phase2_spec_witness :
  exists cfg l clock anchor old,
    phase2_ready (env_phase2 9200000) (sample_pool_account sample_pool) run_eval st_anchor
      cfg l clock anchor old.
Proof.
  pose proof (proj1 (evaluate_pool_phase2_spec (env_phase2 9200000) writer_key
    (sample_pool_account sample_pool) run_eval st_anchor st_cert evs_cert st_anchor_reachable
    (env_phase2_wf 9200000 ltac:(in_range))) exec_cert) as H.
  destruct H as (cfg & l & clock & anchor & old & H & _). by exists cfg, l, clock, anchor, old.
Defined.

Example scanner_invariant_witness : scanner_inv st_cert.
Proof. apply scanner_invariant. apply st_cert_reachable. Defined.

Example scanner_refines_effects_witness :
  scanner_effect (env_phase2 9200000) None st_anchor st_cert.
Proof.
  apply (scanner_refines_effects (env_phase2 9200000) ix_phase2 st_anchor st_cert evs_cert
    st_anchor_reachable (env_phase2_wf 9200000 ltac:(in_range)) eq_refl exec_cert).
Defined.

(** One TTL (3600 s) later the cert is reissued as generation 2. *)
Definition st_reissued := Eval vm_compute in
  after (env_phase2 9203600) ix_phase2 st_cert.

Example live_cert_never_overwritten_witness :
  exists clock c c', env_clock (env_phase2 9203600) = Some clock /\
    sc_certs st_cert !! run_key = Some c /\ is_expired c (clock_unix_timestamp clock) = true /\
    sc_certs (fst st_reissued) !! run_key = Some c' /\ reissue_generation c' = 2.
Proof.
  assert (Hx : scanner_exec (env_phase2 9203600) ix_phase2 st_cert
    = Ok (fst st_reissued, snd st_reissued)) by (vm_compute; reflexivity).
  destruct (sc_certs st_cert !! run_key) as [c|] eqn:Hc; [|by vm_compute in Hc].
  assert (Hne : sc_certs (fst st_reissued) !! run_key <> Some c).
  { rewrite <- Hc. by vm_compute. }
  destruct (live_cert_never_overwritten (env_phase2 9203600) ix_phase2 st_cert (fst st_reissued)
    (snd st_reissued) run_key c st_cert_reachable (env_phase2_wf 9203600 ltac:(in_range)) eq_refl
    Hx Hc Hne) as (clock & c' & H1 & H2 & H3 & _ & Hg).
  clear Hne Hx. exists clock, c, c'. refine (conj H1 (conj eq_refl (conj H2 (conj H3 _)))).
  rewrite Hg. vm_compute in Hc. injection Hc as <-. reflexivity.
Defined.

(** The authority invalidates the anchor; Phase 2 can no longer certify. *)
Definition st_invalid := Eval vm_compute in
  after env_phase1 (IxInvalidateAnchor sample_oracle run_key) st_anchor.

Lemma exec_invalid :
  scanner_exec env_phase1 (IxInvalidateAnchor sample_oracle run_key) st_anchor
    = Ok (fst st_invalid, snd st_invalid).
Proof. vm_compute. reflexivity. Qed.

Lemma env_phase1_wf : wf_env env_phase1.
Proof. by apply run_env_wf; in_range. Qed.

Lemma st_invalid_reachable : scanner_reachable (fst st_invalid).
Proof.
  exact (reach env_phase1 (IxInvalidateAnchor sample_oracle run_key) st_anchor (fst st_invalid)
    (snd st_invalid) st_anchor_reachable env_phase1_wf I exec_invalid).
Qed.

Definition st_swept := Eval vm_compute in
  after (run_env 108 10000000 72 [])
    (IxSweepStaleAnchor (key_of x77) writer_key run_key) (fst st_invalid).

Lemma exec_swept :
  scanner_exec (run_env 108 10000000 72 [])
    (IxSweepStaleAnchor (key_of x77) writer_key run_key) (fst st_invalid)
    = Ok (fst st_swept, snd st_swept).
Proof. vm_compute. reflexivity. Qed.

Example invalidated_anchor_never_certified_witness :
  sc_certs (fst st_swept) !! run_key = sc_certs (fst st_invalid) !! run_key.
Proof.
  destruct (sc_anchors (fst st_invalid) !! run_key) as [a|] eqn:Ha; [|by vm_compute in Ha].
  apply (invalidated_anchor_never_certified (run_env 108 10000000 72 [])
    (IxSweepStaleAnchor (key_of x77) writer_key run_key) (fst st_invalid) (fst st_swept)
    (snd st_swept) run_key a st_invalid_reachable
    (run_env_wf 108 10000000 72 [] ltac:(in_range) ltac:(in_range)) I exec_swept Ha).
  vm_compute in Ha. by injection Ha as <-.
Defined.

Example sweep_leaves_phase2_window_witness :
  exists clock a, env_clock (run_env 108 10000000 72 []) = Some clock /\
    sc_anchors (fst st_invalid) !! run_key = Some a /\
    first_eligible_epoch a + 4 <= clock_epoch clock.
Proof.
  destruct (sweep_leaves_phase2_window (run_env 108 10000000 72 []) (key_of x77) writer_key run_key
    (fst st_invalid) (fst st_swept) (snd st_swept) st_invalid_reachable
    (run_env_wf 108 10000000 72 [] ltac:(in_range) ltac:(in_range)) exec_swept)
    as (clock & a & H1 & H2 & H3 & _).
  exists clock, a. refine (conj H1 (conj H2 _)). unfold MIN_EPOCH_CONFIRMATION in H3. lia.
Defined.

Example only_authority_governs_witness :
  exists cfg', sc_config (fst st_invalid) = Some cfg' /\ cfg_authority cfg' = sample_oracle.
Proof.
  destruct (sc_config st_anchor) as [cfg|] eqn:Hc; [|by vm_compute in Hc].
  destruct (proj1 (only_authority_governs env_phase1 (IxInvalidateAnchor sample_oracle run_key)
    st_anchor (fst st_invalid) (snd st_invalid) cfg st_anchor_reachable env_phase1_wf I
    exec_invalid Hc)) as (cfg' & H1 & H2).
  exists cfg'. split; [done|]. rewrite H2. vm_compute in Hc. by injection Hc as <-.
Defined.

Example launch_price_immutable_witness :
  exists l, sc_launch_prices (fst st_invalid) !! run_key = Some l /\
    lp_launch_price_q64x64 l = 2 ^ 64.
Proof.
  destruct (sc_launch_prices st_anchor !! run_key) as [l|] eqn:Hl; [|by vm_compute in Hl].
  exists l. split.
  - by apply (launch_price_immutable env_phase1 (IxInvalidateAnchor sample_oracle run_key)
      st_anchor (fst st_invalid) (snd st_invalid) run_key l st_anchor_reachable env_phase1_wf I
      exec_invalid Hl).
  - vm_compute in Hl. by injection Hl as <-.
Defined.

Definition st_paused := Eval vm_compute in
  after env_phase1 (IxEmergencyPause sample_oracle true) st_anchor.

Example pause_is_an_evaluation_switch_witness :
  is_ok (scanner_exec (env_phase2 9200000) ix_phase2 (fst st_paused)) = false.
Proof.
  destruct (sc_config (fst st_paused)) as [cfg|] eqn:Hc; [|by vm_compute in Hc].
  apply (pause_is_an_evaluation_switch (env_phase2 9200000) ix_phase2 (fst st_paused) cfg Hc).
  vm_compute in Hc. by injection Hc as <-.
Defined.

Example evaluate_pool_phase1_spec_witness :
  exists cfg l clock,
    phase1_ready env_phase1 (sample_pool_account sample_pool) run_eval st_launch cfg l clock.
Proof.
  assert (Hx : exists evs, evaluate_pool_phase1 env_phase1 writer_key
    (sample_pool_account sample_pool) run_eval st_launch = Ok (st_anchor, evs))
    by (eexists; vm_compute; reflexivity).
  destruct Hx as [evs Hx].
  destruct (proj1 (evaluate_pool_phase1_spec env_phase1 writer_key
    (sample_pool_account sample_pool) run_eval st_launch st_anchor evs st_launch_reachable
    env_phase1_wf) Hx) as (cfg & l & clock & H & _).
  by exists cfg, l, clock.
Defined.

(** Between the phases the program was paused and resumed. *)
Definition st_resumed := Eval vm_compute in
  fst (after env_phase1 (IxEmergencyPause sample_oracle false) (fst st_paused)).

Lemma st_resumed_window :
  rtc (window_step run_key 100) st_anchor st_resumed.
Proof.
  apply (rtc_l _ _ (fst st_paused)); [|apply rtc_once].
  - apply (window_exec _ _ _ env_phase1 (IxEmergencyPause sample_oracle true) _ (snd st_paused));
      [exact env_phase1_wf|exact I|vm_compute; reflexivity|by intros c [= <-]|done].
  - eapply (window_exec _ _ _ env_phase1 (IxEmergencyPause sample_oracle false));
      [exact env_phase1_wf|exact I|vm_compute; reflexivity|by intros c [= <-]|done].
Qed.

Lemma st_resumed_reachable : scanner_reachable st_resumed.
Proof.
  pose proof st_anchor_reachable as Hr. pose proof st_resumed_window as Hw.
  induction Hw as [|? ? ? Hs _ IH]; [done|]. apply IH. by eapply window_reachable.
Qed.

(** A TTL at the top of [i64] is accepted by the update, and no Phase 2 gets past
    the expiry. *)
Definition st_huge_ttl := Eval vm_compute in
  fst (after env_phase1 (IxUpdateProtocolConfig sample_oracle
    (mkUpdateProtocolConfigParams None None None None None (Some (2 ^ 63 - 1)) None None)) st_resumed).

Example huge_ttl_stops_phase2 :
  (cfg_cert_ttl_seconds <$> sc_config st_huge_ttl) = Some (2 ^ 63 - 1)
  /\ evaluate_pool_phase2 (env_phase2 9200000) writer_key (sample_pool_account sample_pool) run_eval st_huge_ttl
     = Err (Program MathOverflow).
Proof. split; vm_compute; reflexivity. Qed.

Example anchored_pool_certifies_witness :
  exists st3 evs3 c, evaluate_pool_phase2 (env_phase2 9200000) writer_key (sample_pool_account sample_pool)
      run_eval st_resumed = Ok (st3, evs3)
    /\ sc_certs st3 !! run_key = Some c /\ cert_criteria_bitmap c = ALL_CRITERIA_MASK
    /\ is_expired c 9200000 = false /\ anchor_epoch c = 100 /\ cert_epoch c = 102.
Proof.
  assert (Hx : exists evs, evaluate_pool_phase1 env_phase1 writer_key
    (sample_pool_account sample_pool) run_eval st_launch = Ok (st_anchor, evs))
    by (eexists; vm_compute; reflexivity). destruct Hx as [evs Hx].
  assert (Hy : is_ok (evaluate_pool_phase2 (env_phase2 9200000) writer_key (sample_pool_account sample_pool)
    run_eval st_resumed) = true) by (vm_compute; reflexivity).
  apply is_ok_true in Hy as [[st3 evs3] Hy].
  apply evaluate_pool_phase2_Ok in Hy as (cfg2 & l2 & clock2 & anchor & old & [P1 P2 P3 P4 P5 P6 P7 (ts & pd & price & P8) P9 [P10 P11]] & _);
    [|apply env_phase2_wf; in_range|apply scanner_reachable_inv, st_resumed_reachable].
  assert (He : anchor = new_anchor writer_key run_eval (mkClock 600 100 9000000)).
  { vm_compute in P3. injection P3 as <-. vm_compute. reflexivity. }
  destruct (anchored_pool_certifies env_phase1 writer_key (sample_pool_account sample_pool) run_eval st_launch
    st_anchor evs st_resumed (env_phase2 9200000) writer_key (sample_pool_account sample_pool) run_eval clock2 cfg2
    ts pd price st_launch_reachable env_phase1_wf eq_refl Hx) as (clock1 & l & Hc1 & Hl & Hrest).
  injection Hc1 as <-. destruct (Hrest st_resumed_window) as (_ & Hl2 & Hgo).
  rewrite P2 in Hl2. injection Hl2 as ->. injection P6 as <-. subst anchor old.
  pose proof (Hgo eq_refl (env_phase2_wf 9200000 ltac:(in_range)) eq_refl P1 P5 P8 P9) as Hout.
  rewrite decide_True in Hout by (split; [exact P10|exact P11]). exact Hout.
Defined.
