(* ===== verification/Runtime.v ===== *)
(** * Runtime: cross-program invocations

    The ledger the vault's inner invocations act on, and the interface of the
    code they reach: the System program, SPL Token, Raydium V4 and Jupiter.
    None of that code is in this repository, so [invoke] is a class method;
    [RuntimeLaws] states the documented behaviour the vault relies on, and
    [SampleRuntime] at the end is a concrete runtime that satisfies it. *)

From Stdlib Require Import String.
From S2P Require Import Prelude Bytes Solana.

(** The vault's own addresses: the runtime is only asked not to debit these. *)
Definition VAULT_ID : Pubkey :=
  Eval vm_compute in pubkey "7VxUGJNgi1bZ8x4rTtLBNdgLs9sCLmUTpVE3on1nshya".

Section Addresses.
Context `{PdaDerivation}.

Definition vault_pda (seeds : list (list byte)) : Pubkey := fst (find_program_address seeds VAULT_ID).
Definition is_vault_pda (k : Pubkey) : Prop := exists seeds, k = vault_pda seeds.
Lemma vault_pda_is seeds : is_vault_pda (vault_pda seeds).
Proof. by exists seeds. Qed.
End Addresses.

(** An SPL token account. *)
Record TokenAcc := mkTokenAcc {
  ta_mint : Pubkey;
  ta_owner : Pubkey;
  ta_amount : Z;                      (* u64 *)
}.

(** Native lamports and token accounts, by address. *)
Record Ledger := mkLedger {
  lg_lamports : gmap Pubkey Z;
  lg_tokens : gmap Pubkey TokenAcc;
}.

(** Token amounts are [u64] fields. *)
Definition wf_token (t : TokenAcc) : Prop := is_u64 (ta_amount t).
Definition wf_tokens (m : gmap Pubkey TokenAcc) : Prop := map_Forall (fun _ => wf_token) m.
#[export] Instance wf_token_dec t : Decision (wf_token t).
Proof. unfold wf_token, is_u. apply _. Defined.
#[export] Instance wf_tokens_dec m : Decision (wf_tokens m).
Proof. unfold wf_tokens. apply _. Defined.

Definition lamports (L : Ledger) (k : Pubkey) : Z := default 0 (lg_lamports L !! k).
Definition token_amount (L : Ledger) (k : Pubkey) : option Z := ta_amount <$> lg_tokens L !! k.

Definition set_lamports (k : Pubkey) (n : Z) (L : Ledger) : Ledger :=
  mkLedger (<[k := n]> (lg_lamports L)) (lg_tokens L).
Definition set_token (k : Pubkey) (t : TokenAcc) (L : Ledger) : Ledger :=
  mkLedger (lg_lamports L) (<[k := t]> (lg_tokens L)).

(** [from] pays [to]; paying oneself changes nothing. *)
Definition move_lamports (from to : Pubkey) (n : Z) (L : Ledger) : Ledger :=
  let L1 := set_lamports from (lamports L from - n) L in
  set_lamports to (lamports L1 to + n) L1.

(** The inner instructions the vault issues, with the accounts they name. *)
Inductive Cpi :=
| CpiCreateAccount (from to : Pubkey) (lamports space : Z) (owner : Pubkey)
| CpiTransfer (from to : Pubkey) (lamports : Z)
| CpiTokenTransfer (src dst authority : Pubkey) (amount : Z)
| CpiTokenClose (account destination authority : Pubkey)
| CpiRaw (ix : Instruction) (account_infos : list Pubkey).

(** The accounts that sign an inner instruction: the outer signers it marks as
    signers and the PDAs the program signs for. *)
Definition cpi_signers (c : Cpi) : list Pubkey :=
  match c with
  | CpiCreateAccount from to _ _ _ => [from; to]
  | CpiTransfer from _ _ => [from]
  | CpiTokenTransfer _ _ a _ => [a]
  | CpiTokenClose _ _ a => [a]
  | CpiRaw ix _ => omap (fun m => if am_is_signer m then Some (am_pubkey m) else None) (ix_accounts ix)
  end.

Class Runtime := {
  invoke : Cpi -> Ledger -> option Ledger;
  rent_minimum : Z;                   (* Rent::get()?.minimum_balance(0) *)
}.

(** What the runtime documents:
    - a System transfer moves exactly the amount, and the instruction is accepted
      whenever the source covers it and is left rent-exempt (the check on the
      destination's rent is the transaction's, made when it ends);
    - creating a 0-data account funds it with the stated lamports and touches no
      third account;
    - closing a wrapped-SOL account pays at least its amount to the destination;
    - whatever a program does, an address derived from the vault's seeds that
      did not sign is not debited (such an account is owned by the System
      program, hence debited by signature only, or by the vault itself, which
      no inner invocation re-enters; accounts of the callee are not covered);
    - token amounts stay [u64]. *)
Class RuntimeLaws `{PdaDerivation} `{HR : Runtime} := {
  transfer_moves from to n L L' :
    invoke (CpiTransfer from to n) L = Some L' ->
    0 <= n <= lamports L from /\ L' = move_lamports from to n L;
  transfer_accepted from to n L :
    0 <= n -> rent_minimum <= lamports L from - n ->
    invoke (CpiTransfer from to n) L = Some (move_lamports from to n L);
  unsigned_not_debited c L L' k :
    invoke c L = Some L' -> k ∉ cpi_signers c -> is_vault_pda k -> lamports L k <= lamports L' k;
  create_funds from to n space owner L L' :
    invoke (CpiCreateAccount from to n space owner) L = Some L' -> from <> to ->
    lamports L to + n <= lamports L' to;
  create_touches from to n space owner L L' k :
    invoke (CpiCreateAccount from to n space owner) L = Some L' -> k <> from -> k <> to ->
    lamports L' k = lamports L k;
  close_pays a dst auth t L L' :
    invoke (CpiTokenClose a dst auth) L = Some L' ->
    lg_tokens L !! a = Some t -> ta_mint t = WSOL_MINT ->
    lamports L dst + ta_amount t <= lamports L' dst;
  invoke_wf c L L' : wf_tokens (lg_tokens L) -> invoke c L = Some L' -> wf_tokens (lg_tokens L');
  rent_nonneg : 0 <= rent_minimum;
}.

Section LedgerLemmas.
Implicit Types L : Ledger.

Lemma lamports_set_eq L k n : lamports (set_lamports k n L) k = n.
Proof. unfold lamports, set_lamports. simpl. by rewrite lookup_insert_eq. Qed.

Lemma lamports_set_ne L k k' n : k <> k' -> lamports (set_lamports k n L) k' = lamports L k'.
Proof. intros. unfold lamports, set_lamports. simpl. by rewrite lookup_insert_ne. Qed.

Lemma move_from from to n L : from <> to -> lamports (move_lamports from to n L) from = lamports L from - n.
Proof. intros. unfold move_lamports. by rewrite lamports_set_ne, lamports_set_eq by done. Qed.

Lemma move_to from to n L : from <> to -> lamports (move_lamports from to n L) to = lamports L to + n.
Proof.
  intros. unfold move_lamports. rewrite lamports_set_eq. by rewrite lamports_set_ne.
Qed.

Lemma move_other from to n L k :
  k <> from -> k <> to -> lamports (move_lamports from to n L) k = lamports L k.
Proof. intros. unfold move_lamports. by rewrite !lamports_set_ne by done. Qed.

Lemma move_self k n L : lamports (move_lamports k k n L) k = lamports L k.
Proof. unfold move_lamports. rewrite !lamports_set_eq. lia. Qed.

Lemma move_tokens from to n L : lg_tokens (move_lamports from to n L) = lg_tokens L.
Proof. done. Qed.

(** Only the payer loses. *)
Lemma move_ge from to n L k :
  0 <= n -> k <> from -> lamports L k <= lamports (move_lamports from to n L) k.
Proof.
  intros. destruct (decide (k = to)) as [->|].
  - rewrite move_to by done. lia.
  - by rewrite move_other.
Qed.
End LedgerLemmas.

(** ** A concrete runtime

    The System program and the token accounts as simply as they satisfy the
    laws; a raw instruction is handled by a given function on token accounts
    (the AMM and the aggregator of an example). *)
Section SampleRuntime.
Variable programs : Instruction -> gmap Pubkey TokenAcc -> option (gmap Pubkey TokenAcc).
Variable rent : Z.

Definition sample_invoke (c : Cpi) (L : Ledger) : option Ledger :=
  L' ← match c with
  | CpiCreateAccount from to n _ _ | CpiTransfer from to n =>
      if (0 <=? n) && (n <=? lamports L from) then Some (move_lamports from to n L) else None
  | CpiTokenTransfer src dst _ n =>
      s ← lg_tokens L !! src; d ← lg_tokens L !! dst;
      if (0 <=? n) && (n <=? ta_amount s) && bool_decide (src <> dst) then
        Some (set_token dst (mkTokenAcc (ta_mint d) (ta_owner d) (ta_amount d + n))
          (set_token src (mkTokenAcc (ta_mint s) (ta_owner s) (ta_amount s - n)) L))
      else None
  | CpiTokenClose a dst _ =>
      s ← lg_tokens L !! a;
      let L' := mkLedger (lg_lamports L) (delete a (lg_tokens L)) in
      Some (set_lamports dst
        (lamports L dst + (if decide (ta_mint s = WSOL_MINT) then Z.max 0 (ta_amount s) else 0)) L')
  | CpiRaw ix _ => toks ← programs ix (lg_tokens L); Some (mkLedger (lg_lamports L) toks)
  end;
  if decide (wf_tokens (lg_tokens L) -> wf_tokens (lg_tokens L')) then Some L' else None.

Definition SampleRuntime : Runtime := {| invoke := sample_invoke; rent_minimum := rent |}.

Lemma sample_invoke_wf c L L' :
  wf_tokens (lg_tokens L) -> sample_invoke c L = Some L' -> wf_tokens (lg_tokens L').
Proof.
  intros Hwf H. unfold sample_invoke in H. apply bind_Some in H as (L1 & _ & H).
  case_decide; simplify_eq. auto.
Qed.

Lemma sample_moves from to n L L' :
  sample_invoke (CpiTransfer from to n) L = Some L' ->
  0 <= n <= lamports L from /\ L' = move_lamports from to n L.
Proof.
  intros H. unfold sample_invoke in H. apply bind_Some in H as (L1 & H & H').
  destruct ((0 <=? n) && (n <=? lamports L from)) eqn:Hb; [|done]. bool_simpl.
  by case_decide; simplify_eq.
Qed.

Lemma sample_not_debited c L L' k :
  sample_invoke c L = Some L' -> k ∉ cpi_signers c -> lamports L k <= lamports L' k.
Proof.
  intros H Hk. unfold sample_invoke in H. apply bind_Some in H as (L1 & H & H').
  case_decide; [|done]. simplify_eq.
  destruct c as [from to n sp ow|from to n|src dst a n|a dst au|ix infos]; simpl in *.
  - case_match; [|done]. bool_simpl. simplify_eq. apply move_ge; [done|]. set_solver.
  - case_match; [|done]. bool_simpl. simplify_eq. apply move_ge; [done|]. set_solver.
  - destruct (lg_tokens L !! src); simpl in *; [|done].
    destruct (lg_tokens L !! dst); simpl in *; [|done]. case_match; by simplify_eq.
  - destruct (lg_tokens L !! a); simpl in *; [|done]. simplify_eq.
    destruct (decide (k = dst)) as [->|].
    + rewrite lamports_set_eq. case_decide; lia.
    + by rewrite lamports_set_ne.
  - destruct (programs ix (lg_tokens L)); simpl in *; by simplify_eq.
Qed.

Lemma SampleRuntime_laws `{PDA : PdaDerivation} : 0 <= rent -> RuntimeLaws (HR := SampleRuntime).
Proof.
  intros Hrent. constructor; cbn [invoke rent_minimum SampleRuntime]; try done.
  - apply sample_moves.
  - intros from to n L Hn Hr. unfold sample_invoke.
    rewrite (proj2 (andb_true_iff _ _)) by (bool_goal; lia). cbn [mbind option_bind].
    by rewrite decide_True.
  - intros c L L' k Hi Hk _. by eapply sample_not_debited.
  - intros from to n sp ow L L' H Hne. unfold sample_invoke in H.
    apply bind_Some in H as (L1 & H & H'). case_decide; simplify_eq.
    case_match; [|done]. bool_simpl. simplify_eq.
    rewrite move_to by done. lia.
  - intros from to n sp ow L L' k H Hf Ht. unfold sample_invoke in H.
    apply bind_Some in H as (L1 & H & H'). case_decide; simplify_eq.
    case_match; [|done]. simplify_eq. by rewrite move_other.
  - intros a dst auth t L L' H Ht Hm. unfold sample_invoke in H.
    apply bind_Some in H as (L1 & H & H'). case_decide; simplify_eq.
    rewrite Ht in H. simpl in H. simplify_eq. rewrite lamports_set_eq, decide_True by done. lia.
  - apply sample_invoke_wf.
Qed.

(** It keeps an account's mint if the programs do. *)
Definition has_mint (k m : Pubkey) (toks : gmap Pubkey TokenAcc) : Prop := forall t, toks !! k = Some t -> ta_mint t = m.

Lemma has_mint_insert k m k' t toks :
  has_mint k m toks -> (k' = k -> ta_mint t = m) -> has_mint k m (<[k' := t]> toks).
Proof.
  intros Hm Ht t'. destruct (decide (k' = k)) as [->|Hne].
  - rewrite lookup_insert_eq. intros [= <-]. by apply Ht.
  - rewrite lookup_insert_ne by done. apply Hm.
Qed.

Lemma sample_keeps_mint k m c L L' :
  (forall ix toks toks', programs ix toks = Some toks' -> has_mint k m toks -> has_mint k m toks') ->
  sample_invoke c L = Some L' -> has_mint k m (lg_tokens L) -> has_mint k m (lg_tokens L').
Proof.
  intros Hprog H Hm. unfold sample_invoke in H. apply bind_Some in H as (L1 & H & H').
  case_decide; [|done]. simplify_eq.
  destruct c as [from to n sp ow|from to n|src dst a n|a dst au|ix infos].
  - case_match; by simplify_eq.
  - case_match; by simplify_eq.
  - apply bind_Some in H as (s & Hs & H). apply bind_Some in H as (d & Hd & H). case_match; [|done].
    simplify_eq. simpl. apply has_mint_insert; [apply has_mint_insert; [done|]|]; simpl; intros <-; by apply Hm.
  - apply bind_Some in H as (s & Hs & H). simplify_eq. simpl. intros t Ht.
    apply lookup_delete_Some in Ht as [_ Ht]. by apply Hm.
  - apply bind_Some in H as (toks & Ht & H). simplify_eq. simpl. by eapply Hprog.
Qed.
End SampleRuntime.
