(* ===== verification/VaultState.v ===== *)
(** * VaultState: the accounts of GraveVault

    [programs/grave-vault/src/errors.rs], [constants.rs], [state/*.rs] and the
    parameters and events of [instructions/*.rs]. PDA families are finite maps
    from their seeds; SOL and token balances are the runtime's [Ledger]. *)

From Stdlib Require Import Ascii String.
From S2P Require Import Prelude Bytes Solana Locker Runtime.

(** ** Errors *)

Inductive GraveVaultError :=
| Unauthorized | InvalidEligibilityCert | EligibilityCertExpired | ProtocolPaused
| InvalidShareSplit | ProtocolShareExceedsCeiling | LpHolderPoolUnsweepable | SlippageExceeded
| PriorityFeeExceedsCeiling | MathOverflow | InvalidClaimProof | ClaimAlreadyProcessed
| BelowDustThreshold | PreflightFailed | TimelockNotElapsed | AmmRedemptionFailed
| JupiterSwapFailed | AmmCpiUnimplemented | InvalidSnapshotData | UnsupportedBaseToken
| DustNothingToSweep | DustAlreadySwept | InvariantViolation.

#[export] Instance GraveVaultError_eq_dec : EqDecision GraveVaultError.
Proof. solve_decision. Defined.

Definition vault_discriminant (e : GraveVaultError) : Z :=
  match e with
  | Unauthorized => 0 | InvalidEligibilityCert => 1 | EligibilityCertExpired => 2
  | ProtocolPaused => 3 | InvalidShareSplit => 4 | ProtocolShareExceedsCeiling => 5
  | LpHolderPoolUnsweepable => 6 | SlippageExceeded => 7 | PriorityFeeExceedsCeiling => 8
  | MathOverflow => 9 | InvalidClaimProof => 10 | ClaimAlreadyProcessed => 11
  | BelowDustThreshold => 12 | PreflightFailed => 13 | TimelockNotElapsed => 14
  | AmmRedemptionFailed => 15 | JupiterSwapFailed => 16 | AmmCpiUnimplemented => 17
  | InvalidSnapshotData => 18 | UnsupportedBaseToken => 19 | DustNothingToSweep => 20
  | DustAlreadySwept => 21 | InvariantViolation => 22
  end.

(** [#[error_code(offset = 7000)]] *)
Definition vault_error_code (e : GraveVaultError) : Z := 7000 + vault_discriminant e.

Definition vault_error : Type := tx_error GraveVaultError.

(** ** Constants *)

Definition PROTOCOL_SHARE_BPS_CEILING : Z := 2000.
Definition DEFAULT_PROTOCOL_SHARE_BPS : Z := 2000.
Definition DEFAULT_LP_HOLDER_SHARE_BPS : Z := 4000.
Definition DEFAULT_SALVOR_SHARE_BPS : Z := 4000.
Definition BPS_DENOMINATOR : Z := 10000.
Definition DEFAULT_MAX_PRIORITY_FEE_CEILING_LAMPORTS : Z := 1000000000.
Definition DEFAULT_MAX_SLIPPAGE_BPS : Z := 300.
Definition HARD_MAX_SLIPPAGE_BPS : Z := 1000.
Definition DEFAULT_JUPITER_DUST_THRESHOLD_LAMPORTS : Z := 666666.
Definition DEFAULT_TIMELOCK_SECONDS : Z := 72 * 60 * 60.
Definition ALL_CRITERIA_MASK : Z := 63.

Definition PROTOCOL_CONFIG_SEED : list byte := bytes_of "protocol_config".
Definition POOL_REGISTRY_SEED : list byte := bytes_of "pool_registry".
Definition LP_HOLDER_POOL_SEED : list byte := bytes_of "lp_holder_pool".
Definition SALVAGE_RECEIPT_SEED : list byte := bytes_of "salvage_receipt".
Definition CLAIM_RECORD_SEED : list byte := bytes_of "claim_record".
Definition PROTOCOL_TREASURY_SEED : list byte := bytes_of "protocol_treasury".
Definition VAULT_AUTHORITY_SEED : list byte := bytes_of "vault_authority".
Definition VAULT_SOL_HOLDING_SEED : list byte := bytes_of "vault_sol_holding".
Definition ELIGIBILITY_CERT_SEED : list byte := bytes_of "eligibility_cert".

(** [grave_scanner::ID], of the scanner crate the vault links. *)
Definition SCANNER_PROGRAM_ID : Pubkey :=
  Eval vm_compute in pubkey "EFJpKtWx5gDnc4Hh6GEEgPLUrPh377E4Nfic8jsJAQJL".
Definition RAYDIUM_V4_PROGRAM_ID : Pubkey :=
  Eval vm_compute in pubkey "675kPX9MHTjS2zt1qfr1NYHuzeLXfQM9H24wFSUt1Mp8".
Definition RAYDIUM_V4_AMM_AUTHORITY : Pubkey :=
  Eval vm_compute in pubkey "5Q544fKrFoe6tsEbD7S8EmxGTJYAKtTVhAW5Q5pge4j1".
Definition RAYDIUM_CLMM_PROGRAM_ID : Pubkey :=
  Eval vm_compute in pubkey "CAMMCzo5YL8w4VFF8KVHrK22GGUsp5VTaW7grrKgrWqK".
Definition ORCA_WHIRLPOOL_PROGRAM_ID : Pubkey :=
  Eval vm_compute in pubkey "whirLbMiicVdio4qvUfM5KAg6Ct8VwpYzGff3uctyCc".
Definition PUMP_SWAP_PROGRAM_ID : Pubkey :=
  Eval vm_compute in pubkey "PSwapMdSai8tjrEXcxFeQth87xC4rRsa4VA5mhGhXkP".
Definition JUPITER_V6_PROGRAM_ID : Pubkey :=
  Eval vm_compute in pubkey "JUP6LkbZbjS1jKKwapdHNy74zcZ3tLUZoi5QNyVTaV4".
Definition ASSOCIATED_TOKEN_ID : Pubkey :=
  Eval vm_compute in pubkey "ATokenGPvbdGVxr1b2hvZbsiqW5xWH25efTNsLJA8knL".

Definition RAYDIUM_V4_INSTRUCTION_TAG_WITHDRAW : byte := x04.
Definition RAYDIUM_V4_WITHDRAW_REMAINING_ACCOUNTS_REQUIRED : nat := 13.
Definition RAYDIUM_V4_AMM_INFO_SIZE : Z := 752.
Definition RAYDIUM_V4_OFF_COIN_MINT : Z := 400.
Definition RAYDIUM_V4_OFF_PC_MINT : Z := 432.
Definition RAYDIUM_V4_OFF_LP_MINT : Z := 464.

(** ** Accounts *)

Record ProtocolConfig := mkVaultConfig {
  vcfg_authority : Pubkey;
  vcfg_pending_authority : Pubkey;
  vcfg_pending_authority_eta : Z;             (* i64 *)
  lp_holder_share_bps : Z;                    (* u16 *)
  salvor_share_bps : Z;                       (* u16 *)
  protocol_share_bps : Z;                     (* u16 *)
  max_priority_fee_ceiling_lamports : Z;      (* u64 *)
  max_slippage_bps : Z;                       (* u16 *)
  jupiter_dust_threshold_lamports : Z;        (* u64 *)
  timelock_seconds : Z;                       (* i64 *)
  emergency_paused : bool;
  vcfg_bump : Z;                              (* u8 *)
  vcfg_reserved : list byte;                  (* [u8; 96] *)
}.

(** The widths of the fields the settlement computes with. *)
Record typed_vault_config (c : ProtocolConfig) : Prop := {
  tvc_lp : is_u16 (lp_holder_share_bps c);
  tvc_salvor : is_u16 (salvor_share_bps c);
  tvc_protocol : is_u16 (protocol_share_bps c);
  tvc_slippage : is_u16 (max_slippage_bps c);
}.

Record PoolRegistry := mkPoolRegistry {
  reg_amm_program_id : Pubkey;
  reg_pool_address : Pubkey;
  reg_salvor : Pubkey;
  lp_snapshot_merkle_root : list byte;        (* [u8; 32] *)
  lp_total_supply_at_snapshot : Z;            (* u64 *)
  lp_holder_pool_total_lamports : Z;          (* u64 *)
  lp_holder_pool_claimed_lamports : Z;        (* u64 *)
  salvaged_at_slot : Z;                       (* u64 *)
  salvaged_at_ts : Z;                         (* i64 *)
  reg_bump : Z;
  reg_reserved : list byte;                   (* [u8; 64] *)
}.

Definition remaining_lamports (self : PoolRegistry) : Z :=
  saturating_sub_u (lp_holder_pool_total_lamports self) (lp_holder_pool_claimed_lamports self).
Definition is_fully_claimed (self : PoolRegistry) : bool :=
  lp_holder_pool_total_lamports self <=? lp_holder_pool_claimed_lamports self.

Record SalvageReceipt := mkSalvageReceipt {
  rcpt_pool_address : Pubkey;
  rcpt_salvor : Pubkey;
  lp_holder_amount_lamports : Z;              (* u64 *)
  salvor_amount_lamports : Z;                 (* u64 *)
  protocol_amount_lamports : Z;               (* u64 *)
  total_proceeds_lamports : Z;                (* u64 *)
  issued_at_slot : Z;                         (* u64 *)
  issued_at_ts : Z;                           (* i64 *)
  rcpt_memecoin_mint : Pubkey;
  dust_memecoin_lamports : Z;                 (* u64 *)
  dust_swept_at_ts : Z;                       (* i64 *)
  rcpt_bump : Z;
  rcpt_reserved : list byte;                  (* [u8; 32] *)
}.

Record ClaimRecord := mkClaimRecord {
  clm_pool_address : Pubkey;
  clm_lp_holder : Pubkey;
  clm_amount_lamports : Z;                    (* u64 *)
  clm_lp_balance_at_snapshot : Z;             (* u64 *)
  claimed_at_slot : Z;                        (* u64 *)
  claimed_at_ts : Z;                          (* i64 *)
  clm_bump : Z;
  clm_reserved : list byte;                   (* [u8; 32] *)
}.

(** Registries and receipts by pool, claim records by (pool, holder). *)
Record VaultState := mkVaultState {
  vs_config : option ProtocolConfig;
  vs_registries : gmap Pubkey PoolRegistry;
  vs_receipts : gmap Pubkey SalvageReceipt;
  vs_claims : gmap (Pubkey * Pubkey) ClaimRecord;
  vs_ledger : Ledger;
}.

Definition vault_genesis (L : Ledger) : VaultState := mkVaultState None ∅ ∅ ∅ L.

Definition set_vault_config (c : ProtocolConfig) (st : VaultState) : VaultState :=
  mkVaultState (Some c) (vs_registries st) (vs_receipts st) (vs_claims st) (vs_ledger st).
Definition set_registry (p : Pubkey) (r : PoolRegistry) (st : VaultState) : VaultState :=
  mkVaultState (vs_config st) (<[p := r]> (vs_registries st)) (vs_receipts st) (vs_claims st)
    (vs_ledger st).
Definition set_receipt (p : Pubkey) (r : SalvageReceipt) (st : VaultState) : VaultState :=
  mkVaultState (vs_config st) (vs_registries st) (<[p := r]> (vs_receipts st)) (vs_claims st)
    (vs_ledger st).
Definition set_claim (k : Pubkey * Pubkey) (c : ClaimRecord) (st : VaultState) : VaultState :=
  mkVaultState (vs_config st) (vs_registries st) (vs_receipts st) (<[k := c]> (vs_claims st))
    (vs_ledger st).
Definition set_ledger (L : Ledger) (st : VaultState) : VaultState :=
  mkVaultState (vs_config st) (vs_registries st) (vs_receipts st) (vs_claims st) L.

(** ** Addresses *)

Section Addresses.
Context `{PdaDerivation}.

Definition vault_bump (seeds : list (list byte)) : Z := snd (find_program_address seeds VAULT_ID).

Definition config_address : Pubkey := vault_pda [PROTOCOL_CONFIG_SEED].
Definition registry_address (pool : Pubkey) : Pubkey := vault_pda [POOL_REGISTRY_SEED; pool].
Definition receipt_address (pool : Pubkey) : Pubkey := vault_pda [SALVAGE_RECEIPT_SEED; pool].
Definition lp_holder_pool_vault (pool : Pubkey) : Pubkey := vault_pda [LP_HOLDER_POOL_SEED; pool].
Definition vault_sol_holding_account (pool : Pubkey) : Pubkey :=
  vault_pda [VAULT_SOL_HOLDING_SEED; pool].
Definition protocol_treasury : Pubkey := vault_pda [PROTOCOL_TREASURY_SEED].
Definition vault_authority : Pubkey := vault_pda [VAULT_AUTHORITY_SEED].
Definition cert_address (amm pool : Pubkey) : Pubkey :=
  fst (find_program_address [ELIGIBILITY_CERT_SEED; amm; pool] SCANNER_PROGRAM_ID).

(** [get_associated_token_address(authority, mint)] *)
Definition associated_token (authority mint : Pubkey) : Pubkey :=
  fst (find_program_address [authority; SPL_TOKEN_ID; mint] ASSOCIATED_TOKEN_ID).
End Addresses.

(** ** Instruction parameters *)

Record InitializeParams := mkVaultInitializeParams {
  vip_authority : Pubkey;
  vip_lp_holder_share_bps : Z;
  vip_salvor_share_bps : Z;
  vip_protocol_share_bps : Z;
  vip_max_priority_fee_ceiling_lamports : Z;
  vip_max_slippage_bps : Z;
  vip_jupiter_dust_threshold_lamports : Z;
  vip_timelock_seconds : Z;
}.

Record UpdateProtocolConfigParams := mkVaultUpdateParams {
  vup_lp_holder_share_bps : option Z;
  vup_salvor_share_bps : option Z;
  vup_protocol_share_bps : option Z;
  vup_max_priority_fee_ceiling_lamports : option Z;
  vup_max_slippage_bps : option Z;
  vup_jupiter_dust_threshold_lamports : option Z;
  vup_timelock_seconds : option Z;
}.

Record SalvagePoolParams := mkSalvagePoolParams {
  sp_amm_program_id : Pubkey;
  sp_pool_address : Pubkey;
  sp_lp_snapshot_merkle_root : list byte;
  sp_lp_total_supply_at_snapshot : Z;
  sp_min_quote_output_lamports : Z;
  sp_salvor_lp_amount : Z;
  sp_jupiter_route_data : list byte;
  sp_max_slippage_bps_override : option Z;
  sp_jupiter_route_accounts_len : Z;          (* u8 *)
}.

Record ClaimLpProceedsParams := mkClaimLpProceedsParams {
  cp_pool_address : Pubkey;
  cp_lp_balance_at_snapshot : Z;
  cp_merkle_proof : list (list byte);
}.

(** ** Events *)

Inductive VaultEvent :=
| VaultPauseChanged (paused : bool) (changed_by : Pubkey)
| PoolSalvaged (amm pool salvor : Pubkey) (lp_holder_amount salvor_amount protocol_amount : Z)
| SalvageCompleted (pool salvor : Pubkey) (total_proceeds_lamports : Z)
| LpClaimProcessed (pool lp_holder : Pubkey) (amount_lamports : Z)
| DustSwept (pool memecoin_mint : Pubkey) (amount : Z) (sweeper : Pubkey).

(** What a vault instruction yields. *)
Definition vault_outcome : Type := result vault_error (VaultState * list VaultEvent).

(** [Account<'info, T>] on an address that holds no account of the program. *)
Definition vload {A} (o : option A) : result vault_error A :=
  ok_or o (Framework AccountNotInitialized).
(** [init] *)
Definition vinit {A} (o : option A) : result vault_error unit :=
  match o with None => mret tt | Some _ => Err (Framework AccountAlreadyInUse) end.
(** [Clock::get()?]: the vault does not map the error. *)
Definition vclock (o : option Clock) : result vault_error Clock :=
  ok_or o (Framework CpiFailed).
(** An inner invocation whose failure is mapped to [e]. *)
Definition call `{Runtime} (e : vault_error) (c : Cpi) (L : Ledger) : result vault_error Ledger :=
  ok_or (invoke c L) e.

Lemma vinit_Ok {A} (o : option A) u : vinit o = Ok u <-> o = None.
Proof. destruct o, u; simpl; naive_solver. Qed.
