(* ===== verification/Borsh.v ===== *)
(** * Borsh: accounts as bytes

    The documented encodings behind [#[account]] and [#[derive(InitSpace)]],
    for the field types the programs' accounts have: all of fixed width. A
    codec writes a value on [width] bytes and reads it back from as many; an
    account is eight bytes of discriminator and the codec's. *)

From Stdlib Require Import Ascii String.
From S2P Require Import Prelude Bytes Solana Locker Merkle.

(** ** Codecs *)

Record codec (A : Type) := mkCodec {
  width : nat;
  put : A -> list byte;
  get : list byte -> option A;
  valid : A -> Prop;
}.
Arguments mkCodec {A}.
Arguments width {A}.
Arguments put {A}.
Arguments get {A}.
Arguments valid {A}.

(** Valid values are exactly what the bytes say. *)
Record exact {A} (c : codec A) : Prop := {
  put_width a : valid c a -> length (put c a) = width c;
  get_put a : valid c a -> get c (put c a) = Some a;
  put_get l a : length l = width c -> get c l = Some a -> valid c a /\ put c a = l;
}.

Definition u_codec (n : nat) : codec Z :=
  mkCodec n (le_bytes n) (fun l => Some (le_Z l)) (is_u (8 * Z.of_nat n)).
Definition i64_codec : codec Z := mkCodec 8 (le_bytes 8) (fun l => Some (le_i64 l)) is_i64.
(** Any other byte is refused. *)
Definition bool_codec : codec bool :=
  mkCodec 1 (fun b => [if (b : bool) then x01 else x00])
    (fun l => if decide (l = [x00]) then Some false else if decide (l = [x01]) then Some true else None)
    (fun _ => True).
(** [[u8; n]] and, on 32 bytes, [Pubkey]. *)
Definition array_codec (n : nat) : codec (list byte) := mkCodec n id Some (fun l => length l = n).

Definition pair_codec {A B} (c : codec A) (d : codec B) : codec (A * B) :=
  mkCodec (width c + width d) (fun p => put c (fst p) ++ put d (snd p))
    (fun l => a ← get c (take (width c) l); b ← get d (drop (width c) l); Some (a, b))
    (fun p => valid c (fst p) /\ valid d (snd p)).
Declare Scope codec_scope.
Delimit Scope codec_scope with codec.
Infix "**" := pair_codec (at level 40, left associativity) : codec_scope.

(** A struct as the tuple of its fields, in order. *)
Definition struct_codec {A B} (c : codec B) (fields : A -> B) (struct : B -> A) : codec A :=
  mkCodec (width c) (fun a => put c (fields a)) (fun l => b ← get c l; Some (struct b))
    (fun a => valid c (fields a)).

Section Exact.
Lemma u_codec_exact n : exact (u_codec n).
Proof.
  constructor; cbn [u_codec width put get valid].
  - intros a _. apply le_bytes_length.
  - intros a Ha. f_equal. by eapply le_roundtrip.
  - intros l a <- [= <-]. split; [apply le_Z_bound|apply le_bytes_le_Z].
Qed.

Lemma le_i64_bytes l : length l = 8%nat -> le_bytes 8 (le_i64 l) = l.
Proof.
  intros Hl. pose proof (le_Z_bound l) as Hb. rewrite Hl in Hb. change (8 * Z.of_nat 8) with 64 in Hb.
  rewrite <- (le_bytes_le_Z l) at 2. rewrite Hl.
  unfold le_i64, to_signed. destruct (_ <? _); [done|].
  transitivity (le_bytes 8 (le_Z (le_bytes 8 (le_Z l - 2 ^ 64)))).
  { rewrite <- (le_bytes_length 8 (le_Z l - 2 ^ 64)) at 2. by rewrite le_bytes_le_Z. }
  f_equal. rewrite le_Z_le_bytes. change (8 * Z.of_nat 8) with 64.
  rewrite <- (Z.mod_add _ 1) by lia. rewrite Z.mod_small by lia. lia.
Qed.

Lemma i64_codec_exact : exact i64_codec.
Proof.
  constructor; cbn [i64_codec width put get valid].
  - intros a _. apply le_bytes_length.
  - intros a Ha. f_equal. by apply le_i64_roundtrip.
  - intros l a Hl [= <-]. split; [|by apply le_i64_bytes].
    apply to_signed_bound; [done|]. by apply le_Z_is_u; rewrite Hl.
Qed.

Lemma bool_codec_exact : exact bool_codec.
Proof.
  constructor; simpl.
  - done.
  - by intros [] _.
  - intros l a _. repeat case_decide; [intros [= <-]|intros [= <-]|done]; by subst.
Qed.

Lemma array_codec_exact n : exact (array_codec n).
Proof. constructor; simpl; [done..|]. by intros l a Hl [= <-]. Qed.

Lemma pair_codec_exact {A B} (c : codec A) (d : codec B) : exact c -> exact d -> exact (pair_codec c d).
Proof.
  intros Hc Hd. constructor; simpl.
  - intros [a b] [Ha Hb]. simpl. by rewrite length_app, (put_width _ Hc), (put_width _ Hd).
  - intros [a b] [Ha Hb]. simpl in *. rewrite <- (put_width _ Hc a) by done.
    rewrite take_app_length, drop_app_length, (get_put _ Hc), (get_put _ Hd) by done. done.
  - intros l [a b] Hl (a' & Ha & (b' & Hb & [= -> ->])%bind_Some)%bind_Some. simpl.
    destruct (put_get _ Hc (take (width c) l) a ltac:(rewrite length_take; lia) Ha) as [? ->].
    destruct (put_get _ Hd (drop (width c) l) b ltac:(rewrite length_drop; lia) Hb) as [? ->]. by rewrite take_drop.
Qed.

Lemma struct_codec_exact {A B} (c : codec B) (fields : A -> B) (struct : B -> A) :
  exact c -> (forall a, struct (fields a) = a) -> (forall b, fields (struct b) = b) ->
  exact (struct_codec c fields struct).
Proof.
  intros Hc Hs Hf. constructor; simpl.
  - intros a. apply Hc.
  - intros a Ha. rewrite (get_put _ Hc) by done. simpl. by rewrite Hs.
  - intros l a Hl (b & Hb & [= <-])%bind_Some. rewrite Hf. by apply Hc.
Qed.
End Exact.

Create HintDb borsh.
#[export] Hint Resolve u_codec_exact i64_codec_exact bool_codec_exact array_codec_exact pair_codec_exact : borsh.

(** The field types, as declared. *)
Definition u8 : codec Z := u_codec 1.
Definition u16 : codec Z := u_codec 2.
Definition u64 : codec Z := u_codec 8.
Definition u128 : codec Z := u_codec 16.
Definition i64 : codec Z := i64_codec.
Definition bool_ : codec bool := bool_codec.
Definition pubkey_ : codec Pubkey := array_codec 32.
Definition bytes (n : nat) : codec (list byte) := array_codec n.
#[export] Hint Unfold u8 u16 u64 u128 i64 bool_ pubkey_ bytes : borsh.

(** ** Accounts *)

(** [#[account]]: the type's name, which the discriminator hashes, and the
    derived encoding. *)
Class AnchorAccount (A : Type) := {
  account_name : string;
  account_codec : codec A;
}.
Class AnchorAccountLaws A `{AnchorAccount A} := account_exact : exact (account_codec (A := A)).

Section Accounts.
Context `{Sha256} {A : Type} `{AnchorAccount A}.

(** [A::INIT_SPACE] *)
Definition INIT_SPACE : nat := width (account_codec (A := A)).

(** [borsh::to_vec] and [A::try_from_slice], which wants every byte read. *)
Definition to_vec (a : A) : list byte := put account_codec a.
Definition try_from_slice (data : list byte) : option A :=
  if decide (length data = INIT_SPACE) then get account_codec data else None.

Definition discriminator : list byte := take 8 (sha256 (bytes_of "account:" ++ bytes_of account_name)).

(** [try_serialize] and [try_deserialize], which leaves what follows unread. *)
Definition try_serialize (a : A) : list byte := discriminator ++ to_vec a.
Definition try_deserialize (data : list byte) : option A :=
  if decide (take 8 data = discriminator /\ (8 + INIT_SPACE <= length data)%nat)
  then get account_codec (slice 8 INIT_SPACE data) else None.

Definition valid_account (a : A) : Prop := valid account_codec a.

(** What [try_deserialize] reads is what [try_serialize] wrote, and it reads
    all of it. *)
Record stored_exactly (space : nat) : Prop := {
  st_space : INIT_SPACE = space;
  st_size a : valid_account a -> length (try_serialize a) = (8 + space)%nat;
  st_read a rest : valid_account a -> try_deserialize (try_serialize a ++ rest) = Some a;
  st_written data a : try_deserialize data = Some a ->
    valid_account a /\ exists rest, data = try_serialize a ++ rest;
}.

Context {SHL : Sha256Laws} {AL : AnchorAccountLaws A}.

Lemma discriminator_length : length discriminator = 8%nat.
Proof. unfold discriminator. rewrite length_take, sha256_length. done. Qed.

Lemma accounts_stored : stored_exactly INIT_SPACE.
Proof.
  constructor.
  - done.
  - intros a Ha. unfold try_serialize, to_vec. by rewrite length_app, discriminator_length, (put_width _ AL).
  - intros a rest Ha. unfold try_deserialize, try_serialize, to_vec. rewrite <- app_assoc.
    rewrite decide_True.
    + rewrite slice_mid; [by apply AL|apply discriminator_length|by apply AL].
    + rewrite !length_app, discriminator_length, (put_width _ AL) by done. split; [|unfold INIT_SPACE; lia].
      rewrite <- discriminator_length at 1. apply take_app_length.
  - unfold try_deserialize. intros data a Hd. case_decide as Hc; [|done]. destruct Hc as [Hdisc Hlen].
    assert (Hs : length (slice 8 INIT_SPACE data) = INIT_SPACE) by (apply slice_length; lia).
    destruct (put_get _ AL _ _ Hs Hd) as [Hv Hp]. split; [done|].
    exists (drop INIT_SPACE (drop 8 data)). unfold try_serialize, to_vec. rewrite Hp, <- Hdisc. unfold slice.
    by rewrite <- app_assoc, !take_drop.
Qed.

Lemma slice_roundtrip a : valid_account a -> try_from_slice (to_vec a) = Some a.
Proof. intros Ha. unfold try_from_slice, to_vec. rewrite decide_True; by apply AL. Qed.
End Accounts.
Arguments INIT_SPACE A {_}.
Arguments stored_exactly {_} A {_}.
Arguments discriminator {_} A {_}.
