(* ===== verification/Accounts.v ===== *)
(** * Accounts: what the programs' accounts look like on chain

    [programs/grave-scanner/src/state/*.rs] and
    [programs/grave-vault/src/state/*.rs] as bytes: each struct's fields in
    their declared order and types, under the encodings of Borsh.v; the
    repository's layout and round-trip tests (there are none for [LaunchPrice]
    and the scanner's [ProtocolConfig]); and what tells the eight kinds apart.
    That what the instructions write can be read back is Storage.v's. *)

From Stdlib Require Import Ascii String.
From S2P Require Import Prelude TestKit Bytes Solana Criteria Locker Merkle Sha ScannerState Runtime VaultState Borsh.

(** ** The eight accounts *)

Definition scanner_config_account : AnchorAccount ScannerState.ProtocolConfig := {|
  account_name := "ProtocolConfig";
  account_codec := struct_codec
    (pubkey_ ** pubkey_ ** i64 ** u64 ** u16 ** u64 ** u64 ** u64 ** i64 ** bool_ ** pubkey_ ** pubkey_ **
    u8 ** bytes 64)%codec
    (fun r => (cfg_authority r, cfg_pending_authority r, cfg_pending_authority_eta r, cfg_inactivity_seconds r,
      cfg_price_collapse_bps r, cfg_min_tvl_lamports r, cfg_anchor_staleness_seconds r,
      cfg_lp_burn_dust_threshold r, cfg_cert_ttl_seconds r, cfg_paused r, cfg_activity_oracle r,
      cfg_launch_price_oracle r, cfg_bump r, cfg_reserved r))
    (fun '(a, b, c, d, e, f, g, h, i, j, k, l, m, n) => ScannerState.mkProtocolConfig a b c d e f g h i j k l m n);
|}.

Definition anchor_account : AnchorAccount EligibilityAnchor := {|
  account_name := "EligibilityAnchor";
  account_codec := struct_codec
    (pubkey_ ** pubkey_ ** pubkey_ ** u64 ** i64 ** bool_ ** u8 ** u8 ** bytes 64)%codec
    (fun r => (anchor_amm_program_id r, anchor_pool_address r, anchor_writer r, first_eligible_epoch r,
      written_at r, invalidated r, anchor_criteria_bitmap r, anchor_bump r, anchor_reserved r))
    (fun '(a, b, c, d, e, f, g, h, i) => mkEligibilityAnchor a b c d e f g h i);
|}.

Definition cert_account : AnchorAccount EligibilityCert := {|
  account_name := "EligibilityCert";
  account_codec := struct_codec
    (pubkey_ ** pubkey_ ** pubkey_ ** u64 ** u64 ** i64 ** i64 ** u8 ** u64 ** u8 ** bytes 56)%codec
    (fun r => (cert_amm_program_id r, cert_pool_address r, cert_writer r, anchor_epoch r, cert_epoch r,
      issued_at r, expires_at r, cert_criteria_bitmap r, reissue_generation r, cert_bump r, cert_reserved r))
    (fun '(a, b, c, d, e, f, g, h, i, j, k) => mkEligibilityCert a b c d e f g h i j k);
|}.

Definition launch_price_account : AnchorAccount LaunchPrice := {|
  account_name := "LaunchPrice";
  account_codec := struct_codec
    (pubkey_ ** pubkey_ ** pubkey_ ** pubkey_ ** u128 ** u64 ** i64 ** u64 ** i64 ** u8 ** bytes 16)%codec
    (fun r => (lp_amm_program_id r, lp_pool_address r, lp_base_mint r, lp_quote_mint r,
      lp_launch_price_q64x64 r, lp_first_swap_slot r, lp_first_swap_unix_ts r, lp_recorded_slot r,
      lp_recorded_at r, lp_bump r, lp_reserved r))
    (fun '(a, b, c, d, e, f, g, h, i, j, k) => mkLaunchPrice a b c d e f g h i j k);
|}.

Definition vault_config_account : AnchorAccount VaultState.ProtocolConfig := {|
  account_name := "ProtocolConfig";
  account_codec := struct_codec
    (pubkey_ ** pubkey_ ** i64 ** u16 ** u16 ** u16 ** u64 ** u16 ** u64 ** i64 ** bool_ ** u8 ** bytes
      96)%codec
    (fun r => (vcfg_authority r, vcfg_pending_authority r, vcfg_pending_authority_eta r, lp_holder_share_bps r,
      salvor_share_bps r, protocol_share_bps r, max_priority_fee_ceiling_lamports r, max_slippage_bps r,
      jupiter_dust_threshold_lamports r, timelock_seconds r, emergency_paused r, vcfg_bump r,
      vcfg_reserved r))
    (fun '(a, b, c, d, e, f, g, h, i, j, k, l, m) => mkVaultConfig a b c d e f g h i j k l m);
|}.

Definition registry_account : AnchorAccount PoolRegistry := {|
  account_name := "PoolRegistry";
  account_codec := struct_codec
    (pubkey_ ** pubkey_ ** pubkey_ ** bytes 32 ** u64 ** u64 ** u64 ** u64 ** i64 ** u8 ** bytes 64)%codec
    (fun r => (reg_amm_program_id r, reg_pool_address r, reg_salvor r, lp_snapshot_merkle_root r,
      lp_total_supply_at_snapshot r, lp_holder_pool_total_lamports r, lp_holder_pool_claimed_lamports r,
      salvaged_at_slot r, salvaged_at_ts r, reg_bump r, reg_reserved r))
    (fun '(a, b, c, d, e, f, g, h, i, j, k) => mkPoolRegistry a b c d e f g h i j k);
|}.

Definition receipt_account : AnchorAccount SalvageReceipt := {|
  account_name := "SalvageReceipt";
  account_codec := struct_codec
    (pubkey_ ** pubkey_ ** u64 ** u64 ** u64 ** u64 ** u64 ** i64 ** pubkey_ ** u64 ** i64 ** u8 ** bytes
      32)%codec
    (fun r => (rcpt_pool_address r, rcpt_salvor r, lp_holder_amount_lamports r, salvor_amount_lamports r,
      protocol_amount_lamports r, total_proceeds_lamports r, issued_at_slot r, issued_at_ts r,
      rcpt_memecoin_mint r, dust_memecoin_lamports r, dust_swept_at_ts r, rcpt_bump r, rcpt_reserved r))
    (fun '(a, b, c, d, e, f, g, h, i, j, k, l, m) => mkSalvageReceipt a b c d e f g h i j k l m);
|}.

Definition claim_account : AnchorAccount ClaimRecord := {|
  account_name := "ClaimRecord";
  account_codec := struct_codec
    (pubkey_ ** pubkey_ ** u64 ** u64 ** u64 ** i64 ** u8 ** bytes 32)%codec
    (fun r => (clm_pool_address r, clm_lp_holder r, clm_amount_lamports r, clm_lp_balance_at_snapshot r,
      claimed_at_slot r, claimed_at_ts r, clm_bump r, clm_reserved r))
    (fun '(a, b, c, d, e, f, g, h) => mkClaimRecord a b c d e f g h);
|}.

#[export] Existing Instance scanner_config_account.
#[export] Existing Instance anchor_account.
#[export] Existing Instance cert_account.
#[export] Existing Instance launch_price_account.
#[export] Existing Instance vault_config_account.
#[export] Existing Instance registry_account.
#[export] Existing Instance receipt_account.
#[export] Existing Instance claim_account.

Ltac account_laws :=
  apply struct_codec_exact;
  [autounfold with borsh; auto 30 with borsh
  |intros []; reflexivity
  |intros b; repeat match goal with p : (_ * _)%type |- _ => destruct p end; reflexivity].

#[export] Instance scanner_config_laws : AnchorAccountLaws ScannerState.ProtocolConfig.
Proof. account_laws. Qed.
#[export] Instance anchor_laws : AnchorAccountLaws EligibilityAnchor.
Proof. account_laws. Qed.
#[export] Instance cert_laws : AnchorAccountLaws EligibilityCert.
Proof. account_laws. Qed.
#[export] Instance launch_price_laws : AnchorAccountLaws LaunchPrice.
Proof. account_laws. Qed.
#[export] Instance vault_config_laws : AnchorAccountLaws VaultState.ProtocolConfig.
Proof. account_laws. Qed.
#[export] Instance registry_laws : AnchorAccountLaws PoolRegistry.
Proof. account_laws. Qed.
#[export] Instance receipt_laws : AnchorAccountLaws SalvageReceipt.
Proof. account_laws. Qed.
#[export] Instance claim_laws : AnchorAccountLaws ClaimRecord.
Proof. account_laws. Qed.

(** ** All of them *)

Inductive AccountKind :=
| KScannerConfig | KAnchor | KCert | KLaunchPrice | KVaultConfig | KRegistry | KReceipt | KClaim.

Definition account_type (k : AccountKind) : Type :=
  match k with
  | KScannerConfig => ScannerState.ProtocolConfig | KAnchor => EligibilityAnchor | KCert => EligibilityCert
  | KLaunchPrice => LaunchPrice | KVaultConfig => VaultState.ProtocolConfig | KRegistry => PoolRegistry
  | KReceipt => SalvageReceipt | KClaim => ClaimRecord
  end.
#[export] Instance account_of (k : AccountKind) : AnchorAccount (account_type k) :=
  match k return AnchorAccount (account_type k) with
  | KScannerConfig => scanner_config_account | KAnchor => anchor_account | KCert => cert_account
  | KLaunchPrice => launch_price_account | KVaultConfig => vault_config_account | KRegistry => registry_account
  | KReceipt => receipt_account | KClaim => claim_account
  end.
#[export] Instance account_of_laws k : AnchorAccountLaws (account_type k).
Proof. destruct k; exact _. Qed.

(** What the account types are told apart by. *)
Definition kind_discriminator (k : AccountKind) : list byte :=
  Eval vm_compute in
    match k with
    | KScannerConfig => discriminator ScannerState.ProtocolConfig (H := fips_sha256)
    | KAnchor => discriminator EligibilityAnchor (H := fips_sha256)
    | KCert => discriminator EligibilityCert (H := fips_sha256)
    | KLaunchPrice => discriminator LaunchPrice (H := fips_sha256)
    | KVaultConfig => discriminator VaultState.ProtocolConfig (H := fips_sha256)
    | KRegistry => discriminator PoolRegistry (H := fips_sha256)
    | KReceipt => discriminator SalvageReceipt (H := fips_sha256)
    | KClaim => discriminator ClaimRecord (H := fips_sha256)
    end.

Lemma kind_discriminators k : discriminator (account_type k) (H := fips_sha256) = kind_discriminator k.
Proof. destruct k; vm_compute; reflexivity. Qed.

Lemma read_discriminator `{Sha256} k data b :
  try_deserialize (A := account_type k) data = Some b -> take 8 data = discriminator (account_type k).
Proof. unfold try_deserialize. case_decide as Hd; [|done]. by destruct Hd. Qed.

Lemma written_discriminator `{Sha256} {SHL : Sha256Laws} k (a : account_type k) rest :
  take 8 (try_serialize a ++ rest) = discriminator (account_type k).
Proof.
  unfold try_serialize. rewrite <- app_assoc.
  rewrite <- (discriminator_length (A := account_type k)) at 1. apply take_app_length.
Qed.

(** C21. An account of one type is never read as an account of another: with
    SHA-256 as the hash, a buffer written as one kind and read as another forces
    the two kinds to be the same, or the two programs' configs, which share
    their name and so their discriminator: only the owning program tells those
    apart. *)
Theorem accounts_never_confused k k' (a : account_type k) rest (b : account_type k') :
  try_deserialize (H := fips_sha256) (try_serialize (H := fips_sha256) a ++ rest) = Some b ->
  k = k' \/ (k = KScannerConfig /\ k' = KVaultConfig) \/ (k = KVaultConfig /\ k' = KScannerConfig).
Proof.
  intros Hr%read_discriminator. rewrite (written_discriminator (SHL := fips_sha256_laws)), !kind_discriminators in Hr.
  destruct k, k'; auto; discriminate Hr.
Qed.

(** ** The layout and round-trip tests

    [Pubkey::new_unique] is a fixed key; the discriminator is SHA-256's. *)

#[local] Existing Instance fips_sha256.

#[local] Instance anchor_eq_dec : EqDecision EligibilityAnchor.
Proof. solve_decision. Defined.
#[local] Instance cert_eq_dec : EqDecision EligibilityCert.
Proof. solve_decision. Defined.
#[local] Instance launch_price_eq_dec : EqDecision LaunchPrice.
Proof. solve_decision. Defined.
#[local] Instance vault_config_eq_dec : EqDecision VaultState.ProtocolConfig.
Proof. solve_decision. Defined.
#[local] Instance registry_eq_dec : EqDecision PoolRegistry.
Proof. solve_decision. Defined.
#[local] Instance receipt_eq_dec : EqDecision SalvageReceipt.
Proof. solve_decision. Defined.
#[local] Instance claim_eq_dec : EqDecision ClaimRecord.
Proof. solve_decision. Defined.

(** [to_vec], [try_from_slice], every field compared, [bytes.len()]. *)
Definition borsh_roundtrips {A} `{AnchorAccount A, EqDecision A} (a : A) : bool :=
  same (try_from_slice (to_vec a)) (Some a) && same (length (to_vec a)) (INIT_SPACE A).
Definition space_is (A : Type) `{AnchorAccount A} (expected_space : nat) : bool :=
  same (8 + INIT_SPACE A)%nat expected_space.

Module anchor_tests.
Definition account_layout_is_stable : bool :=
  space_is EligibilityAnchor (8 + 32 + 32 + 32 + 8 + 8 + 1 + 1 + 1 + 64).
Definition borsh_roundtrip_preserves_anchor_state : bool :=
  let a := mkEligibilityAnchor (key_of xa1) (key_of xa2) (key_of xa3) 777 1700000000 true Criteria.ALL_CRITERIA_MASK
    254 (zeroes 64) in
  borsh_roundtrips a && is_invalidated a && is_complete a.
End anchor_tests.

Module cert_tests.
Definition account_layout_is_stable : bool :=
  space_is EligibilityCert (8 + 32 + 32 + 32 + 8 + 8 + 8 + 8 + 1 + 8 + 1 + 56).
Definition borsh_roundtrip_preserves_reissue_state : bool :=
  borsh_roundtrips (mkEligibilityCert (key_of xa1) (key_of xa2) (key_of xa3) 0 0 0 1000 63 1 0 (zeroes 56)).
End cert_tests.

Module vault_config_tests.
Definition account_layout_is_stable : bool :=
  space_is VaultState.ProtocolConfig (8 + 32 + 32 + 8 + 2 + 2 + 2 + 8 + 2 + 8 + 8 + 1 + 1 + 96).
Definition borsh_roundtrip_preserves_config_state : bool :=
  borsh_roundtrips (mkVaultConfig (key_of xb1) (key_of xb2) 1700000000 4000 4000 2000 1000000000 300 666666
    (72 * 60 * 60) true 255 (zeroes 96)).
End vault_config_tests.

Module registry_tests.
Definition account_layout_is_stable : bool :=
  space_is PoolRegistry (8 + 32 + 32 + 32 + 32 + 8 + 8 + 8 + 8 + 8 + 1 + 64).
Definition borsh_roundtrip_preserves_registry_state : bool :=
  let r := mkPoolRegistry (key_of xa1) (key_of xa2) (key_of xa3) (key_of xab) 9999999 1000000 400000 250000000
    1700000000 253 (zeroes 64) in
  borsh_roundtrips r && same (remaining_lamports r) 600000 && negb (is_fully_claimed r).
End registry_tests.

Module claim_tests.
Definition account_layout_is_stable : bool := space_is ClaimRecord (8 + 32 + 32 + 8 + 8 + 8 + 8 + 1 + 32).
Definition borsh_roundtrip_preserves_claim_state : bool :=
  borsh_roundtrips (mkClaimRecord (key_of xa1) (key_of xa2) 0xa3a3a3a3a3a3a3a3 0xa4a4a4a4a4a4a4a4 0xa5a5a5a5a5a5a5a5
    0x0a6a6a6a6a6a6a6a 254 (zeroes 32)).
End claim_tests.

Module receipt_tests.
Definition receipt_layout_offsets_are_stable : bool :=
  let receipt := mkSalvageReceipt (key_of x01) (key_of x02) 0xa1a1a1a1a1a1a1a1 0xa2a2a2a2a2a2a2a2 0xa3a3a3a3a3a3a3a3
    0xa4a4a4a4a4a4a4a4 0xa5a5a5a5a5a5a5a5 0x0a6a6a6a6a6a6a6a (key_of x03) 0xa7a7a7a7a7a7a7a7 0x0a8a8a8a8a8a8a8a 255
    (zeroes 32) in
  let data := try_serialize receipt in
  let u64_at off := le_Z (slice off 8 data) in
  same (u64_at 72%nat) (lp_holder_amount_lamports receipt) && same (u64_at 80%nat) (salvor_amount_lamports receipt)
  && same (u64_at 88%nat) (protocol_amount_lamports receipt) && same (u64_at 96%nat) (total_proceeds_lamports receipt)
  && same (u64_at 104%nat) (issued_at_slot receipt) && same (u64_at 112%nat) (issued_at_ts receipt)
  && same (slice 120 32 data) (rcpt_memecoin_mint receipt) && same (u64_at 152%nat) (dust_memecoin_lamports receipt)
  && same (u64_at 160%nat) (dust_swept_at_ts receipt) && same (byte_at data 168) 255
  && same (length data) (8 + 32 + 32 + 8 * 6 + 32 + 8 + 8 + 1 + 32)%nat.
End receipt_tests.

Lemma account_tests_pass : all_pass [
  anchor_tests.account_layout_is_stable; anchor_tests.borsh_roundtrip_preserves_anchor_state;
  cert_tests.account_layout_is_stable; cert_tests.borsh_roundtrip_preserves_reissue_state;
  vault_config_tests.account_layout_is_stable; vault_config_tests.borsh_roundtrip_preserves_config_state;
  registry_tests.account_layout_is_stable; registry_tests.borsh_roundtrip_preserves_registry_state;
  claim_tests.account_layout_is_stable; claim_tests.borsh_roundtrip_preserves_claim_state;
  receipt_tests.receipt_layout_offsets_are_stable] = true.
Proof. run_suite. Qed.

(** ** Witnesses *)

(** The scanner's config does read as a vault's. *)
Definition some_scanner_config : account_type KScannerConfig :=
  ScannerState.mkProtocolConfig (key_of xa1) (key_of xa2) 0 7776000 9900 500000000 1209600 1000 3600 false (key_of xa3)
    (key_of xa4) 255 (zeroes 64).
Definition read_as_vault_config : account_type KVaultConfig :=
  Eval vm_compute in
    match @try_deserialize fips_sha256 _ (account_of KVaultConfig)
            (@try_serialize fips_sha256 _ (account_of KScannerConfig) some_scanner_config ++ []) with
    | Some b => b
    | None => mkVaultConfig [] [] 0 0 0 0 0 0 0 0 false 0 []
    end.

Lemma accounts_never_confused_witness :
  KScannerConfig = KVaultConfig \/ (KScannerConfig = KScannerConfig /\ KVaultConfig = KVaultConfig)
  \/ (KScannerConfig = KVaultConfig /\ KVaultConfig = KScannerConfig).
Proof.
  apply (accounts_never_confused KScannerConfig KVaultConfig some_scanner_config [] read_as_vault_config).
  vm_compute. reflexivity.
Defined.
