(* ===== verification/AmmCpi.v ===== *)
(** * AmmCpi: the vault's two external programs

    [programs/grave-vault/src/cpi/*.rs]: the dispatch on the pool's owner, the
    Raydium V4 withdraw (the instruction it builds, the balances it compares)
    and the Jupiter swap. The programs themselves are the runtime's. *)

From S2P Require Import Prelude Bytes Solana Runtime VaultState.

(** The amount of a token account read from its raw data; [e] is the error the
    three readers map a failed deserialisation to. *)
Definition read_token_amount (e : GraveVaultError) (L : Ledger) (k : Pubkey)
    : result GraveVaultError Z :=
  ok_or (token_amount L k) e.

(** ** remove_liquidity *)

Record RemoveLiquidityInput := mkRemoveLiquidityInput {
  rl_pool : AccountInfo;
  rl_amm_program : Pubkey;
  rl_user_lp_token_account : Pubkey;
  rl_user_owner : Pubkey;
  rl_vault_base_token_account : Pubkey;
  rl_vault_memecoin_token_account : Pubkey;
  rl_lp_mint : Pubkey;
  rl_token_program : Pubkey;
  rl_lp_amount : Z;
  rl_base_is_coin_side : bool;
  rl_remaining_accounts : list AccountMeta;
}.

Record RemoveLiquidityOutput := mkRemoveLiquidityOutput {
  base_received : Z;
  memecoin_received : Z;
}.

(** Indices into the 13 remaining accounts ([ra_idx]). *)
Definition AMM_AUTHORITY : nat := 0.
Definition AMM_OPEN_ORDERS : nat := 1.
Definition AMM_TARGET_ORDERS : nat := 2.
Definition AMM_COIN_VAULT : nat := 3.
Definition AMM_PC_VAULT : nat := 4.
Definition MARKET_PROGRAM : nat := 5.
Definition MARKET : nat := 6.
Definition MARKET_COIN_VAULT : nat := 7.
Definition MARKET_PC_VAULT : nat := 8.
Definition MARKET_VAULT_SIGNER : nat := 9.
Definition MARKET_EVENT_QUEUE : nat := 10.
Definition MARKET_BIDS : nat := 11.
Definition MARKET_ASKS : nat := 12.

(** [remaining_accounts[i].key]; the length is checked before any use. *)
Definition account_at (l : list AccountMeta) (i : nat) : Pubkey :=
  default default_key (am_pubkey <$> l !! i).

(** [AccountMeta::new] and [AccountMeta::new_readonly] *)
Definition meta_new (k : Pubkey) (is_signer : bool) : AccountMeta := mkAccountMeta k is_signer true.
Definition meta_new_readonly (k : Pubkey) (is_signer : bool) : AccountMeta :=
  mkAccountMeta k is_signer false.

Definition user_coin_account (input : RemoveLiquidityInput) : Pubkey :=
  if rl_base_is_coin_side input then rl_vault_base_token_account input
  else rl_vault_memecoin_token_account input.
Definition user_pc_account (input : RemoveLiquidityInput) : Pubkey :=
  if rl_base_is_coin_side input then rl_vault_memecoin_token_account input
  else rl_vault_base_token_account input.

Definition withdraw_metas (input : RemoveLiquidityInput) : list AccountMeta :=
  let ra := account_at (rl_remaining_accounts input) in
  let pool := ai_key (rl_pool input) in
  [ meta_new_readonly (rl_token_program input) false;
    meta_new pool false;
    meta_new_readonly (ra AMM_AUTHORITY) false;
    meta_new (ra AMM_OPEN_ORDERS) false;
    meta_new (ra AMM_TARGET_ORDERS) false;
    meta_new (rl_lp_mint input) false;
    meta_new (ra AMM_COIN_VAULT) false;
    meta_new (ra AMM_PC_VAULT) false;
    meta_new pool false;
    meta_new pool false;
    meta_new_readonly (ra MARKET_PROGRAM) false;
    meta_new (ra MARKET) false;
    meta_new (ra MARKET_COIN_VAULT) false;
    meta_new (ra MARKET_PC_VAULT) false;
    meta_new_readonly (ra MARKET_VAULT_SIGNER) false;
    meta_new (rl_user_lp_token_account input) false;
    meta_new (user_coin_account input) false;
    meta_new (user_pc_account input) false;
    meta_new (rl_user_owner input) true;
    meta_new (ra MARKET_EVENT_QUEUE) false;
    meta_new (ra MARKET_BIDS) false;
    meta_new (ra MARKET_ASKS) false ].

(** [tag || amount]; the optional slippage pair is omitted. *)
Definition withdraw_data (lp_amount : Z) : list byte :=
  RAYDIUM_V4_INSTRUCTION_TAG_WITHDRAW :: le_bytes 8 lp_amount.

Definition withdraw_instruction (input : RemoveLiquidityInput) : Instruction :=
  mkInstruction RAYDIUM_V4_PROGRAM_ID (withdraw_metas input) (withdraw_data (rl_lp_amount input)).

(** The accounts handed to [invoke]. *)
Definition withdraw_account_infos (input : RemoveLiquidityInput) : list Pubkey :=
  let ra := account_at (rl_remaining_accounts input) in
  let pool := ai_key (rl_pool input) in
  [ rl_amm_program input; rl_token_program input; pool; ra AMM_AUTHORITY; ra AMM_OPEN_ORDERS;
    ra AMM_TARGET_ORDERS; rl_lp_mint input; ra AMM_COIN_VAULT; ra AMM_PC_VAULT; pool; pool;
    ra MARKET_PROGRAM; ra MARKET; ra MARKET_COIN_VAULT; ra MARKET_PC_VAULT; ra MARKET_VAULT_SIGNER;
    rl_user_lp_token_account input; user_coin_account input; user_pc_account input;
    rl_user_owner input; ra MARKET_EVENT_QUEUE; ra MARKET_BIDS; ra MARKET_ASKS ].

Definition withdraw_cpi (input : RemoveLiquidityInput) : Cpi :=
  CpiRaw (withdraw_instruction input) (withdraw_account_infos input).

(** ** jupiter::swap *)

Record JupiterSwapInput := mkJupiterSwapInput {
  js_jupiter_program : Pubkey;
  js_vault_authority : Pubkey;
  js_destination_token_account : Pubkey;
  js_route_accounts : list AccountMeta;
  js_route_data : list byte;
}.

(** The vault authority signs wherever it appears; every other flag is the
    caller's. *)
Definition swap_meta (vault_authority : Pubkey) (acct : AccountMeta) : AccountMeta :=
  mkAccountMeta (am_pubkey acct)
    (am_is_signer acct || bool_decide (am_pubkey acct = vault_authority)) (am_is_writable acct).

Definition swap_instruction (input : JupiterSwapInput) : Instruction :=
  mkInstruction JUPITER_V6_PROGRAM_ID
    (map (swap_meta (js_vault_authority input)) (js_route_accounts input)) (js_route_data input).
Definition swap_cpi (input : JupiterSwapInput) : Cpi :=
  CpiRaw (swap_instruction input)
    (js_jupiter_program input :: map am_pubkey (js_route_accounts input)).

Section Cpi.
Context `{Runtime}.

Definition raydium_v4_remove_liquidity (input : RemoveLiquidityInput) (L : Ledger)
    : result vault_error (Ledger * RemoveLiquidityOutput) :=
  require (Nat.eqb (length (rl_remaining_accounts input))
             RAYDIUM_V4_WITHDRAW_REMAINING_ACCOUNTS_REQUIRED) (Program PreflightFailed);;
  require (bool_decide (ai_owner (rl_pool input) = RAYDIUM_V4_PROGRAM_ID)) (Program PreflightFailed);;
  require (bool_decide (rl_amm_program input = RAYDIUM_V4_PROGRAM_ID)) (Program PreflightFailed);;
  require (bool_decide (account_at (rl_remaining_accounts input) AMM_AUTHORITY
             = RAYDIUM_V4_AMM_AUTHORITY)) (Program PreflightFailed);;
  pre_base ← prog (read_token_amount AmmRedemptionFailed L (rl_vault_base_token_account input));
  pre_memecoin ←
    prog (read_token_amount AmmRedemptionFailed L (rl_vault_memecoin_token_account input));
  L' ← call (Program AmmRedemptionFailed) (withdraw_cpi input) L;
  post_base ← prog (read_token_amount AmmRedemptionFailed L' (rl_vault_base_token_account input));
  post_memecoin ←
    prog (read_token_amount AmmRedemptionFailed L' (rl_vault_memecoin_token_account input));
  base ← prog (ok_or (checked_sub_u 64 post_base pre_base) MathOverflow);
  memecoin ← prog (ok_or (checked_sub_u 64 post_memecoin pre_memecoin) MathOverflow);
  require (0 <? base) (Program AmmRedemptionFailed);;
  mret (L', mkRemoveLiquidityOutput base memecoin).

Definition raydium_clmm_remove_liquidity (_ : RemoveLiquidityInput) (_ : Ledger)
    : result vault_error (Ledger * RemoveLiquidityOutput) := Err (Program AmmCpiUnimplemented).
Definition orca_whirlpool_remove_liquidity (_ : RemoveLiquidityInput) (_ : Ledger)
    : result vault_error (Ledger * RemoveLiquidityOutput) := Err (Program AmmCpiUnimplemented).
Definition pump_swap_remove_liquidity (_ : RemoveLiquidityInput) (_ : Ledger)
    : result vault_error (Ledger * RemoveLiquidityOutput) := Err (Program AmmCpiUnimplemented).

Definition dispatch_remove_liquidity (input : RemoveLiquidityInput) (L : Ledger)
    : result vault_error (Ledger * RemoveLiquidityOutput) :=
  let pool_owner := ai_owner (rl_pool input) in
  if bool_decide (pool_owner = RAYDIUM_V4_PROGRAM_ID) then raydium_v4_remove_liquidity input L
  else if bool_decide (pool_owner = RAYDIUM_CLMM_PROGRAM_ID) then raydium_clmm_remove_liquidity input L
  else if bool_decide (pool_owner = ORCA_WHIRLPOOL_PROGRAM_ID) then orca_whirlpool_remove_liquidity input L
  else if bool_decide (pool_owner = PUMP_SWAP_PROGRAM_ID) then pump_swap_remove_liquidity input L
  else Err (Program AmmCpiUnimplemented).

Definition jupiter_swap (input : JupiterSwapInput) (L : Ledger) : result vault_error (Ledger * Z) :=
  require (negb (bool_decide (js_route_data input = []))) (Program JupiterSwapFailed);;
  require (bool_decide (js_jupiter_program input = JUPITER_V6_PROGRAM_ID)) (Program PreflightFailed);;
  pre_balance ← prog (read_token_amount JupiterSwapFailed L (js_destination_token_account input));
  L' ← call (Program JupiterSwapFailed) (swap_cpi input) L;
  post_balance ← prog (read_token_amount JupiterSwapFailed L' (js_destination_token_account input));
  output_amount ← prog (ok_or (checked_sub_u 64 post_balance pre_balance) MathOverflow);
  mret (L', output_amount).
End Cpi.

(** ** The instructions are well formed *)

(** The signers of an instruction are the accounts its metas flag. *)
Lemma elem_of_cpi_signers k ix infos :
  k ∈ cpi_signers (CpiRaw ix infos) <->
  exists m, m ∈ ix_accounts ix /\ am_is_signer m = true /\ am_pubkey m = k.
Proof.
  simpl. rewrite list_elem_of_omap. split.
  - intros (m & ? & Hm). destruct (am_is_signer m) eqn:?; naive_solver.
  - intros (m & ? & Hs & Hk). exists m. rewrite Hs. naive_solver.
Qed.

(** Only the salvor signs a withdraw. *)
Lemma withdraw_signers input : cpi_signers (withdraw_cpi input) = [rl_user_owner input].
Proof. reflexivity. Qed.

(** Every account an instruction names, and its program, is among the accounts
    handed to the runtime. *)
Definition cpi_accounts_provided (c : Cpi) : Prop :=
  match c with
  | CpiRaw ix infos => ix_program_id ix ∈ infos /\ map am_pubkey (ix_accounts ix) ⊆ infos
  | _ => True
  end.

Lemma withdraw_accounts_provided input :
  rl_amm_program input = RAYDIUM_V4_PROGRAM_ID -> cpi_accounts_provided (withdraw_cpi input).
Proof.
  intros Ha. simpl. split.
  - unfold withdraw_account_infos. rewrite Ha. left.
  - unfold withdraw_account_infos. intros k. rewrite !elem_of_cons. naive_solver.
Qed.

Lemma swap_accounts_provided input :
  js_jupiter_program input = JUPITER_V6_PROGRAM_ID -> cpi_accounts_provided (swap_cpi input).
Proof.
  intros Hj. simpl. split.
  - rewrite Hj. left.
  - rewrite map_map. simpl. set_solver.
Qed.

(** A swap is signed by the vault authority and the accounts the outer
    transaction already had as signers, nobody else. *)
Lemma swap_signers input k :
  k ∈ cpi_signers (swap_cpi input) <->
  exists m, m ∈ js_route_accounts input /\ am_pubkey m = k
    /\ (am_is_signer m = true \/ k = js_vault_authority input).
Proof.
  unfold swap_cpi. rewrite elem_of_cpi_signers. simpl. split.
  - intros (m & Hm & Hs & Hk). apply list_elem_of_In, in_map_iff in Hm as (m0 & <- & Hm0).
    simpl in *. apply list_elem_of_In in Hm0. exists m0. apply orb_prop in Hs as [?|Hs]; [auto|].
    apply bool_decide_eq_true in Hs. naive_solver.
  - intros (m & Hm & Hk & Hs). exists (swap_meta (js_vault_authority input) m). split_and!.
    + apply list_elem_of_In, in_map, list_elem_of_In, Hm.
    + simpl. apply orb_true_iff. destruct Hs as [?|Hs]; [by left|right].
      apply bool_decide_eq_true. congruence.
    + done.
Qed.

(** ** What a successful call did *)

Section CpiSpec.
Context `{Runtime}.

Record withdrew (input : RemoveLiquidityInput) (L L' : Ledger) (out : RemoveLiquidityOutput) : Prop := {
  wd_owner : ai_owner (rl_pool input) = RAYDIUM_V4_PROGRAM_ID;
  wd_program : rl_amm_program input = RAYDIUM_V4_PROGRAM_ID;
  wd_count : length (rl_remaining_accounts input) = 13%nat;
  wd_authority : account_at (rl_remaining_accounts input) AMM_AUTHORITY = RAYDIUM_V4_AMM_AUTHORITY;
  wd_invoked : invoke (withdraw_cpi input) L = Some L';
  wd_base : exists pre post,
    token_amount L (rl_vault_base_token_account input) = Some pre
    /\ token_amount L' (rl_vault_base_token_account input) = Some post
    /\ base_received out = post - pre;
  wd_memecoin : exists pre post,
    token_amount L (rl_vault_memecoin_token_account input) = Some pre
    /\ token_amount L' (rl_vault_memecoin_token_account input) = Some post
    /\ memecoin_received out = post - pre;
  wd_base_bound : 0 < base_received out < 2 ^ 64;
  wd_memecoin_bound : is_u64 (memecoin_received out);
}.

Lemma dispatch_iff input L L' out :
  dispatch_remove_liquidity input L = Ok (L', out) <-> withdrew input L L' out.
Proof.
  unfold dispatch_remove_liquidity, raydium_v4_remove_liquidity, read_token_amount, call. split.
  - intros Hd.
    destruct (bool_decide (ai_owner (rl_pool input) = RAYDIUM_V4_PROGRAM_ID)) eqn:Ho;
      [|repeat case_bool_decide; discriminate Hd].
    simpl in Hd. res_inv Hd.
    repeat match goal with
    | Hp : prog _ = Ok _ |- _ => apply (proj1 (prog_Ok _ _)) in Hp; res_inv Hp
    end.
    bool_simpl. rewrite Nat.eqb_eq in *. checked_inv.
    constructor; simpl; eauto 10. unfold is_u in *. lia.
  - intros [Ho Hp Hn Ha Hi (pb & qb & Hb1 & Hb2 & Hb) (pm & qm & Hm1 & Hm2 & Hm) Hbb Hmb].
    rewrite bool_decide_true by done. rewrite Hn, !bool_decide_true by done. simpl.
    rewrite Hb1, Hm1, Hi. simpl. rewrite Hb2, Hm2. simpl. rewrite Hb in Hbb. rewrite Hm in Hmb.
    rewrite (proj2 (checked_sub_u_Some 64 qb pb _)) by (split; [done|unfold is_u; lia]).
    rewrite (proj2 (checked_sub_u_Some 64 qm pm _)) by done. simpl.
    rewrite (proj2 (Z.ltb_lt _ _)) by lia. simpl. destruct out; simpl in *. by subst.
Qed.

Lemma dispatch_remove_liquidity_run input L L' out :
  dispatch_remove_liquidity input L = Ok (L', out) -> invoke (withdraw_cpi input) L = Some L'.
Proof. intros Hd%dispatch_iff. apply Hd. Qed.

(** [dispatch_remove_liquidity] succeeds exactly when the pool and the
    supplied program are Raydium V4's, thirteen pool accounts are supplied
    with the V4 authority first, the runtime accepts the withdraw instruction
    and both vault balances can be read and did not fall, the base balance
    having risen; the result is the two balance deltas. Every other pool owner
    is refused before any invocation. *)
Theorem dispatch_remove_liquidity_spec input L L' out :
  dispatch_remove_liquidity input L = Ok (L', out) <-> withdrew input L L' out.
Proof. apply dispatch_iff. Qed.

Lemma jupiter_swap_Ok input L L' n :
  jupiter_swap input L = Ok (L', n) ->
  js_route_data input <> [] /\ js_jupiter_program input = JUPITER_V6_PROGRAM_ID
  /\ invoke (swap_cpi input) L = Some L'
  /\ (exists pre post, token_amount L (js_destination_token_account input) = Some pre
        /\ token_amount L' (js_destination_token_account input) = Some post
        /\ n = post - pre)
  /\ is_u64 n.
Proof.
  unfold jupiter_swap, read_token_amount, call. intros Hd. res_inv Hd.
  repeat match goal with
  | Hp : prog _ = Ok _ |- _ => apply (proj1 (prog_Ok _ _)) in Hp; res_inv Hp
  end.
  bool_simpl. checked_inv. split_and!; eauto 10.
Qed.
End CpiSpec.
