(* ===== verification/Salvage.v ===== *)
(** * Salvage: salvage_pool

    [programs/grave-vault/src/instructions/salvage_pool.rs]: the account
    constraints, the pre-flight checks, the withdraw, the vetted and floored
    conversion swap, the unwrap, the split and the three payments, the registry
    and the receipt. *)

From S2P Require Import Prelude Bytes Solana ScannerState Runtime VaultState AmmCpi.

(** What the transaction supplies besides the vault's own PDAs. [sx_certs] are
    the scanner's certificates; a mint account is its address and supply; the
    remaining accounts carry the flags of the outer transaction. *)
Record SalvageCtx := mkSalvageCtx {
  sx_clock : option Clock;
  sx_certs : gmap PoolKey EligibilityCert;
  sx_salvor : Pubkey;
  sx_pool : AccountInfo;
  sx_amm_program : AccountInfo;
  sx_jupiter_program : Pubkey;
  sx_salvor_lp_token_account : Pubkey;
  sx_lp_mint : Pubkey;
  sx_lp_mint_supply : Z;              (* u64 *)
  sx_memecoin_mint : Pubkey;
  sx_wsol_mint : Pubkey;
  sx_remaining_accounts : list AccountMeta;
}.

(** ** Pure helpers *)

Definition mint_at (data : list byte) (off : Z) : Pubkey := slice (Z.to_nat off) 32 data.

Definition derive_pool_orientation (pool : AccountInfo) : result GraveVaultError (bool * Pubkey * Pubkey) :=
  let data := ai_data pool in
  require (len_Z data =? RAYDIUM_V4_AMM_INFO_SIZE) PreflightFailed;;
  let coin_mint := mint_at data RAYDIUM_V4_OFF_COIN_MINT in
  let pc_mint := mint_at data RAYDIUM_V4_OFF_PC_MINT in
  let lp_mint := mint_at data RAYDIUM_V4_OFF_LP_MINT in
  base_is_coin_side ←
    (if bool_decide (coin_mint = WSOL_MINT) && negb (bool_decide (pc_mint = WSOL_MINT)) then mret true
     else if bool_decide (pc_mint = WSOL_MINT) && negb (bool_decide (coin_mint = WSOL_MINT)) then mret false
     else Err UnsupportedBaseToken);
  mret (base_is_coin_side, if (base_is_coin_side : bool) then pc_mint else coin_mint, lp_mint).

Definition effective_slippage_cap_bps (config_bps : Z) (override_bps : option Z) : Z :=
  let cap := Z.min config_bps HARD_MAX_SLIPPAGE_BPS in
  match override_bps with
  | Some o => Z.min cap o
  | None => cap
  end.

(** [(total as u128 * bps / 10_000) as u64] *)
Definition bps_share (total bps : Z) : result GraveVaultError Z :=
  scaled ← ok_or (checked_mul_u 128 total bps) MathOverflow;
  share ← ok_or (checked_div_u scaled BPS_DENOMINATOR) MathOverflow;
  mret (cast_u 64 share).

(** Returns [(salvor_share, lp_holder_share, protocol_share)]. *)
Definition split_proceeds (total salvor_share_bps lp_holder_share_bps : Z)
    : result GraveVaultError (Z * Z * Z) :=
  salvor ← bps_share total salvor_share_bps;
  lp ← bps_share total lp_holder_share_bps;
  protocol ← ok_or (x ← checked_sub_u 64 total salvor; checked_sub_u 64 x lp) MathOverflow;
  mret (salvor, lp, protocol).

(** The lowest floor a salvor may submit: the conversion the pool's reserves
    imply, less the cap. *)
Definition slippage_floor (memecoin_received wsol_reserve memecoin_reserve cap_bps : Z)
    : result GraveVaultError Z :=
  require (0 <? memecoin_reserve) MathOverflow;;
  scaled ← ok_or (checked_mul_u 128 memecoin_received wsol_reserve) MathOverflow;
  implied_wsol_out ← ok_or (checked_div_u scaled memecoin_reserve) MathOverflow;
  kept ← ok_or (checked_mul_u 128 implied_wsol_out (saturating_sub_u BPS_DENOMINATOR cap_bps))
    MathOverflow;
  ok_or (checked_div_u kept BPS_DENOMINATOR) MathOverflow.

(** The sum of the shares, re-checked on the settlement path. *)
Definition check_shares (cfg : ProtocolConfig) : result GraveVaultError unit :=
  share_sum ← ok_or
    (s ← checked_add_u 16 (lp_holder_share_bps cfg) (salvor_share_bps cfg);
     checked_add_u 16 s (protocol_share_bps cfg)) MathOverflow;
  require (share_sum =? BPS_DENOMINATOR) InvalidShareSplit;;
  require (protocol_share_bps cfg <=? PROTOCOL_SHARE_BPS_CEILING) ProtocolShareExceedsCeiling.

Section Salvage.
Context `{PdaDerivation, Runtime}.

(** ** Account constraints *)

(** [token::mint = mint, token::authority = authority] *)
Definition token_constraint (mint authority : Pubkey) (o : option TokenAcc) : result vault_error unit :=
  t ← vload o;
  require (bool_decide (ta_mint t = mint) && bool_decide (ta_owner t = authority))
    (Framework ConstraintToken).

(** [init_if_needed] of an associated token account. *)
Definition init_ata (authority mint : Pubkey) (L : Ledger) : result vault_error Ledger :=
  let ata := associated_token authority mint in
  match lg_tokens L !! ata with
  | Some t => token_constraint mint authority (Some t);; mret L
  | None => mret (set_token ata (mkTokenAcc mint authority 0) L)
  end.

Definition lazy_init_system_pda (pda payer : Pubkey) (L : Ledger) : result vault_error Ledger :=
  if 0 <? lamports L pda then mret L
  else call (Framework CpiFailed) (CpiCreateAccount payer pda rent_minimum 0 default_key) L.

Definition transfer_from_vault_sol_holding (source to : Pubkey) (amount : Z) (L : Ledger)
    : result vault_error Ledger :=
  if amount =? 0 then mret L
  else call (Program MathOverflow) (CpiTransfer source to amount) L.

Definition base_ata : Pubkey := associated_token vault_authority WSOL_MINT.
Definition memecoin_ata (ctx : SalvageCtx) : Pubkey :=
  associated_token vault_authority (sx_memecoin_mint ctx).

(** The constraints of [SalvagePool], with the accounts they load. *)
Definition salvage_accounts (ctx : SalvageCtx) (params : SalvagePoolParams) (st : VaultState)
    : result vault_error (ProtocolConfig * EligibilityCert * Ledger) :=
  cfg ← vload (vs_config st);
  cert ← vload (sx_certs ctx !! (sp_amm_program_id params, sp_pool_address params));
  vinit (vs_registries st !! sp_pool_address params);;
  vinit (vs_receipts st !! sp_pool_address params);;
  require (bool_decide (sx_jupiter_program ctx = JUPITER_V6_PROGRAM_ID)) (Framework ConstraintAddress);;
  token_constraint (sx_lp_mint ctx) (sx_salvor ctx)
    (lg_tokens (vs_ledger st) !! sx_salvor_lp_token_account ctx);;
  require (bool_decide (sx_wsol_mint ctx = WSOL_MINT)) (Framework ConstraintAddress);;
  L1 ← init_ata vault_authority WSOL_MINT (vs_ledger st);
  L2 ← init_ata vault_authority (sx_memecoin_mint ctx) L1;
  mret (cfg, cert, L2).

(** ** Pre-flight *)

Definition preflight (ctx : SalvageCtx) (params : SalvagePoolParams) (cfg : ProtocolConfig)
    (cert : EligibilityCert) (clock : Clock) : result GraveVaultError unit :=
  require (negb (emergency_paused cfg)) ProtocolPaused;;
  require (negb (is_expired cert (clock_unix_timestamp clock))) EligibilityCertExpired;;
  require (cert_criteria_bitmap cert =? ALL_CRITERIA_MASK) InvalidEligibilityCert;;
  require (bool_decide (cert_amm_program_id cert = sp_amm_program_id params)) InvalidEligibilityCert;;
  require (bool_decide (cert_pool_address cert = sp_pool_address params)) InvalidEligibilityCert;;
  require (bool_decide (ai_key (sx_pool ctx) = sp_pool_address params)) PreflightFailed;;
  require (ai_executable (sx_amm_program ctx)) PreflightFailed;;
  require (bool_decide (ai_key (sx_amm_program ctx) = ai_owner (sx_pool ctx))) PreflightFailed.

(** Orientation, mint binding, snapshot supply, LP amount, account count. *)
Definition bind_pool (ctx : SalvageCtx) (params : SalvagePoolParams) : result GraveVaultError bool :=
  '(base_is_coin_side, pool_memecoin_mint, pool_lp_mint) ←
    (if bool_decide (ai_owner (sx_pool ctx) = RAYDIUM_V4_PROGRAM_ID)
     then derive_pool_orientation (sx_pool ctx)
     else mret (true, sx_memecoin_mint ctx, sx_lp_mint ctx));
  require (bool_decide (sx_memecoin_mint ctx = pool_memecoin_mint)) PreflightFailed;;
  require (bool_decide (sx_lp_mint ctx = pool_lp_mint)) PreflightFailed;;
  require (sx_lp_mint_supply ctx =? sp_lp_total_supply_at_snapshot params) InvalidSnapshotData;;
  require (0 <? sp_salvor_lp_amount params) PreflightFailed;;
  require (len_Z (sx_remaining_accounts ctx)
             =? Z.of_nat RAYDIUM_V4_WITHDRAW_REMAINING_ACCOUNTS_REQUIRED
                + sp_jupiter_route_accounts_len params) PreflightFailed;;
  mret base_is_coin_side.

Definition raydium_remaining (ctx : SalvageCtx) : list AccountMeta :=
  take RAYDIUM_V4_WITHDRAW_REMAINING_ACCOUNTS_REQUIRED (sx_remaining_accounts ctx).
Definition jupiter_remaining (ctx : SalvageCtx) : list AccountMeta :=
  drop RAYDIUM_V4_WITHDRAW_REMAINING_ACCOUNTS_REQUIRED (sx_remaining_accounts ctx).

Definition removal_input (ctx : SalvageCtx) (params : SalvagePoolParams) (base_is_coin_side : bool)
    : RemoveLiquidityInput :=
  mkRemoveLiquidityInput (sx_pool ctx) (ai_key (sx_amm_program ctx))
    (sx_salvor_lp_token_account ctx) (sx_salvor ctx) base_ata (memecoin_ata ctx)
    (sx_lp_mint ctx) SPL_TOKEN_ID (sp_salvor_lp_amount params) base_is_coin_side
    (raydium_remaining ctx).

(** ** The conversion leg *)

(** The accounts a route may not name. *)
Definition forbidden_keys (ctx : SalvageCtx) (params : SalvagePoolParams) : list Pubkey :=
  let pool := sp_pool_address params in
  [ registry_address pool; receipt_address pool; lp_holder_pool_vault pool; protocol_treasury;
    vault_sol_holding_account pool; config_address; cert_address (sp_amm_program_id params) pool;
    sx_salvor ctx; sx_salvor_lp_token_account ctx ].

Definition vet_route (ctx : SalvageCtx) (params : SalvagePoolParams) : result GraveVaultError unit :=
  let route := map am_pubkey (jupiter_remaining ctx) in
  foldM (fun _ k => foldM (fun _ bad => require (negb (bool_decide (k = bad))) PreflightFailed) tt
                      (forbidden_keys ctx params)) tt route;;
  require (existsb (fun k => bool_decide (k = base_ata)) route) PreflightFailed.

Definition min_floor (ctx : SalvageCtx) (params : SalvagePoolParams) (cfg : ProtocolConfig)
    (base_is_coin_side : bool) (removal : RemoveLiquidityOutput) (L : Ledger)
    : result GraveVaultError Z :=
  let cap := effective_slippage_cap_bps (max_slippage_bps cfg) (sp_max_slippage_bps_override params) in
  coin ← read_token_amount PreflightFailed L (account_at (raydium_remaining ctx) AMM_COIN_VAULT);
  pc ← read_token_amount PreflightFailed L (account_at (raydium_remaining ctx) AMM_PC_VAULT);
  let '(wsol_reserve, memecoin_reserve) := if base_is_coin_side then (coin, pc) else (pc, coin) in
  slippage_floor (memecoin_received removal) wsol_reserve memecoin_reserve cap.

Definition swap_input (ctx : SalvageCtx) (params : SalvagePoolParams) : JupiterSwapInput :=
  mkJupiterSwapInput (sx_jupiter_program ctx) vault_authority base_ata (jupiter_remaining ctx)
    (sp_jupiter_route_data params).

Definition conversion_leg (ctx : SalvageCtx) (params : SalvagePoolParams) (cfg : ProtocolConfig)
    (base_is_coin_side : bool) (removal : RemoveLiquidityOutput) (L : Ledger)
    : result vault_error Ledger :=
  if jupiter_dust_threshold_lamports cfg <=? memecoin_received removal then
    prog (vet_route ctx params);;
    floor ← prog (min_floor ctx params cfg base_is_coin_side removal L);
    require (floor <=? sp_min_quote_output_lamports params) (Program SlippageExceeded);;
    '(L', _) ← jupiter_swap (swap_input ctx params) L;
    amount ← vload (token_amount L' base_ata);
    swap_only_output ← prog (ok_or (checked_sub_u 64 amount (base_received removal)) MathOverflow);
    require (sp_min_quote_output_lamports params <=? swap_only_output) (Program SlippageExceeded);;
    mret L'
  else mret L.

(** ** Unwrap and settlement *)

(** Closes the WSOL account into the holding PDA; returns its balance. *)
Definition unwrap_wsol (params : SalvagePoolParams) (L : Ledger) : result vault_error (Z * Ledger) :=
  total_recovered_wsol ← vload (token_amount L base_ata);
  require (0 <? total_recovered_wsol) (Program AmmRedemptionFailed);;
  L' ← call (Framework CpiFailed)
    (CpiTokenClose base_ata (vault_sol_holding_account (sp_pool_address params)) vault_authority) L;
  mret (total_recovered_wsol, L').

Definition pay_shares (pool salvor : Pubkey) (salvor_share lp_holder_share protocol_share : Z)
    (L : Ledger) : result vault_error Ledger :=
  let holding := vault_sol_holding_account pool in
  L1 ← transfer_from_vault_sol_holding holding salvor salvor_share L;
  L2 ← transfer_from_vault_sol_holding holding (lp_holder_pool_vault pool) lp_holder_share L1;
  transfer_from_vault_sol_holding holding protocol_treasury protocol_share L2.

Definition new_registry (ctx : SalvageCtx) (params : SalvagePoolParams) (clock : Clock)
    (lp_holder_share : Z) : PoolRegistry := {|
  reg_amm_program_id := sp_amm_program_id params;
  reg_pool_address := sp_pool_address params;
  reg_salvor := sx_salvor ctx;
  lp_snapshot_merkle_root := sp_lp_snapshot_merkle_root params;
  lp_total_supply_at_snapshot := sp_lp_total_supply_at_snapshot params;
  lp_holder_pool_total_lamports := lp_holder_share;
  lp_holder_pool_claimed_lamports := 0;
  salvaged_at_slot := clock_slot clock;
  salvaged_at_ts := clock_unix_timestamp clock;
  reg_bump := vault_bump [POOL_REGISTRY_SEED; sp_pool_address params];
  reg_reserved := zeroes 64;
|}.

Definition new_receipt (ctx : SalvageCtx) (params : SalvagePoolParams) (clock : Clock)
    (salvor_share lp_holder_share protocol_share total dust : Z) : SalvageReceipt := {|
  rcpt_pool_address := sp_pool_address params;
  rcpt_salvor := sx_salvor ctx;
  lp_holder_amount_lamports := lp_holder_share;
  salvor_amount_lamports := salvor_share;
  protocol_amount_lamports := protocol_share;
  total_proceeds_lamports := total;
  issued_at_slot := clock_slot clock;
  issued_at_ts := clock_unix_timestamp clock;
  rcpt_memecoin_mint := sx_memecoin_mint ctx;
  dust_memecoin_lamports := dust;
  dust_swept_at_ts := 0;
  rcpt_bump := vault_bump [SALVAGE_RECEIPT_SEED; sp_pool_address params];
  rcpt_reserved := zeroes 32;
|}.

Definition salvage_pool (ctx : SalvageCtx) (params : SalvagePoolParams) (st : VaultState)
    : vault_outcome :=
  let pool := sp_pool_address params in
  '(cfg, cert, L0) ← salvage_accounts ctx params st;
  clock ← vclock (sx_clock ctx);
  prog (preflight ctx params cfg cert clock);;
  L1 ← lazy_init_system_pda (lp_holder_pool_vault pool) (sx_salvor ctx) L0;
  L2 ← lazy_init_system_pda (vault_sol_holding_account pool) (sx_salvor ctx) L1;
  base_is_coin_side ← prog (bind_pool ctx params);
  '(L3, removal) ← dispatch_remove_liquidity (removal_input ctx params base_is_coin_side) L2;
  L4 ← conversion_leg ctx params cfg base_is_coin_side removal L3;
  '(total, L5) ← unwrap_wsol params L4;
  prog (check_shares cfg);;
  '(salvor_share, lp_holder_share, protocol_share) ←
    prog (split_proceeds total (salvor_share_bps cfg) (lp_holder_share_bps cfg));
  L6 ← pay_shares pool (sx_salvor ctx) salvor_share lp_holder_share protocol_share L5;
  dust ← vload (token_amount L6 (memecoin_ata ctx));
  mret
    (set_receipt pool
       (new_receipt ctx params clock salvor_share lp_holder_share protocol_share total dust)
       (set_registry pool (new_registry ctx params clock lp_holder_share) (set_ledger L6 st)),
     [ PoolSalvaged (sp_amm_program_id params) pool (sx_salvor ctx)
         lp_holder_share salvor_share protocol_share;
       SalvageCompleted pool (sx_salvor ctx) total ]).
End Salvage.
