(* ===== verification/SalvageSpec.v ===== *)
(** * SalvageSpec: what salvage_pool guarantees

    The arithmetic of the settlement, the admission conditions, the vetting and
    flooring of the conversion, the exact payments, and the effect of a salvage
    on the unsweepable LP-holder accounts of every pool. *)

From S2P Require Import Prelude Bytes Solana ScannerState Runtime VaultState AmmCpi Salvage.

(** Inverts every lifted result and guard of a successful handler. *)
Ltac vault_inv H :=
  res_inv H;
  repeat match goal with
  | Hp : prog _ = Ok _ |- _ => apply (proj1 (prog_Ok _ _)) in Hp; res_inv Hp
  | Hp : vload _ = Ok _ |- _ => apply (proj1 (ok_or_Ok _ _ _)) in Hp
  | Hp : vclock _ = Ok _ |- _ => apply (proj1 (ok_or_Ok _ _ _)) in Hp
  | Hp : call _ _ _ = Ok _ |- _ => apply (proj1 (ok_or_Ok _ _ _)) in Hp
  | Hp : vinit _ = Ok _ |- _ => apply (proj1 (vinit_Ok _ _)) in Hp
  end.

(** ** The split *)

Section Split.
Implicit Types total bps : Z.

Lemma bps_share_Ok total bps :
  is_u64 total -> 0 <= bps <= 10000 -> bps_share total bps = Ok (total * bps / 10000).
Proof.
  intros Ht Hb. unfold bps_share, checked_mul_u, checked_div_u, BPS_DENOMINATOR.
  assert (Hm : is_u128 (total * bps)) by (unfold_ints; nia).
  rewrite (proj2 (in_u_spec 128 _) Hm). cbn [mbind result_bind ok_or].
  change (10000 =? 0) with false. cbn [mbind result_bind ok_or mret result_ret].
  f_equal. apply cast_u_small. unfold_ints. split; [apply Z.div_pos; nia|].
  apply Z.div_lt_upper_bound; nia.
Qed.

Lemma share_le total bps :
  0 <= total -> 0 <= bps <= 10000 -> 0 <= total * bps / 10000 <= total.
Proof.
  intros. split; [apply Z.div_pos; nia|]. apply Z.div_le_upper_bound; nia.
Qed.

Lemma split_conserves total s l p :
  is_u64 total -> 0 <= s -> 0 <= l -> 0 <= p -> s + l + p = BPS_DENOMINATOR ->
  exists protocol,
    split_proceeds total s l =
      Ok (total * s / BPS_DENOMINATOR, total * l / BPS_DENOMINATOR, protocol)
    /\ total * s / BPS_DENOMINATOR + total * l / BPS_DENOMINATOR + protocol = total
    /\ 0 <= protocol
    /\ total * p <= BPS_DENOMINATOR * protocol < total * p + 2 * BPS_DENOMINATOR.
Proof.
  unfold BPS_DENOMINATOR. intros Ht Hs Hl Hp Hsum.
  exists (total - total * s / 10000 - total * l / 10000).
  assert (Hs' := Z.mul_div_le (total * s) 10000 ltac:(lia)).
  assert (Hl' := Z.mul_div_le (total * l) 10000 ltac:(lia)).
  assert (Hs2 := Z.mod_pos_bound (total * s) 10000 ltac:(lia)).
  assert (Hl2 := Z.mod_pos_bound (total * l) 10000 ltac:(lia)).
  rewrite (Z.mod_eq (total * s)) in Hs2 by lia. rewrite (Z.mod_eq (total * l)) in Hl2 by lia.
  assert (Hs3 := share_le total s ltac:(apply Ht) ltac:(lia)).
  assert (Hl3 := share_le total l ltac:(apply Ht) ltac:(lia)).
  assert (Hp3 : 0 <= total * p) by (unfold_ints; nia).
  assert (Hdist : total * s + total * l + total * p = 10000 * total) by (rewrite <- !Z.mul_add_distr_l, Hsum; lia).
  split_and!; [|lia..].
  unfold split_proceeds. rewrite !bps_share_Ok by (done || lia). cbn [mbind result_bind].
  unfold checked_sub_u at 2.
  rewrite (proj2 (in_u_spec 64 _)) by (unfold_ints; lia). cbn [mbind option_bind].
  unfold checked_sub_u. rewrite (proj2 (in_u_spec 64 _)) by (unfold_ints; lia). done.
Qed.

(** C34. The settlement split is total on every valid share configuration and
    loses nothing: the salvor and the LP holders get the floor of their basis
    points of the proceeds, the protocol gets the rest, the three parts add up
    to the proceeds, and the rounding that accrues to the protocol is less than
    two lamports over its nominal share (and never under it). *)
Theorem split_proceeds_conserves total s l p :
  is_u64 total -> 0 <= s -> 0 <= l -> 0 <= p -> s + l + p = BPS_DENOMINATOR ->
  exists protocol,
    split_proceeds total s l =
      Ok (total * s / BPS_DENOMINATOR, total * l / BPS_DENOMINATOR, protocol)
    /\ total * s / BPS_DENOMINATOR + total * l / BPS_DENOMINATOR + protocol = total
    /\ 0 <= protocol
    /\ total * p <= BPS_DENOMINATOR * protocol < total * p + 2 * BPS_DENOMINATOR.
Proof. apply split_conserves. Qed.

Lemma split_proceeds_conserves_witness :
  exists protocol,
    split_proceeds 1000003 4000 4000 = Ok (400001, 400001, protocol)
    /\ 400001 + 400001 + protocol = 1000003
    /\ 0 <= protocol
    /\ 1000003 * 2000 <= 10000 * protocol < 1000003 * 2000 + 2 * 10000.
Proof.
  apply (split_proceeds_conserves 1000003 4000 4000 2000); [in_range|done..].
Defined.

(** A split never succeeds with parts that do not add up. *)
Lemma split_proceeds_sum total s l a b c :
  split_proceeds total s l = Ok (a, b, c) -> a + b + c = total /\ 0 <= a /\ 0 <= b /\ 0 <= c.
Proof.
  unfold split_proceeds, bps_share. intros H. res_inv H.
  match goal with Hb : _ ≫= _ = Some _ |- _ => apply bind_Some in Hb as (x & Hx & Hc) end.
  checked_inv.
  unfold is_u, cast_u in *. split; [lia|].
  split_and!; try (apply Z.mod_pos_bound; lia); lia.
Qed.
End Split.

(** ** The slippage floor *)

Lemma effective_slippage_cap_bounds config_bps o :
  0 <= config_bps -> (forall v, o = Some v -> 0 <= v) ->
  0 <= effective_slippage_cap_bps config_bps o <= HARD_MAX_SLIPPAGE_BPS
  /\ effective_slippage_cap_bps config_bps o <= config_bps
  /\ (forall v, o = Some v -> effective_slippage_cap_bps config_bps o <= v).
Proof.
  unfold effective_slippage_cap_bps, HARD_MAX_SLIPPAGE_BPS.
  intros Hc Ho. destruct o as [v|]; [specialize (Ho v eq_refl)|]; split_and!; try lia; naive_solver lia.
Qed.

(** The floor a salvor must meet: with [cap] the smallest of the
    configured maximum, the hard 10% ceiling and the salvor's own override, it
    is the pool-implied conversion [memecoin * wsol / reserve] (rounded down)
    less [cap] basis points (rounded down). So the floor is at least nine
    tenths of the implied conversion whatever the configuration says, is never
    above it. The computation fails only on an empty memecoin reserve or when
    the implied conversion is itself beyond [2^114]. *)
Theorem slippage_floor_bounds memecoin wsol reserve config_bps o :
  is_u64 memecoin -> is_u64 wsol -> is_u64 reserve -> is_u16 config_bps ->
  (forall v, o = Some v -> is_u16 v) ->
  match slippage_floor memecoin wsol reserve (effective_slippage_cap_bps config_bps o) with
  | Ok floor =>
      0 < reserve
      /\ floor = (memecoin * wsol / reserve)
                 * (BPS_DENOMINATOR - effective_slippage_cap_bps config_bps o) / BPS_DENOMINATOR
      /\ 9 * (memecoin * wsol / reserve) < 10 * (floor + 1)
      /\ 0 <= floor <= memecoin * wsol / reserve
  | Err e => e = MathOverflow /\ (reserve = 0 \/ 2 ^ 114 < memecoin * wsol / reserve)
  end.
Proof.
  intros Hm Hw Hr Hc Ho.
  destruct (effective_slippage_cap_bounds config_bps o) as [Hcap _]; [unfold_ints; lia| |].
  { intros v Hv. specialize (Ho v Hv). unfold_ints. lia. }
  set (cap := effective_slippage_cap_bps config_bps o) in *.
  unfold slippage_floor, HARD_MAX_SLIPPAGE_BPS, BPS_DENOMINATOR in *.
  destruct (0 <? reserve) eqn:Hpos; simpl; [|split; [done|left]; bool_simpl; unfold_ints; lia].
  bool_simpl. unfold checked_mul_u, checked_div_u.
  rewrite (proj2 (in_u_spec 128 _)) by (unfold_ints; nia). cbn [mbind result_bind ok_or].
  rewrite (proj2 (Z.eqb_neq reserve 0)) by lia. cbn [mbind result_bind ok_or].
  assert (Himp : 0 <= memecoin * wsol / reserve <= memecoin * wsol).
  { split; [apply Z.div_pos; unfold_ints; nia|]. apply Z.div_le_upper_bound; unfold_ints; nia. }
  set (implied := memecoin * wsol / reserve) in *.
  assert (Hk : saturating_sub_u 10000 cap = 10000 - cap) by (unfold saturating_sub_u; lia).
  rewrite Hk.
  assert (Hb : implied * (10000 - cap) <= implied * 10000) by (apply Z.mul_le_mono_nonneg_l; lia).
  destruct (in_u 128 (implied * (10000 - cap))) eqn:Hin; cbn [mbind result_bind ok_or].
  - assert (Hf : 10000 * (implied * (10000 - cap) / 10000) <= implied * (10000 - cap))
      by (apply Z.mul_div_le; lia).
    assert (Hg := Z.mod_pos_bound (implied * (10000 - cap)) 10000 ltac:(lia)).
    rewrite Z.mod_eq in Hg by lia.
    assert (Hn : implied * 9000 <= implied * (10000 - cap)) by (apply Z.mul_le_mono_nonneg_l; lia).
    split_and!; lia.
  - split; [done|right]. apply not_true_iff_false in Hin. rewrite in_u_spec in Hin.
    assert (0 <= implied * (10000 - cap)) by (apply Z.mul_nonneg_nonneg; lia).
    unfold_ints. lia.
Qed.

Lemma slippage_floor_bounds_witness :
  0 < 1000 /\ 970 = 10 * 100000 / 1000 * (10000 - 300) / 10000
  /\ 9 * (10 * 100000 / 1000) < 10 * (970 + 1) /\ 0 <= 970 <= 10 * 100000 / 1000.
Proof.
  apply (slippage_floor_bounds 10 100000 1000 300 None); [in_range..|done].
Defined.


(** ** Orientation *)

Lemma orientation_eq pool :
  let coin := slice 400 32 (ai_data pool) in
  let pc := slice 432 32 (ai_data pool) in
  let lp := slice 464 32 (ai_data pool) in
  derive_pool_orientation pool =
    if negb (len_Z (ai_data pool) =? 752) then Err PreflightFailed
    else match decide (coin = WSOL_MINT), decide (pc = WSOL_MINT) with
         | left _, right _ => Ok (true, pc, lp)
         | right _, left _ => Ok (false, coin, lp)
         | _, _ => Err UnsupportedBaseToken
         end.
Proof.
  intros coin pc lp. unfold derive_pool_orientation.
  change (mint_at (ai_data pool) RAYDIUM_V4_OFF_COIN_MINT) with coin.
  change (mint_at (ai_data pool) RAYDIUM_V4_OFF_PC_MINT) with pc.
  change (mint_at (ai_data pool) RAYDIUM_V4_OFF_LP_MINT) with lp.
  unfold RAYDIUM_V4_AMM_INFO_SIZE. destruct (len_Z (ai_data pool) =? 752); [|done].
  cbn [require negb mbind result_bind].
  destruct (decide (coin = WSOL_MINT)) as [Hc|Hc], (decide (pc = WSOL_MINT)) as [Hp|Hp].
  - rewrite !(bool_decide_true _ Hc), !(bool_decide_true _ Hp). done.
  - rewrite !(bool_decide_true _ Hc), !(bool_decide_false _ Hp). done.
  - rewrite !(bool_decide_false _ Hc), !(bool_decide_true _ Hp). done.
  - rewrite !(bool_decide_false _ Hc), !(bool_decide_false _ Hp). done.
Qed.

(** The pool's own bytes decide the orientation: a 752-byte account with
    exactly one WSOL side yields which side it is, the other side's mint as the
    memecoin and the LP mint; any other size is refused with
    [PreflightFailed], two or no WSOL sides with [UnsupportedBaseToken]. *)
Theorem derive_pool_orientation_spec pool :
  let coin := slice 400 32 (ai_data pool) in
  let pc := slice 432 32 (ai_data pool) in
  let lp := slice 464 32 (ai_data pool) in
  derive_pool_orientation pool =
    if negb (len_Z (ai_data pool) =? 752) then Err PreflightFailed
    else match decide (coin = WSOL_MINT), decide (pc = WSOL_MINT) with
         | left _, right _ => Ok (true, pc, lp)
         | right _, left _ => Ok (false, coin, lp)
         | _, _ => Err UnsupportedBaseToken
         end.
Proof. apply orientation_eq. Qed.

(** ** The trace of a successful salvage *)

Record salvage_trace := mkSalvageTrace {
  tr_cfg : ProtocolConfig;
  tr_cert : EligibilityCert;
  tr_clock : Clock;
  tr_funded : Ledger;           (* after the account constraints *)
  tr_lp_init : Ledger;          (* after the first lazy init *)
  tr_ready : Ledger;            (* after the second *)
  tr_base_is_coin_side : bool;
  tr_removed : Ledger;          (* after the withdraw *)
  tr_removal : RemoveLiquidityOutput;
  tr_converted : Ledger;        (* after the conversion leg *)
  tr_total : Z;
  tr_unwrapped : Ledger;        (* after the WSOL account is closed *)
  tr_salvor_share : Z;
  tr_lp_share : Z;
  tr_protocol_share : Z;
  tr_paid : Ledger;             (* after the three payments *)
  tr_dust : Z;
}.

Section Trace.
Context `{PdaDerivation, Runtime}.
Implicit Types (ctx : SalvageCtx) (params : SalvagePoolParams) (st : VaultState).

Record traced ctx params st (t : salvage_trace) : Prop := {
  tf_accounts : salvage_accounts ctx params st = Ok (tr_cfg t, tr_cert t, tr_funded t);
  tf_clock : sx_clock ctx = Some (tr_clock t);
  tf_preflight : preflight ctx params (tr_cfg t) (tr_cert t) (tr_clock t) = Ok tt;
  tf_lp_init : lazy_init_system_pda (lp_holder_pool_vault (sp_pool_address params))
    (sx_salvor ctx) (tr_funded t) = Ok (tr_lp_init t);
  tf_ready : lazy_init_system_pda (vault_sol_holding_account (sp_pool_address params))
    (sx_salvor ctx) (tr_lp_init t) = Ok (tr_ready t);
  tf_bound : bind_pool ctx params = Ok (tr_base_is_coin_side t);
  tf_removed : dispatch_remove_liquidity (removal_input ctx params (tr_base_is_coin_side t))
    (tr_ready t) = Ok (tr_removed t, tr_removal t);
  tf_converted : conversion_leg ctx params (tr_cfg t) (tr_base_is_coin_side t) (tr_removal t)
    (tr_removed t) = Ok (tr_converted t);
  tf_unwrapped : unwrap_wsol params (tr_converted t) = Ok (tr_total t, tr_unwrapped t);
  tf_shares : check_shares (tr_cfg t) = Ok tt;
  tf_split : split_proceeds (tr_total t) (salvor_share_bps (tr_cfg t)) (lp_holder_share_bps (tr_cfg t))
    = Ok (tr_salvor_share t, tr_lp_share t, tr_protocol_share t);
  tf_paid : pay_shares (sp_pool_address params) (sx_salvor ctx) (tr_salvor_share t) (tr_lp_share t)
    (tr_protocol_share t) (tr_unwrapped t) = Ok (tr_paid t);
  tf_dust : token_amount (tr_paid t) (memecoin_ata ctx) = Some (tr_dust t);
}.

Definition trace_state ctx params st (t : salvage_trace) : VaultState :=
  set_receipt (sp_pool_address params)
    (new_receipt ctx params (tr_clock t) (tr_salvor_share t) (tr_lp_share t) (tr_protocol_share t)
       (tr_total t) (tr_dust t))
    (set_registry (sp_pool_address params) (new_registry ctx params (tr_clock t) (tr_lp_share t))
       (set_ledger (tr_paid t) st)).

Definition trace_events ctx params (t : salvage_trace) : list VaultEvent :=
  [ PoolSalvaged (sp_amm_program_id params) (sp_pool_address params) (sx_salvor ctx)
      (tr_lp_share t) (tr_salvor_share t) (tr_protocol_share t);
    SalvageCompleted (sp_pool_address params) (sx_salvor ctx) (tr_total t) ].

Lemma salvage_pool_traced ctx params st st' evs :
  salvage_pool ctx params st = Ok (st', evs) ->
  exists t, traced ctx params st t /\ st' = trace_state ctx params st t
    /\ evs = trace_events ctx params t.
Proof.
  unfold salvage_pool. intros Hs.
  apply bind_Ok in Hs as ([[cfg cert] L0] & Ha & Hs). apply bind_Ok in Hs as (clock & Hc & Hs).
  apply bind_Ok in Hs as ([] & Hp & Hs). apply bind_Ok in Hs as (L1 & H1 & Hs).
  apply bind_Ok in Hs as (L2 & H2 & Hs). apply bind_Ok in Hs as (b & Hb & Hs).
  apply bind_Ok in Hs as ([L3 rm] & H3 & Hs). apply bind_Ok in Hs as (L4 & H4 & Hs).
  apply bind_Ok in Hs as ([total L5] & H5 & Hs). apply bind_Ok in Hs as ([] & Hsh & Hs).
  apply bind_Ok in Hs as ([[s l] p] & Hsp & Hs). apply bind_Ok in Hs as (L6 & H6 & Hs).
  apply bind_Ok in Hs as (d & Hd & Hs). injection Hs as <- <-.
  exists (mkSalvageTrace cfg cert clock L0 L1 L2 b L3 rm L4 total L5 s l p L6 d).
  split; [|done].
  constructor; simpl; try done; try by apply (proj1 (prog_Ok _ _)).
  - by apply (proj1 (ok_or_Ok _ _ _)) in Hc.
  - by apply (proj1 (ok_or_Ok _ _ _)) in Hd.
Qed.

(** ** Admission *)

(** The conditions under which a pool may be salvaged at all. *)
Record admissible ctx params st (cfg : ProtocolConfig) (cert : EligibilityCert) (clock : Clock) : Prop := {
  ad_config : vs_config st = Some cfg;
  ad_cert : sx_certs ctx !! (sp_amm_program_id params, sp_pool_address params) = Some cert;
  ad_fresh : vs_registries st !! sp_pool_address params = None;
  ad_no_receipt : vs_receipts st !! sp_pool_address params = None;
  ad_clock : sx_clock ctx = Some clock;
  ad_running : emergency_paused cfg = false;
  ad_live : clock_unix_timestamp clock < expires_at cert;
  ad_complete : cert_criteria_bitmap cert = ALL_CRITERIA_MASK;
  ad_cert_amm : cert_amm_program_id cert = sp_amm_program_id params;
  ad_cert_pool : cert_pool_address cert = sp_pool_address params;
  ad_pool : ai_key (sx_pool ctx) = sp_pool_address params;
  ad_amm : ai_executable (sx_amm_program ctx) = true
           /\ ai_key (sx_amm_program ctx) = ai_owner (sx_pool ctx);
  ad_supply : sx_lp_mint_supply ctx = sp_lp_total_supply_at_snapshot params;
  ad_amount : 0 < sp_salvor_lp_amount params;
}.

Lemma preflight_Ok ctx params cfg cert clock :
  preflight ctx params cfg cert clock = Ok tt <->
  emergency_paused cfg = false /\ clock_unix_timestamp clock < expires_at cert
  /\ cert_criteria_bitmap cert = ALL_CRITERIA_MASK
  /\ cert_amm_program_id cert = sp_amm_program_id params
  /\ cert_pool_address cert = sp_pool_address params
  /\ ai_key (sx_pool ctx) = sp_pool_address params
  /\ ai_executable (sx_amm_program ctx) = true
  /\ ai_key (sx_amm_program ctx) = ai_owner (sx_pool ctx).
Proof.
  unfold preflight, is_expired. split.
  - intros Hp. res_inv Hp. bool_simpl. done.
  - intros (? & ? & ? & ? & ? & ? & ? & ?). repeat step_guard done. by apply require_true, bool_decide_true.
Qed.

Lemma traced_admissible ctx params st t :
  traced ctx params st t -> admissible ctx params st (tr_cfg t) (tr_cert t) (tr_clock t).
Proof.
  intros [Ha Hc Hp _ _ Hb _ _ _ _ _ _ _].
  unfold salvage_accounts in Ha. vault_inv Ha.
  apply preflight_Ok in Hp as (? & ? & ? & ? & ? & ? & ? & ?).
  unfold bind_pool in Hb. apply bind_Ok in Hb as ([[b m] lp] & _ & Hb). res_inv Hb. bool_simpl.
  constructor; done.
Qed.
End Trace.

(** ** The conversion leg *)

Section Conversion.
Context `{PdaDerivation, Runtime}.
Implicit Types (ctx : SalvageCtx) (params : SalvagePoolParams).

Lemma foldM_unit {E A} (f : A -> result E unit) (l : list A) :
  foldM (fun _ x => f x) tt l = Ok tt <-> Forall (fun x => f x = Ok tt) l.
Proof.
  induction l as [|x l IH]; simpl; [done|]. rewrite Forall_cons, <- IH.
  destruct (f x) as [[]|]; simpl; naive_solver.
Qed.

(** The accounts of a salvage that a route must not touch, one rule each. *)
Inductive protected ctx params : Pubkey -> Prop :=
| protected_registry : protected ctx params (registry_address (sp_pool_address params))
| protected_receipt : protected ctx params (receipt_address (sp_pool_address params))
| protected_lp_vault : protected ctx params (lp_holder_pool_vault (sp_pool_address params))
| protected_treasury : protected ctx params protocol_treasury
| protected_holding : protected ctx params (vault_sol_holding_account (sp_pool_address params))
| protected_config : protected ctx params config_address
| protected_cert : protected ctx params (cert_address (sp_amm_program_id params) (sp_pool_address params))
| protected_salvor : protected ctx params (sx_salvor ctx)
| protected_salvor_lp : protected ctx params (sx_salvor_lp_token_account ctx).

Lemma forbidden_protected ctx params k : k ∈ forbidden_keys ctx params <-> protected ctx params k.
Proof.
  unfold forbidden_keys. rewrite !elem_of_cons, elem_of_nil. split.
  - intros Hk. repeat destruct Hk as [->|Hk]; first [done | constructor].
  - destruct 1; tauto.
Qed.

(** A vetted route names none of the protected accounts and does name the
    vault's WSOL account. *)
Definition route_vetted ctx params : Prop :=
  (forall k, k ∈ map am_pubkey (jupiter_remaining ctx) -> ~ protected ctx params k)
  /\ base_ata ∈ map am_pubkey (jupiter_remaining ctx).

Lemma vet_key_Ok ctx params k :
  foldM (fun _ bad => require (negb (bool_decide (k = bad))) PreflightFailed) tt
    (forbidden_keys ctx params) = Ok tt <-> k ∉ forbidden_keys ctx params.
Proof.
  rewrite (foldM_unit (fun bad => require (negb (bool_decide (k = bad))) PreflightFailed)).
  rewrite Forall_forall. split.
  - intros Hf Hin. specialize (Hf k Hin). apply require_Ok in Hf. by bool_simpl.
  - intros Hn x Hx. apply require_true. bool_goal. by intros ->.
Qed.

Lemma existsb_key (k : Pubkey) (l : list Pubkey) :
  existsb (fun x => bool_decide (x = k)) l = true <-> k ∈ l.
Proof.
  rewrite existsb_exists, list_elem_of_In. split.
  - intros (x & Hx & Heq). apply bool_decide_eq_true in Heq. by subst.
  - intros Hin. exists k. split; [done|by apply bool_decide_true].
Qed.

Lemma vet_route_Ok ctx params : vet_route ctx params = Ok tt <-> route_vetted ctx params.
Proof.
  unfold vet_route, route_vetted.
  assert (Hall : foldM (fun _ k => foldM (fun _ bad =>
      require (negb (bool_decide (k = bad))) PreflightFailed) tt (forbidden_keys ctx params)) tt
      (map am_pubkey (jupiter_remaining ctx)) = Ok tt
    <-> forall k, k ∈ map am_pubkey (jupiter_remaining ctx) -> ~ protected ctx params k).
  { rewrite (foldM_unit (fun k => foldM (fun _ bad =>
      require (negb (bool_decide (k = bad))) PreflightFailed) tt (forbidden_keys ctx params))).
    rewrite Forall_forall. setoid_rewrite <- forbidden_protected. split; intros Hf k Hk; apply vet_key_Ok, Hf, Hk. }
  rewrite <- Hall, <- existsb_key. split.
  - intros Hv. res_inv Hv. by destruct r.
  - intros [-> Hb]. simpl. by apply require_true.
Qed.

(** The reserves the floor is computed from: the pool's two vaults, read after
    the withdraw, WSOL side first. *)
Definition reserves_read ctx (base_is_coin_side : bool) (L : Ledger) (wsol memecoin : Z) : Prop :=
  exists coin pc,
    token_amount L (account_at (raydium_remaining ctx) AMM_COIN_VAULT) = Some coin
    /\ token_amount L (account_at (raydium_remaining ctx) AMM_PC_VAULT) = Some pc
    /\ (wsol, memecoin) = if base_is_coin_side then (coin, pc) else (pc, coin).

(** What an executed conversion did. *)
Record swapped ctx params (cfg : ProtocolConfig) (b : bool) (removal : RemoveLiquidityOutput)
    (L L' : Ledger) : Prop := {
  sw_vetted : route_vetted ctx params;
  sw_floor : exists wsol memecoin floor,
    reserves_read ctx b L wsol memecoin
    /\ slippage_floor (memecoin_received removal) wsol memecoin
         (effective_slippage_cap_bps (max_slippage_bps cfg) (sp_max_slippage_bps_override params))
       = Ok floor
    /\ floor <= sp_min_quote_output_lamports params;
  sw_swap : exists n, jupiter_swap (swap_input ctx params) L = Ok (L', n);
  sw_output : exists amount, token_amount L' base_ata = Some amount
    /\ is_u64 (amount - base_received removal)
    /\ sp_min_quote_output_lamports params <= amount - base_received removal;
}.

Lemma min_floor_Ok ctx params cfg b removal L floor :
  min_floor ctx params cfg b removal L = Ok floor <->
  exists wsol memecoin, reserves_read ctx b L wsol memecoin
    /\ slippage_floor (memecoin_received removal) wsol memecoin
         (effective_slippage_cap_bps (max_slippage_bps cfg) (sp_max_slippage_bps_override params))
       = Ok floor.
Proof.
  unfold min_floor, reserves_read, read_token_amount. split.
  - intros Hm. apply bind_Ok in Hm as (coin & Hc & Hm). apply bind_Ok in Hm as (pc & Hp & Hm).
    apply ok_or_Ok in Hc, Hp. destruct b; eauto 10.
  - intros (w & m & (coin & pc & -> & -> & Heq) & Hf). simpl. destruct b; by simplify_eq.
Qed.

Lemma conversion_leg_iff ctx params cfg b removal L L' :
  conversion_leg ctx params cfg b removal L = Ok L' <->
  (memecoin_received removal < jupiter_dust_threshold_lamports cfg /\ L' = L)
  \/ (jupiter_dust_threshold_lamports cfg <= memecoin_received removal
      /\ swapped ctx params cfg b removal L L').
Proof.
  unfold conversion_leg.
  destruct (jupiter_dust_threshold_lamports cfg <=? memecoin_received removal) eqn:Hth; bool_simpl.
  - split.
    + intros Hc. right. split; [done|]. apply bind_Ok in Hc as ([] & Hv & Hc).
      apply bind_Ok in Hc as (floor & Hf & Hc). apply bind_Ok in Hc as ([] & Hg & Hc).
      apply bind_Ok in Hc as ([L1 n] & Hs & Hc). vault_inv Hc. bool_simpl. checked_inv.
      apply require_Ok in Hg. bool_simpl.
      apply min_floor_Ok in Hf as (w & m & ? & ?).
      constructor; [by apply vet_route_Ok| | |]; eauto 10.
    + intros [[]|[_ [Hv (w & m & floor & Hr & Hf & Hle) [n Hs] (a & Ha & Hu & Hmin)]]]; [lia|].
      rewrite (proj2 (vet_route_Ok ctx params) Hv).
      rewrite (proj2 (min_floor_Ok ctx params cfg b removal L floor)) by eauto.
      simpl. rewrite (proj2 (Z.leb_le _ _) Hle). simpl. rewrite Hs. simpl. rewrite Ha. simpl.
      rewrite (proj2 (checked_sub_u_Some 64 a (base_received removal) _)) by done. simpl.
      by rewrite (proj2 (Z.leb_le _ _) Hmin).
  - split.
    + intros [= <-]. by left.
    + intros [[_ ->]|[]]; [done|lia].
Qed.

(** C32. The conversion leg succeeds in exactly two ways. Below the dust
    threshold it does nothing at all. At or above it, the submitted route names
    none of the nine protected accounts (registry, receipt, LP-holder vault,
    treasury, SOL holding, config, certificate, salvor, salvor's LP account)
    and does name the vault's WSOL account; the salvor's floor is at least the
    protocol's slippage floor computed from the post-withdraw reserves; the
    swap goes through; and what the WSOL account holds beyond the withdraw's
    part is at least the salvor's floor. *)
Theorem conversion_leg_spec ctx params cfg b removal L L' :
  conversion_leg ctx params cfg b removal L = Ok L' <->
  (memecoin_received removal < jupiter_dust_threshold_lamports cfg /\ L' = L)
  \/ (jupiter_dust_threshold_lamports cfg <= memecoin_received removal
      /\ swapped ctx params cfg b removal L L').
Proof. apply conversion_leg_iff. Qed.
End Conversion.

(** ** The payments *)

(** [n] if the account is [x], nothing otherwise. *)
Definition to_account (x : Pubkey) (n : Z) (k : Pubkey) : Z := if decide (k = x) then n else 0.

Lemma to_account_nonneg x n k : 0 <= n -> 0 <= to_account x n k.
Proof. unfold to_account. case_decide; lia. Qed.

Lemma to_account_self x n : to_account x n x = n.
Proof. unfold to_account. by rewrite decide_True. Qed.

Lemma to_account_other x n k : k <> x -> to_account x n k = 0.
Proof. unfold to_account. intros. by rewrite decide_False. Qed.

(** The formula of a transfer, aliasing included. *)
Lemma move_lamports_at from to n L k :
  lamports (move_lamports from to n L) k = lamports L k - to_account from n k + to_account to n k.
Proof.
  unfold move_lamports. destruct (decide (k = to)) as [->|Ht].
  - rewrite lamports_set_eq, (to_account_self to). unfold to_account. case_decide as Hf.
    + subst. rewrite lamports_set_eq. lia.
    + rewrite lamports_set_ne by done. lia.
  - rewrite lamports_set_ne, (to_account_other to) by done. unfold to_account. case_decide as Hf.
    + subst. rewrite lamports_set_eq. lia.
    + rewrite lamports_set_ne by done. lia.
Qed.

Section Payments.
Context `{PdaDerivation} `{HR : Runtime} {HRL : RuntimeLaws}.

Lemma transfer_holding_Ok source to n L L' :
  0 <= n -> transfer_from_vault_sol_holding source to n L = Ok L' ->
  (forall k, lamports L' k = lamports L k - to_account source n k + to_account to n k)
  /\ lg_tokens L' = lg_tokens L.
Proof.
  intros Hn Ht. unfold transfer_from_vault_sol_holding in Ht. destruct (n =? 0) eqn:Hz; bool_simpl.
  - injection Ht as <-. subst. split; [|done]. intros k. unfold to_account.
    repeat case_decide; lia.
  - apply ok_or_Ok in Ht. apply transfer_moves in Ht as [_ ->]. split; [|done].
    apply move_lamports_at.
Qed.

(** The balance changes of the three payments. *)
Definition payments (pool salvor : Pubkey) (s l p : Z) (k : Pubkey) : Z :=
  to_account salvor s k + to_account (lp_holder_pool_vault pool) l k
  + to_account protocol_treasury p k
  - to_account (vault_sol_holding_account pool) (s + l + p) k.

Lemma pay_shares_Ok pool salvor s l p L L' :
  0 <= s -> 0 <= l -> 0 <= p -> pay_shares pool salvor s l p L = Ok L' ->
  (forall k, lamports L' k = lamports L k + payments pool salvor s l p k)
  /\ lg_tokens L' = lg_tokens L.
Proof.
  intros Hs Hl Hp Hpay. unfold pay_shares in Hpay.
  apply bind_Ok in Hpay as (L1 & H1 & Hpay). apply bind_Ok in Hpay as (L2 & H2 & H3).
  apply transfer_holding_Ok in H1 as [F1 T1], H2 as [F2 T2], H3 as [F3 T3]; [|done..].
  split; [|congruence]. intros k. rewrite F3, F2, F1. unfold payments, to_account.
  repeat case_decide; lia.
Qed.

(** ** Token amounts stay machine integers *)

Lemma token_amount_wf L k n : wf_tokens (lg_tokens L) -> token_amount L k = Some n -> is_u64 n.
Proof.
  unfold token_amount. intros Hwf Ht. apply fmap_Some in Ht as (t & Ht & ->).
  by apply (map_Forall_lookup_1 _ _ _ _ Hwf Ht).
Qed.

Lemma init_ata_wf a m L L' :
  wf_tokens (lg_tokens L) -> init_ata a m L = Ok L' ->
  wf_tokens (lg_tokens L') /\ lg_lamports L' = lg_lamports L.
Proof.
  unfold init_ata. intros Hwf Hi. destruct (lg_tokens L !! _).
  - apply bind_Ok in Hi as (? & _ & Hi). by injection Hi as <-.
  - injection Hi as <-. split; [|done]. apply map_Forall_insert_2; [|done].
    unfold wf_token, is_u. simpl. lia.
Qed.

Lemma lazy_init_wf pda payer L L' :
  wf_tokens (lg_tokens L) -> lazy_init_system_pda pda payer L = Ok L' -> wf_tokens (lg_tokens L').
Proof.
  unfold lazy_init_system_pda, call. intros Hwf Hi. destruct (0 <? lamports L pda).
  - by injection Hi as <-.
  - apply ok_or_Ok in Hi. by eapply invoke_wf.
Qed.

Lemma dispatch_wf input L L' out :
  wf_tokens (lg_tokens L) -> dispatch_remove_liquidity input L = Ok (L', out) ->
  wf_tokens (lg_tokens L').
Proof.
  intros Hwf Hd. apply dispatch_remove_liquidity_run in Hd. by eapply invoke_wf.
Qed.
End Payments.

(** ** Settlement *)

Section Settlement.
Context `{PdaDerivation} `{HR : Runtime} {HRL : RuntimeLaws}.
Implicit Types (ctx : SalvageCtx) (params : SalvagePoolParams) (st : VaultState).

Lemma check_shares_Ok cfg :
  typed_vault_config cfg -> check_shares cfg = Ok tt ->
  lp_holder_share_bps cfg + salvor_share_bps cfg + protocol_share_bps cfg = BPS_DENOMINATOR
  /\ protocol_share_bps cfg <= PROTOCOL_SHARE_BPS_CEILING.
Proof.
  intros _ Hc. unfold check_shares in Hc. res_inv Hc.
  match goal with Hb : _ ≫= _ = Some _ |- _ => apply bind_Some in Hb as (x & Hx & Hs) end.
  checked_inv. bool_simpl. lia.
Qed.

Lemma conversion_wf ctx params cfg b rm L L' :
  wf_tokens (lg_tokens L) -> conversion_leg ctx params cfg b rm L = Ok L' ->
  wf_tokens (lg_tokens L').
Proof.
  intros Hwf Hc. apply conversion_leg_iff in Hc as [[_ ->]|[_ [_ _ [n Hs] _]]]; [done|].
  apply jupiter_swap_Ok in Hs as (_ & _ & Hi & _). by eapply invoke_wf.
Qed.

Lemma accounts_wf ctx params st cfg cert L :
  wf_tokens (lg_tokens (vs_ledger st)) -> salvage_accounts ctx params st = Ok (cfg, cert, L) ->
  wf_tokens (lg_tokens L) /\ lg_lamports L = lg_lamports (vs_ledger st).
Proof.
  intros Hwf Ha. unfold salvage_accounts in Ha. vault_inv Ha.
  repeat match goal with
  | Hi : init_ata _ _ _ = Ok _ |- _ => apply init_ata_wf in Hi as [? ?]; [|done]
  end. split; [done|congruence].
Qed.

Lemma traced_wf ctx params st t :
  wf_tokens (lg_tokens (vs_ledger st)) -> traced ctx params st t ->
  wf_tokens (lg_tokens (tr_converted t)) /\ wf_tokens (lg_tokens (tr_unwrapped t)).
Proof.
  intros Hwf [Ha _ _ H1 H2 _ H3 H4 H5 _ _ _ _].
  apply accounts_wf in Ha as [Hwf0 _]; [|done].
  apply lazy_init_wf in H1; [|done]. apply lazy_init_wf in H2; [|done].
  apply dispatch_wf in H3; [|done]. apply conversion_wf in H4; [|done].
  split; [done|]. unfold unwrap_wsol in H5. vault_inv H5. by eapply invoke_wf.
Qed.

Lemma unwrap_Ok params L total L' :
  unwrap_wsol params L = Ok (total, L') ->
  token_amount L base_ata = Some total /\ 0 < total
  /\ invoke (CpiTokenClose base_ata (vault_sol_holding_account (sp_pool_address params))
       vault_authority) L = Some L'.
Proof. unfold unwrap_wsol. intros Hu. vault_inv Hu. by bool_simpl. Qed.

(** What the three shares of a successful salvage are. *)
Record shares_of (cfg : ProtocolConfig) (total s l p : Z) : Prop := {
  so_total : 0 < total < 2 ^ 64;
  so_salvor : s = total * salvor_share_bps cfg / BPS_DENOMINATOR;
  so_lp : l = total * lp_holder_share_bps cfg / BPS_DENOMINATOR;
  so_sum : s + l + p = total;
  so_nonneg : 0 <= s /\ 0 <= l /\ 0 <= p;
  so_ceiling : BPS_DENOMINATOR * p < PROTOCOL_SHARE_BPS_CEILING * total + 2 * BPS_DENOMINATOR;
}.

Lemma split_shares cfg total s l p :
  typed_vault_config cfg -> check_shares cfg = Ok tt -> is_u64 total -> 0 < total ->
  split_proceeds total (salvor_share_bps cfg) (lp_holder_share_bps cfg) = Ok (s, l, p) ->
  shares_of cfg total s l p.
Proof.
  intros Hty Hc Hu Hpos Hs. destruct (check_shares_Ok cfg Hty Hc) as [Hsum Hceil].
  destruct Hty as [Hl Hsv Hp _].
  destruct (split_conserves total (salvor_share_bps cfg) (lp_holder_share_bps cfg)
    (protocol_share_bps cfg)) as (p' & Heq & Ht & Hp' & Hb); [done|unfold_ints; lia..|].
  rewrite Heq in Hs. injection Hs as <- <- <-.
  assert (total * protocol_share_bps cfg <= total * PROTOCOL_SHARE_BPS_CEILING)
    by (apply Z.mul_le_mono_nonneg_l; lia).
  assert (Hn1 := share_le total (salvor_share_bps cfg)).
  assert (Hn2 := share_le total (lp_holder_share_bps cfg)).
  unfold BPS_DENOMINATOR in *.
  constructor; try done; unfold_ints; unfold BPS_DENOMINATOR; lia.
Qed.

Lemma traced_shares ctx params st t :
  wf_tokens (lg_tokens (vs_ledger st)) -> typed_vault_config (tr_cfg t) ->
  traced ctx params st t ->
  shares_of (tr_cfg t) (tr_total t) (tr_salvor_share t) (tr_lp_share t) (tr_protocol_share t).
Proof.
  intros Hwf Hty Ht. destruct (traced_wf _ _ _ _ Hwf Ht) as [Hw _].
  destruct (unwrap_Ok _ _ _ _ (tf_unwrapped _ _ _ _ Ht)) as (Hta & Hpos & _).
  eapply split_shares; [done|apply Ht|by eapply token_amount_wf|done|apply Ht].
Qed.

(** C16. What a successful salvage leaves behind. The vault's whole WSOL balance
    [total] is unwrapped and split; registry and receipt of the pool, absent
    before, record the split, the snapshot root and supply, the salvor and the
    clock; the balances of all accounts change, after the unwrap, exactly by the
    three payments, which the SOL holding account pays in full; the receipt's
    dust is the memecoin balance left in the vault; the protocol's part is at
    most 20% up to two lamports of rounding; no other record of the vault
    changes. *)
Theorem salvage_settlement ctx params st st' evs cfg :
  wf_tokens (lg_tokens (vs_ledger st)) ->
  vs_config st = Some cfg -> typed_vault_config cfg ->
  salvage_pool ctx params st = Ok (st', evs) ->
  let pool := sp_pool_address params in
  exists clock total s l p dust closing unwrapped,
    sx_clock ctx = Some clock
    /\ vs_registries st !! pool = None /\ vs_receipts st !! pool = None
    /\ token_amount closing base_ata = Some total
    /\ invoke (CpiTokenClose base_ata (vault_sol_holding_account pool) vault_authority) closing
       = Some unwrapped
    /\ shares_of cfg total s l p
    /\ (forall k, lamports (vs_ledger st') k
                  = lamports unwrapped k + payments pool (sx_salvor ctx) s l p k)
    /\ token_amount (vs_ledger st') (memecoin_ata ctx) = Some dust
    /\ vs_config st' = Some cfg /\ vs_claims st' = vs_claims st
    /\ vs_registries st' = <[pool := new_registry ctx params clock l]> (vs_registries st)
    /\ vs_receipts st' = <[pool := new_receipt ctx params clock s l p total dust]> (vs_receipts st)
    /\ evs = [PoolSalvaged (sp_amm_program_id params) pool (sx_salvor ctx) l s p;
              SalvageCompleted pool (sx_salvor ctx) total].
Proof.
  intros Hwf Hcfg Hty Hs pool. apply salvage_pool_traced in Hs as (t & Ht & -> & ->).
  destruct (traced_admissible _ _ _ _ Ht) as [Hc _ Hr Hrc Hck _ _ _ _ _ _ _ _ _].
  rewrite Hcfg in Hc. injection Hc as Hc. rewrite Hc in Hty.
  assert (Hsh := traced_shares _ _ _ _ Hwf Hty Ht).
  destruct (unwrap_Ok _ _ _ _ (tf_unwrapped _ _ _ _ Ht)) as (Hta & Hpos & Hu).
  destruct (pay_shares_Ok _ _ _ _ _ _ _ (proj1 (so_nonneg _ _ _ _ _ Hsh))
    (proj1 (proj2 (so_nonneg _ _ _ _ _ Hsh))) (proj2 (proj2 (so_nonneg _ _ _ _ _ Hsh)))
    (tf_paid _ _ _ _ Ht)) as [Hpay _].
  exists (tr_clock t), (tr_total t), (tr_salvor_share t), (tr_lp_share t), (tr_protocol_share t),
    (tr_dust t), (tr_converted t), (tr_unwrapped t).
  rewrite Hc. split_and!; try done; [apply Ht|simpl; congruence].
Qed.
End Settlement.

(** ** The LP-holder accounts of every pool *)

Section Unsweepable.
Context `{PdaDerivation} `{HR : Runtime} {HRL : RuntimeLaws}.
(** The pools in use; the addresses derived for them do not coincide. *)
Variable P : Pubkey -> Prop.

Record lp_vaults_distinct : Prop := {
  lvd_inj p q : P p -> P q -> lp_holder_pool_vault p = lp_holder_pool_vault q -> p = q;
  lvd_holding p q : P p -> P q -> lp_holder_pool_vault p <> vault_sol_holding_account q;
  lvd_authority p : P p -> lp_holder_pool_vault p <> vault_authority;
}.

(** The accounts whose signature the outer transaction carries. *)
Definition outer_signers (ctx : SalvageCtx) : list Pubkey :=
  sx_salvor ctx
  :: omap (fun m => if am_is_signer m then Some (am_pubkey m) else None) (sx_remaining_accounts ctx).

(** A PDA has no key, so it is never among them. *)
Definition signed_externally (signers : list Pubkey) : Prop :=
  forall q, P q -> lp_holder_pool_vault q ∉ signers.

Context (HD : lp_vaults_distinct).
Implicit Types (ctx : SalvageCtx) (params : SalvagePoolParams) (st : VaultState).

Lemma lazy_init_credits pda payer L L' k :
  is_vault_pda k -> k <> payer -> k <> pda -> lazy_init_system_pda pda payer L = Ok L' ->
  lamports L k <= lamports L' k.
Proof.
  intros Hpda Hp Hk Hi. unfold lazy_init_system_pda in Hi. destruct (0 <? lamports L pda).
  - by injection Hi as <-.
  - apply ok_or_Ok in Hi. eapply unsigned_not_debited; [done| |done]. simpl. set_solver.
Qed.

(** After a lazy init the account is rent-exempt, if it was empty or
    rent-exempt before. *)
Lemma lazy_init_rent pda payer L L' :
  payer <> pda -> 0 <= lamports L pda ->
  lamports L pda = 0 \/ rent_minimum <= lamports L pda ->
  lazy_init_system_pda pda payer L = Ok L' ->
  lamports L pda <= lamports L' pda /\ rent_minimum <= lamports L' pda.
Proof.
  intros Hp Hnn Hr Hi. unfold lazy_init_system_pda in Hi.
  destruct (0 <? lamports L pda) eqn:Hpos; bool_simpl.
  - injection Hi as <-. lia.
  - apply ok_or_Ok in Hi. assert (Hrent := rent_nonneg). apply create_funds in Hi; [lia|done].
Qed.

Lemma init_ata_lamports a m L L' k : init_ata a m L = Ok L' -> lamports L' k = lamports L k.
Proof.
  unfold init_ata. intros Hi. destruct (lg_tokens L !! _).
  - apply bind_Ok in Hi as (? & _ & Hi). by injection Hi as <-.
  - by injection Hi as <-.
Qed.

Lemma accounts_lamports ctx params st cfg cert L k :
  salvage_accounts ctx params st = Ok (cfg, cert, L) -> lamports L k = lamports (vs_ledger st) k.
Proof.
  intros Ha. unfold salvage_accounts in Ha. vault_inv Ha.
  repeat match goal with
  | Hi : init_ata _ _ _ = Ok _ |- _ => apply (init_ata_lamports _ _ _ _ k) in Hi
  end. congruence.
Qed.

Lemma swap_unsigned ctx params L L' k :
  is_vault_pda k -> k ∉ outer_signers ctx -> k <> vault_authority ->
  invoke (swap_cpi (swap_input ctx params)) L = Some L' -> lamports L k <= lamports L' k.
Proof.
  intros Hpda Hs Hv Hi. eapply unsigned_not_debited; [done| |done]. intros Hin.
  apply swap_signers in Hin as (m & Hm & Hk & [Hf|Hf]); [|by simpl in Hf].
  apply Hs. right. apply list_elem_of_omap. exists m. rewrite Hf, Hk. split; [|done].
  simpl in Hm. unfold jupiter_remaining in Hm.
  rewrite <- (take_drop 13 (sx_remaining_accounts ctx)). set_solver.
Qed.

Lemma conversion_credits ctx params cfg b rm L L' k :
  is_vault_pda k -> k ∉ outer_signers ctx -> k <> vault_authority ->
  conversion_leg ctx params cfg b rm L = Ok L' -> lamports L k <= lamports L' k.
Proof.
  intros Hpda Hs Hv Hc. apply conversion_leg_iff in Hc as [[_ ->]|[_ [_ _ [n Hj] _]]]; [done|].
  apply jupiter_swap_Ok in Hj as (_ & _ & Hi & _). by eapply swap_unsigned.
Qed.

Lemma withdraw_credits ctx params b L L' out k :
  is_vault_pda k -> k ∉ outer_signers ctx ->
  dispatch_remove_liquidity (removal_input ctx params b) L = Ok (L', out) ->
  lamports L k <= lamports L' k.
Proof.
  intros Hpda Hs Hd%dispatch_remove_liquidity_run. eapply unsigned_not_debited; [done| |done].
  rewrite withdraw_signers. simpl. set_solver.
Qed.

Lemma unwrap_credits params total L L' k :
  is_vault_pda k -> k <> vault_authority -> unwrap_wsol params L = Ok (total, L') -> lamports L k <= lamports L' k.
Proof.
  intros Hpda Hv (_ & _ & Hi)%unwrap_Ok. eapply unsigned_not_debited; [done| |done]. simpl. set_solver.
Qed.

(** The CPIs between the lazy inits and the payments leave every LP-holder
    account with at least what it had. *)
Lemma middle_credits ctx params st t q :
  traced ctx params st t -> P q -> signed_externally (outer_signers ctx) ->
  lamports (tr_ready t) (lp_holder_pool_vault q) <= lamports (tr_unwrapped t) (lp_holder_pool_vault q).
Proof.
  intros [_ _ _ _ _ _ H3 H4 H5 _ _ _ _] HP Hs. specialize (Hs q HP).
  assert (Hv := lvd_authority HD q HP).
  assert (Hpda : is_vault_pda (lp_holder_pool_vault q)) by apply vault_pda_is.
  apply (withdraw_credits _ _ _ _ _ _ _ Hpda Hs) in H3.
  apply (conversion_credits _ _ _ _ _ _ _ _ Hpda Hs Hv) in H4.
  apply (unwrap_credits _ _ _ _ _ Hpda Hv) in H5. lia.
Qed.

Lemma payments_lp_vault pool salvor s l p q :
  P pool -> P q -> 0 <= s -> 0 <= l -> 0 <= p ->
  to_account pool l q <= payments pool salvor s l p (lp_holder_pool_vault q).
Proof.
  intros HP HQ Hs Hl Hp. unfold payments.
  rewrite (to_account_other (vault_sol_holding_account pool)) by (by apply (lvd_holding HD)).
  assert (H1 := to_account_nonneg salvor s (lp_holder_pool_vault q) Hs).
  assert (H2 := to_account_nonneg protocol_treasury p (lp_holder_pool_vault q) Hp).
  unfold to_account in *. repeat case_decide; subst; lia || done.
Qed.

(** A salvage credits its own pool's LP-holder account with the LP share and
    debits no pool's. *)
Lemma salvage_credits ctx params st t q :
  wf_tokens (lg_tokens (vs_ledger st)) -> typed_vault_config (tr_cfg t) ->
  traced ctx params st t -> P (sp_pool_address params) -> P q ->
  signed_externally (outer_signers ctx) -> 0 <= lamports (vs_ledger st) (lp_holder_pool_vault q) ->
  lamports (vs_ledger st) (lp_holder_pool_vault q) = 0
    \/ rent_minimum <= lamports (vs_ledger st) (lp_holder_pool_vault q) ->
  lamports (vs_ledger st) (lp_holder_pool_vault q)
    + to_account (sp_pool_address params) (tr_lp_share t) q
  <= lamports (tr_paid t) (lp_holder_pool_vault q)
  /\ (q = sp_pool_address params ->
      rent_minimum + tr_lp_share t <= lamports (tr_paid t) (lp_holder_pool_vault q)).
Proof.
  intros Hwf Hty Ht HP HQ Hs Hnn Hrent.
  destruct (so_nonneg _ _ _ _ _ (traced_shares _ _ _ _ Hwf Hty Ht)) as (Hs0 & Hl0 & Hp0).
  destruct (pay_shares_Ok _ _ _ _ _ _ _ Hs0 Hl0 Hp0 (tf_paid _ _ _ _ Ht)) as [Hpay _].
  assert (Hmid := middle_credits _ _ _ _ q Ht HQ Hs).
  assert (Hpq := payments_lp_vault _ (sx_salvor ctx) _ _ _ q HP HQ Hs0 Hl0 Hp0).
  rewrite Hpay. destruct Ht as [Ha _ _ H1 H2 _ _ _ _ _ _ _ _].
  rewrite <- (accounts_lamports _ _ _ _ _ _ (lp_holder_pool_vault q) Ha) in *.
  assert (Hsalvor : lp_holder_pool_vault q <> sx_salvor ctx).
  { intros Heq. apply (Hs q HQ). rewrite Heq. left. }
  apply (lazy_init_credits _ _ _ _ (lp_holder_pool_vault q) (vault_pda_is _)) in H2;
    [|done|by apply (lvd_holding HD)].
  destruct (decide (q = sp_pool_address params)) as [->|Hne].
  - apply lazy_init_rent in H1 as [??]; [|done..]. rewrite to_account_self in *. split; [lia|intros _; lia].
  - apply (lazy_init_credits _ _ _ _ (lp_holder_pool_vault q) (vault_pda_is _)) in H1; [|done|].
    + rewrite to_account_other in * by done. split; [lia|done].
    + intros Heq. by apply (lvd_inj HD) in Heq.
Qed.
End Unsweepable.

(** ** Admission, stated once *)

Section Admission.
Context `{PdaDerivation, Runtime}.

Lemma bind_pool_V4 ctx params b :
  ai_owner (sx_pool ctx) = RAYDIUM_V4_PROGRAM_ID -> bind_pool ctx params = Ok b ->
  derive_pool_orientation (sx_pool ctx) = Ok (b, sx_memecoin_mint ctx, sx_lp_mint ctx).
Proof.
  intros Ho Hb. unfold bind_pool in Hb. rewrite bool_decide_true in Hb by done.
  apply bind_Ok in Hb as ([[b' m] lp] & -> & Hb). res_inv Hb. bool_simpl. by subst.
Qed.

Lemma admission ctx params st st' evs :
  salvage_pool ctx params st = Ok (st', evs) ->
  exists cfg cert clock b,
    admissible ctx params st cfg cert clock
    /\ ai_owner (sx_pool ctx) = RAYDIUM_V4_PROGRAM_ID
    /\ len_Z (ai_data (sx_pool ctx)) = RAYDIUM_V4_AMM_INFO_SIZE
    /\ sx_lp_mint ctx = slice 464 32 (ai_data (sx_pool ctx))
    /\ sx_memecoin_mint ctx <> WSOL_MINT
    /\ (slice 400 32 (ai_data (sx_pool ctx)), slice 432 32 (ai_data (sx_pool ctx)))
       = if (b : bool) then (WSOL_MINT, sx_memecoin_mint ctx) else (sx_memecoin_mint ctx, WSOL_MINT).
Proof.
  intros Hs. apply salvage_pool_traced in Hs as (t & Ht & -> & ->).
  exists (tr_cfg t), (tr_cert t), (tr_clock t), (tr_base_is_coin_side t).
  split; [by apply traced_admissible|].
  assert (Ho := tf_removed _ _ _ _ Ht). apply dispatch_iff in Ho. apply wd_owner in Ho. simpl in Ho.
  split; [done|]. assert (Hb := bind_pool_V4 _ _ _ Ho (tf_bound _ _ _ _ Ht)).
  rewrite orientation_eq in Hb. cbv zeta in Hb.
  destruct (len_Z (ai_data (sx_pool ctx)) =? 752) eqn:Hlen; [|discriminate Hb]. simpl in Hb. bool_simpl.
  split; [done|].
  destruct (decide (slice 400 32 (ai_data (sx_pool ctx)) = WSOL_MINT)) as [Hc|Hc],
    (decide (slice 432 32 (ai_data (sx_pool ctx)) = WSOL_MINT)) as [Hp|Hp]; try discriminate Hb;
    injection Hb as <- <- <-.
  - by rewrite Hc.
  - by rewrite Hp.
Qed.
(** The mints a salvage is bound to are in the pool's bytes. *)
Lemma salvage_binds ctx params st st' evs :
  salvage_pool ctx params st = Ok (st', evs) ->
  exists b : bool, sx_lp_mint ctx = slice 464 32 (ai_data (sx_pool ctx))
    /\ (slice 400 32 (ai_data (sx_pool ctx)), slice 432 32 (ai_data (sx_pool ctx)))
       = if b then (WSOL_MINT, sx_memecoin_mint ctx) else (sx_memecoin_mint ctx, WSOL_MINT).
Proof.
  intros Hs. apply admission in Hs as (_ & _ & _ & b & _ & _ & _ & ? & _ & ?). by exists b.
Qed.

(** C14. A salvage only happens to a certified pool. If [salvage_pool] succeeds,
    then the protocol is not paused; the scanner holds a certificate for this
    very (AMM program, pool) pair that has not expired and carries all six
    criteria; neither a registry nor a receipt existed for the pool; the pool
    account is the certified one, owned by Raydium V4 and by the supplied
    executable program; the submitted memecoin and LP mints are the ones in the
    pool's own 752 bytes, the other side being WSOL; and the snapshot's supply
    is the LP mint's live supply. *)
Theorem salvage_admission ctx params st st' evs :
  salvage_pool ctx params st = Ok (st', evs) ->
  exists cfg cert clock b,
    admissible ctx params st cfg cert clock
    /\ ai_owner (sx_pool ctx) = RAYDIUM_V4_PROGRAM_ID
    /\ len_Z (ai_data (sx_pool ctx)) = RAYDIUM_V4_AMM_INFO_SIZE
    /\ sx_lp_mint ctx = slice 464 32 (ai_data (sx_pool ctx))
    /\ sx_memecoin_mint ctx <> WSOL_MINT
    /\ (slice 400 32 (ai_data (sx_pool ctx)), slice 432 32 (ai_data (sx_pool ctx)))
       = if (b : bool) then (WSOL_MINT, sx_memecoin_mint ctx) else (sx_memecoin_mint ctx, WSOL_MINT).
Proof. apply admission. Qed.
End Admission.
