(* ===== verification/VaultTests.v ===== *)
(** * VaultTests: the vault's own tests

    [programs/grave-vault/src]: the tests, proptests and adversary tests of
    [instructions/salvage_pool.rs], the tests of [state/pool_registry.rs] and
    [errors.rs]. [Pubkey::new_unique] is any key: the tests that draw keys are
    stated for all of them. *)

From Stdlib Require Import String.
From S2P Require Import Prelude TestKit Bytes Solana Pda VaultState Salvage SalvageSpec.

(** ** [salvage_pool.rs]: the slippage cap *)

Definition cap_uses_config_value_within_hard_ceiling : bool :=
  same (effective_slippage_cap_bps 300 None) 300 && same (effective_slippage_cap_bps 50 None) 50.
Definition cap_clamps_config_to_hard_ceiling : bool :=
  same (effective_slippage_cap_bps 5000 None) 1000 && same (effective_slippage_cap_bps (u_max 16) None) 1000.
Definition override_only_tightens : bool :=
  same (effective_slippage_cap_bps 300 (Some 100)) 100
  && same (effective_slippage_cap_bps 300 (Some 900)) 300
  && same (effective_slippage_cap_bps 5000 (Some 2000)) 1000
  && same (effective_slippage_cap_bps 300 (Some 0)) 0.

(** ** The split *)

Definition assert_d7 (total salvor_bps lp_bps : Z) : bool :=
  match split_proceeds total salvor_bps lp_bps with
  | Ok (s, l, p) =>
      same s (total * salvor_bps / 10000) && same l (total * lp_bps / 10000)
      && same (s + l + p) total && (total * (10000 - salvor_bps - lp_bps) / 10000 <=? p)
  | Err _ => false
  end.

Definition split_defaults_40_40_20 : bool :=
  assert_d7 1000000000 4000 4000 && assert_d7 1 4000 4000 && assert_d7 9999 4000 4000
  && assert_d7 123457 4000 4000.
Definition split_sub_lamport_totals_round_entirely_to_protocol : bool :=
  yields (split_proceeds 1 4000 4000) (0, 0, 1) && yields (split_proceeds 9999 4000 4000) (3999, 3999, 2001).
Definition split_asymmetric_shares_remainder_by_construction : bool :=
  assert_d7 1000001 4000 4001 && yields (split_proceeds 10001 4000 4001) (4000, 4001, 2000).
Definition split_extreme_shares_stay_exact : bool :=
  assert_d7 (u_max 64) 10000 0 && assert_d7 (u_max 64) 0 10000 && assert_d7 (u_max 64) 0 0
  && assert_d7 (u_max 64) 4000 4000.

Definition adv_st01_split_fails_closed_on_invalid_sum : bool :=
  refused_with (split_proceeds 10000 9999 9999) MathOverflow
  && yields (split_proceeds 10000 5000 5000) (5000, 5000, 0).
Definition adv_st02_single_lamport_conserves : bool :=
  match split_proceeds 1 4000 4000 with
  | Ok (s, l, p) => same (s + l + p) 1 && same (s, l) (0, 0)
  | Err _ => false
  end.

(** A share configuration: the protocol's under its ceiling, the three summing
    to 10000. *)
Record share_strategy (protocol salvor lp : Z) : Prop := {
  ss_protocol : 0 <= protocol <= PROTOCOL_SHARE_BPS_CEILING;
  ss_lp : 0 <= lp < 10000;
  ss_fits : lp <= 10000 - protocol;
  ss_salvor : salvor = 10000 - protocol - lp;
}.

Definition d7_conservation_exhausts_total_exactly : Prop := forall protocol_bps salvor_bps lp_bps total,
  share_strategy protocol_bps salvor_bps lp_bps -> is_u64 total ->
  exists salvor lp protocol, split_proceeds total salvor_bps lp_bps = Ok (salvor, lp, protocol)
  /\ salvor + lp + protocol = total /\ salvor = total * salvor_bps / 10000 /\ lp = total * lp_bps / 10000
  /\ total * protocol_bps / 10000 <= protocol.

Definition boundary_total (total salvor_bps lp_bps : Z) : Prop :=
  exists salvor lp protocol, split_proceeds total salvor_bps lp_bps = Ok (salvor, lp, protocol)
  /\ salvor + lp + protocol = total
  /\ (total <= 1 -> salvor = 0 /\ lp = 0 /\ protocol = total).
Definition boundary_totals_conserve : Prop := forall protocol_bps salvor_bps lp_bps,
  share_strategy protocol_bps salvor_bps lp_bps ->
  Forall (fun total => boundary_total total salvor_bps lp_bps) [0; 1; 2; u_max 64].

Definition slippage_cap_bounded_and_override_only_tightens : Prop := forall config_bps override_bps,
  is_u16 config_bps -> is_u16 override_bps ->
  let cap := effective_slippage_cap_bps config_bps (Some override_bps) in
  cap <= HARD_MAX_SLIPPAGE_BPS /\ cap <= Z.min config_bps HARD_MAX_SLIPPAGE_BPS
  /\ cap = Z.min (effective_slippage_cap_bps config_bps None) override_bps
  /\ effective_slippage_cap_bps config_bps None = Z.min config_bps HARD_MAX_SLIPPAGE_BPS.

(** ** The orientation *)

(** A synthetic 752-byte [AmmInfo] with the given mints. *)
Definition amm_info_bytes (coin_mint pc_mint lp_mint : Pubkey) : list byte :=
  zeroes 400 ++ coin_mint ++ pc_mint ++ lp_mint ++ zeroes 256.
Definition to_account (bytes : list byte) : AccountInfo := mkAccountInfo (zeroes 32) 0 bytes RAYDIUM_V4_PROGRAM_ID false.
Definition orient (bytes : list byte) := derive_pool_orientation (to_account bytes).

Definition orientation_coin_wsol_derives_true : Prop := forall memecoin lp,
  wf_key memecoin -> wf_key lp -> memecoin <> WSOL_MINT ->
  orient (amm_info_bytes WSOL_MINT memecoin lp) = Ok (true, memecoin, lp).
Definition orientation_pc_wsol_derives_false : Prop := forall memecoin lp,
  wf_key memecoin -> wf_key lp -> memecoin <> WSOL_MINT ->
  orient (amm_info_bytes memecoin WSOL_MINT lp) = Ok (false, memecoin, lp).
Definition orientation_without_wsol_side_fails_closed : Prop := forall a b lp,
  wf_key a -> wf_key b -> wf_key lp -> a <> WSOL_MINT -> b <> WSOL_MINT ->
  orient (amm_info_bytes a b lp) = Err UnsupportedBaseToken.
Definition orientation_with_wsol_on_both_sides_fails_closed : Prop := forall lp,
  wf_key lp -> orient (amm_info_bytes WSOL_MINT WSOL_MINT lp) = Err UnsupportedBaseToken.
Definition orientation_rejects_wrong_pool_size : bool := refused_with (orient (zeroes 100)) PreflightFailed.

(** Scramble every byte outside the three mint windows (which are adjacent). *)
Definition scramble (bytes : list byte) : list byte :=
  imap (fun i b => if (400 <=? i)%nat && (i <? 496)%nat then b else Z_byte (byte_Z b + 90)) bytes.
Definition adv_dc03_orientation_ignores_non_mint_bytes : Prop := forall memecoin lp,
  wf_key memecoin -> wf_key lp -> memecoin <> WSOL_MINT ->
  let bytes := amm_info_bytes WSOL_MINT memecoin lp in
  orient bytes = Ok (true, memecoin, lp) /\ orient (scramble bytes) = orient bytes.

(** ** [pool_registry.rs] and [errors.rs] *)

Definition registry (total claimed : Z) : PoolRegistry := {|
  reg_amm_program_id := zeroes 32; reg_pool_address := zeroes 32; reg_salvor := zeroes 32;
  lp_snapshot_merkle_root := zeroes 32; lp_total_supply_at_snapshot := 1000000;
  lp_holder_pool_total_lamports := total; lp_holder_pool_claimed_lamports := claimed;
  salvaged_at_slot := 0; salvaged_at_ts := 0; reg_bump := 0; reg_reserved := zeroes 64;
|}.

Definition remaining_lamports_saturates_at_zero : bool :=
  same (remaining_lamports (registry 1000 400)) 600 && same (remaining_lamports (registry 1000 1000)) 0
  && same (remaining_lamports (registry 1000 1500)) 0.
Definition is_fully_claimed_boundary : bool :=
  negb (is_fully_claimed (registry 1000 999)) && is_fully_claimed (registry 1000 1000)
  && is_fully_claimed (registry 1000 1500).

Definition on_chain_codes_match_docs : bool :=
  forallb (fun c => same (vault_error_code (fst c)) (snd c)) [
    (VaultState.Unauthorized, 7000); (InvalidEligibilityCert, 7001); (EligibilityCertExpired, 7002);
    (VaultState.ProtocolPaused, 7003); (InvalidShareSplit, 7004); (ProtocolShareExceedsCeiling, 7005);
    (LpHolderPoolUnsweepable, 7006); (SlippageExceeded, 7007); (PriorityFeeExceedsCeiling, 7008);
    (MathOverflow, 7009); (InvalidClaimProof, 7010); (ClaimAlreadyProcessed, 7011); (BelowDustThreshold, 7012);
    (PreflightFailed, 7013); (VaultState.TimelockNotElapsed, 7014); (AmmRedemptionFailed, 7015);
    (JupiterSwapFailed, 7016); (AmmCpiUnimplemented, 7017); (InvalidSnapshotData, 7018);
    (UnsupportedBaseToken, 7019); (DustNothingToSweep, 7020); (DustAlreadySwept, 7021); (InvariantViolation, 7022)].

(** ** The suites pass *)

Lemma vault_tests_pass : all_pass [
  cap_uses_config_value_within_hard_ceiling; cap_clamps_config_to_hard_ceiling; override_only_tightens;
  split_defaults_40_40_20; split_sub_lamport_totals_round_entirely_to_protocol;
  split_asymmetric_shares_remainder_by_construction; split_extreme_shares_stay_exact;
  orientation_rejects_wrong_pool_size; adv_st01_split_fails_closed_on_invalid_sum;
  adv_st02_single_lamport_conserves; remaining_lamports_saturates_at_zero; is_fully_claimed_boundary;
  on_chain_codes_match_docs] = true.
Proof. run_suite. Qed.

(** ** The proptests and the tests over drawn keys hold *)

Lemma share_strategy_range p s l : share_strategy p s l -> 0 <= s /\ 0 <= l /\ 0 <= p /\ s + l + p = BPS_DENOMINATOR.
Proof. unfold BPS_DENOMINATOR. intros []. lia. Qed.

Lemma d7_conservation_holds : d7_conservation_exhausts_total_exactly.
Proof.
  intros p s l total (Hs & Hl & Hp & Hsum)%share_strategy_range Ht.
  destruct (split_conserves total s l p) as (r & -> & Heq & Hr & Hb); [done..|].
  eexists _, _, r. split_and!; [done..|]. unfold BPS_DENOMINATOR in *. apply Z.div_le_upper_bound; lia.
Qed.

(** The boundary test's last three assertions do not hold of every
    configuration its strategy draws: a 100% salvor share takes the one
    lamport. *)
Lemma boundary_totals_conserve_fails : ~ boundary_totals_conserve.
Proof.
  intros H. assert (Hs : share_strategy 0 10000 0) by (by split).
  specialize (H 0 10000 0 Hs). rewrite !Forall_cons in H. destruct H as (_ & (a & b & c & Hok & _ & H) & _).
  vm_compute in Hok. injection Hok as <- <- <-. destruct (H ltac:(lia)). lia.
Qed.

Lemma boundary_totals_below_full p s l :
  share_strategy p s l -> s < 10000 -> Forall (fun total => boundary_total total s l) [0; 1; 2; u_max 64].
Proof.
  intros Hst Hlt. destruct (share_strategy_range _ _ _ Hst) as (Hs & Hl & Hp & Hsum).
  eapply (Forall_impl is_u64); [repeat (constructor; [in_range|]); constructor|]. intros total Ht.
  destruct (split_conserves total s l p) as (r & Hok & Heq & _); [done..|].
  eexists _, _, r. split_and!; [done..|]. intros Hle.
  assert (forall b, 0 <= b < 10000 -> total * b / BPS_DENOMINATOR = 0).
  { intros b Hb. apply Z.div_small. unfold BPS_DENOMINATOR, is_u in *. nia. }
  destruct Hst. rewrite !H in * by lia. lia.
Qed.

Lemma slippage_cap_bounded_holds : slippage_cap_bounded_and_override_only_tightens.
Proof. intros c o Hc Ho cap. unfold cap, effective_slippage_cap_bps. split_and!; lia. Qed.

Lemma amm_mints pre coin pc lp post :
  length pre = 400%nat -> length post = 256%nat -> wf_key coin -> wf_key pc -> wf_key lp ->
  let bytes := pre ++ coin ++ pc ++ lp ++ post in
  len_Z bytes = 752 /\ mint_at bytes 400 = coin /\ mint_at bytes 432 = pc /\ mint_at bytes 464 = lp.
Proof.
  unfold wf_key. intros Hpre Hpost Hc Hp Hl. cbv zeta. unfold mint_at, len_Z.
  rewrite !length_app, Hpre, Hpost, Hc, Hp, Hl. split_and!; [done|..].
  - by apply slice_mid.
  - rewrite app_assoc. apply slice_mid; [rewrite length_app; lia|done].
  - rewrite app_assoc, app_assoc. apply slice_mid; [rewrite !length_app; lia|done].
Qed.

(** The orientation is the mints' alone. *)
Lemma orient_mints pre coin pc lp post :
  length pre = 400%nat -> length post = 256%nat -> wf_key coin -> wf_key pc -> wf_key lp ->
  orient (pre ++ coin ++ pc ++ lp ++ post) =
  if decide (coin = WSOL_MINT /\ pc <> WSOL_MINT) then Ok (true, pc, lp)
  else if decide (pc = WSOL_MINT /\ coin <> WSOL_MINT) then Ok (false, coin, lp)
  else Err UnsupportedBaseToken.
Proof.
  intros Hpre Hpost Hc Hp Hl. destruct (amm_mints pre coin pc lp post) as (Hlen & H1 & H2 & H3); [done..|].
  unfold orient, derive_pool_orientation. cbn [to_account ai_data].
  unfold RAYDIUM_V4_AMM_INFO_SIZE, RAYDIUM_V4_OFF_COIN_MINT, RAYDIUM_V4_OFF_PC_MINT, RAYDIUM_V4_OFF_LP_MINT.
  rewrite Hlen, H1, H2, H3. change (752 =? 752) with true. cbn [require mbind result_bind mret result_ret].
  repeat case_bool_decide; repeat case_decide; simpl; done || naive_solver.
Qed.

Ltac orientation := intros; unfold amm_info_bytes; rewrite orient_mints by done; repeat case_decide; naive_solver.

Lemma orientation_tests_hold :
  orientation_coin_wsol_derives_true /\ orientation_pc_wsol_derives_false
  /\ orientation_without_wsol_side_fails_closed /\ orientation_with_wsol_on_both_sides_fails_closed.
Proof. split_and!; hnf; orientation. Qed.

Lemma imap_window (f : nat -> byte -> byte) l :
  (forall i b, (i < length l)%nat -> f i b = b) -> imap f l = l.
Proof.
  intros Hf. apply list_eq. intros i. rewrite list_lookup_imap.
  destruct (l !! i) as [b|] eqn:Hi; [|done]. simpl. by rewrite Hf by (by eapply lookup_lt_Some).
Qed.

Lemma scramble_info coin pc lp :
  wf_key coin -> wf_key pc -> wf_key lp ->
  exists pre post, length pre = 400%nat /\ length post = 256%nat
  /\ scramble (amm_info_bytes coin pc lp) = pre ++ coin ++ pc ++ lp ++ post.
Proof.
  intros Hc Hp Hl. assert (Hm : length (coin ++ pc ++ lp) = 96%nat) by (rewrite !length_app, Hc, Hp, Hl; done).
  unfold amm_info_bytes. generalize (length_replicate 400 x00), (length_replicate 256 x00).
  fold (zeroes 400) (zeroes 256). generalize (zeroes 400), (zeroes 256). intros pre post Hpre Hpost.
  unfold scramble. set (f := fun _ _ => _). rewrite (app_assoc pc), (app_assoc coin).
  rewrite imap_app, imap_app, (imap_window _ (coin ++ pc ++ lp)).
  - eexists (imap f pre), (imap _ post). rewrite <- !app_assoc, !length_imap. done.
  - rewrite Hm. intros i b Hi. unfold f, compose. rewrite Hpre.
    rewrite (proj2 (Nat.leb_le _ _)), (proj2 (Nat.ltb_lt _ _)) by lia. done.
Qed.

Lemma adv_dc03_holds : adv_dc03_orientation_ignores_non_mint_bytes.
Proof.
  intros m lp Hm Hl Hne bytes. destruct (scramble_info WSOL_MINT m lp) as (pre & post & Hpre & Hpost & Heq); [done..|].
  unfold bytes. rewrite Heq. unfold amm_info_bytes. rewrite !orient_mints by done.
  repeat case_decide; naive_solver.
Qed.

(** The pinned AMM authority is the address Raydium's program derives for its
    pools. *)
Lemma amm_authority_derived :
  chain_pda [list_byte_of_string "amm authority"] RAYDIUM_V4_PROGRAM_ID = (RAYDIUM_V4_AMM_AUTHORITY, 254).
Proof. vm_compute. reflexivity. Qed.
