(* ===== verification/Vault.v ===== *)
(** * Vault: the instructions of GraveVault

    [programs/grave-vault/src/instructions/{initialize, update_protocol_config,
    emergency_pause, claim_lp_proceeds, sweep_dust}.rs] and [lib.rs]: the
    handlers besides [salvage_pool] (Salvage.v), and the program as one
    transition function. *)

From S2P Require Import Prelude Bytes Solana ScannerState Merkle Runtime VaultState Salvage SalvageSpec.

(** ** Configuration *)

Definition zero_default (v d : Z) : Z := if v =? 0 then d else v.

Section Vault.
Context `{PdaDerivation, Runtime, Sha256}.

Definition initialize_config (params : InitializeParams) : result GraveVaultError ProtocolConfig :=
  let lp := zero_default (vip_lp_holder_share_bps params) DEFAULT_LP_HOLDER_SHARE_BPS in
  let salvor := zero_default (vip_salvor_share_bps params) DEFAULT_SALVOR_SHARE_BPS in
  let protocol := zero_default (vip_protocol_share_bps params) DEFAULT_PROTOCOL_SHARE_BPS in
  require (protocol <=? PROTOCOL_SHARE_BPS_CEILING) ProtocolShareExceedsCeiling;;
  require (lp + salvor + protocol =? 10000) InvalidShareSplit;;
  mret {|
    vcfg_authority := vip_authority params;
    vcfg_pending_authority := default_key;
    vcfg_pending_authority_eta := 0;
    lp_holder_share_bps := lp;
    salvor_share_bps := salvor;
    protocol_share_bps := protocol;
    max_priority_fee_ceiling_lamports :=
      zero_default (vip_max_priority_fee_ceiling_lamports params)
        DEFAULT_MAX_PRIORITY_FEE_CEILING_LAMPORTS;
    max_slippage_bps := zero_default (vip_max_slippage_bps params) DEFAULT_MAX_SLIPPAGE_BPS;
    jupiter_dust_threshold_lamports :=
      zero_default (vip_jupiter_dust_threshold_lamports params) DEFAULT_JUPITER_DUST_THRESHOLD_LAMPORTS;
    timelock_seconds := zero_default (vip_timelock_seconds params) DEFAULT_TIMELOCK_SECONDS;
    emergency_paused := false;
    vcfg_bump := vault_bump [PROTOCOL_CONFIG_SEED];
    vcfg_reserved := zeroes 96;
  |}.

Definition initialize (params : InitializeParams) (st : VaultState) : vault_outcome :=
  vinit (vs_config st);;
  cfg ← prog (initialize_config params);
  mret (set_vault_config cfg st, []).

(** [has_one = authority @ Unauthorized] *)
Definition vault_authority_check (cfg : ProtocolConfig) (authority : Pubkey) : result vault_error unit :=
  require (bool_decide (vcfg_authority cfg = authority)) (Program Unauthorized).

Definition apply_update (cfg : ProtocolConfig) (params : UpdateProtocolConfigParams)
    : result GraveVaultError ProtocolConfig :=
  let lp := default (lp_holder_share_bps cfg) (vup_lp_holder_share_bps params) in
  let salvor := default (salvor_share_bps cfg) (vup_salvor_share_bps params) in
  protocol ←
    match vup_protocol_share_bps params with
    | Some v => require (v <=? PROTOCOL_SHARE_BPS_CEILING) ProtocolShareExceedsCeiling;; mret v
    | None => mret (protocol_share_bps cfg)
    end;
  require (lp + salvor + protocol =? 10000) InvalidShareSplit;;
  slippage ←
    match vup_max_slippage_bps params with
    | Some v => require (v <=? 10000) SlippageExceeded;; mret v
    | None => mret (max_slippage_bps cfg)
    end;
  mret {|
    vcfg_authority := vcfg_authority cfg;
    vcfg_pending_authority := vcfg_pending_authority cfg;
    vcfg_pending_authority_eta := vcfg_pending_authority_eta cfg;
    lp_holder_share_bps := lp;
    salvor_share_bps := salvor;
    protocol_share_bps := protocol;
    max_priority_fee_ceiling_lamports :=
      default (max_priority_fee_ceiling_lamports cfg) (vup_max_priority_fee_ceiling_lamports params);
    max_slippage_bps := slippage;
    jupiter_dust_threshold_lamports :=
      default (jupiter_dust_threshold_lamports cfg) (vup_jupiter_dust_threshold_lamports params);
    timelock_seconds := default (timelock_seconds cfg) (vup_timelock_seconds params);
    emergency_paused := emergency_paused cfg;
    vcfg_bump := vcfg_bump cfg;
    vcfg_reserved := vcfg_reserved cfg;
  |}.

Definition update_protocol_config (authority : Pubkey) (params : UpdateProtocolConfigParams)
    (st : VaultState) : vault_outcome :=
  cfg ← vload (vs_config st);
  vault_authority_check cfg authority;;
  cfg' ← prog (apply_update cfg params);
  mret (set_vault_config cfg' st, []).

Definition with_paused (paused : bool) (cfg : ProtocolConfig) : ProtocolConfig := {|
  vcfg_authority := vcfg_authority cfg;
  vcfg_pending_authority := vcfg_pending_authority cfg;
  vcfg_pending_authority_eta := vcfg_pending_authority_eta cfg;
  lp_holder_share_bps := lp_holder_share_bps cfg;
  salvor_share_bps := salvor_share_bps cfg;
  protocol_share_bps := protocol_share_bps cfg;
  max_priority_fee_ceiling_lamports := max_priority_fee_ceiling_lamports cfg;
  max_slippage_bps := max_slippage_bps cfg;
  jupiter_dust_threshold_lamports := jupiter_dust_threshold_lamports cfg;
  timelock_seconds := timelock_seconds cfg;
  emergency_paused := paused;
  vcfg_bump := vcfg_bump cfg;
  vcfg_reserved := vcfg_reserved cfg;
|}.

Definition emergency_pause (authority : Pubkey) (paused : bool) (st : VaultState) : vault_outcome :=
  cfg ← vload (vs_config st);
  vault_authority_check cfg authority;;
  require (negb (Bool.eqb (emergency_paused cfg) paused)) (Program InvariantViolation);;
  mret (set_vault_config (with_paused paused cfg) st, [VaultPauseChanged paused authority]).

(** ** claim_lp_proceeds *)

Definition claim_amount (registry : PoolRegistry) (lp_balance : Z) : result GraveVaultError Z :=
  scaled ← ok_or (checked_mul_u 128 (lp_holder_pool_total_lamports registry) lp_balance) MathOverflow;
  amount ← ok_or (checked_div_u scaled (lp_total_supply_at_snapshot registry)) MathOverflow;
  ok_or (try_into_u 64 amount) MathOverflow.

Definition with_claimed (claimed : Z) (r : PoolRegistry) : PoolRegistry := {|
  reg_amm_program_id := reg_amm_program_id r;
  reg_pool_address := reg_pool_address r;
  reg_salvor := reg_salvor r;
  lp_snapshot_merkle_root := lp_snapshot_merkle_root r;
  lp_total_supply_at_snapshot := lp_total_supply_at_snapshot r;
  lp_holder_pool_total_lamports := lp_holder_pool_total_lamports r;
  lp_holder_pool_claimed_lamports := claimed;
  salvaged_at_slot := salvaged_at_slot r;
  salvaged_at_ts := salvaged_at_ts r;
  reg_bump := reg_bump r;
  reg_reserved := reg_reserved r;
|}.

Definition new_claim (params : ClaimLpProceedsParams) (lp_holder : Pubkey) (clock : Clock)
    (amount : Z) : ClaimRecord := {|
  clm_pool_address := cp_pool_address params;
  clm_lp_holder := lp_holder;
  clm_amount_lamports := amount;
  clm_lp_balance_at_snapshot := cp_lp_balance_at_snapshot params;
  claimed_at_slot := clock_slot clock;
  claimed_at_ts := clock_unix_timestamp clock;
  clm_bump := vault_bump [CLAIM_RECORD_SEED; cp_pool_address params; lp_holder];
  clm_reserved := zeroes 32;
|}.

(** The payment to the holder, signed with the LP-holder vault's own seeds. *)
Definition pay_claim (pool lp_holder : Pubkey) (amount : Z) (L : Ledger) : result vault_error Ledger :=
  if 0 <? amount
  then call (Framework CpiFailed) (CpiTransfer (lp_holder_pool_vault pool) lp_holder amount) L
  else mret L.

Definition claim_lp_proceeds (clock : option Clock) (lp_holder : Pubkey)
    (params : ClaimLpProceedsParams) (st : VaultState) : vault_outcome :=
  let pool := cp_pool_address params in
  registry ← vload (vs_registries st !! pool);
  vinit (vs_claims st !! (pool, lp_holder));;
  clock ← vclock clock;
  require (0 <? cp_lp_balance_at_snapshot params) (Program InvalidClaimProof);;
  require (0 <? lp_total_supply_at_snapshot registry) (Program InvalidClaimProof);;
  require (verify_proof (lp_snapshot_merkle_root registry)
             (compute_leaf lp_holder (cp_lp_balance_at_snapshot params))
             (cp_merkle_proof params)) (Program InvalidClaimProof);;
  amount ← prog (claim_amount registry (cp_lp_balance_at_snapshot params));
  new_claimed ← prog (ok_or (checked_add_u 64 (lp_holder_pool_claimed_lamports registry) amount)
    MathOverflow);
  require (new_claimed <=? lp_holder_pool_total_lamports registry) (Program MathOverflow);;
  L ← pay_claim pool lp_holder amount (vs_ledger st);
  mret
    (set_claim (pool, lp_holder) (new_claim params lp_holder clock amount)
       (set_registry pool (with_claimed new_claimed registry) (set_ledger L st)),
     [LpClaimProcessed pool lp_holder amount]).

(** ** sweep_dust *)

Definition with_swept (ts : Z) (r : SalvageReceipt) : SalvageReceipt := {|
  rcpt_pool_address := rcpt_pool_address r;
  rcpt_salvor := rcpt_salvor r;
  lp_holder_amount_lamports := lp_holder_amount_lamports r;
  salvor_amount_lamports := salvor_amount_lamports r;
  protocol_amount_lamports := protocol_amount_lamports r;
  total_proceeds_lamports := total_proceeds_lamports r;
  issued_at_slot := issued_at_slot r;
  issued_at_ts := issued_at_ts r;
  rcpt_memecoin_mint := rcpt_memecoin_mint r;
  dust_memecoin_lamports := dust_memecoin_lamports r;
  dust_swept_at_ts := ts;
  rcpt_bump := rcpt_bump r;
  rcpt_reserved := rcpt_reserved r;
|}.

Definition sweep_dust (clock : option Clock) (memecoin_mint sweeper pool : Pubkey) (st : VaultState)
    : vault_outcome :=
  let vault_ata := associated_token vault_authority memecoin_mint in
  let treasury_ata := associated_token protocol_treasury memecoin_mint in
  receipt ← vload (vs_receipts st !! pool);
  token_constraint memecoin_mint vault_authority (lg_tokens (vs_ledger st) !! vault_ata);;
  L0 ← init_ata protocol_treasury memecoin_mint (vs_ledger st);
  require (bool_decide (memecoin_mint = rcpt_memecoin_mint receipt)) (Program PreflightFailed);;
  require (dust_swept_at_ts receipt =? 0) (Program DustAlreadySwept);;
  dust ← vload (token_amount L0 vault_ata);
  require (0 <? dust) (Program DustNothingToSweep);;
  clock ← vclock clock;
  L1 ← call (Framework CpiFailed) (CpiTokenTransfer vault_ata treasury_ata vault_authority dust) L0;
  L2 ← call (Framework CpiFailed) (CpiTokenClose vault_ata sweeper vault_authority) L1;
  mret
    (set_receipt pool (with_swept (clock_unix_timestamp clock) receipt) (set_ledger L2 st),
     [DustSwept pool memecoin_mint dust sweeper]).

(** ** The program *)

Inductive VaultIx :=
| IxInitialize (params : InitializeParams)
| IxUpdateProtocolConfig (authority : Pubkey) (params : UpdateProtocolConfigParams)
| IxEmergencyPause (authority : Pubkey) (paused : bool)
| IxSalvagePool (ctx : SalvageCtx) (params : SalvagePoolParams)
| IxClaimLpProceeds (clock : option Clock) (lp_holder : Pubkey) (params : ClaimLpProceedsParams)
| IxSweepDust (clock : option Clock) (memecoin_mint sweeper pool : Pubkey).

Definition vault_exec (ix : VaultIx) (st : VaultState) : vault_outcome :=
  match ix with
  | IxInitialize params => initialize params st
  | IxUpdateProtocolConfig authority params => update_protocol_config authority params st
  | IxEmergencyPause authority paused => emergency_pause authority paused st
  | IxSalvagePool ctx params => salvage_pool ctx params st
  | IxClaimLpProceeds clock lp_holder params => claim_lp_proceeds clock lp_holder params st
  | IxSweepDust clock memecoin_mint sweeper pool => sweep_dust clock memecoin_mint sweeper pool st
  end.
End Vault.
