(* ===== verification/VaultInv.v ===== *)
(** * VaultInv: the vault as a transition system

    Steps are the program's own instructions and everything else that may
    happen on the chain in between; the invariant ties registries, receipts,
    claim records and the SOL actually held. VaultSpec and Payout draw the
    Charter's promises from it. *)

From S2P Require Import Prelude Bytes Solana ScannerState Merkle Runtime VaultState AmmCpi Salvage.
From S2P Require Import SalvageSpec Vault.

(** ** Claims against one pool *)

Definition claim_of (pool : Pubkey) (kc : (Pubkey * Pubkey) * ClaimRecord) : Z :=
  if decide (fst (fst kc) = pool) then clm_amount_lamports (snd kc) else 0.

(** The lamports the pool's claim records say were paid. *)
Definition claims_total (pool : Pubkey) (claims : gmap (Pubkey * Pubkey) ClaimRecord) : Z :=
  sum_Z (map (claim_of pool) (map_to_list claims)).

Lemma claims_total_empty pool : claims_total pool ∅ = 0.
Proof. unfold claims_total. by rewrite map_to_list_empty. Qed.

Lemma claims_total_insert pool k c claims :
  claims !! k = None ->
  claims_total pool (<[k := c]> claims) = claim_of pool (k, c) + claims_total pool claims.
Proof.
  intros Hk. unfold claims_total.
  by rewrite (map_to_list_insert claims k c Hk).
Qed.

Section VaultInv.
Context `{PdaDerivation} `{HR : Runtime} {HRL : RuntimeLaws} `{HS : Sha256} {HSL : Sha256Laws}.
(** The pools in use, and a set of strings without SHA-256 collisions that
    holds everything ever hashed for or against these pools. *)
Variable P : Pubkey -> Prop.
Variable known : list byte -> Prop.

(** ** Steps *)

(** The runtime leaves every account it touches empty or rent-exempt. *)
Definition rent_ok (L : Ledger) : Prop :=
  forall p, P p -> 0 <= lamports L (lp_holder_pool_vault p)
    /\ (lamports L (lp_holder_pool_vault p) = 0 \/ rent_minimum <= lamports L (lp_holder_pool_vault p)).

(** What the runtime itself guarantees of a submitted instruction: PDAs do not
    sign, and parameters have their declared types. *)
Definition ix_typed (ix : VaultIx) : Prop :=
  match ix with
  | IxInitialize params =>
      is_u16 (vip_lp_holder_share_bps params) /\ is_u16 (vip_salvor_share_bps params)
      /\ is_u16 (vip_protocol_share_bps params) /\ is_u16 (vip_max_slippage_bps params)
  | IxUpdateProtocolConfig _ params =>
      (forall v, vup_lp_holder_share_bps params = Some v -> is_u16 v)
      /\ (forall v, vup_salvor_share_bps params = Some v -> is_u16 v)
      /\ (forall v, vup_protocol_share_bps params = Some v -> is_u16 v)
      /\ (forall v, vup_max_slippage_bps params = Some v -> is_u16 v)
  | IxEmergencyPause _ _ => True
  | IxSalvagePool ctx params =>
      P (sp_pool_address params) /\ signed_externally P (outer_signers ctx)
      /\ is_u64 (sp_lp_total_supply_at_snapshot params)
  | IxClaimLpProceeds _ lp_holder params =>
      P (cp_pool_address params) /\ signed_externally P [lp_holder]
      /\ wf_entry (lp_holder, cp_lp_balance_at_snapshot params)
      /\ Forall wf_hash (cp_merkle_proof params)
      /\ Forall known (path_preimages lp_holder (cp_lp_balance_at_snapshot params) (cp_merkle_proof params))
  | IxSweepDust _ _ _ _ => True
  end.

Inductive vault_step (st : VaultState) : VaultState -> Prop :=
| step_ix ix st' evs :
    ix_typed ix -> vault_exec ix st = Ok (st', evs) -> rent_ok (vs_ledger st') -> vault_step st st'
| step_world L :
    (forall p, P p -> lamports (vs_ledger st) (lp_holder_pool_vault p)
                      <= lamports L (lp_holder_pool_vault p)) ->
    wf_tokens (lg_tokens L) -> rent_ok L -> vault_step st (set_ledger L st).

Inductive vault_reachable : VaultState -> Prop :=
| reach_genesis L : wf_tokens (lg_tokens L) -> rent_ok L -> vault_reachable (vault_genesis L)
| reach_step st st' : vault_reachable st -> vault_step st st' -> vault_reachable st'.

(** ** The invariant *)

Record wf_vault_config (c : ProtocolConfig) : Prop := {
  wvc_typed : typed_vault_config c;
  wvc_sum : lp_holder_share_bps c + salvor_share_bps c + protocol_share_bps c = BPS_DENOMINATOR;
  wvc_ceiling : protocol_share_bps c <= PROTOCOL_SHARE_BPS_CEILING;
}.

(** One pool's registry against its claim records and the SOL it holds. *)
Record wf_registry (st : VaultState) (p : Pubkey) (r : PoolRegistry) : Prop := {
  wr_pool : P p;
  wr_address : reg_pool_address r = p;
  wr_total : is_u64 (lp_holder_pool_total_lamports r);
  wr_supply : is_u64 (lp_total_supply_at_snapshot r);
  wr_claimed : lp_holder_pool_claimed_lamports r = claims_total p (vs_claims st);
  wr_bound : 0 <= lp_holder_pool_claimed_lamports r <= lp_holder_pool_total_lamports r;
  wr_solvent :
    rent_minimum + (lp_holder_pool_total_lamports r - lp_holder_pool_claimed_lamports r)
    <= lamports (vs_ledger st) (lp_holder_pool_vault p);
}.

(** A claim record against the registry it was paid from. *)
Record wf_claim (r : PoolRegistry) (h : Pubkey) (c : ClaimRecord) : Prop := {
  wc_entry : wf_entry (h, clm_lp_balance_at_snapshot c);
  wc_positive : 0 < clm_lp_balance_at_snapshot c;
  wc_supply : 0 < lp_total_supply_at_snapshot r;
  wc_amount : clm_amount_lamports c =
    lp_holder_pool_total_lamports r * clm_lp_balance_at_snapshot c / lp_total_supply_at_snapshot r;
  wc_proof : exists proof, Forall wf_hash proof
    /\ Forall known (path_preimages h (clm_lp_balance_at_snapshot c) proof)
    /\ verify_proof (lp_snapshot_merkle_root r) (compute_leaf h (clm_lp_balance_at_snapshot c)) proof = true;
}.

(** A receipt against the registry of the same salvage. *)
Record wf_receipt (r : PoolRegistry) (q : SalvageReceipt) : Prop := {
  wq_pool : rcpt_pool_address q = reg_pool_address r;
  wq_salvor : rcpt_salvor q = reg_salvor r;
  wq_lp : lp_holder_amount_lamports q = lp_holder_pool_total_lamports r;
  wq_sum : salvor_amount_lamports q + lp_holder_amount_lamports q + protocol_amount_lamports q
           = total_proceeds_lamports q;
}.

Record vault_inv (st : VaultState) : Prop := {
  vi_config c : vs_config st = Some c -> wf_vault_config c;
  vi_tokens : wf_tokens (lg_tokens (vs_ledger st));
  vi_rent : rent_ok (vs_ledger st);
  vi_registry p r : vs_registries st !! p = Some r -> wf_registry st p r;
  vi_claim p h c : vs_claims st !! (p, h) = Some c ->
    exists r, vs_registries st !! p = Some r /\ wf_claim r h c;
  vi_receipt p q : vs_receipts st !! p = Some q ->
    exists r, vs_registries st !! p = Some r /\ wf_receipt r q;
  vi_has_receipt p r : vs_registries st !! p = Some r -> is_Some (vs_receipts st !! p);
}.

Lemma vault_inv_genesis L : wf_tokens (lg_tokens L) -> rent_ok L -> vault_inv (vault_genesis L).
Proof. intros Hwf Hr. constructor; simpl; try done; intros; by simplify_map_eq. Qed.

(** ** Effects of each instruction *)

Lemma zero_default_u16 v d : is_u16 v -> is_u16 d -> is_u16 (zero_default v d).
Proof. unfold zero_default. by destruct (v =? 0). Qed.

Lemma initialize_config_wf params c :
  ix_typed (IxInitialize params) -> initialize_config params = Ok c -> wf_vault_config c.
Proof.
  intros (H1 & H2 & H3 & H4) Hi. unfold initialize_config in Hi. res_inv Hi. bool_simpl.
  constructor; [constructor; simpl; apply zero_default_u16; done || in_range|done..].
Qed.

Lemma apply_update_wf cfg params c a :
  ix_typed (IxUpdateProtocolConfig a params) -> wf_vault_config cfg ->
  apply_update cfg params = Ok c -> wf_vault_config c.
Proof.
  intros (H1 & H2 & H3 & H4) [[T1 T2 T3 T4] Hsum Hceil] Hu. unfold apply_update in Hu.
  apply bind_Ok in Hu as (prot & Hp & Hu). apply bind_Ok in Hu as ([] & Hs & Hu).
  apply bind_Ok in Hu as (slip & Hsl & Hu). injection Hu as <-. apply require_Ok in Hs.
  assert (Hprot : is_u16 prot /\ prot <= PROTOCOL_SHARE_BPS_CEILING).
  { destruct (vup_protocol_share_bps params); res_inv Hp; bool_simpl; auto. }
  assert (Hslip : is_u16 slip).
  { destruct (vup_max_slippage_bps params); res_inv Hsl; auto. }
  destruct Hprot as [Hprot Hpc]. bool_simpl. constructor; [constructor; simpl; try done|done..].
  - destruct (vup_lp_holder_share_bps params); simpl; auto.
  - destruct (vup_salvor_share_bps params); simpl; auto.
Qed.

(** ** A claim *)

(** The conditions and the result of a successful claim. *)
Record claimed_by (clock : option Clock) (h : Pubkey) (params : ClaimLpProceedsParams) (st : VaultState)
    (r : PoolRegistry) (ck : Clock) (amount : Z) (L : Ledger) : Prop := {
  cb_registry : vs_registries st !! cp_pool_address params = Some r;
  cb_fresh : vs_claims st !! (cp_pool_address params, h) = None;
  cb_clock : clock = Some ck;
  cb_balance : 0 < cp_lp_balance_at_snapshot params;
  cb_supply : 0 < lp_total_supply_at_snapshot r;
  cb_proof : verify_proof (lp_snapshot_merkle_root r)
    (compute_leaf h (cp_lp_balance_at_snapshot params)) (cp_merkle_proof params) = true;
  cb_amount : amount = lp_holder_pool_total_lamports r * cp_lp_balance_at_snapshot params
                       / lp_total_supply_at_snapshot r;
  cb_bound : lp_holder_pool_claimed_lamports r + amount <= lp_holder_pool_total_lamports r;
  cb_paid : (amount = 0 /\ L = vs_ledger st)
    \/ (0 < amount /\ invoke (CpiTransfer (lp_holder_pool_vault (cp_pool_address params)) h amount)
          (vs_ledger st) = Some L);
}.

Definition claim_state (params : ClaimLpProceedsParams) (h : Pubkey) (r : PoolRegistry) (ck : Clock)
    (amount : Z) (L : Ledger) (st : VaultState) : VaultState :=
  set_claim (cp_pool_address params, h) (new_claim params h ck amount)
    (set_registry (cp_pool_address params)
       (with_claimed (lp_holder_pool_claimed_lamports r + amount) r) (set_ledger L st)).

Definition typed_registry (r : PoolRegistry) : Prop :=
  is_u64 (lp_holder_pool_total_lamports r) /\ is_u64 (lp_total_supply_at_snapshot r)
  /\ 0 <= lp_holder_pool_claimed_lamports r.

Lemma claim_amount_Ok r b n :
  typed_registry r -> is_u64 b -> 0 < lp_total_supply_at_snapshot r ->
  claim_amount r b = Ok n <->
  n = lp_holder_pool_total_lamports r * b / lp_total_supply_at_snapshot r /\ is_u64 n.
Proof.
  intros (Ht & Hs & _) Hb Hpos. unfold claim_amount, checked_mul_u, checked_div_u.
  rewrite (proj2 (in_u_spec 128 _)) by (unfold_ints; nia). cbn [mbind result_bind ok_or].
  rewrite (proj2 (Z.eqb_neq _ 0)) by lia. cbn [mbind result_bind ok_or].
  rewrite ok_or_Ok, try_into_u_Some. split; intros [-> ?]; done.
Qed.

Lemma claim_iff clock h params st st' evs :
  (forall r, vs_registries st !! cp_pool_address params = Some r -> typed_registry r) ->
  is_u64 (cp_lp_balance_at_snapshot params) ->
  claim_lp_proceeds clock h params st = Ok (st', evs) <->
  exists r ck amount L, claimed_by clock h params st r ck amount L
    /\ st' = claim_state params h r ck amount L st
    /\ evs = [LpClaimProcessed (cp_pool_address params) h amount].
Proof.
  intros Hty Hb. split.
  - intros Hc. unfold claim_lp_proceeds in Hc.
    apply bind_Ok in Hc as (r & Hr & Hc). apply bind_Ok in Hc as ([] & Hf & Hc).
    apply bind_Ok in Hc as (ck & Hck & Hc). do 3 apply bind_Ok in Hc as ([] & ?%require_Ok & Hc).
    apply bind_Ok in Hc as (a & Ha & Hc). apply bind_Ok in Hc as (n & Hn & Hc).
    apply bind_Ok in Hc as ([] & Hle%require_Ok & Hc). apply bind_Ok in Hc as (L & HL & Hc).
    injection Hc as <- <-. apply (proj1 (prog_Ok _ _)) in Ha, Hn. apply ok_or_Ok in Hr, Hck, Hn.
    apply (proj1 (vinit_Ok _ _)) in Hf. bool_simpl. checked_inv.
    specialize (Hty r Hr). apply claim_amount_Ok in Ha as [-> Hu]; [|done..].
    exists r, ck. eexists _, L. split; [|split; reflexivity]. constructor; try done.
    unfold pay_claim in HL. destruct (0 <? _) eqn:Hpos; bool_simpl.
    + apply ok_or_Ok in HL. by right.
    + injection HL as <-. left. split; [unfold is_u in Hu; lia|done].
  - intros (r & ck & a & L & [Hr Hf -> Hbal Hsup Hp Ha Hle Hpay] & -> & ->).
    destruct (Hty r Hr) as (Ht & Hs & Hcl). unfold claim_lp_proceeds.
    assert (Hnn : 0 <= a) by (subst a; apply Z.div_pos; unfold_ints; nia).
    rewrite Hr, Hf. cbn [vload ok_or mbind result_bind vinit mret result_ret vclock].
    rewrite !(proj2 (Z.ltb_lt 0 _)) by done. cbn [require mbind result_bind].
    rewrite Hp. cbn [require mbind result_bind].
    rewrite (proj2 (claim_amount_Ok r _ a ltac:(done) Hb Hsup)) by (split; [done|unfold_ints; lia]).
    cbn [prog map_err mbind result_bind].
    rewrite (proj2 (checked_add_u_Some 64 _ a _)) by (split; [reflexivity|unfold_ints; lia]).
    cbn [prog map_err ok_or mbind result_bind]. rewrite (proj2 (Z.leb_le _ _) Hle).
    cbn [require mbind result_bind]. unfold pay_claim, call.
    destruct Hpay as [[-> ->]|[Hpos ->]]; [done|]. by rewrite (proj2 (Z.ltb_lt 0 a) Hpos).
Qed.

(** ** Preservation *)

Context (HD : lp_vaults_distinct P).

Lemma claim_lamports clock h params st r ck a L :
  claimed_by clock h params st r ck a L ->
  (forall k, lamports L k = lamports (vs_ledger st) k
     - to_account (lp_holder_pool_vault (cp_pool_address params)) a k + to_account h a k)
  /\ lg_tokens L = lg_tokens (vs_ledger st) /\ 0 <= a.
Proof.
  intros [_ _ _ _ _ _ _ _ [[-> ->]|[Hpos Hi]]].
  - split_and!; [|done..]. intros k. unfold to_account. repeat case_decide; lia.
  - apply transfer_moves in Hi as [_ ->]. split_and!; [|done|lia]. intros k. apply move_lamports_at.
Qed.

(** A pool nobody claimed from has no claims. *)
Lemma claims_total_none (p : Pubkey) (claims : gmap (Pubkey * Pubkey) ClaimRecord) :
  (forall h, claims !! (p, h) = None) -> claims_total p claims = 0.
Proof.
  intros Hn. unfold claims_total.
  assert (Hall : forall x, x ∈ map_to_list claims -> claim_of p x = 0).
  { intros [[p' h] c] Hin. apply elem_of_map_to_list in Hin. unfold claim_of. simpl.
    case_decide; [subst|done]. by rewrite Hn in Hin. }
  induction (map_to_list claims) as [|x l IH]; [done|]. unfold sum_Z in *. simpl.
  rewrite IH by (intros; apply Hall; by right). rewrite Hall by left. done.
Qed.

(** Moving SOL around without debiting the LP-holder accounts. *)
Lemma wf_registry_credited st st' p r :
  vs_claims st' = vs_claims st ->
  lamports (vs_ledger st) (lp_holder_pool_vault p) <= lamports (vs_ledger st') (lp_holder_pool_vault p) ->
  wf_registry st p r -> wf_registry st' p r.
Proof. intros Hc Hl [? ? ? ? ? ? ?]. constructor; try done; [congruence|lia]. Qed.

(** A step that keeps registries, claims and configuration well formed and only
    credits the LP-holder accounts. *)
Lemma vault_inv_credited st st' :
  vault_inv st -> vs_registries st' = vs_registries st -> vs_claims st' = vs_claims st ->
  (forall p q', vs_receipts st' !! p = Some q' -> exists q, vs_receipts st !! p = Some q
     /\ forall r, wf_receipt r q -> wf_receipt r q') ->
  (forall p, is_Some (vs_receipts st !! p) -> is_Some (vs_receipts st' !! p)) ->
  (forall c, vs_config st' = Some c -> wf_vault_config c) ->
  wf_tokens (lg_tokens (vs_ledger st')) -> rent_ok (vs_ledger st') ->
  (forall p, P p -> lamports (vs_ledger st) (lp_holder_pool_vault p)
                    <= lamports (vs_ledger st') (lp_holder_pool_vault p)) ->
  vault_inv st'.
Proof.
  intros [Ic It Ir Ireg Icl Irc Ih] Hreg Hcl Hrc Hrc' Hcfg Htok Hrent Hlam.
  constructor; try done; rewrite ?Hreg, ?Hcl.
  - intros p r Hr. specialize (Ireg p r Hr). eapply wf_registry_credited; [done| |done].
    apply Hlam, Ireg.
  - done.
  - intros p q' Hq. destruct (Hrc p q' Hq) as (q & Hq0 & Hwf).
    destruct (Irc p q Hq0) as (r & Hr & Hwr). eauto.
  - intros p r Hr. eauto.
Qed.

Lemma wf_registry_typed st p r : wf_registry st p r -> typed_registry r.
Proof. intros [_ _ Ht Hs _ Hb _]. split_and!; [done..|lia]. Qed.

(** In a well-formed state every registry a claim can meet is typed. *)
Lemma vault_inv_typed st p r : vault_inv st -> vs_registries st !! p = Some r -> typed_registry r.
Proof. intros Hinv Hr. eapply wf_registry_typed, vi_registry; done. Qed.

Lemma vault_inv_claim clock h params st r ck a L :
  vault_inv st -> ix_typed (IxClaimLpProceeds clock h params) ->
  claimed_by clock h params st r ck a L -> rent_ok L ->
  vault_inv (claim_state params h r ck a L st).
Proof.
  intros [Ic It Ir Ireg Icl Irc Ih] (HP & Hext & He & Hp & Hk) Hc Hrent.
  destruct (claim_lamports _ _ _ _ _ _ _ _ Hc) as (Hlam & Htok & Hnn).
  set (p := cp_pool_address params) in *.
  destruct Hc as [Hr Hf Hck Hb Hs Hv Ha Hle _]. fold p in Hr, Hf.
  assert (Hh : h <> lp_holder_pool_vault p).
  { intros ->. apply (Hext p HP). left. }
  constructor; unfold claim_state; simpl; try done; fold p.
  - by rewrite Htok.
  - intros p' r' Hr'. destruct (decide (p' = p)) as [->|Hne].
    + rewrite lookup_insert_eq in Hr'. injection Hr' as <-. destruct (Ireg p r Hr).
      constructor; simpl; try done.
      * rewrite claims_total_insert by done. unfold claim_of. simpl. rewrite decide_True by done. lia.
      * lia.
      * rewrite Hlam, to_account_self, to_account_other by done. lia.
    + rewrite lookup_insert_ne in Hr' by done. destruct (Ireg p' r' Hr').
      constructor; simpl; try done.
      * rewrite claims_total_insert by done. unfold claim_of. simpl. rewrite decide_False by done. lia.
      * rewrite Hlam, to_account_other; [|intros Heq; by apply (lvd_inj _ HD) in Heq].
        assert (Hcr := to_account_nonneg h a (lp_holder_pool_vault p') Hnn). lia.
  - intros p' h' c Hc. destruct (decide ((p', h') = (p, h))) as [[= -> ->]|Hne].
    + rewrite lookup_insert_eq in Hc. injection Hc as <-. rewrite lookup_insert_eq.
      eexists. split; [done|]. constructor; simpl; eauto.
    + rewrite lookup_insert_ne in Hc by done. destruct (Icl p' h' c Hc) as (r' & Hr' & [? ? ? ? ?]).
      destruct (decide (p' = p)) as [->|].
      * rewrite lookup_insert_eq. rewrite Hr in Hr'. injection Hr' as <-.
        eexists. split; [done|]. by constructor.
      * rewrite lookup_insert_ne by done. eexists. split; [done|]. by constructor.
  - intros p' q Hq. destruct (Irc p' q Hq) as (r' & Hr' & [? ? ? ?]).
    destruct (decide (p' = p)) as [->|].
    + rewrite lookup_insert_eq. rewrite Hr in Hr'. injection Hr' as <-.
      eexists. split; [done|]. by constructor.
    + rewrite lookup_insert_ne by done. eexists. split; [done|]. by constructor.
  - intros p' r' Hr'. destruct (decide (p' = p)) as [->|Hne]; [eauto|].
    rewrite lookup_insert_ne in Hr' by done. eauto.
Qed.

Lemma vault_inv_salvage ctx params st t :
  vault_inv st -> ix_typed (IxSalvagePool ctx params) -> traced ctx params st t ->
  rent_ok (tr_paid t) -> vault_inv (trace_state ctx params st t).
Proof.
  intros Hinv (HP & Hext & Hsup) Ht Hrent.
  assert (Had := traced_admissible _ _ _ _ Ht).
  destruct Hinv as [Ic It Ir Ireg Icl Irc Ih].
  assert (Hty : typed_vault_config (tr_cfg t)) by apply (Ic _ (ad_config _ _ _ _ _ _ Had)).
  assert (Hsh := traced_shares _ _ _ _ It Hty Ht).
  assert (Hcred : forall q, P q -> _) by
    (intros q HQ; exact (salvage_credits P HD ctx params st t q It Hty Ht HP HQ Hext
       (proj1 (Ir q HQ)) (proj2 (Ir q HQ)))).
  destruct (traced_wf _ _ _ _ It Ht) as [_ Hwf].
  destruct Hsh as [Hpos Hs Hl Hsum (Hs0 & Hl0 & Hp0) _].
  destruct (pay_shares_Ok _ _ _ _ _ _ _ Hs0 Hl0 Hp0 (tf_paid _ _ _ _ Ht)) as [_ Htok].
  assert (Hfresh := ad_fresh _ _ _ _ _ _ Had).
  set (p := sp_pool_address params) in *.
  assert (Hnone : forall h, vs_claims st !! (p, h) = None).
  { intros h. destruct (vs_claims st !! (p, h)) eqn:Hc; [|done].
    destruct (Icl p h _ Hc) as (r & Hr & _). by rewrite Hfresh in Hr. }
  constructor; unfold trace_state; simpl; try done; fold p.
  - by rewrite Htok.
  - intros p' r Hr. destruct (decide (p' = p)) as [->|Hne].
    + rewrite lookup_insert_eq in Hr. injection Hr as <-.
      constructor; simpl; try done.
      * unfold_ints. lia.
      * by rewrite claims_total_none.
      * rewrite Z.sub_0_r. by apply Hcred.
    + rewrite lookup_insert_ne in Hr by done. specialize (Ireg p' r Hr).
      eapply wf_registry_credited; [| |exact Ireg]; [done|].
      destruct (Hcred p' (wr_pool _ _ _ Ireg)) as [Hc _]. rewrite to_account_other in Hc by done.
      simpl. lia.
  - intros p' h c Hc. destruct (Icl p' h c Hc) as (r & Hr & Hw). exists r.
    rewrite lookup_insert_ne; [done|]. intros <-. by rewrite Hnone in Hc.
  - intros p' q Hq. destruct (decide (p' = p)) as [->|Hne].
    + rewrite lookup_insert_eq in Hq. rewrite lookup_insert_eq. injection Hq as <-. eexists. split; [done|].
      constructor; simpl; try done.
    + rewrite lookup_insert_ne in Hq by done. rewrite lookup_insert_ne by done. eauto.
  - intros p' r Hr. destruct (decide (p' = p)) as [->|Hne].
    + rewrite lookup_insert_eq. eauto.
    + rewrite lookup_insert_ne in Hr by done. rewrite lookup_insert_ne by done. eauto.
Qed.

(** What a successful sweep did. *)
Record swept (clock : option Clock) (mint sweeper pool : Pubkey) (st st' : VaultState)
    (q : SalvageReceipt) (ck : Clock) (dust : Z) (L0 L1 : Ledger) : Prop := {
  sd_receipt : vs_receipts st !! pool = Some q;
  sd_clock : clock = Some ck;
  sd_mint : mint = rcpt_memecoin_mint q;
  sd_unswept : dust_swept_at_ts q = 0;
  sd_treasury : init_ata protocol_treasury mint (vs_ledger st) = Ok L0;
  sd_dust : token_amount L0 (associated_token vault_authority mint) = Some dust;
  sd_positive : 0 < dust;
  sd_transfer : invoke (CpiTokenTransfer (associated_token vault_authority mint)
    (associated_token protocol_treasury mint) vault_authority dust) L0 = Some L1;
  sd_close : invoke (CpiTokenClose (associated_token vault_authority mint) sweeper vault_authority) L1
    = Some (vs_ledger st');
  sd_state : st' = set_receipt pool (with_swept (clock_unix_timestamp ck) q)
    (set_ledger (vs_ledger st') st);
}.

Lemma sweep_dust_Ok clock mint sweeper pool st st' evs :
  sweep_dust clock mint sweeper pool st = Ok (st', evs) ->
  exists q ck dust L0 L1, swept clock mint sweeper pool st st' q ck dust L0 L1
    /\ evs = [DustSwept pool mint dust sweeper].
Proof.
  intros Hs. unfold sweep_dust in Hs.
  apply bind_Ok in Hs as (q & Hq & Hs). apply bind_Ok in Hs as ([] & _ & Hs).
  apply bind_Ok in Hs as (L0 & H0 & Hs). apply bind_Ok in Hs as ([] & Hm%require_Ok & Hs).
  apply bind_Ok in Hs as ([] & Hu%require_Ok & Hs). apply bind_Ok in Hs as (d & Hd & Hs).
  apply bind_Ok in Hs as ([] & Hp%require_Ok & Hs). apply bind_Ok in Hs as (ck & Hck & Hs).
  apply bind_Ok in Hs as (L1 & H1 & Hs). apply bind_Ok in Hs as (L2 & H2 & Hs).
  injection Hs as <- <-. apply ok_or_Ok in Hq, Hd, Hck, H1, H2. bool_simpl.
  exists q, ck, d, L0, L1. split; [|done]. by constructor.
Qed.

Lemma swept_credits clock mint sweeper pool st st' q ck dust L0 L1 p :
  P p -> swept clock mint sweeper pool st st' q ck dust L0 L1 ->
  lamports (vs_ledger st) (lp_holder_pool_vault p) <= lamports (vs_ledger st') (lp_holder_pool_vault p).
Proof.
  intros HP [_ _ _ _ H0 _ _ H1 H2 _]. assert (Hv := lvd_authority _ HD p HP).
  apply (init_ata_lamports _ _ _ _ (lp_holder_pool_vault p)) in H0.
  apply (unsigned_not_debited _ _ _ (lp_holder_pool_vault p)) in H1, H2; [|simpl; set_solver|apply vault_pda_is|simpl; set_solver|apply vault_pda_is].
  lia.
Qed.

Lemma vault_inv_sweep clock mint sweeper pool st st' evs :
  vault_inv st -> sweep_dust clock mint sweeper pool st = Ok (st', evs) -> rent_ok (vs_ledger st') ->
  vault_inv st'.
Proof.
  intros Hinv Hs Hrent. apply sweep_dust_Ok in Hs as (q & ck & dust & L0 & L1 & Hs & _).
  assert (Hcr := fun p HP => swept_credits _ _ _ _ _ _ _ _ _ _ _ p HP Hs).
  assert (Hwf : wf_tokens (lg_tokens (vs_ledger st'))).
  { destruct Hs as [_ _ _ _ H0 _ _ H1 H2 _]. apply init_ata_wf in H0 as [H0 _]; [|apply Hinv].
    eapply invoke_wf; [|exact H2]. by eapply invoke_wf. }
  assert (Hst := sd_state _ _ _ _ _ _ _ _ _ _ _ Hs). assert (Hq := sd_receipt _ _ _ _ _ _ _ _ _ _ _ Hs).
  assert (Hrec : vs_receipts st' = <[pool := with_swept (clock_unix_timestamp ck) q]> (vs_receipts st))
    by (by rewrite Hst).
  assert (Hcfg : vs_config st' = vs_config st) by (by rewrite Hst).
  apply (vault_inv_credited st st' Hinv); try done; rewrite ?Hrec, ?Hcfg.
  - by rewrite Hst.
  - by rewrite Hst.
  - intros p q'. destruct (decide (p = pool)) as [->|Hne].
    + rewrite lookup_insert_eq. intros [= <-]. exists q. split; [done|]. by intros r [? ? ? ?].
    + rewrite lookup_insert_ne by done. eauto.
  - intros p [q' Hq']. destruct (decide (p = pool)) as [->|Hne].
    + rewrite lookup_insert_eq. eauto.
    + rewrite lookup_insert_ne by done. eauto.
  - apply Hinv.
Qed.

Lemma vault_inv_config st c :
  vault_inv st -> wf_vault_config c -> vault_inv (set_vault_config c st).
Proof.
  intros Hinv Hc. apply (vault_inv_credited st _ Hinv); try done.
  - eauto.
  - intros c' [= <-]. done.
  - apply Hinv.
  - apply Hinv.
Qed.

Lemma vault_inv_exec ix st st' evs :
  vault_inv st -> ix_typed ix -> vault_exec ix st = Ok (st', evs) -> rent_ok (vs_ledger st') ->
  vault_inv st'.
Proof.
  intros Hinv Hty Hx Hrent. destruct ix as [params|a params|a b|ctx params|clock h params|clock m sw pool];
    cbn [vault_exec] in Hx.
  - unfold initialize in Hx. vault_inv Hx. apply vault_inv_config; [done|].
    by eapply initialize_config_wf.
  - unfold update_protocol_config in Hx. vault_inv Hx. apply vault_inv_config; [done|].
    eapply apply_update_wf; [done| |done]. by apply (vi_config _ Hinv).
  - unfold emergency_pause in Hx. vault_inv Hx. apply vault_inv_config; [done|].
    match goal with Hc : vs_config st = Some _ |- _ => destruct (vi_config _ Hinv _ Hc) as [[? ? ? ?] ? ?] end.
    by constructor.
  - apply salvage_pool_traced in Hx as (t & Ht & -> & _). by apply vault_inv_salvage.
  - assert (He : is_u64 (cp_lp_balance_at_snapshot params)) by apply Hty.
    apply claim_iff in Hx as (r & ck & am & L & Hc & -> & _); [| |done].
    + by eapply vault_inv_claim.
    + intros r Hr. by eapply vault_inv_typed.
  - by eapply vault_inv_sweep.
Qed.

Lemma vault_inv_step st st' : vault_inv st -> vault_step st st' -> vault_inv st'.
Proof.
  intros Hinv Hstep. destruct Hstep as [ix st' evs Hty Hx Hr|L Hcr Hwf Hr].
  - by eapply vault_inv_exec.
  - apply (vault_inv_credited st _ Hinv); try done; [eauto|apply Hinv].
Qed.

Lemma vault_reachable_inv st : vault_reachable st -> vault_inv st.
Proof.
  induction 1; [by apply vault_inv_genesis|by eapply vault_inv_step].
Qed.
End VaultInv.
