(* ===== verification/SalvageLive.v ===== *)
(** * SalvageLive: settlement cannot fail

    [salvage_pool] in two halves: redeeming (everything up to the unwrapped
    proceeds, where the AMM and the aggregator have their say) and settling (the
    vault's own arithmetic and payments). In a well-formed state nothing in the
    second half fails but its last statement, the reading of the leftover
    memecoin, and that only when the memecoin account is gone. *)

From S2P Require Import Prelude Bytes Solana ScannerState Merkle Runtime VaultState AmmCpi Salvage.
From S2P Require Import SalvageSpec Vault VaultInv.

Section Halves.
Context `{PdaDerivation, Runtime}.

(** What the redemption leaves for the settlement. *)
Record redeemed := mkRedeemed {
  rd_cfg : ProtocolConfig;
  rd_clock : Clock;
  rd_closing : Ledger;      (* before the WSOL account is closed *)
  rd_total : Z;
  rd_unwrapped : Ledger;    (* after *)
}.

(** [salvage_pool] up to the proceeds. *)
Definition redeem (ctx : SalvageCtx) (params : SalvagePoolParams) (st : VaultState) : result vault_error redeemed :=
  let pool := sp_pool_address params in
  '(cfg, cert, L0) ← salvage_accounts ctx params st;
  clock ← vclock (sx_clock ctx);
  prog (preflight ctx params cfg cert clock);;
  L1 ← lazy_init_system_pda (lp_holder_pool_vault pool) (sx_salvor ctx) L0;
  L2 ← lazy_init_system_pda (vault_sol_holding_account pool) (sx_salvor ctx) L1;
  base_is_coin_side ← prog (bind_pool ctx params);
  '(L3, removal) ← dispatch_remove_liquidity (removal_input ctx params base_is_coin_side) L2;
  L4 ← conversion_leg ctx params cfg base_is_coin_side removal L3;
  '(total, L5) ← unwrap_wsol params L4;
  mret (mkRedeemed cfg clock L4 total L5).

(** ... and from there on. *)
Definition settle (ctx : SalvageCtx) (params : SalvagePoolParams) (rd : redeemed) (st : VaultState) : vault_outcome :=
  let pool := sp_pool_address params in
  prog (check_shares (rd_cfg rd));;
  '(salvor_share, lp_holder_share, protocol_share) ←
    prog (split_proceeds (rd_total rd) (salvor_share_bps (rd_cfg rd)) (lp_holder_share_bps (rd_cfg rd)));
  L6 ← pay_shares pool (sx_salvor ctx) salvor_share lp_holder_share protocol_share (rd_unwrapped rd);
  dust ← vload (token_amount L6 (memecoin_ata ctx));
  mret
    (set_receipt pool
       (new_receipt ctx params (rd_clock rd) salvor_share lp_holder_share protocol_share (rd_total rd) dust)
       (set_registry pool (new_registry ctx params (rd_clock rd) lp_holder_share) (set_ledger L6 st)),
     [ PoolSalvaged (sp_amm_program_id params) pool (sx_salvor ctx)
         lp_holder_share salvor_share protocol_share;
       SalvageCompleted pool (sx_salvor ctx) (rd_total rd) ]).

Lemma salvage_halves ctx params st :
  salvage_pool ctx params st = (rd ← redeem ctx params st; settle ctx params rd st).
Proof.
  unfold salvage_pool, redeem.
  repeat match goal with
  | |- mbind _ ?m = _ => destruct m as [?|?]; cbn [mbind result_bind]; [|reflexivity]
  | p : _ * _ |- _ => destruct p
  end; reflexivity.
Qed.
End Halves.

Section Settle.
Context `{PdaDerivation} `{HR : Runtime} {HRL : RuntimeLaws} `{HS : Sha256}.

Lemma check_shares_total cfg : wf_vault_config cfg -> check_shares cfg = Ok tt.
Proof.
  intros [[Hl Hs Hp _] Hsum Hceil]. unfold check_shares, BPS_DENOMINATOR in *.
  unfold checked_add_u. rewrite (proj2 (in_u_spec 16 _)) by ints. cbn [mbind option_bind].
  rewrite (proj2 (in_u_spec 16 _)) by ints. cbn [ok_or mbind result_bind].
  rewrite Hsum, Z.eqb_refl. cbn [require mbind result_bind]. apply require_true. bool_goal. done.
Qed.

Lemma transfer_holding_total source to n L :
  0 <= n -> rent_minimum + n <= lamports L source ->
  exists L', transfer_from_vault_sol_holding source to n L = Ok L'.
Proof.
  intros Hn Hl. unfold transfer_from_vault_sol_holding, call. destruct (n =? 0); [by eexists|].
  rewrite transfer_accepted by lia. by eexists.
Qed.

(** An account with the three shares and its rent pays them. *)
Lemma pay_shares_total pool salvor s l p L :
  0 <= s -> 0 <= l -> 0 <= p -> rent_minimum + (s + l + p) <= lamports L (vault_sol_holding_account pool) ->
  exists L', pay_shares pool salvor s l p L = Ok L'.
Proof.
  intros Hs Hl Hp Hb. unfold pay_shares. set (h := vault_sol_holding_account pool) in *.
  destruct (transfer_holding_total h salvor s L) as [L1 H1]; [done|lia|].
  pose proof (transfer_holding_Ok _ _ _ _ _ Hs H1) as [F1 _].
  assert (B1 : rent_minimum + (l + p) <= lamports L1 h).
  { rewrite F1, to_account_self. pose proof (to_account_nonneg salvor s h Hs). lia. }
  destruct (transfer_holding_total h (lp_holder_pool_vault pool) l L1) as [L2 H2]; [done|lia|].
  pose proof (transfer_holding_Ok _ _ _ _ _ Hl H2) as [F2 _].
  assert (B2 : rent_minimum + p <= lamports L2 h).
  { rewrite F2, to_account_self. pose proof (to_account_nonneg (lp_holder_pool_vault pool) l h Hl). lia. }
  destruct (transfer_holding_total h protocol_treasury p L2) as [L3 H3]; [done..|].
  exists L3. rewrite H1. cbn [mbind result_bind]. rewrite H2. cbn [mbind result_bind]. exact H3.
Qed.

(** What the settlement of [rd] commits, and what it emits. *)
Definition settled (ctx : SalvageCtx) (params : SalvagePoolParams) (rd : redeemed) (st : VaultState)
    (s l p dust : Z) (L : Ledger) : VaultState :=
  let pool := sp_pool_address params in
  set_receipt pool (new_receipt ctx params (rd_clock rd) s l p (rd_total rd) dust)
    (set_registry pool (new_registry ctx params (rd_clock rd) l) (set_ledger L st)).
Definition settlement_events (ctx : SalvageCtx) (params : SalvagePoolParams) (rd : redeemed) (s l p : Z)
    : list VaultEvent :=
  [ PoolSalvaged (sp_amm_program_id params) (sp_pool_address params) (sx_salvor ctx) l s p;
    SalvageCompleted (sp_pool_address params) (sx_salvor ctx) (rd_total rd) ].

(** The settlement of a well-formed redemption pays, and then reads the dust. *)
Lemma settle_total ctx params rd st :
  wf_vault_config (rd_cfg rd) -> 0 < rd_total rd -> is_u64 (rd_total rd) ->
  rent_minimum + rd_total rd <= lamports (rd_unwrapped rd) (vault_sol_holding_account (sp_pool_address params)) ->
  exists s l p L, shares_of (rd_cfg rd) (rd_total rd) s l p
    /\ pay_shares (sp_pool_address params) (sx_salvor ctx) s l p (rd_unwrapped rd) = Ok L
    /\ settle ctx params rd st =
       (dust ← vload (token_amount (rd_unwrapped rd) (memecoin_ata ctx));
        mret (settled ctx params rd st s l p dust L, settlement_events ctx params rd s l p)).
Proof.
  intros Hcfg Hpos Hu Hb. pose proof (check_shares_total _ Hcfg) as Hck.
  destruct Hcfg as [Hty Hsum Hceil]. assert (Hty' := Hty). destruct Hty' as [Tl Ts Tp _].
  destruct (split_conserves (rd_total rd) (salvor_share_bps (rd_cfg rd)) (lp_holder_share_bps (rd_cfg rd))
    (protocol_share_bps (rd_cfg rd))) as (p & Hsp & _); [done|ints..|lia|].
  pose proof (split_shares _ _ _ _ _ Hty Hck Hu Hpos Hsp) as Hsh.
  destruct Hsh as [? ? ? Hs (Hn1 & Hn2 & Hn3) ?].
  destruct (pay_shares_total (sp_pool_address params) (sx_salvor ctx) _ _ _ (rd_unwrapped rd) Hn1 Hn2 Hn3) as [L Hpay]; [lia|].
  destruct (pay_shares_Ok _ _ _ _ _ _ _ Hn1 Hn2 Hn3 Hpay) as [_ Htok].
  eexists _, _, _, L. split; [by constructor|]. split; [exact Hpay|].
  unfold settle. rewrite Hck, Hsp. cbn [prog map_err mbind result_bind].
  rewrite Hpay. cbn [mbind result_bind]. unfold token_amount. by rewrite Htok.
Qed.

(** ** The vault's wrapped-SOL account

    The token program never changes an account's mint, and the vault's
    wrapped-SOL address is only ever created by the associated-token program,
    for that mint. *)
Definition base_ata_keeps_mint : Prop := forall c L L', invoke c L = Some L' ->
  has_mint base_ata WSOL_MINT (lg_tokens L) -> has_mint base_ata WSOL_MINT (lg_tokens L').

Section Mint.
Hypothesis HK : base_ata_keeps_mint.

Lemma init_ata_mint a m L L' : init_ata a m L = Ok L' ->
  ta_mint <$> lg_tokens L' !! associated_token a m = Some m
  /\ (forall k t, lg_tokens L !! k = Some t -> lg_tokens L' !! k = Some t).
Proof.
  unfold init_ata. intros Hi. destruct (lg_tokens L !! _) as [t|] eqn:Ht.
  - unfold token_constraint in Hi. cbn [ok_or mbind result_bind] in Hi. res_inv Hi. bool_simpl.
    split; [|done]. match goal with Hd : vload (Some t) = Ok _ |- _ => injection Hd as <- end.
    rewrite Ht. simpl. congruence.
  - injection Hi as <-. simpl. rewrite lookup_insert_eq. split; [done|]. intros k t Hk.
    rewrite lookup_insert_ne; [done|congruence].
Qed.

Lemma accounts_mint ctx params st cfg cert L :
  salvage_accounts ctx params st = Ok (cfg, cert, L) -> has_mint base_ata WSOL_MINT (lg_tokens L).
Proof.
  intros Ha. unfold salvage_accounts in Ha. vault_inv Ha.
  match goal with
  | H1 : init_ata _ WSOL_MINT _ = Ok _, H2 : init_ata _ (sx_memecoin_mint ctx) _ = Ok _ |- _ =>
      apply init_ata_mint in H1 as [Hm _]; apply init_ata_mint in H2 as [_ Hkeep]
  end.
  apply fmap_Some in Hm as (t & Ht & Hm). intros t' Ht'. apply Hkeep in Ht. unfold base_ata in Ht'. congruence.
Qed.

Lemma lazy_init_mint pda payer L L' : lazy_init_system_pda pda payer L = Ok L' ->
  has_mint base_ata WSOL_MINT (lg_tokens L) -> has_mint base_ata WSOL_MINT (lg_tokens L').
Proof.
  unfold lazy_init_system_pda. intros Hi. destruct (0 <? lamports L pda); [by injection Hi as <-|].
  apply ok_or_Ok in Hi. by eapply HK.
Qed.

Lemma conversion_mint ctx params cfg b rm L L' : conversion_leg ctx params cfg b rm L = Ok L' ->
  has_mint base_ata WSOL_MINT (lg_tokens L) -> has_mint base_ata WSOL_MINT (lg_tokens L').
Proof.
  intros Hc. apply conversion_leg_iff in Hc as [[_ ->]|[_ [_ _ [n Hs] _]]]; [done|].
  apply jupiter_swap_Ok in Hs as (_ & _ & Hi & _). by eapply HK.
Qed.
End Mint.

Variable P : Pubkey -> Prop.
Variable known : list byte -> Prop.

(** The holding account as the runtime leaves it, and out of reach of the
    transaction's signers. *)
Record holding_sound (ctx : SalvageCtx) (params : SalvagePoolParams) (st : VaultState) : Prop := {
  hd_rent : let n := lamports (vs_ledger st) (vault_sol_holding_account (sp_pool_address params)) in
    0 <= n /\ (n = 0 \/ rent_minimum <= n);
  hd_signer : vault_sol_holding_account (sp_pool_address params) ∉ outer_signers ctx;
  hd_authority : vault_sol_holding_account (sp_pool_address params) <> vault_authority;
}.

(** After the redemption the holding account has the proceeds on top of its
    rent. *)
Lemma redeem_holding ctx params st rd :
  lp_vaults_distinct P -> P (sp_pool_address params) -> holding_sound ctx params st ->
  base_ata_keeps_mint -> redeem ctx params st = Ok rd ->
  rent_minimum + rd_total rd <= lamports (rd_unwrapped rd) (vault_sol_holding_account (sp_pool_address params)).
Proof.
  intros HD HP [[Hnn Hr] Hsig Hauth] HK Hrd. set (h := vault_sol_holding_account (sp_pool_address params)) in *.
  unfold redeem in Hrd.
  apply bind_Ok in Hrd as ([[cfg cert] L0] & Ha & Hrd). apply bind_Ok in Hrd as (clock & _ & Hrd).
  apply bind_Ok in Hrd as ([] & _ & Hrd). apply bind_Ok in Hrd as (L1 & H1 & Hrd).
  apply bind_Ok in Hrd as (L2 & H2 & Hrd). apply bind_Ok in Hrd as (b & _ & Hrd).
  apply bind_Ok in Hrd as ([L3 rm] & H3 & Hrd). apply bind_Ok in Hrd as (L4 & H4 & Hrd).
  apply bind_Ok in Hrd as ([total L5] & H5 & Hrd). injection Hrd as <-. simpl in *.
  assert (Hpda : is_vault_pda h) by apply vault_pda_is.
  assert (Hmint : has_mint base_ata WSOL_MINT (lg_tokens L4)).
  { eapply conversion_mint; [done..|]. apply dispatch_remove_liquidity_run in H3. eapply HK; [done|].
    eapply lazy_init_mint; [done..|]. eapply lazy_init_mint; [done..|]. by eapply accounts_mint. }
  assert (Hsal : h <> sx_salvor ctx) by (intros Heq; apply Hsig; rewrite Heq; left).
  rewrite <- (accounts_lamports _ _ _ _ _ _ h Ha) in Hnn, Hr.
  assert (E1 : lamports L1 h = lamports L0 h).
  { unfold lazy_init_system_pda in H1. destruct (0 <? _); [by injection H1 as <-|].
    apply ok_or_Ok in H1. eapply create_touches; [done|done|].
    intros Heq. by apply (lvd_holding P HD _ _ HP HP). }
  rewrite <- E1 in Hnn, Hr. apply lazy_init_rent in H2 as [_ H2]; [|done..].
  apply (withdraw_credits P HD _ _ _ _ _ _ h Hpda Hsig) in H3.
  apply (conversion_credits P HD _ _ _ _ _ _ _ h Hpda Hsig Hauth) in H4.
  apply unwrap_Ok in H5 as (Hta & _ & Hi). unfold token_amount in Hta. apply fmap_Some in Hta as (t & Ht & ->).
  pose proof (close_pays _ _ _ _ _ _ Hi Ht (Hmint _ Ht)) as Hc. fold h in Hc, H2. lia.
Qed.

Lemma redeem_wf ctx params st rd :
  wf_tokens (lg_tokens (vs_ledger st)) -> redeem ctx params st = Ok rd ->
  vs_config st = Some (rd_cfg rd) /\ 0 < rd_total rd /\ is_u64 (rd_total rd).
Proof.
  intros Hwf Hrd. unfold redeem in Hrd.
  apply bind_Ok in Hrd as ([[cfg cert] L0] & Ha & Hrd). apply bind_Ok in Hrd as (clock & _ & Hrd).
  apply bind_Ok in Hrd as ([] & _ & Hrd). apply bind_Ok in Hrd as (L1 & H1 & Hrd).
  apply bind_Ok in Hrd as (L2 & H2 & Hrd). apply bind_Ok in Hrd as (b & _ & Hrd).
  apply bind_Ok in Hrd as ([L3 rm] & H3 & Hrd). apply bind_Ok in Hrd as (L4 & H4 & Hrd).
  apply bind_Ok in Hrd as ([total L5] & H5 & Hrd). injection Hrd as <-. simpl.
  pose proof (accounts_wf _ _ _ _ _ _ Hwf Ha) as [Hwf0 _].
  apply lazy_init_wf in H1; [|done]. apply lazy_init_wf in H2; [|done].
  apply dispatch_wf in H3; [|done]. apply conversion_wf in H4; [|done].
  apply unwrap_Ok in H5 as (Hta & Hpos & _). split; [|split; [done|eapply token_amount_wf; [exact H4|exact Hta]]].
  unfold salvage_accounts in Ha. by vault_inv Ha.
Qed.

End Settle.
