(* ===== verification/Storage.v ===== *)
(** * Storage: what the programs write is what they read

    Every account of both programs holds, in every state their instructions can
    reach from well-typed inputs, values of the widths its struct declares, so
    that writing it out (Accounts.v) and loading it again changes nothing.
    Integers are unbounded in the model: this is where it is shown that no
    instruction leaves the machine's range behind. *)

From S2P Require Import Prelude Bytes Solana Criteria Attestation Adapters Locker Merkle Sha ScannerState Scanner.
From S2P Require Import Runtime VaultState Borsh Accounts AmmCpi Salvage SalvageSpec Vault VaultInv SalvageLive.

(** [Pubkey::find_program_address] returns a key and a byte. *)
Class PdaTyped `{PdaDerivation} : Prop := {
  pda_key seeds p : wf_key (fst (find_program_address seeds p));
  pda_bump seeds p : is_u8 (snd (find_program_address seeds p));
}.

Lemma mask_typed : is_u8 Criteria.ALL_CRITERIA_MASK.
Proof. in_range. Qed.

(** What an account's validity says of its fields, in the widths' own names. *)
Ltac field_types :=
  unfold valid_account, wf_key;
  cbn [account_codec scanner_config_account anchor_account cert_account launch_price_account vault_config_account
    registry_account receipt_account claim_account struct_codec pair_codec array_codec u_codec i64_codec bool_codec
    u8 u16 u64 u128 i64 bool_ pubkey_ bytes valid fst snd];
  change (8 * Z.of_nat 1) with 8; change (8 * Z.of_nat 2) with 16; change (8 * Z.of_nat 8) with 64;
  change (8 * Z.of_nat 16) with 128.
Ltac valid_fields := field_types; split_and!; try first [assumption|exact I|apply pda_bump|apply pda_key|exact mask_typed|reflexivity|solve [simpl; ints]].
Ltac fields_of H := revert H; field_types; intros H; destruct_and! H.

(** ** The scanner *)

Section ScannerStorage.
Context `{PT : PdaTyped}.

(** The keys of an instruction, and the words [wf_ix] does not mention. *)
Definition scanner_ix_keys (ix : Scanner.ScannerIx) : list Pubkey :=
  match ix with
  | Scanner.IxInitialize p => [ip_authority p]
  | IxRecordLaunchPrice p => [rp_amm_program_id p; rp_pool_address p; rp_base_mint p; rp_quote_mint p]
  | IxEvaluatePhase1 writer _ p | IxEvaluatePhase2 writer _ p => [writer; ev_amm_program_id p; ev_pool_address p]
  | IxInvalidateAnchor authority _ | Scanner.IxEmergencyPause authority _ => [authority]
  | IxSweepStaleAnchor caller w _ => [caller; w]
  | Scanner.IxUpdateProtocolConfig authority p =>
      authority :: option_list (up_activity_oracle p) ++ option_list (up_launch_price_oracle p)
  end.

Inductive scanner_typed_run : ScannerState -> Prop :=
| scanner_typed_genesis : scanner_typed_run scanner_genesis
| scanner_typed_step env ix st st' evs :
    scanner_typed_run st -> wf_env env -> wf_ix ix -> Forall wf_key (scanner_ix_keys ix) ->
    scanner_exec env ix st = Ok (st', evs) -> scanner_typed_run st'.

Lemma scanner_typed_reachable st : scanner_typed_run st -> scanner_reachable st.
Proof. induction 1; [constructor|]. eapply scanner_reachable_step; [done|]. by econstructor. Qed.

Record scanner_stored (st : ScannerState) : Prop := {
  ss_config : forall cfg, sc_config st = Some cfg -> valid_account cfg;
  ss_launch : map_Forall (fun _ => valid_account) (sc_launch_prices st);
  ss_anchors : map_Forall (fun _ => valid_account) (sc_anchors st);
  ss_certs : map_Forall (fun _ => valid_account) (sc_certs st);
}.

Lemma initialize_valid p cfg :
  wf_ix (Scanner.IxInitialize p) -> wf_key (ip_authority p) ->
  Scanner.initialize_config p = Ok cfg -> valid_account cfg.
Proof.
  intros Hwi Hk Hc. pose proof (initialize_config_ok p cfg Hwi Hc) as ([[? ? ? ? ? ?] _ _] & _).
  unfold Scanner.initialize_config in Hc. res_inv Hc. simpl in *. valid_fields.
Qed.

Lemma update_field_valid {A} (V : A -> Prop) (o : option A) old check v :
  update_field o old check = Ok v -> V old -> (forall x, o = Some x -> V x) -> V v.
Proof.
  unfold update_field. intros Hu Ho Hn. destruct o as [x|]; [|by injection Hu as <-].
  apply bind_Ok in Hu as (_ & _ & Hu). injection Hu as <-. by apply Hn.
Qed.

Lemma update_valid a p cfg cfg' :
  wf_ix (Scanner.IxUpdateProtocolConfig a p) -> Forall wf_key (scanner_ix_keys (Scanner.IxUpdateProtocolConfig a p)) ->
  valid_account cfg -> apply_config_update cfg p = Ok cfg' -> valid_account cfg'.
Proof.
  intros (W1 & W2 & W3 & W4 & W5 & W6) Hk Hv Hc. unfold apply_config_update in Hc. res_inv Hc.
  apply Forall_cons in Hk as [_ [Hk1 Hk2]%Forall_app].
  assert (Hopt : forall o k, Forall wf_key (option_list o) -> o = Some k -> wf_key k).
  { intros o k Hf ->. by apply (Forall_singleton _ k). }
  fields_of Hv. valid_fields.
  all: match goal with Hu : update_field ?o _ _ = Ok ?r |- context [?r] => pattern r; eapply update_field_valid; [exact Hu| |] end.
  all: try assumption. all: eauto. all: intros x Hx; eapply Hopt; [|exact Hx]; done.
Qed.
Lemma recorded_price_typed isv att now slot price fslot fts :
  length (lpa_msg att) = 168%nat ->
  verify_launch_price_attestation isv att now slot = Ok (price, fslot, fts) ->
  is_u128 price /\ 0 < fslot <= slot /\ 0 < fts <= now.
Proof.
  intros Hlen Hv. assert (Hp := verify_launch_price_Ok _ _ _ _ _ _ _ Hlen Hv).
  unfold verify_launch_price_attestation in Hv.
  apply bind_Ok in Hv as ([[p s] i] & _ & Hv). apply bind_Ok in Hv as ([] & _ & Hv).
  apply verify_launch_price_message_iff in Hv as (_ & _ & _ & _ & _ & _ & Hts & Hsl & _ & Hr).
  injection Hr as -> -> ->. by split; [apply Hp|split].
Qed.

Lemma record_valid env p st st' evs :
  wf_env env -> wf_ix (IxRecordLaunchPrice p) -> Forall wf_key (scanner_ix_keys (IxRecordLaunchPrice p)) ->
  scanner_stored st -> record_launch_price env p st = Ok (st', evs) -> scanner_stored st'.
Proof.
  intros [Hwc] Hwi Hk [Hsc Hsl Hsa Hse] Hx. unfold record_launch_price in Hx.
  apply bind_Ok in Hx as (cfg & _ & Hx). do 2 apply bind_Ok in Hx as (? & _ & Hx).
  apply bind_Ok in Hx as (clock & Hck%get_clock_Ok & Hx). apply bind_Ok in Hx as ([[price fslot] fts] & Hv & Hx).
  injection Hx as <- _. apply (proj1 (prog_Ok _ _)), recorded_price_typed in Hv as (Hp & Hs & Ht); [|exact Hwi].
  destruct (Hwc _ Hck) as [Hc1 Hc2 Hc3]. simpl in Hk; rewrite !Forall_cons in Hk; destruct Hk as (K1 & K2 & K3 & K4 & _).
  constructor; [done| |done..]. apply map_Forall_insert_2; [|done]. valid_fields.
Qed.

Lemma new_anchor_valid writer pool p clock :
  wf_clock clock -> Forall wf_key (scanner_ix_keys (IxEvaluatePhase1 writer pool p)) ->
  valid_account (new_anchor writer p clock).
Proof. intros [] Hk. simpl in Hk; rewrite !Forall_cons in Hk; destruct Hk as (? & ? & ? & _). valid_fields. Qed.

Lemma new_cert_valid writer pool p clock cfg a old :
  wf_clock clock -> Forall wf_key (scanner_ix_keys (IxEvaluatePhase2 writer pool p)) -> valid_account a ->
  is_i64 (clock_unix_timestamp clock + cfg_cert_ttl_seconds cfg) -> is_u64 (reissue_generation old + 1) ->
  valid_account (new_cert writer p clock cfg a old).
Proof.
  intros [] Hk Ha H1 H2. simpl in Hk; rewrite !Forall_cons in Hk; destruct Hk as (? & ? & ? & _).
  fields_of Ha. valid_fields.
Qed.

Lemma scanner_exec_stored env ix st st' evs :
  scanner_reachable st -> wf_env env -> wf_ix ix -> Forall wf_key (scanner_ix_keys ix) ->
  scanner_exec env ix st = Ok (st', evs) -> scanner_stored st -> scanner_stored st'.
Proof.
  intros Hr Hwe Hwi Hk Hx Hst. pose proof Hst as [Hsc Hsl Hsa Hse]. pose proof (scanner_reachable_inv _ Hr) as Hinv.
  destruct ix as [p|p|w pool p|w pool p|who k|c w k|who p|who b]; cbn [scanner_exec] in Hx.
  - unfold Scanner.initialize in Hx. res_inv Hx. apply (proj1 (prog_Ok _ _)) in Hr1.
    apply initialize_valid in Hr1; [|done|by apply Forall_cons in Hk as [? _]].
    constructor; [|done..]. by intros ? [= <-].
  - by eapply record_valid.
  - apply evaluate_pool_phase1_Ok in Hx as (cfg & l & clock & [] & -> & _); [|done..].
    constructor; [done..| |done]. apply map_Forall_insert_2; [|done].
    eapply new_anchor_valid; [by apply Hwe|exact Hk].
  - apply evaluate_pool_phase2_Ok in Hx as (cfg & l & clock & a & old & [? ? Ha ? ? ? ? ? ? []] & -> & _); [|done..].
    constructor; [done..|]. apply map_Forall_insert_2; [|done].
    eapply new_cert_valid; [by apply Hwe|exact Hk|by apply Hsa in Ha|done..].
  - unfold invalidate_anchor in Hx. res_inv Hx. apply load_Ok in Hr1.
    constructor; [done..| |done]. apply map_Forall_insert_2; [|done]. by apply Hsa in Hr1.
  - unfold sweep_stale_anchor in Hx. res_inv Hx. constructor; [done..| |done]. by apply map_Forall_delete.
  - unfold Scanner.update_protocol_config in Hx. res_inv Hx. apply load_Ok in Hr0. apply (proj1 (prog_Ok _ _)) in Hr2.
    constructor; [|done..]. intros ? [= <-]. eapply update_valid; [exact Hwi|exact Hk| |exact Hr2]. by apply Hsc.
  - unfold Scanner.emergency_pause in Hx. res_inv Hx. apply load_Ok in Hr0.
    constructor; [|done..]. intros ? [= <-]. by apply Hsc in Hr0.
Qed.

Lemma scanner_run_stored st : scanner_typed_run st -> scanner_stored st.
Proof.
  induction 1 as [|env ix st st' evs Hrun IH Hwe Hwi Hk Hx]; [by constructor|].
  eapply scanner_exec_stored; [by apply scanner_typed_reachable|done..].
Qed.
End ScannerStorage.

(** ** The vault *)

Section VaultStorage.
Context `{PT : PdaTyped} `{HR : Runtime} {HRL : RuntimeLaws} `{HS : Sha256}.

Definition clock_typed (o : option Clock) : Prop := forall c, o = Some c -> wf_clock c.

(** The declared types of an instruction's parameters. *)
Definition vault_ix_typed (ix : Vault.VaultIx) : Prop :=
  match ix with
  | Vault.IxInitialize p =>
      wf_key (vip_authority p) /\ is_u16 (vip_lp_holder_share_bps p) /\ is_u16 (vip_salvor_share_bps p)
      /\ is_u16 (vip_protocol_share_bps p) /\ is_u64 (vip_max_priority_fee_ceiling_lamports p)
      /\ is_u16 (vip_max_slippage_bps p) /\ is_u64 (vip_jupiter_dust_threshold_lamports p)
      /\ is_i64 (vip_timelock_seconds p)
  | Vault.IxUpdateProtocolConfig _ p =>
      opt_is is_u16 (vup_lp_holder_share_bps p) /\ opt_is is_u16 (vup_salvor_share_bps p)
      /\ opt_is is_u16 (vup_protocol_share_bps p) /\ opt_is is_u64 (vup_max_priority_fee_ceiling_lamports p)
      /\ opt_is is_u16 (vup_max_slippage_bps p) /\ opt_is is_u64 (vup_jupiter_dust_threshold_lamports p)
      /\ opt_is is_i64 (vup_timelock_seconds p)
  | Vault.IxEmergencyPause _ _ => True
  | IxSalvagePool ctx p =>
      wf_key (sp_amm_program_id p) /\ wf_key (sp_pool_address p) /\ wf_key (sx_salvor ctx)
      /\ wf_key (sx_memecoin_mint ctx) /\ wf_hash (sp_lp_snapshot_merkle_root p)
      /\ is_u64 (sp_lp_total_supply_at_snapshot p) /\ clock_typed (sx_clock ctx)
  | IxClaimLpProceeds clock lp_holder p =>
      wf_key lp_holder /\ wf_key (cp_pool_address p) /\ is_u64 (cp_lp_balance_at_snapshot p) /\ clock_typed clock
  | IxSweepDust clock _ _ _ => clock_typed clock
  end.

Inductive vault_typed_run : VaultState -> Prop :=
| vault_typed_genesis L : wf_tokens (lg_tokens L) -> vault_typed_run (vault_genesis L)
| vault_typed_step ix st st' evs :
    vault_typed_run st -> vault_ix_typed ix -> vault_exec ix st = Ok (st', evs) -> vault_typed_run st'
| vault_typed_world st L : vault_typed_run st -> wf_tokens (lg_tokens L) -> vault_typed_run (set_ledger L st).

Record vault_stored (st : VaultState) : Prop := {
  vd_config : forall cfg, vs_config st = Some cfg -> valid_account cfg;
  vd_registries : map_Forall (fun _ => valid_account) (vs_registries st);
  vd_receipts : map_Forall (fun _ => valid_account) (vs_receipts st);
  vd_claims : map_Forall (fun _ => valid_account) (vs_claims st);
  vd_tokens : wf_tokens (lg_tokens (vs_ledger st));
}.

Lemma zero_default_typed (V : Z -> Prop) v d : V v -> V d -> V (zero_default v d).
Proof. unfold zero_default. by destruct (v =? 0). Qed.

Lemma default_typed (V : Z -> Prop) d o : V d -> opt_is V o -> V (default d o).
Proof. intros Hd Ho. destruct o as [v|]; [by apply Ho|done]. Qed.

Lemma vault_initialize_valid p cfg :
  vault_ix_typed (Vault.IxInitialize p) -> Vault.initialize_config p = Ok cfg -> valid_account cfg.
Proof.
  intros (? & ? & ? & ? & ? & ? & ? & ?) Hc. unfold Vault.initialize_config in Hc. res_inv Hc. valid_fields.
  all: simpl; apply zero_default_typed; [assumption|in_range].
Qed.

Lemma vault_update_valid a p cfg cfg' :
  vault_ix_typed (Vault.IxUpdateProtocolConfig a p) -> valid_account cfg ->
  apply_update cfg p = Ok cfg' -> valid_account cfg'.
Proof.
  intros (W1 & W2 & W3 & W4 & W5 & W6 & W7) Hv Hc. fields_of Hv. unfold apply_update in Hc.
  apply bind_Ok in Hc as (protocol & Hp & Hc). apply bind_Ok in Hc as ([] & _ & Hc).
  apply bind_Ok in Hc as (slippage & Hs & Hc). injection Hc as <-.
  assert (is_u16 protocol) by (destruct (vup_protocol_share_bps p); res_inv Hp; auto).
  assert (is_u16 slippage) by (destruct (vup_max_slippage_bps p); res_inv Hs; auto).
  valid_fields. all: simpl; by apply default_typed.
Qed.

Lemma salvage_stored ctx p st st' evs :
  vault_ix_typed (IxSalvagePool ctx p) -> vault_stored st -> salvage_pool ctx p st = Ok (st', evs) ->
  vault_stored st'.
Proof.
  intros (K1 & K2 & K3 & K4 & K5 & Hsup & Hck) [Hvc Hvr Hvq Hvk Hwf] Hs.
  apply salvage_pool_traced in Hs as (t & Ht & -> & _).
  destruct (traced_admissible _ _ _ _ Ht) as [Hc _ _ _ _ _ _ _ _ _ _ _ _ _].
  assert (Hty : typed_vault_config (tr_cfg t)) by (apply Hvc in Hc; fields_of Hc; by constructor).
  destruct (traced_shares _ _ _ _ Hwf Hty Ht) as [Hto _ _ Hsum (N1 & N2 & N3) _].
  destruct (pay_shares_Ok _ _ _ _ _ _ _ N1 N2 N3 (tf_paid _ _ _ _ Ht)) as [_ Htok].
  assert (Hw : wf_tokens (lg_tokens (tr_paid t))) by (rewrite Htok; by apply (traced_wf _ _ _ _ Hwf Ht)).
  assert (Hd := token_amount_wf _ _ _ Hw (tf_dust _ _ _ _ Ht)).
  destruct (Hck _ (tf_clock _ _ _ _ Ht)) as [C1 C2 C3].
  constructor; simpl; [done| | |done..]; apply map_Forall_insert_2; [|done| |done].
  all: valid_fields.
Qed.

Lemma claim_stored clock h p st st' evs :
  vault_ix_typed (IxClaimLpProceeds clock h p) -> vault_stored st ->
  claim_lp_proceeds clock h p st = Ok (st', evs) -> vault_stored st'.
Proof.
  intros (K1 & K2 & Hb & Hck) [Hvc Hvr Hvq Hvk Hwf] Hc.
  assert (Hty : forall r, vs_registries st !! cp_pool_address p = Some r -> typed_registry r).
  { intros r Hr. apply Hvr in Hr. fields_of Hr. split_and!; try assumption. ints. }
  apply claim_iff in Hc as (r & ck & a & L & [Hr _ -> _ Hsup _ Ha Hle Hpay] & -> & _); [|done..].
  pose proof (Hty _ Hr) as (T1 & T2 & T3). destruct (Hck _ eq_refl) as [C1 C2 C3]. apply Hvr in Hr. fields_of Hr.
  assert (Hnn : 0 <= a) by (subst a; apply Z.div_pos; unfold_ints; nia). clear Ha.
  constructor; simpl; [done| |done| |].
  - apply map_Forall_insert_2; [|done]. valid_fields.
  - apply map_Forall_insert_2; [|done]. valid_fields.
  - destruct Hpay as [[_ ->]|[_ Hi]]; [done|]. by eapply invoke_wf.
Qed.

Lemma sweep_stored clock mint sweeper pool st st' evs :
  clock_typed clock -> vault_stored st -> sweep_dust clock mint sweeper pool st = Ok (st', evs) -> vault_stored st'.
Proof.
  intros Hck [Hvc Hvr Hvq Hvk Hwf] Hs.
  apply sweep_dust_Ok in Hs as (q & ck & dust & L0 & L1 & [Hq -> _ _ H0 _ _ H1 H2 ->] & _).
  apply init_ata_wf in H0 as [H0 _]; [|done]. apply (invoke_wf _ _ _ H0) in H1. apply (invoke_wf _ _ _ H1) in H2.
  destruct (Hck _ eq_refl) as [C1 C2 C3]. apply Hvq in Hq. fields_of Hq.
  constructor; simpl; [done..| |done|done]. apply map_Forall_insert_2; [|done]. valid_fields.
Qed.

Lemma vault_run_stored st : vault_typed_run st -> vault_stored st.
Proof.
  induction 1 as [L HL|ix st st' evs _ IH Hty Hx|st L _ [? ? ? ? _] HL]; [by constructor| |by constructor].
  destruct ix as [p|a p|a b|ctx p|clock h p|clock mint sweeper pool]; cbn [vault_exec] in Hx.
  - unfold Vault.initialize in Hx. vault_inv Hx. destruct IH. constructor; [|done..]. intros ? [= <-].
    by eapply vault_initialize_valid.
  - unfold Vault.update_protocol_config in Hx. vault_inv Hx. destruct IH as [Hc ? ? ? ?].
    constructor; [|done..]. intros ? [= <-]. eapply vault_update_valid; [exact Hty| |eassumption]. by apply Hc.
  - unfold Vault.emergency_pause in Hx. vault_inv Hx. destruct IH as [Hc ? ? ? ?].
    constructor; [|done..]. intros ? [= <-].
    match goal with Hr : vs_config st = Some _ |- _ => by apply Hc in Hr end.
  - by eapply salvage_stored.
  - by eapply claim_stored.
  - by eapply sweep_stored.
Qed.
End VaultStorage.

(** ** Both programs *)

(** [a] is the account of kind [k] at some address of the two programs. *)
Inductive on_chain (st : ScannerState) (vt : VaultState) : forall k, account_type k -> Prop :=
| on_scanner_config cfg : sc_config st = Some cfg -> on_chain st vt KScannerConfig cfg
| on_anchor p a : sc_anchors st !! p = Some a -> on_chain st vt KAnchor a
| on_cert p c : sc_certs st !! p = Some c -> on_chain st vt KCert c
| on_launch_price p l : sc_launch_prices st !! p = Some l -> on_chain st vt KLaunchPrice l
| on_vault_config cfg : vs_config vt = Some cfg -> on_chain st vt KVaultConfig cfg
| on_registry p r : vs_registries vt !! p = Some r -> on_chain st vt KRegistry r
| on_receipt p q : vs_receipts vt !! p = Some q -> on_chain st vt KReceipt q
| on_claim p c : vs_claims vt !! p = Some c -> on_chain st vt KClaim c.

Section Storage.
Context `{PT : PdaTyped} `{HR : Runtime} {HRL : RuntimeLaws} `{HS : Sha256} {HSL : Sha256Laws}.

(** C20. No instruction leaves the machine's range behind. However the two
    programs are run, as long as parameters, clocks and token amounts have the
    types Rust declares for them, every account on the chain, of any of the
    eight kinds, holds values of its struct's declared widths (32-byte keys and
    hashes, u8 to u128, i64): every sum, product, division, TTL, generation,
    share and claim the handlers store has been checked to fit. Hence what an
    instruction stored is what the next one loads: the account's bytes take
    exactly its space and are read back, whatever follows them, as the same
    value. *)
Theorem accounts_survive_storage st vt k (a : account_type k) rest :
  scanner_typed_run st -> vault_typed_run vt -> on_chain st vt k a ->
  valid_account a
  /\ length (try_serialize a) = (8 + INIT_SPACE (account_type k))%nat
  /\ try_deserialize (try_serialize a ++ rest) = Some a.
Proof.
  intros [Sc Sl Sa Se]%scanner_run_stored [Vc Vr Vq Vk _]%vault_run_stored Ha.
  assert (Hv : valid_account a).
  { destruct Ha as [cfg Hl|p x Hl|p x Hl|p x Hl|cfg Hl|p x Hl|p x Hl|p x Hl];
      [exact (Sc _ Hl)|exact (Sa _ _ Hl)|exact (Se _ _ Hl)|exact (Sl _ _ Hl)
      |exact (Vc _ Hl)|exact (Vr _ _ Hl)|exact (Vq _ _ Hl)|exact (Vk _ _ Hl)]. }
  destruct (accounts_stored (A := account_type k)) as [_ Hsz Hrd _]. eauto.
Qed.
End Storage.
