(* ===== verification/VaultSpec.v ===== *)
(** * VaultSpec: the vault's promises

    Theorems over the transition system of VaultInv.v. *)

From S2P Require Import Prelude Bytes Solana ScannerState Merkle Runtime VaultState AmmCpi Salvage.
From S2P Require Import SalvageSpec Vault VaultInv.

(** ** Sums of shares over a snapshot *)

Section SnapshotSums.
Implicit Types (E : list (Pubkey * Z)) (m : gmap (Pubkey * Pubkey) ClaimRecord).

Definition balances_total (E : list (Pubkey * Z)) : Z := sum_Z (map snd E).

(** Claims that are all entries of a snapshot, each paid [f balance], cost no
    more than paying the whole snapshot. *)
Lemma claims_within_snapshot (f : Z -> Z) p m E :
  Forall (fun e => 0 <= f (snd e)) E ->
  (forall h c, m !! (p, h) = Some c ->
     (h, clm_lp_balance_at_snapshot c) ∈ E
     /\ clm_amount_lamports c = f (clm_lp_balance_at_snapshot c)) ->
  claims_total p m <= sum_Z (map (fun e => f (snd e)) E).
Proof.
  revert E. induction m as [|[p' h] c m Hnew IH] using map_ind; intros E Hf Hm.
  - rewrite claims_total_empty. apply sum_Z_nonneg. by rewrite Forall_map.
  - rewrite claims_total_insert by done. unfold claim_of. simpl.
    destruct (decide (p' = p)) as [->|Hne].
    + destruct (Hm h c) as [Hin Ham]; [by rewrite lookup_insert_eq|].
      apply elem_of_Permutation in Hin as [E' HE]. rewrite HE in Hf |- *.
      apply Forall_cons in Hf as [_ Hf]. simpl. rewrite Ham.
      assert (claims_total p m <= sum_Z (map (fun e => f (snd e)) E')); [|unfold sum_Z in *; simpl; lia].
      apply IH; [done|]. intros h' c' Hc'.
      assert (Hneh : h' <> h) by (intros ->; congruence).
      destruct (Hm h' c') as [Hin' Ham']; [by rewrite lookup_insert_ne by congruence|].
      split; [|done]. rewrite HE in Hin'. apply elem_of_cons in Hin' as [Heq|]; [congruence|done].
    + rewrite Z.add_0_l. apply IH; [done|]. intros h' c' Hc'. apply Hm.
      rewrite lookup_insert_ne by congruence. done.
Qed.

(** The floors of a pro-rata distribution add up to at most the whole. *)
Lemma floors_within total supply E :
  0 <= total -> 0 < supply -> Forall (fun e => 0 <= snd e) E -> balances_total E <= supply ->
  sum_Z (map (fun e => total * snd e / supply) E) <= total.
Proof.
  intros Ht Hs HE Hsum.
  assert (Hscaled : supply * sum_Z (map (fun e => total * snd e / supply) E)
                    <= total * balances_total E).
  { clear Hsum. unfold balances_total, sum_Z. induction HE as [|e E He HE IH]; simpl; [lia|].
    assert (Hd := Z.mul_div_le (total * snd e) supply Hs). lia. }
  assert (total * balances_total E <= total * supply) by (apply Z.mul_le_mono_nonneg_l; lia).
  apply Z.mul_le_mono_pos_l with (p := supply); lia.
Qed.
End SnapshotSums.

Section VaultSpec.
Context `{PdaDerivation} `{HR : Runtime} {HRL : RuntimeLaws} `{HS : Sha256} {HSL : Sha256Laws}.
Variable P : Pubkey -> Prop.
Variable known : list byte -> Prop.

(** C4. The vault's accounting is right in every reachable state, whatever
    instructions succeeded and whatever else happened on the chain: the
    configured shares add up to 100% with the protocol's at most 20%; for every
    salvaged pool the claimed lamports are exactly the sum of its claim
    records, never exceed the pool's total, and the LP-holder account holds at
    least the unclaimed remainder on top of its rent; every claim record was
    proved against the recorded root and paid exactly its pro-rata floor; every
    receipt agrees with its registry and its three parts add up. *)
Theorem vault_invariant st :
  lp_vaults_distinct P -> vault_reachable P known st -> vault_inv P known st.
Proof. intros HD. by apply vault_reachable_inv. Qed.

(** C10. The Charter's unsweepability: no instruction takes lamports out of any
    pool's LP-holder account, except a claim on that very pool, which takes
    exactly the claimant's pro-rata floor against an accepted Merkle proof and
    hands it to the signing holder. *)
Theorem lp_vault_unsweepable ix st st' evs p :
  lp_vaults_distinct P -> vault_inv P known st -> ix_typed P known ix ->
  vault_exec ix st = Ok (st', evs) -> P p ->
  lamports (vs_ledger st) (lp_holder_pool_vault p) <= lamports (vs_ledger st') (lp_holder_pool_vault p)
  \/ exists clock h params r amount,
       ix = IxClaimLpProceeds clock h params /\ cp_pool_address params = p
       /\ vs_registries st !! p = Some r
       /\ verify_proof (lp_snapshot_merkle_root r)
            (compute_leaf h (cp_lp_balance_at_snapshot params)) (cp_merkle_proof params) = true
       /\ amount = lp_holder_pool_total_lamports r * cp_lp_balance_at_snapshot params
                   / lp_total_supply_at_snapshot r
       /\ lamports (vs_ledger st') (lp_holder_pool_vault p)
          = lamports (vs_ledger st) (lp_holder_pool_vault p) - amount
       /\ lamports (vs_ledger st') h = lamports (vs_ledger st) h + amount.
Proof.
  intros HD Hinv Hty Hx HP. destruct ix as [params|a params|a b|ctx params|clock h params|clock m sw pool];
    cbn [vault_exec] in Hx.
  - unfold initialize in Hx. vault_inv Hx. left. simpl. lia.
  - unfold update_protocol_config in Hx. vault_inv Hx. left. simpl. lia.
  - unfold emergency_pause in Hx. vault_inv Hx. left. simpl. lia.
  - left. apply salvage_pool_traced in Hx as (t & Ht & -> & _). destruct Hty as (HQ & Hext & _).
    destruct (vi_rent _ _ _ Hinv p HP) as [Hnn Hr].
    assert (Hcfg : typed_vault_config (tr_cfg t)).
    { eapply wvc_typed, (vi_config _ _ _ Hinv), (ad_config _ _ _ _ _ _ (traced_admissible _ _ _ _ Ht)). }
    assert (Htok := vi_tokens _ _ _ Hinv).
    destruct (so_nonneg _ _ _ _ _ (traced_shares _ _ _ _ Htok Hcfg Ht)) as (_ & Hl & _).
    destruct (salvage_credits P HD _ _ _ _ p Htok Hcfg Ht HQ HP Hext Hnn Hr) as [Hc _].
    assert (Hge := to_account_nonneg (sp_pool_address params) (tr_lp_share t) p Hl). simpl. lia.
  - destruct Hty as (HQ & Hext & He & _).
    apply claim_iff in Hx as (r & ck & am & L & Hc & -> & _); [| |apply He].
    2:{ intros r Hr. by eapply vault_inv_typed. }
    destruct (claim_lamports _ _ _ _ _ _ _ _ Hc) as (Hlam & _ & Hnn). destruct Hc.
    assert (Hh : h <> lp_holder_pool_vault (cp_pool_address params)).
    { intros ->. apply (Hext _ HQ). left. }
    destruct (decide (cp_pool_address params = p)) as [<-|Hne].
    + right. exists clock, h, params, r, am. split_and!; try done; simpl; rewrite Hlam.
      * rewrite to_account_self, to_account_other by done. lia.
      * rewrite to_account_self, to_account_other by done. lia.
    + left. simpl. rewrite Hlam, to_account_other.
      2:{ intros Heq. by apply (lvd_inj _ HD) in Heq. }
      assert (Hcr := to_account_nonneg h am (lp_holder_pool_vault p) Hnn). lia.
  - left. apply sweep_dust_Ok in Hx as (q & ck & dust & L0 & L1 & Hs & _). by eapply swept_credits.
Qed.

(** An honest snapshot of a pool: the recorded root is that of a tree whose
    balances add up to at most the recorded supply. *)
Record honest_snapshot (r : PoolRegistry) (t : mtree) : Prop := {
  hs_root : lp_snapshot_merkle_root r = mroot t;
  hs_entries : Forall wf_entry (mleaves t);
  hs_sum : balances_total (mleaves t) <= lp_total_supply_at_snapshot r;
  hs_known : Forall known (mpreimages t);
}.

(** What an entry of the snapshot is owed. *)
Definition owed (r : PoolRegistry) (b : Z) : Z :=
  lp_holder_pool_total_lamports r * b / lp_total_supply_at_snapshot r.

Lemma honest_nonneg r t : honest_snapshot r t -> Forall (fun e : Pubkey * Z => 0 <= snd e) (mleaves t).
Proof.
  intros [_ Hwf _ _]. eapply Forall_impl; [exact Hwf|]. intros e [_ He]. apply He.
Qed.

Lemma honest_supply r t h b :
  honest_snapshot r t -> (h, b) ∈ mleaves t -> 0 < b -> 0 < lp_total_supply_at_snapshot r.
Proof.
  intros Hh Hin Hb. assert (Hnn := honest_nonneg _ _ Hh). destruct Hh as [_ _ Hsum _].
  assert (b <= balances_total (mleaves t)); [|lia].
  apply sum_Z_elem; [by rewrite Forall_map|]. apply list_elem_of_fmap. by exists (h, b).
Qed.

(** Under no collision, a recorded claim is an entry of the snapshot. *)
Lemma recorded_claim_honest st p r t h c :
  vault_inv P known st -> vs_registries st !! p = Some r -> honest_snapshot r t ->
  collision_free known -> vs_claims st !! (p, h) = Some c ->
  (h, clm_lp_balance_at_snapshot c) ∈ mleaves t
  /\ clm_amount_lamports c = owed r (clm_lp_balance_at_snapshot c).
Proof.
  intros Hinv Hr [Hroot Hwf _ Hkn] Hcf Hc.
  destruct (vi_claim _ _ _ Hinv _ _ _ Hc) as (r' & Hr' & [Hce _ _ Ham (pf & Hpf & Hkp & Hvp)]).
  rewrite Hr in Hr'. injection Hr' as <-. split; [|done]. rewrite Hroot in Hvp.
  by eapply (member_of_known known).
Qed.

(** An unclaimed entry still fits beside everything claimed so far. *)
Lemma honest_claim_fits st p r t h b :
  vault_inv P known st -> vs_registries st !! p = Some r -> honest_snapshot r t ->
  collision_free known -> (h, b) ∈ mleaves t -> 0 < b -> vs_claims st !! (p, h) = None ->
  0 <= owed r b /\ lp_holder_pool_claimed_lamports r + owed r b <= lp_holder_pool_total_lamports r.
Proof.
  intros Hinv Hr Hh Hcf Hin Hb Hfresh.
  assert (Hnn := honest_nonneg _ _ Hh). assert (Hs := honest_supply _ _ _ _ Hh Hin Hb).
  destruct (vi_registry _ _ _ Hinv _ _ Hr) as [_ _ [Ht _] _ -> _ _].
  assert (Hf : Forall (fun e : Pubkey * Z => 0 <= owed r (snd e)) (mleaves t)).
  { eapply Forall_impl; [exact Hnn|]. intros e Hge. apply Z.div_pos; [|done].
    by apply Z.mul_nonneg_nonneg. }
  split; [by apply (proj1 (Forall_forall _ _) Hf (h, b))|].
  set (c0 := new_claim (mkClaimLpProceedsParams p b []) h (mkClock 0 0 0) (owed r b)).
  assert (Heq : claims_total p (<[(p, h) := c0]> (vs_claims st))
                = owed r b + claims_total p (vs_claims st)).
  { rewrite claims_total_insert by done. unfold claim_of. simpl. by rewrite decide_True. }
  rewrite Z.add_comm, <- Heq.
  etrans; [|apply (floors_within _ _ (mleaves t) Ht Hs Hnn), Hh].
  apply (claims_within_snapshot (owed r)); [done|]. intros h' c Hc.
  destruct (decide (h' = h)) as [->|Hne].
  - rewrite lookup_insert_eq in Hc. by injection Hc as <-.
  - rewrite lookup_insert_ne in Hc by congruence. by eapply recorded_claim_honest.
Qed.

(** An accepted proof of an unclaimed entry meets the conditions of a claim. *)
Lemma honest_claimed_by st p r t h b proof ck :
  vault_inv P known st ->
  vs_registries st !! p = Some r -> honest_snapshot r t -> collision_free known ->
  (h, b) ∈ mleaves t -> 0 < b -> vs_claims st !! (p, h) = None ->
  verify_proof (lp_snapshot_merkle_root r) (compute_leaf h b) proof = true ->
  let params := mkClaimLpProceedsParams p b proof in
  exists L, claimed_by (Some ck) h params st r ck (owed r b) L
    /\ claim_lp_proceeds (Some ck) h params st
       = Ok (claim_state params h r ck (owed r b) L st, [LpClaimProcessed p h (owed r b)]).
Proof.
  intros Hinv Hr Hh Hcf Hin Hb Hfresh Hv params.
  destruct (honest_claim_fits _ _ _ _ _ _ Hinv Hr Hh Hcf Hin Hb Hfresh) as [Ha Hfit].
  assert (Hsup := honest_supply _ _ _ _ Hh Hin Hb). destruct Hh as [Hroot Hwf _ _].
  destruct (vi_registry _ _ _ Hinv _ _ Hr) as [HP _ _ _ _ _ Hsol].
  assert (Hcb : exists L, claimed_by (Some ck) h params st r ck (owed r b) L).
  { destruct (decide (owed r b = 0)) as [Hz|Hz].
    - exists (vs_ledger st). constructor; try done. by left.
    - eexists. constructor; try done.
      right. split; [lia|]. apply transfer_accepted; [done|]. simpl. lia. }
  destruct Hcb as [L Hcb]. exists L. split; [done|]. apply claim_iff; [| |by eauto 10].
  - intros r' Hr'. by eapply vault_inv_typed.
  - by eapply (proj1 (Forall_forall _ _) Hwf (h, b)).
Qed.

(** ... and pays, right now. *)
Lemma honest_claim_pays st p r t h b proof ck :
  lp_vaults_distinct P -> vault_reachable P known st ->
  vs_registries st !! p = Some r -> honest_snapshot r t -> collision_free known ->
  (h, b) ∈ mleaves t -> 0 < b -> vs_claims st !! (p, h) = None ->
  verify_proof (lp_snapshot_merkle_root r) (compute_leaf h b) proof = true ->
  exists st',
    claim_lp_proceeds (Some ck) h (mkClaimLpProceedsParams p b proof) st
      = Ok (st', [LpClaimProcessed p h (owed r b)])
    /\ vs_claims st' !! (p, h) <> None
    /\ forall k, lamports (vs_ledger st') k = lamports (vs_ledger st) k
         - to_account (lp_holder_pool_vault p) (owed r b) k + to_account h (owed r b) k.
Proof.
  intros HD Hreach Hr Hh Hcf Hin Hb Hfresh Hv.
  assert (Hinv := vault_reachable_inv _ _ HD _ Hreach).
  destruct (honest_claimed_by _ _ _ _ _ _ _ ck Hinv Hr Hh Hcf Hin Hb Hfresh Hv) as (L & Hcb & Hc).
  eexists. split_and!; [done|simpl; by rewrite lookup_insert_eq|apply (claim_lamports _ _ _ _ _ _ _ _ Hcb)].
Qed.

(** C11. Every honest holder can always claim. Take any reachable state and any
    salvaged pool whose recorded root is the root of an honest snapshot tree.
    If no SHA-256 collision is known, then each entry of the snapshot that has
    not claimed yet has a proof (no longer than the tree is deep) with which its
    claim succeeds right now, paused or not, whoever claimed before in whatever
    order, and pays exactly [total * balance / supply] from the pool's LP-holder
    account to the holder. *)
Theorem honest_claim_always_succeeds st p r t h b :
  lp_vaults_distinct P -> vault_reachable P known st ->
  vs_registries st !! p = Some r -> honest_snapshot r t -> collision_free known ->
  (h, b) ∈ mleaves t -> 0 < b -> vs_claims st !! (p, h) = None ->
  exists proof, (length proof <= mdepth t)%nat
    /\ forall ck, exists st',
      claim_lp_proceeds (Some ck) h (mkClaimLpProceedsParams p b proof) st
        = Ok (st', [LpClaimProcessed p h (owed r b)])
      /\ vs_claims st' !! (p, h) <> None
      /\ forall k, lamports (vs_ledger st') k = lamports (vs_ledger st) k
           - to_account (lp_holder_pool_vault p) (owed r b) k + to_account h (owed r b) k.
Proof.
  intros HD Hreach Hr Hh Hcf Hin Hb Hfresh.
  destruct (mproof_exists t h b Hin) as (proof & _ & Hlen & Hv).
  exists proof. split; [done|]. intros ck.
  apply (honest_claim_pays st p r t); try done.
  apply bool_decide_eq_true. by rewrite (hs_root _ _ Hh).
Qed.

(** The exact behaviour of a claim: it succeeds if and only if the pool was
    salvaged, this holder has no claim record, the balance and the recorded
    supply are positive, the proof is accepted, the pro-rata floor fits in what
    is left of the pool's total, and the payment (if any lamport is due) goes
    through; it then writes the record, raises the claimed counter by exactly
    the floor and emits one event. The pause flag plays no part. *)
Theorem claim_lp_proceeds_spec clock h params st st' evs :
  (forall r, vs_registries st !! cp_pool_address params = Some r -> typed_registry r) ->
  is_u64 (cp_lp_balance_at_snapshot params) ->
  claim_lp_proceeds clock h params st = Ok (st', evs) <->
  exists r ck amount L, claimed_by clock h params st r ck amount L
    /\ st' = claim_state params h r ck amount L st
    /\ evs = [LpClaimProcessed (cp_pool_address params) h amount].
Proof. apply claim_iff. Qed.

(** ** What never changes again *)

(** A registry only ever gains claims; a receipt is only ever stamped swept. *)
Definition registry_grows (r r' : PoolRegistry) : Prop :=
  r' = with_claimed (lp_holder_pool_claimed_lamports r') r
  /\ lp_holder_pool_claimed_lamports r <= lp_holder_pool_claimed_lamports r'.
Definition receipt_grows (q q' : SalvageReceipt) : Prop :=
  q' = with_swept (dust_swept_at_ts q') q /\ (dust_swept_at_ts q <> 0 -> q' = q).

Lemma registry_grows_refl r : registry_grows r r.
Proof. split; [by destruct r|lia]. Qed.
Lemma receipt_grows_refl q : receipt_grows q q.
Proof. split; [by destruct q|done]. Qed.

(** The records a step starts from are still there, grown. *)
Definition records_kept (st st' : VaultState) : Prop :=
  (forall p r, vs_registries st !! p = Some r ->
     exists r', vs_registries st' !! p = Some r' /\ registry_grows r r')
  /\ (forall p q, vs_receipts st !! p = Some q ->
     exists q', vs_receipts st' !! p = Some q' /\ receipt_grows q q')
  /\ (forall k c, vs_claims st !! k = Some c -> vs_claims st' !! k = Some c).

Lemma records_kept_same st st' :
  vs_registries st' = vs_registries st -> vs_receipts st' = vs_receipts st ->
  vs_claims st' = vs_claims st -> records_kept st st'.
Proof.
  intros H1 H2 H3. split_and!; rewrite ?H1, ?H2, ?H3; eauto using registry_grows_refl, receipt_grows_refl.
Qed.

Lemma records_kept_salvage ctx params st t : traced ctx params st t -> records_kept st (trace_state ctx params st t).
Proof.
  intros Ht. destruct (traced_admissible _ _ _ _ Ht) as [_ _ Hr Hq _ _ _ _ _ _ _ _ _ _].
  split_and!; simpl; [| |done].
  - intros p r Hp. rewrite lookup_insert_ne by congruence. eauto using registry_grows_refl.
  - intros p q Hp. rewrite lookup_insert_ne by congruence. eauto using receipt_grows_refl.
Qed.

Lemma records_kept_claim clock h params st r ck a L :
  claimed_by clock h params st r ck a L -> 0 <= a -> records_kept st (claim_state params h r ck a L st).
Proof.
  intros [Hr Hf _ _ _ _ _ _ _] Ha. split_and!; simpl.
  - intros p r' Hp. destruct (decide (p = cp_pool_address params)) as [->|Hne].
    + rewrite lookup_insert_eq. rewrite Hr in Hp. injection Hp as <-. eexists. split; [done|].
      split; simpl; [done|lia].
    + rewrite lookup_insert_ne by done. eauto using registry_grows_refl.
  - eauto using receipt_grows_refl.
  - intros k c Hc. rewrite lookup_insert_ne; [done|]. intros <-. congruence.
Qed.

Lemma records_kept_sweep clock m sw pool st st' q ck dust L0 L1 :
  swept clock m sw pool st st' q ck dust L0 L1 -> records_kept st st'.
Proof.
  intros [Hq _ _ Hz _ _ _ _ _ ->]. split_and!; simpl; [|..|done].
  - eauto using registry_grows_refl.
  - intros p q' Hp. destruct (decide (p = pool)) as [->|Hne].
    + rewrite lookup_insert_eq. rewrite Hq in Hp. injection Hp as <-. eexists. split; [done|].
      split; [done|]. simpl. congruence.
    + rewrite lookup_insert_ne by done. eauto using receipt_grows_refl.
Qed.

Lemma records_kept_step st st' :
  lp_vaults_distinct P -> vault_inv P known st -> vault_step P known st st' -> records_kept st st'.
Proof.
  intros HD Hinv Hstep.
  destruct Hstep as [ix st' evs Hty Hx _|L _ _ _]; [|by apply records_kept_same].
  destruct ix as [params|a params|a b|ctx params|clock h params|clock m sw pool]; cbn [vault_exec] in Hx.
  - unfold initialize in Hx. vault_inv Hx. by apply records_kept_same.
  - unfold update_protocol_config in Hx. vault_inv Hx. by apply records_kept_same.
  - unfold emergency_pause in Hx. vault_inv Hx. by apply records_kept_same.
  - apply salvage_pool_traced in Hx as (t & Ht & -> & _). by apply records_kept_salvage.
  - apply claim_iff in Hx as (r & ck & am & L & Hc & -> & _); [| |apply Hty].
    + eapply records_kept_claim; [done|]. by apply (claim_lamports _ _ _ _ _ _ _ _ Hc).
    + intros r Hr. by eapply vault_inv_typed.
  - apply sweep_dust_Ok in Hx as (q & ck & dust & L0 & L1 & Hs & _). by eapply records_kept_sweep.
Qed.

(** C33. Salvages are sealed. Along every step, whatever it is: a pool's registry
    keeps its root, supply, total, salvor and time stamps, only its claimed
    counter may grow; a receipt keeps everything but the sweep stamp, and that
    one too once set; claim records are never changed or removed. So a second
    claim by the same holder fails with [AccountAlreadyInUse] for ever, and so
    does a second salvage of the pool that gets as far as its registry (with the
    config and a certificate of the pool in place; without them it fails on
    these, which come first). *)
Theorem vault_records_sealed st st' :
  lp_vaults_distinct P -> vault_inv P known st -> vault_step P known st st' ->
  records_kept st st'
  /\ (forall ctx params, vs_registries st !! sp_pool_address params <> None ->
       is_Some (vs_config st') ->
       is_Some (sx_certs ctx !! (sp_amm_program_id params, sp_pool_address params)) ->
       salvage_pool ctx params st' = Err (Framework AccountAlreadyInUse))
  /\ (forall clock h params, vs_claims st !! (cp_pool_address params, h) <> None ->
       claim_lp_proceeds clock h params st' = Err (Framework AccountAlreadyInUse)).
Proof.
  intros HD Hinv Hstep.
  assert (Hkeep := records_kept_step _ _ HD Hinv Hstep).
  destruct Hkeep as (Hr & Hq & Hc). split_and!; [done..| |].
  - intros ctx params Hreg [cfg Hcfg] [cert Hcert].
    destruct (vs_registries st !! sp_pool_address params) as [r|] eqn:Hp; [|done].
    destruct (Hr _ _ Hp) as (r' & Hr' & _).
    unfold salvage_pool, salvage_accounts. rewrite Hcfg, Hcert, Hr'. done.
  - intros clock h params Hcl.
    destruct (vs_claims st !! (cp_pool_address params, h)) as [c|] eqn:Hp; [|done].
    destruct (vi_claim _ _ _ Hinv _ _ _ Hp) as (r & Hreg & _).
    destruct (Hr _ _ Hreg) as (r' & Hr' & _).
    unfold claim_lp_proceeds. by rewrite Hr', (Hc _ _ Hp).
Qed.

(** The dust of a pool is swept at most once, always in full, always to the
    treasury. A successful sweep names the receipt's own mint, transfers the
    vault's whole balance of it to the treasury's associated account, closes the
    vault's account, and stamps the receipt; in every state reached from there
    a further sweep of the pool is refused with [DustAlreadySwept] (or before,
    by the account constraints). *)
Theorem dust_swept_once clock mint sweeper pool st st1 evs :
  lp_vaults_distinct P -> vault_inv P known st ->
  (forall ck, clock = Some ck -> clock_unix_timestamp ck <> 0) ->
  sweep_dust clock mint sweeper pool st = Ok (st1, evs) -> rent_ok P (vs_ledger st1) ->
  (exists q ck dust L0 L1, swept clock mint sweeper pool st st1 q ck dust L0 L1)
  /\ forall st2 clock' mint' sweeper' st3 evs',
       rtc (vault_step P known) st1 st2 ->
       sweep_dust clock' mint' sweeper' pool st2 <> Ok (st3, evs').
Proof.
  intros HD Hinv Hts Hs Hrent. assert (Hinv1 := vault_inv_sweep _ _ HD _ _ _ _ _ _ _ Hinv Hs Hrent).
  apply sweep_dust_Ok in Hs as (q & ck & dust & L0 & L1 & Hs & _).
  split; [by eauto 10|]. intros st2 clock' mint' sweeper' st3 evs' Hrtc Hs2.
  assert (Hstamp : exists q', vs_receipts st1 !! pool = Some q' /\ dust_swept_at_ts q' <> 0).
  { destruct Hs as [_ Hck _ _ _ _ _ _ _ ->]. simpl. rewrite lookup_insert_eq.
    eexists. split; [done|]. simpl. by apply Hts. }
  assert (Hstamp2 : exists q', vs_receipts st2 !! pool = Some q' /\ dust_swept_at_ts q' <> 0).
  { clear Hs Hs2 Hinv Hrent. induction Hrtc as [st1|st1 stm st2 Hstep _ IH]; [done|].
    apply IH; [by eapply vault_inv_step|]. destruct Hstamp as (q' & Hq' & Hne).
    destruct (records_kept_step _ _ HD Hinv1 Hstep) as (_ & Hrec & _).
    destruct (Hrec _ _ Hq') as (q2 & Hq2 & [_ Hsame]). exists q2. by rewrite Hsame in *. }
  destruct Hstamp2 as (q' & Hq' & Hne).
  apply sweep_dust_Ok in Hs2 as (q2 & ? & ? & ? & ? & [Hq2 _ _ Hz _ _ _ _ _ _] & _).
  congruence.
Qed.

(** ** Governance *)

Definition with_config (c : ProtocolConfig) (r : vault_outcome) : vault_outcome :=
  match r with Ok (st, evs) => Ok (set_vault_config c st, evs) | Err e => Err e end.

(** Both sides run the same computation; split on each of its steps. *)
Ltac same_run :=
  repeat match goal with
  | |- context [mbind ?f ?m] => destruct m as [?|?]; cbn [mbind result_bind]; try reflexivity
  end.

(** The pause is a salvage switch and nothing else: while it is set no
    salvage succeeds, but claims and dust sweeps run exactly as under any other
    configuration, up to the configuration itself. *)
Theorem pause_only_stops_salvages st cfg :
  vs_config st = Some cfg -> emergency_paused cfg = true ->
  (forall ctx params, is_ok (salvage_pool ctx params st) = false)
  /\ (forall c clock h params,
       claim_lp_proceeds clock h params (set_vault_config c st)
       = with_config c (claim_lp_proceeds clock h params st))
  /\ (forall c clock mint sweeper pool,
       sweep_dust clock mint sweeper pool (set_vault_config c st)
       = with_config c (sweep_dust clock mint sweeper pool st)).
Proof.
  intros Hcfg Hp. split_and!.
  - intros ctx params. destruct (salvage_pool ctx params st) as [[st' evs]|] eqn:Hs; [|done].
    apply salvage_pool_traced in Hs as (t & Ht & _). apply traced_admissible in Ht as [Hc _ _ _ _ Hr _].
    congruence.
  - intros c clock h params. unfold claim_lp_proceeds. cbn [vs_registries vs_claims vs_ledger set_vault_config].
    same_run.
  - intros c clock mint sweeper pool. unfold sweep_dust.
    cbn [vs_receipts vs_ledger set_vault_config]. same_run.
Qed.

(** The configuration update on every branch: the shares in force after it
    are the submitted ones where given; it is refused with
    [ProtocolShareExceedsCeiling] exactly when a protocol share above 20% is
    submitted, else with [InvalidShareSplit] exactly when the resulting shares
    miss 100%, else with [SlippageExceeded] exactly when a slippage above 100%
    (not above the 10% of [HARD_MAX_SLIPPAGE_BPS]) is submitted; otherwise it
    applies. *)
Theorem apply_update_spec cfg params :
  let lp := default (lp_holder_share_bps cfg) (vup_lp_holder_share_bps params) in
  let salvor := default (salvor_share_bps cfg) (vup_salvor_share_bps params) in
  let protocol := default (protocol_share_bps cfg) (vup_protocol_share_bps params) in
  let raised := exists v, vup_protocol_share_bps params = Some v /\ PROTOCOL_SHARE_BPS_CEILING < v in
  let wild := exists v, vup_max_slippage_bps params = Some v /\ 10000 < v in
  match apply_update cfg params with
  | Ok c => ~ raised /\ ~ wild /\ lp + salvor + protocol = 10000
      /\ lp_holder_share_bps c = lp /\ salvor_share_bps c = salvor /\ protocol_share_bps c = protocol
      /\ max_slippage_bps c = default (max_slippage_bps cfg) (vup_max_slippage_bps params)
      /\ emergency_paused c = emergency_paused cfg
  | Err ProtocolShareExceedsCeiling => raised
  | Err InvalidShareSplit => ~ raised /\ lp + salvor + protocol <> 10000
  | Err SlippageExceeded => ~ raised /\ lp + salvor + protocol = 10000 /\ wild
  | Err _ => False
  end.
Proof.
  intros lp salvor protocol raised wild. unfold apply_update. fold lp salvor.
  subst raised wild protocol. destruct (vup_protocol_share_bps params) as [v|].
  1: destruct (v <=? PROTOCOL_SHARE_BPS_CEILING) eqn:Hv; bool_simpl; [|cbn; naive_solver].
  all: cbn [require mbind result_bind mret result_ret default from_option].
  all: match goal with |- context [?x =? 10000] => destruct (x =? 10000) eqn:Hsum end;
    bool_simpl; cbn [require mbind result_bind mret result_ret]; [|naive_solver lia].
  all: destruct (vup_max_slippage_bps params) as [w|];
    [destruct (w <=? 10000) eqn:Hw; bool_simpl|];
    cbn; split_and!; try done; naive_solver lia.
Qed.

End VaultSpec.
