(* ===== verification/Payout.v ===== *)
(** * Payout: all the holders of a pool, in any order

    Sequences of [claim_lp_proceeds] against one salvaged pool. Every holder of
    an honest snapshot is paid whatever the order, the order does not show in
    the result, and what the floors leave behind is bounded. *)

From S2P Require Import Prelude Bytes Solana ScannerState Merkle Runtime VaultState AmmCpi Salvage.
From S2P Require Import SalvageSpec Vault VaultInv VaultSpec.

(** What a holder submits. *)
Record Ticket := mkTicket {
  tk_holder : Pubkey;
  tk_balance : Z;
  tk_proof : list (list byte);
}.

(** ** Sums over tickets *)

Section Sums.
Implicit Types (r : PoolRegistry) (l : list Ticket).

Definition ticket_owed r (x : Ticket) : Z := owed r (tk_balance x).
Definition total_owed r l : Z := sum_Z (map (ticket_owed r) l).
Definition balances_of l : Z := sum_Z (map tk_balance l).

(** The lamports the account [k] receives. *)
Definition received r l (k : Pubkey) : Z :=
  sum_Z (map (fun x => to_account (tk_holder x) (ticket_owed r x) k) l).

Lemma total_owed_cons r x l : total_owed r (x :: l) = total_owed r [x] + total_owed r l.
Proof. unfold total_owed, sum_Z. simpl. lia. Qed.

Lemma received_cons r x l k : received r (x :: l) k = received r [x] k + received r l k.
Proof. unfold received, sum_Z. simpl. lia. Qed.

(** The claimed counter plays no part. *)
Lemma total_owed_with_claimed r n l : total_owed (with_claimed n r) l = total_owed r l.
Proof. done. Qed.

Lemma received_with_claimed r n l k : received (with_claimed n r) l k = received r l k.
Proof. done. Qed.

(** The floors lose less than one lamport per ticket. *)
Lemma owed_dust r l :
  0 < lp_total_supply_at_snapshot r ->
  let total := lp_holder_pool_total_lamports r in
  let supply := lp_total_supply_at_snapshot r in
  supply * (total - total_owed r l)
  <= total * (supply - balances_of l) + Z.of_nat (length l) * (supply - 1).
Proof.
  intros Hs total supply. unfold total_owed, balances_of, sum_Z, ticket_owed, owed.
  fold total supply. induction l as [|x l IH]; cbn [map foldr length]; [lia|].
  assert (Hm := Z.mod_pos_bound (total * tk_balance x) supply Hs).
  assert (Hd := Z.div_mod (total * tk_balance x) supply ltac:(unfold supply; lia)). lia.
Qed.

(** The order of the tickets does not show in any of the sums. *)
#[export] Instance total_owed_proper r : Proper (Permutation ==> eq) (total_owed r).
Proof. intros l l' Hl. unfold total_owed. by rewrite Hl. Qed.

#[export] Instance balances_of_proper : Proper (Permutation ==> eq) balances_of.
Proof. intros l l' Hl. unfold balances_of. by rewrite Hl. Qed.

#[export] Instance received_proper r : Proper (Permutation ==> eq ==> eq) (received r).
Proof. intros l l' Hl k ? <-. unfold received. by rewrite Hl. Qed.
End Sums.

Section Payout.
Context `{PdaDerivation} `{HR : Runtime} {HRL : RuntimeLaws} `{HS : Sha256} {HSL : Sha256Laws}.
Variable P : Pubkey -> Prop.
Variable known : list byte -> Prop.
Implicit Types (l : list Ticket) (st : VaultState) (r : PoolRegistry) (t : mtree).

Definition claim_params (p : Pubkey) (x : Ticket) : ClaimLpProceedsParams :=
  mkClaimLpProceedsParams p (tk_balance x) (tk_proof x).

(** The claims of a list of holders, one transaction after the other. *)
Fixpoint run_claims (ck : Clock) (p : Pubkey) (l : list Ticket) (st : VaultState) : vault_outcome :=
  match l with
  | [] => mret (st, [])
  | x :: l =>
      '(st1, e1) ← claim_lp_proceeds (Some ck) (tk_holder x) (claim_params p x) st;
      '(st2, e2) ← run_claims ck p l st1;
      mret (st2, e1 ++ e2)
  end.

(** A ticket for a positive entry of the snapshot, with an accepted proof, by
    a signer that is no PDA of the vault. *)
Record payable (r : PoolRegistry) (t : mtree) (x : Ticket) : Prop := {
  py_entry : (tk_holder x, tk_balance x) ∈ mleaves t;
  py_positive : 0 < tk_balance x;
  py_accepted : verify_proof (lp_snapshot_merkle_root r)
    (compute_leaf (tk_holder x) (tk_balance x)) (tk_proof x) = true;
  py_wf : Forall wf_hash (tk_proof x);
  py_known : Forall known (path_preimages (tk_holder x) (tk_balance x) (tk_proof x));
  py_signer : signed_externally P [tk_holder x];
}.

Definition record_of (p : Pubkey) (r : PoolRegistry) (ck : Clock) (x : Ticket)
    : (Pubkey * Pubkey) * ClaimRecord :=
  ((p, tk_holder x), new_claim (claim_params p x) (tk_holder x) ck (ticket_owed r x)).

(** What a sequence of successful claims leaves. *)
Record paid_out (ck : Clock) (p : Pubkey) (r : PoolRegistry) (l : list Ticket)
    (st st' : VaultState) : Prop := {
  po_reachable : vault_reachable P known st';
  po_registry : vs_registries st' !! p
    = Some (with_claimed (lp_holder_pool_claimed_lamports r + total_owed r l) r);
  po_registries q : q <> p -> vs_registries st' !! q = vs_registries st !! q;
  po_claims : vs_claims st' = list_to_map (map (record_of p r ck) l) ∪ vs_claims st;
  po_receipts : vs_receipts st' = vs_receipts st;
  po_config : vs_config st' = vs_config st;
  po_tokens : lg_tokens (vs_ledger st') = lg_tokens (vs_ledger st);
  po_lamports k : lamports (vs_ledger st') k = lamports (vs_ledger st) k
    - to_account (lp_holder_pool_vault p) (total_owed r l) k + received r l k;
}.

Lemma honest_with_claimed r t n : honest_snapshot known r t -> honest_snapshot known (with_claimed n r) t.
Proof. intros [? ? ? ?]. by constructor. Qed.

Lemma payable_with_claimed r t x n : payable r t x -> payable (with_claimed n r) t x.
Proof. intros [? ? ? ? ? ?]. by constructor. Qed.

(** Nothing claimed yet, nothing changed. *)
Lemma paid_out_nil ck p r st :
  vault_reachable P known st -> vs_registries st !! p = Some r -> paid_out ck p r [] st st.
Proof.
  intros Hst Hr. constructor; try done.
  - rewrite Hr. destruct r. unfold with_claimed, total_owed, sum_Z. simpl. by rewrite Z.add_0_r.
  - simpl. by rewrite map_empty_union.
  - intros k. unfold received, total_owed, sum_Z, to_account. simpl. case_decide; lia.
Qed.

Context (HD : lp_vaults_distinct P) (HC : collision_free known).

(** One claim: the claim succeeds and leaves a reachable state. *)
Lemma claim_one ck p r t x st :
  vault_reachable P known st -> vs_registries st !! p = Some r -> honest_snapshot known r t ->
  payable r t x -> vs_claims st !! (p, tk_holder x) = None ->
  exists st', claim_lp_proceeds (Some ck) (tk_holder x) (claim_params p x) st
      = Ok (st', [LpClaimProcessed p (tk_holder x) (ticket_owed r x)])
    /\ paid_out ck p r [x] st st'.
Proof.
  intros Hst Hr Hh [Hin Hpos Hv Hw Hk Hsig] Hfresh.
  assert (Hinv := vault_reachable_inv _ _ HD _ Hst).
  destruct (honest_claimed_by _ _ _ _ _ _ _ _ (tk_proof x) ck Hinv Hr Hh HC Hin Hpos Hfresh Hv)
    as (L & Hcb & Hc).
  destruct (claim_lamports _ _ _ _ _ _ _ _ Hcb) as (Hlam & Htok & Hnn).
  eexists. split; [exact Hc|]. destruct (vi_registry _ _ _ Hinv _ _ Hr) as [HP _ _ _ _ _ Hsol].
  assert (Hex : total_owed r [x] = owed r (tk_balance x)) by apply Z.add_0_r.
  constructor; simpl; try done.
  - eapply reach_step; [exact Hst|]. eapply (step_ix P known st (IxClaimLpProceeds (Some ck) (tk_holder x) (claim_params p x))); [|exact Hc|].
    + split_and!; try done. by apply (proj1 (Forall_forall _ _) (hs_entries _ _ _ Hh) (_, _)).
    + intros q Hq. destruct (vi_rent _ _ _ Hinv q Hq) as [Hge Hrent]. simpl. rewrite Hlam. simpl.
      assert (Hneq : tk_holder x <> lp_holder_pool_vault q).
      { intros Heq. apply (Hsig _ Hq). rewrite Heq. left. }
      rewrite (to_account_other (tk_holder x)) by done.
      destruct (decide (p = q)) as [<-|Hpq].
      * rewrite to_account_self. pose proof rent_nonneg. pose proof (cb_bound _ _ _ _ _ _ _ _ Hcb). lia.
      * rewrite to_account_other; [lia|]. intros Heq. by apply (lvd_inj _ HD) in Heq.
  - by rewrite lookup_insert_eq, Hex.
  - intros q Hq. by rewrite lookup_insert_ne.
  - by rewrite <- insert_union_l, map_empty_union.
  - intros k. rewrite Hlam, Hex. unfold received, sum_Z. simpl. by rewrite Z.add_0_r.
Qed.

Lemma record_keys p r ck l : NoDup (map tk_holder l) -> NoDup (map (record_of p r ck) l).*1.
Proof.
  intros Hl. change ((map (record_of p r ck) l).*1) with (map fst (map (record_of p r ck) l)).
  rewrite map_map. change (NoDup (map (fun x => (p, tk_holder x)) l)).
  rewrite <- (map_map tk_holder (pair p)). by apply (NoDup_fmap_2 (pair p)).
Qed.

(** Two runs, one after the other. *)
Lemma paid_out_cons ck p r x l st st1 st2 :
  tk_holder x ∉ map tk_holder l ->
  paid_out ck p r [x] st st1 ->
  paid_out ck p (with_claimed (lp_holder_pool_claimed_lamports r + total_owed r [x]) r) l st1 st2 ->
  paid_out ck p r (x :: l) st st2.
Proof.
  intros Hx [_ _ Hq1 Hc1 Hr1 Hg1 Ht1 Hl1] [Hst Hp2 Hq2 Hc2 Hr2 Hg2 Ht2 Hl2].
  constructor; try congruence.
  - rewrite Hp2, total_owed_with_claimed, (total_owed_cons r x l). unfold with_claimed. simpl. do 2 f_equal. lia.
  - intros q Hq. by rewrite Hq2, Hq1.
  - rewrite Hc2, Hc1. simpl. rewrite <- !insert_union_l, map_empty_union. symmetry. apply insert_union_r.
    apply not_elem_of_list_to_map_1. intros Hin. apply Hx.
    apply list_elem_of_In, in_map_iff in Hin as ([? ?] & Heq & Hin). apply in_map_iff in Hin as (y & Hy & Hin).
    apply list_elem_of_In, in_map_iff. exists y. split; [|done]. simpl in Heq.
    unfold record_of in Hy. congruence.
  - intros k. rewrite Hl2, Hl1, total_owed_with_claimed, received_with_claimed, (total_owed_cons r x l), (received_cons r x l).
    unfold to_account. repeat case_decide; lia.
Qed.

Lemma run_claims_paid ck p r t l st :
  vault_reachable P known st -> vs_registries st !! p = Some r -> honest_snapshot known r t ->
  NoDup (map tk_holder l) -> Forall (payable r t) l ->
  Forall (fun x => vs_claims st !! (p, tk_holder x) = None) l ->
  exists st', run_claims ck p l st
      = Ok (st', map (fun x => LpClaimProcessed p (tk_holder x) (ticket_owed r x)) l)
    /\ paid_out ck p r l st st'.
Proof.
  revert r st. induction l as [|x l IH]; intros r st Hst Hr Hh Hnd Hpay Hfresh.
  - exists st. split; [done|by apply paid_out_nil].
  - apply NoDup_cons in Hnd as [Hx Hnd]. apply Forall_cons in Hpay as [Hp Hpay].
    apply Forall_cons in Hfresh as [Hf Hfresh].
    destruct (claim_one ck p r t x st) as (st1 & Hc & H1); [done..|].
    set (r1 := with_claimed (lp_holder_pool_claimed_lamports r + total_owed r [x]) r).
    destruct (IH r1 st1) as (st2 & Hrun & H2).
    + apply H1.
    + apply H1.
    + by apply honest_with_claimed.
    + done.
    + eapply Forall_impl; [exact Hpay|]. intros y. apply payable_with_claimed.
    + apply Forall_forall. intros y Hy. rewrite (po_claims _ _ _ _ _ _ H1). simpl.
      rewrite <- insert_union_l, map_empty_union, lookup_insert_ne.
      * by apply (proj1 (Forall_forall _ _) Hfresh).
      * intros [= Heq]. apply Hx. rewrite Heq. apply list_elem_of_In, in_map, list_elem_of_In, Hy.
    + exists st2. split; [|by eapply paid_out_cons]. cbn [run_claims]. rewrite Hc. cbn [mbind result_bind].
      by rewrite Hrun.
Qed.

(** What is left of a pool nobody had claimed from. *)
Lemma remaining_bound ck p r l st st' :
  paid_out ck p r l st st' -> lp_holder_pool_claimed_lamports r = 0 ->
  0 < lp_total_supply_at_snapshot r ->
  forall r1, vs_registries st' !! p = Some r1 ->
  lp_total_supply_at_snapshot r * remaining_lamports r1
  <= lp_holder_pool_total_lamports r * (lp_total_supply_at_snapshot r - balances_of l)
     + Z.of_nat (length l) * (lp_total_supply_at_snapshot r - 1).
Proof.
  intros H1 H0 Hs r1 Hr1. rewrite (po_registry _ _ _ _ _ _ H1) in Hr1. injection Hr1 as <-.
  pose proof (owed_dust r l Hs).
  pose proof (vault_reachable_inv _ _ HD _ (po_reachable _ _ _ _ _ _ H1)) as Hinv.
  pose proof (wr_bound _ _ _ _ (vi_registry _ _ _ Hinv _ _ (po_registry _ _ _ _ _ _ H1))) as Hb.
  unfold remaining_lamports, saturating_sub_u. simpl in Hb |- *. rewrite H0, Z.add_0_l in Hb |- *.
  by rewrite Z.max_r by lia.
Qed.

(** C12. All the holders of a pool can be paid, in any order, and the order does not
    matter. Take any reachable state, a salvaged pool with an honest snapshot
    and tickets of distinct holders that have not claimed. The claims all
    succeed one after the other; they pay every holder exactly its pro-rata
    floor out of the pool's account, raise the claimed counter by the sum and
    write one record each. Any other order of the same tickets also succeeds
    and ends with the same registries, receipts, records and balances. If
    nothing had been claimed, what stays in the pool (times the supply) is
    at most the part of the supply without a ticket plus less than a lamport
    per ticket. *)
Theorem holders_paid_in_any_order ck p r t l l' st :
  vault_reachable P known st -> vs_registries st !! p = Some r -> honest_snapshot known r t ->
  NoDup (map tk_holder l) -> Forall (payable r t) l ->
  Forall (fun x => vs_claims st !! (p, tk_holder x) = None) l -> l ≡ₚ l' ->
  exists st1 st2,
    run_claims ck p l st
      = Ok (st1, map (fun x => LpClaimProcessed p (tk_holder x) (ticket_owed r x)) l)
    /\ run_claims ck p l' st
      = Ok (st2, map (fun x => LpClaimProcessed p (tk_holder x) (ticket_owed r x)) l')
    /\ paid_out ck p r l st st1
    /\ vs_registries st1 = vs_registries st2 /\ vs_receipts st1 = vs_receipts st2
    /\ vs_claims st1 = vs_claims st2
    /\ (forall k, lamports (vs_ledger st1) k = lamports (vs_ledger st2) k)
    /\ (lp_holder_pool_claimed_lamports r = 0 -> 0 < lp_total_supply_at_snapshot r ->
        forall r1, vs_registries st1 !! p = Some r1 ->
        lp_total_supply_at_snapshot r * remaining_lamports r1
        <= lp_holder_pool_total_lamports r * (lp_total_supply_at_snapshot r - balances_of l)
           + Z.of_nat (length l) * (lp_total_supply_at_snapshot r - 1)).
Proof.
  intros Hst Hr Hh Hnd Hpay Hfresh Hl.
  destruct (run_claims_paid ck p r t l st) as (st1 & Hr1 & H1); [done..|].
  destruct (run_claims_paid ck p r t l' st) as (st2 & Hr2 & H2); [done..| | | |].
  { by rewrite <- Hl. }
  { by rewrite <- Hl. }
  { by rewrite <- Hl. }
  exists st1, st2. split_and!; try done.
  - apply map_eq. intros q. destruct (decide (q = p)) as [->|Hq].
    + by rewrite (po_registry _ _ _ _ _ _ H1), (po_registry _ _ _ _ _ _ H2), Hl.
    + by rewrite (po_registries _ _ _ _ _ _ H1), (po_registries _ _ _ _ _ _ H2).
  - by rewrite (po_receipts _ _ _ _ _ _ H1), (po_receipts _ _ _ _ _ _ H2).
  - rewrite (po_claims _ _ _ _ _ _ H1), (po_claims _ _ _ _ _ _ H2). f_equal.
    apply list_to_map_proper; [by apply record_keys|by rewrite Hl].
  - intros k. by rewrite (po_lamports _ _ _ _ _ _ H1), (po_lamports _ _ _ _ _ _ H2), Hl.
  - by eapply remaining_bound.
Qed.
End Payout.
