(* ===== verification/Escrow.v ===== *)
(** * Escrow: what the vault promises, as a specification

    A specification of the LP-holder side of the vault that knows nothing of
    accounts, proofs or programs: pots that are opened once and pay each holder
    once, never more than they hold. It is executable, as a replay of a log of
    payments. The vault refines it: the events of any run are such a log, and
    replaying them gives the state on the chain. *)

From S2P Require Import Prelude Bytes Solana ScannerState Merkle Runtime VaultState AmmCpi Salvage.
From S2P Require Import SalvageSpec Vault VaultInv VaultSpec.

(** ** The specification *)

Record Pot := mkPot {
  pot_total : Z;
  pot_paid : gmap Pubkey Z;
}.

Abbreviation Escrow := (gmap Pubkey Pot).

Inductive label :=
| Opened (pool : Pubkey) (total : Z)
| Paid (pool holder : Pubkey) (amount : Z).

Definition paid_sum (m : gmap Pubkey Z) : Z := sum_Z (map snd (map_to_list m)).
Definition pot_left (pot : Pot) : Z := pot_total pot - paid_sum (pot_paid pot).

Definition escrow_apply (e : Escrow) (l : label) : option Escrow :=
  match l with
  | Opened p total =>
      if decide (e !! p = None /\ 0 <= total) then Some (<[p := mkPot total ∅]> e) else None
  | Paid p h n =>
      pot ← e !! p;
      if decide (pot_paid pot !! h = None /\ 0 <= n <= pot_left pot)
      then Some (<[p := mkPot (pot_total pot) (<[h := n]> (pot_paid pot))]> e) else None
  end.

Fixpoint replay (e : Escrow) (ls : list label) : option Escrow :=
  match ls with
  | [] => Some e
  | l :: ls => e' ← escrow_apply e l; replay e' ls
  end.

Lemma replay_app e ls1 ls2 : replay e (ls1 ++ ls2) = (e' ← replay e ls1; replay e' ls2).
Proof. revert e. induction ls1 as [|l ls1 IH]; intros e; [done|]. cbn [app replay].
  destruct (escrow_apply e l) as [e'|]; [apply IH|done].
Qed.

Lemma paid_sum_insert m h n : m !! h = None -> paid_sum (<[h := n]> m) = n + paid_sum m.
Proof. intros Hh. unfold paid_sum. by rewrite (map_to_list_insert m h n Hh). Qed.

(** *** What the specification gives by itself *)

(** The pot a log opens, and the payments it makes from it. *)
Definition opened_in (p : Pubkey) (ls : list label) : list Z :=
  omap (fun l => match l with Opened q total => if decide (q = p) then Some total else None | _ => None end) ls.
Definition paid_in (p : Pubkey) (ls : list label) : list (Pubkey * Z) :=
  omap (fun l => match l with Paid q h n => if decide (q = p) then Some (h, n) else None | _ => None end) ls.

(** A pot against the log it came from. *)
Definition accounted (ls : list label) (p : Pubkey) (o : option Pot) : Prop :=
  match o with
  | None => opened_in p ls = [] /\ paid_in p ls = []
  | Some pot => opened_in p ls = [pot_total pot] /\ paid_in p ls ≡ₚ map_to_list (pot_paid pot)
      /\ 0 <= pot_left pot
  end.

Lemma replay_accounted ls e p : replay ∅ ls = Some e -> accounted ls p (e !! p).
Proof.
  revert e. induction ls as [|l ls IH] using rev_ind; intros e He.
  { injection He as <-. by rewrite lookup_empty. }
  rewrite replay_app in He. apply bind_Some in He as (e0 & He0 & He). specialize (IH e0 He0).
  cbn [replay] in He. apply bind_Some in He as (e1 & He & [= ->]).
  assert (Happ : forall q, opened_in q (ls ++ [l]) = opened_in q ls ++ opened_in q [l]
    /\ paid_in q (ls ++ [l]) = paid_in q ls ++ paid_in q [l]).
  { intros q. unfold opened_in, paid_in. by rewrite !omap_app. }
  destruct (Happ p) as [Ho Hp]. unfold accounted. rewrite Ho, Hp. clear Happ Ho Hp.
  destruct l as [q total|q h n]; simpl in He |- *.
  - case_decide as Hd; [|done]. injection He as <-. destruct Hd as [Hnone Ht].
    rewrite app_nil_r. destruct (decide (q = p)) as [->|Hne].
    + rewrite Hnone in IH. destruct IH as [-> ->]. rewrite lookup_insert_eq. simpl.
      unfold pot_left, paid_sum. simpl. rewrite map_to_list_empty. split_and!; [done..|cbn; lia].
    + rewrite lookup_insert_ne, app_nil_r by done. exact IH.
  - apply bind_Some in He as (pot & Hpot & He). case_decide as Hd; [|done]. injection He as <-.
    destruct Hd as (Hfresh & Hn & Hleft). rewrite app_nil_r. destruct (decide (q = p)) as [->|Hne].
    + rewrite Hpot in IH. destruct IH as (-> & HP & _). rewrite lookup_insert_eq. simpl.
      rewrite map_to_list_insert by done. split_and!; [done| |].
      * rewrite HP. symmetry. apply Permutation_cons_append.
      * unfold pot_left in *. simpl. rewrite paid_sum_insert by done. lia.
    + rewrite lookup_insert_ne, app_nil_r by done. exact IH.
Qed.

(** ** The vault's abstract state *)

(** The holders paid from a pool. *)
Definition paid_to (p : Pubkey) (claims : gmap (Pubkey * Pubkey) ClaimRecord) : gmap Pubkey Z :=
  clm_amount_lamports <$> default ∅ (map_curry (M1 := gmap Pubkey) (M2 := gmap Pubkey) claims !! p).

Definition escrow_of (st : VaultState) : Escrow :=
  map_imap (fun p r => Some (mkPot (lp_holder_pool_total_lamports r) (paid_to p (vs_claims st)))) (vs_registries st).

(** The events that are the specification's. *)
Definition label_of (ev : VaultEvent) : option label :=
  match ev with
  | PoolSalvaged _ pool _ lp_holder_amount _ _ => Some (Opened pool lp_holder_amount)
  | LpClaimProcessed pool holder amount => Some (Paid pool holder amount)
  | _ => None
  end.
Definition labels (evs : list VaultEvent) : list label := omap label_of evs.

Lemma paid_to_lookup p claims h : paid_to p claims !! h = clm_amount_lamports <$> claims !! (p, h).
Proof.
  unfold paid_to. rewrite lookup_fmap. f_equal. rewrite <- lookup_map_curry.
  by destruct (map_curry claims !! p).
Qed.

Lemma paid_to_insert_eq p h c claims :
  paid_to p (<[(p, h) := c]> claims) = <[h := clm_amount_lamports c]> (paid_to p claims).
Proof.
  apply map_eq. intros k. rewrite paid_to_lookup. destruct (decide (k = h)) as [->|Hne].
  - by rewrite !lookup_insert_eq.
  - by rewrite !lookup_insert_ne, paid_to_lookup by congruence.
Qed.

Lemma paid_to_insert_ne p q h c claims : q <> p -> paid_to p (<[(q, h) := c]> claims) = paid_to p claims.
Proof. intros Hne. apply map_eq. intros k. by rewrite !paid_to_lookup, lookup_insert_ne by congruence. Qed.

(** The sum of the pot's payments is the sum over the claim records. *)
Lemma paid_sum_claims p claims : paid_sum (paid_to p claims) = claims_total p claims.
Proof.
  induction claims as [|[q h] c claims Hnew IH] using map_ind.
  - rewrite claims_total_empty. assert (paid_to p ∅ = ∅) as ->; [|done].
    apply map_eq. intros k. by rewrite paid_to_lookup, !lookup_empty.
  - rewrite claims_total_insert by done. unfold claim_of. simpl. destruct (decide (q = p)) as [->|Hne].
    + rewrite paid_to_insert_eq, paid_sum_insert by (by rewrite paid_to_lookup, Hnew). lia.
    + rewrite paid_to_insert_ne by done. lia.
Qed.

Lemma escrow_of_lookup st p :
  escrow_of st !! p
  = (fun r => mkPot (lp_holder_pool_total_lamports r) (paid_to p (vs_claims st))) <$> vs_registries st !! p.
Proof. unfold escrow_of. rewrite map_lookup_imap. by destruct (vs_registries st !! p). Qed.

Lemma escrow_of_same st st' :
  vs_registries st' = vs_registries st -> vs_claims st' = vs_claims st -> escrow_of st' = escrow_of st.
Proof. intros Hr Hc. unfold escrow_of. by rewrite Hr, Hc. Qed.

Section Refinement.
Context `{PdaDerivation} `{HR : Runtime} {HRL : RuntimeLaws} `{HS : Sha256} {HSL : Sha256Laws}.
Variable P : Pubkey -> Prop.
Variable known : list byte -> Prop.

(** A run with the log it emits. *)
Inductive vault_run : list VaultEvent -> VaultState -> Prop :=
| run_genesis L : wf_tokens (lg_tokens L) -> rent_ok P L -> vault_run [] (vault_genesis L)
| run_ix evs st ix st' new :
    vault_run evs st -> ix_typed P known ix -> vault_exec ix st = Ok (st', new) -> rent_ok P (vs_ledger st') ->
    vault_run (evs ++ new) st'
| run_world evs st L :
    vault_run evs st ->
    (forall p, P p -> lamports (vs_ledger st) (lp_holder_pool_vault p) <= lamports L (lp_holder_pool_vault p)) ->
    wf_tokens (lg_tokens L) -> rent_ok P L -> vault_run evs (set_ledger L st).

Lemma vault_run_reachable evs st : vault_run evs st -> vault_reachable P known st.
Proof.
  induction 1 as [L Ht Hr|evs st ix st' new _ IH Hty Hx Hr|evs st L _ IH Hc Ht Hr].
  - by apply reach_genesis.
  - eapply reach_step; [exact IH|]. by eapply step_ix.
  - eapply reach_step; [exact IH|]. by apply step_world.
Qed.

Context (HD : lp_vaults_distinct P).

(** A pool no registry knows has paid nobody. *)
Lemma unsalvaged_unclaimed st p h : vault_inv P known st -> vs_registries st !! p = None -> vs_claims st !! (p, h) = None.
Proof.
  intros Hinv Hp. destruct (vs_claims st !! (p, h)) as [c|] eqn:Hc; [|done].
  destruct (vi_claim _ _ _ Hinv _ _ _ Hc) as (r & Hr & _). congruence.
Qed.

Lemma escrow_salvage ctx params st t :
  vault_inv P known st -> traced ctx params st t ->
  escrow_apply (escrow_of st) (Opened (sp_pool_address params) (tr_lp_share t))
  = Some (escrow_of (trace_state ctx params st t)).
Proof.
  intros Hinv Ht. pose proof (traced_admissible _ _ _ _ Ht) as Had.
  assert (Hfresh : vs_registries st !! sp_pool_address params = None) by apply Had.
  assert (Hty : typed_vault_config (tr_cfg t)).
  { eapply wvc_typed, (vi_config _ _ _ Hinv), (ad_config _ _ _ _ _ _ Had). }
  destruct (so_nonneg _ _ _ _ _ (traced_shares _ _ _ _ (vi_tokens _ _ _ Hinv) Hty Ht)) as (_ & Hl & _).
  cbn [escrow_apply]. rewrite decide_True by (by rewrite escrow_of_lookup, Hfresh). f_equal.
  apply map_eq. intros p. rewrite escrow_of_lookup. unfold trace_state. simpl.
  destruct (decide (p = sp_pool_address params)) as [->|Hne].
  - rewrite !lookup_insert_eq. simpl. do 2 f_equal. apply map_eq. intros h.
    by rewrite lookup_empty, paid_to_lookup, (unsalvaged_unclaimed st).
  - by rewrite !lookup_insert_ne, escrow_of_lookup by done.
Qed.

Lemma escrow_claim clock h params st r ck a L :
  vault_inv P known st -> claimed_by clock h params st r ck a L ->
  escrow_apply (escrow_of st) (Paid (cp_pool_address params) h a)
  = Some (escrow_of (claim_state params h r ck a L st)).
Proof.
  intros Hinv Hc. destruct (claim_lamports _ _ _ _ _ _ _ _ Hc) as (_ & _ & Hnn).
  destruct Hc as [Hr Hf _ _ _ _ _ Hle _]. set (p := cp_pool_address params) in *.
  pose proof (vi_registry _ _ _ Hinv _ _ Hr) as Hwr.
  cbn [escrow_apply]. rewrite escrow_of_lookup, Hr. cbn [fmap option_fmap option_map mbind option_bind].
  rewrite decide_True.
  2:{ split; simpl; [by rewrite paid_to_lookup, Hf|]. unfold pot_left. simpl.
      rewrite paid_sum_claims, <- (wr_claimed _ _ _ _ Hwr). lia. }
  f_equal. apply map_eq. intros q. rewrite escrow_of_lookup. unfold claim_state. simpl. fold p.
  destruct (decide (q = p)) as [->|Hne].
  - rewrite !lookup_insert_eq. simpl. by rewrite paid_to_insert_eq.
  - rewrite !lookup_insert_ne, escrow_of_lookup by done. destruct (vs_registries st !! q); simpl; [|done].
    by rewrite paid_to_insert_ne.
Qed.

(** One instruction is one step of the specification, or none. *)
Lemma escrow_exec ix st st' evs :
  vault_inv P known st -> ix_typed P known ix -> vault_exec ix st = Ok (st', evs) ->
  replay (escrow_of st) (labels evs) = Some (escrow_of st').
Proof.
  intros Hinv Hty Hx. destruct ix as [params|a params|a b|ctx params|clock h params|clock m sw pool];
    cbn [vault_exec] in Hx.
  - unfold initialize in Hx. vault_inv Hx. done.
  - unfold update_protocol_config in Hx. vault_inv Hx. done.
  - unfold emergency_pause in Hx. vault_inv Hx. done.
  - apply salvage_pool_traced in Hx as (t & Ht & -> & ->). cbn [labels trace_events omap list_omap label_of replay].
    by rewrite (escrow_salvage _ _ _ _ Hinv Ht).
  - apply claim_iff in Hx as (r & ck & am & L & Hc & -> & ->); [| |apply Hty].
    + cbn [labels omap list_omap label_of replay]. by rewrite (escrow_claim _ _ _ _ _ _ _ _ Hinv Hc).
    + intros r Hr. by eapply vault_inv_typed.
  - apply sweep_dust_Ok in Hx as (q & ck & dust & L0 & L1 & Hs & ->).
    destruct Hs as [_ _ _ _ _ _ _ _ _ ->]. done.
Qed.

Lemma escrow_run evs st : vault_run evs st -> replay ∅ (labels evs) = Some (escrow_of st).
Proof.
  induction 1 as [L Ht Hr|evs st ix st' new Hrun IH Hty Hx Hr|evs st L Hrun IH Hc Ht Hr].
  - done.
  - unfold labels in *. rewrite omap_app, replay_app, IH. cbn [mbind option_bind].
    eapply escrow_exec; try done. eapply vault_reachable_inv; [exact HD|]. by eapply vault_run_reachable.
  - by rewrite IH.
Qed.

(** C5. The vault refines the escrow. However a run of the vault goes, whatever
    instructions succeed or fail and whatever else happens on the chain, the
    log it emits is a run of the specification, pots opened once, holders paid
    once, never beyond the pot, that ends in exactly the state the accounts
    on the chain stand for; and each pot is in custody: the pool's account holds
    what the pot has left, on top of its rent. *)
Theorem vault_refines_escrow evs st :
  vault_run evs st ->
  replay ∅ (labels evs) = Some (escrow_of st)
  /\ forall p pot, escrow_of st !! p = Some pot ->
       0 <= pot_left pot /\ rent_minimum + pot_left pot <= lamports (vs_ledger st) (lp_holder_pool_vault p).
Proof.
  intros Hrun. split; [by apply escrow_run|]. intros p pot Hp.
  pose proof (vault_reachable_inv _ _ HD _ (vault_run_reachable _ _ Hrun)) as Hinv.
  rewrite escrow_of_lookup in Hp. apply fmap_Some in Hp as (r & Hr & ->).
  destruct (vi_registry _ _ _ Hinv _ _ Hr) as [_ _ _ _ Hcl Hb Hsol].
  unfold pot_left. simpl. rewrite paid_sum_claims, <- Hcl. lia.
Qed.

(** C24. The log can be audited without the chain. In every run, a pool that was
    never salvaged shows no opening and no payment; a salvaged one was opened
    exactly once, with the total its registry has; its payments are, up to
    their order, exactly its claim records, so nobody appears twice, and they
    add up to the registry's claimed counter and at most to the opened total. *)
Theorem event_log_accounts evs st p :
  vault_run evs st ->
  match vs_registries st !! p with
  | None => opened_in p (labels evs) = [] /\ paid_in p (labels evs) = []
  | Some r =>
      opened_in p (labels evs) = [lp_holder_pool_total_lamports r]
      /\ NoDup (paid_in p (labels evs)).*1
      /\ (forall h n, (h, n) ∈ paid_in p (labels evs)
            <-> exists c, vs_claims st !! (p, h) = Some c /\ clm_amount_lamports c = n)
      /\ sum_Z (map snd (paid_in p (labels evs))) = lp_holder_pool_claimed_lamports r
      /\ lp_holder_pool_claimed_lamports r <= lp_holder_pool_total_lamports r
  end.
Proof.
  intros Hrun. pose proof (replay_accounted _ _ p (escrow_run _ _ Hrun)) as Hacc.
  pose proof (vault_reachable_inv _ _ HD _ (vault_run_reachable _ _ Hrun)) as Hinv.
  rewrite escrow_of_lookup in Hacc. destruct (vs_registries st !! p) as [r|] eqn:Hr; [|done].
  destruct (vi_registry _ _ _ Hinv _ _ Hr) as [_ _ _ _ Hcl Hb _].
  destruct Hacc as (Ho & Hp & _). cbn [fmap option_fmap option_map pot_total pot_paid] in Ho, Hp.
  split_and!; [done|rewrite Hp; apply NoDup_fst_map_to_list| | |lia].
  - intros h n. rewrite Hp, elem_of_map_to_list, paid_to_lookup, fmap_Some. naive_solver.
  - rewrite Hp, Hcl. apply paid_sum_claims.
Qed.
End Refinement.
