(* ===== verification/VaultExamples.v ===== *)
(** * VaultExamples: a concrete salvage

    One pool, salvaged, claimed from by its two holders and swept, under a
    concrete runtime, hash and address derivation; the witnesses of the
    vault's theorems. *)

From Stdlib Require Import String.
From S2P Require Import Prelude Bytes Solana ScannerState Merkle Locker Runtime VaultState AmmCpi Salvage.
From S2P Require Import SalvageSpec Vault VaultInv SalvageLive VaultSpec Escrow.

Section VaultExamples.
#[local] Existing Instance toy_sha256.
#[local] Existing Instance toy_sha256_laws.

(** Addresses are hashes of seeds and program id. *)
Definition toy_pda : PdaDerivation := fun seeds prog => (toy_sha256 (concat seeds ++ prog), 255).
#[local] Existing Instance toy_pda.

(** A withdraw moves half of each reserve to the user; a swap moves the whole
    first account's balance away and pays ten lamports for each token to the
    second. *)
Definition add_tokens (k : Pubkey) (n : Z) (toks : gmap Pubkey TokenAcc) : option (gmap Pubkey TokenAcc) :=
  t ← toks !! k; Some (<[k := mkTokenAcc (ta_mint t) (ta_owner t) (ta_amount t + n)]> toks).
Definition move_tokens_half (src dst : Pubkey) (toks : gmap Pubkey TokenAcc) : option (gmap Pubkey TokenAcc) :=
  t ← toks !! src; toks1 ← add_tokens src (- (ta_amount t / 2)) toks; add_tokens dst (ta_amount t / 2) toks1.
Definition toy_programs (ix : Instruction) (toks : gmap Pubkey TokenAcc) : option (gmap Pubkey TokenAcc) :=
  let acct i := account_at (ix_accounts ix) i in
  if bool_decide (ix_program_id ix = RAYDIUM_V4_PROGRAM_ID) then
    toks1 ← move_tokens_half (acct 6%nat) (acct 16%nat) toks;
    move_tokens_half (acct 7%nat) (acct 17%nat) toks1
  else
    t ← toks !! acct 0%nat;
    toks1 ← add_tokens (acct 0%nat) (- ta_amount t) toks;
    add_tokens (acct 1%nat) (10 * ta_amount t) toks1.
Definition toy_runtime : Runtime := SampleRuntime toy_programs 890880.
#[local] Existing Instance toy_runtime.
Definition toy_laws : RuntimeLaws := SampleRuntime_laws toy_programs 890880 ltac:(lia).
#[local] Existing Instance toy_laws.

Definition ex_pool : Pubkey := key_of x50.
Definition ex_salvor : Pubkey := key_of x51.
Definition ex_lp_mint : Pubkey := key_of x52.
Definition ex_memecoin : Pubkey := key_of x53.
Definition ex_salvor_lp : Pubkey := key_of x54.
Definition ex_coin_vault : Pubkey := key_of x55.
Definition ex_pc_vault : Pubkey := key_of x56.
Definition ex_authority : Pubkey := key_of x57.
Definition alice : Pubkey := key_of x01.
Definition bob : Pubkey := key_of x02.

Definition ex_tree : mtree := MNode (MLeaf alice 600) (MLeaf bob 400).
Definition ex_clock : Clock := mkClock 1000 5 1700000000.

Definition ex_pool_account : AccountInfo :=
  mkAccountInfo ex_pool 1 (zeroes 400 ++ WSOL_MINT ++ ex_memecoin ++ ex_lp_mint ++ zeroes 256)
    RAYDIUM_V4_PROGRAM_ID false.

Definition ex_cert : EligibilityCert :=
  mkEligibilityCert RAYDIUM_V4_PROGRAM_ID ex_pool ex_salvor 3 4 1699999000 1700003600 63 1 255 (zeroes 56).

Definition ex_remaining : list AccountMeta :=
  meta_new RAYDIUM_V4_AMM_AUTHORITY false :: meta_new (key_of x60) false :: meta_new (key_of x61) false
  :: meta_new ex_coin_vault false :: meta_new ex_pc_vault false
  :: map (fun b => meta_new (key_of b) false) [x62; x63; x64; x65; x66; x67; x68; x69]
  ++ [meta_new (associated_token vault_authority ex_memecoin) false; meta_new base_ata false].

Definition ex_ctx : SalvageCtx := {|
  sx_clock := Some ex_clock;
  sx_certs := {[ (RAYDIUM_V4_PROGRAM_ID, ex_pool) := ex_cert ]};
  sx_salvor := ex_salvor;
  sx_pool := ex_pool_account;
  sx_amm_program := mkAccountInfo RAYDIUM_V4_PROGRAM_ID 1 [] (key_of x70) true;
  sx_jupiter_program := JUPITER_V6_PROGRAM_ID;
  sx_salvor_lp_token_account := ex_salvor_lp;
  sx_lp_mint := ex_lp_mint;
  sx_lp_mint_supply := 1000;
  sx_memecoin_mint := ex_memecoin;
  sx_wsol_mint := WSOL_MINT;
  sx_remaining_accounts := ex_remaining;
|}.

Definition ex_params : SalvagePoolParams := {|
  sp_amm_program_id := RAYDIUM_V4_PROGRAM_ID;
  sp_pool_address := ex_pool;
  sp_lp_snapshot_merkle_root := mroot ex_tree;
  sp_lp_total_supply_at_snapshot := 1000;
  sp_min_quote_output_lamports := 9900000;
  sp_salvor_lp_amount := 1000;
  sp_jupiter_route_data := [x01];
  sp_max_slippage_bps_override := None;
  sp_jupiter_route_accounts_len := 2;
|}.

Definition ex_ledger : Ledger := mkLedger
  {[ ex_salvor := 10000000000 ]}
  (<[ ex_salvor_lp := mkTokenAcc ex_lp_mint ex_salvor 1000 ]>
   (<[ ex_coin_vault := mkTokenAcc WSOL_MINT (key_of x71) 20000003 ]>
   {[ ex_pc_vault := mkTokenAcc ex_memecoin (key_of x71) 2000000 ]})).

Definition ex_init : InitializeParams := mkVaultInitializeParams ex_authority 0 0 0 0 0 0 0.

(** The state an instruction leaves. *)
Definition after (r : vault_outcome) : VaultState :=
  match r with Ok (st, _) => st | Err _ => vault_genesis (mkLedger ∅ ∅) end.

Definition ex_genesis : VaultState := vault_genesis ex_ledger.
Definition ex_configured : VaultState := after (vault_exec (IxInitialize ex_init) ex_genesis).
Definition ex_salvaged : VaultState := after (vault_exec (IxSalvagePool ex_ctx ex_params) ex_configured).

Example ex_salvage_events :
  (map_err (fun e => e) (salvage_pool ex_ctx ex_params ex_configured) ≫= fun p => Ok (snd p))
  = Ok [PoolSalvaged RAYDIUM_V4_PROGRAM_ID ex_pool ex_salvor 8000000 8000000 4000001;
        SalvageCompleted ex_pool ex_salvor 20000001].
Proof. vm_compute. reflexivity. Qed.

(** ** The hypotheses of the theorems, on this scenario *)

Definition ex_P (p : Pubkey) : Prop := p = ex_pool.
Definition alice_proof : list (list byte) := [compute_leaf bob 400].
Definition bob_proof : list (list byte) := [compute_leaf alice 600].
Definition ex_hashed : list (list byte) :=
  mpreimages ex_tree ++ path_preimages alice 600 alice_proof ++ path_preimages bob 400 bob_proof.
Definition ex_known (x : list byte) : Prop := x ∈ ex_hashed.

Lemma ex_distinct : lp_vaults_distinct ex_P.
Proof.
  constructor.
  - by intros p q -> ->.
  - intros p q -> ->. computed.
  - intros p ->. computed.
Qed.

Lemma ex_collision_free : collision_free ex_known.
Proof.
  assert (Hf : Forall (fun x => Forall (fun y => sha256 x = sha256 y -> x = y) ex_hashed) ex_hashed)
    by computed.
  intros x y Hx Hy. rewrite Forall_forall in Hf. specialize (Hf x Hx).
  rewrite Forall_forall in Hf. by apply Hf.
Qed.

Lemma after_ok (r : vault_outcome) : is_ok r = true -> exists evs, r = Ok (after r, evs).
Proof. destruct r as [[st evs]|]; [by exists evs|done]. Qed.

Lemma after_events (r : vault_outcome) evs :
  (match r with Ok (_, e) => Some e | Err _ => None end) = Some evs -> r = Ok (after r, evs).
Proof. destruct r as [[st e]|]; [by intros [= ->]|done]. Qed.

Lemma salvage_exec ctx params st : salvage_pool ctx params st = vault_exec (IxSalvagePool ctx params) st.
Proof. reflexivity. Qed.
Lemma sweep_exec clock mint sweeper pool st :
  sweep_dust clock mint sweeper pool st = vault_exec (IxSweepDust clock mint sweeper pool) st.
Proof. reflexivity. Qed.

(** An instruction that succeeds and leaves the LP-holder account rent-exempt or
    empty, decided by evaluation. *)
Definition rent_okb (L : Ledger) : bool :=
  let n := lamports L (lp_holder_pool_vault ex_pool) in (n =? 0) || (rent_minimum <=? n).
Definition commits (ix : VaultIx) (st : VaultState) : bool :=
  match vault_exec ix st with Ok (st', _) => rent_okb (vs_ledger st') | Err _ => false end.

Lemma rent_okb_ok L : rent_okb L = true -> rent_ok ex_P L.
Proof.
  intros Hr p ->. unfold rent_okb in Hr. assert (Hn := rent_nonneg).
  apply orb_prop in Hr as [Hr|Hr]; bool_simpl; lia.
Qed.

Lemma ex_reach ix st :
  vault_reachable ex_P ex_known st -> ix_typed ex_P ex_known ix -> commits ix st = true ->
  vault_reachable ex_P ex_known (after (vault_exec ix st)).
Proof.
  intros Hst Hty Hc. unfold commits in Hc.
  destruct (vault_exec ix st) as [[st' evs]|] eqn:Hx; [|done].
  apply (reach_step _ _ _ _ Hst). eapply step_ix; [done..|]. by apply rent_okb_ok.
Qed.

Lemma ex_salvage_typed : ix_typed ex_P ex_known (IxSalvagePool ex_ctx ex_params).
Proof.
  split_and!; [done| |in_range]. intros q ->. computed.
Qed.

Lemma ex_init_typed n :
  ix_typed ex_P ex_known (IxInitialize (mkVaultInitializeParams ex_authority 0 0 0 0 0 n 0)).
Proof. split_and!; in_range. Qed.

Lemma ex_reach_genesis : vault_reachable ex_P ex_known ex_genesis.
Proof. apply reach_genesis; [computed|apply rent_okb_ok; vm_compute; reflexivity]. Qed.

Lemma ex_reach_configured : vault_reachable ex_P ex_known ex_configured.
Proof.
  apply ex_reach; [exact ex_reach_genesis|apply ex_init_typed|vm_compute; reflexivity].
Qed.

Lemma ex_reach_salvaged : vault_reachable ex_P ex_known ex_salvaged.
Proof.
  apply ex_reach; [exact ex_reach_configured|exact ex_salvage_typed|vm_compute; reflexivity].
Qed.

Definition alice_claim : ClaimLpProceedsParams := mkClaimLpProceedsParams ex_pool 600 alice_proof.
Definition ex_claimed : VaultState :=
  after (vault_exec (IxClaimLpProceeds (Some ex_clock) alice alice_claim) ex_salvaged).

Lemma alice_typed : ix_typed ex_P ex_known (IxClaimLpProceeds (Some ex_clock) alice alice_claim).
Proof.
  split_and!; [done|by intros q ->; computed|split; [done|in_range]|computed|].
  apply Forall_forall. intros x Hx. unfold ex_known, ex_hashed. rewrite !elem_of_app. auto.
Qed.

Lemma ex_reach_claimed : vault_reachable ex_P ex_known ex_claimed.
Proof.
  apply ex_reach; [exact ex_reach_salvaged|exact alice_typed|vm_compute; reflexivity].
Qed.

(** The registry of the example, before any claim. *)
Definition ex_registry : PoolRegistry := new_registry ex_ctx ex_params ex_clock 8000000.
Definition ex_registry_claimed : PoolRegistry := with_claimed 4800000 ex_registry.

Lemma ex_honest : honest_snapshot ex_known ex_registry_claimed ex_tree.
Proof.
  constructor; [done| |by vm_compute|].
  - repeat (apply Forall_cons; split; [split; [reflexivity|in_range]|]). by apply Forall_nil.
  - apply Forall_forall. intros x Hx. unfold ex_known, ex_hashed. rewrite !elem_of_app. auto.
Qed.

(** ** Witnesses *)

Lemma salvage_admission_witness :
  exists cfg cert clock b,
    admissible ex_ctx ex_params ex_configured cfg cert clock
    /\ ai_owner (sx_pool ex_ctx) = RAYDIUM_V4_PROGRAM_ID
    /\ len_Z (ai_data (sx_pool ex_ctx)) = RAYDIUM_V4_AMM_INFO_SIZE
    /\ sx_lp_mint ex_ctx = slice 464 32 (ai_data (sx_pool ex_ctx))
    /\ sx_memecoin_mint ex_ctx <> WSOL_MINT
    /\ (slice 400 32 (ai_data (sx_pool ex_ctx)), slice 432 32 (ai_data (sx_pool ex_ctx)))
       = if (b : bool) then (WSOL_MINT, sx_memecoin_mint ex_ctx) else (sx_memecoin_mint ex_ctx, WSOL_MINT).
Proof.
  destruct (after_ok (salvage_pool ex_ctx ex_params ex_configured)) as [evs He]; [by vm_compute|].
  exact (salvage_admission ex_ctx ex_params ex_configured _ evs He).
Defined.

Definition ex_config : ProtocolConfig :=
  match vs_config ex_configured with Some c => c | None => mkVaultConfig [] [] 0 0 0 0 0 0 0 0 false 0 [] end.

Lemma salvage_settlement_witness :
  exists clock total s l p dust closing unwrapped,
    sx_clock ex_ctx = Some clock
    /\ vs_registries ex_configured !! ex_pool = None /\ vs_receipts ex_configured !! ex_pool = None
    /\ token_amount closing base_ata = Some total
    /\ invoke (CpiTokenClose base_ata (vault_sol_holding_account ex_pool) vault_authority) closing
       = Some unwrapped
    /\ shares_of ex_config total s l p
    /\ (forall k, lamports (vs_ledger ex_salvaged) k
                  = lamports unwrapped k + payments ex_pool ex_salvor s l p k)
    /\ token_amount (vs_ledger ex_salvaged) (memecoin_ata ex_ctx) = Some dust
    /\ vs_config ex_salvaged = Some ex_config /\ vs_claims ex_salvaged = vs_claims ex_configured
    /\ vs_registries ex_salvaged
       = <[ex_pool := new_registry ex_ctx ex_params clock l]> (vs_registries ex_configured)
    /\ vs_receipts ex_salvaged
       = <[ex_pool := new_receipt ex_ctx ex_params clock s l p total dust]> (vs_receipts ex_configured)
    /\ [PoolSalvaged RAYDIUM_V4_PROGRAM_ID ex_pool ex_salvor 8000000 8000000 4000001;
        SalvageCompleted ex_pool ex_salvor 20000001]
       = [PoolSalvaged RAYDIUM_V4_PROGRAM_ID ex_pool ex_salvor l s p;
          SalvageCompleted ex_pool ex_salvor total].
Proof.
  apply (salvage_settlement ex_ctx ex_params ex_configured ex_salvaged _ ex_config).
  - computed.
  - vm_compute. reflexivity.
  - constructor; in_range.
  - rewrite salvage_exec. apply after_events.
    vm_compute. reflexivity.
Defined.

Lemma vault_invariant_witness : vault_inv ex_P ex_known ex_claimed.
Proof. exact (vault_invariant ex_P ex_known ex_claimed ex_distinct ex_reach_claimed). Defined.

Lemma honest_claim_always_succeeds_witness :
  exists proof, (length proof <= 1)%nat
    /\ forall ck, exists st',
      claim_lp_proceeds (Some ck) bob (mkClaimLpProceedsParams ex_pool 400 proof) ex_claimed
        = Ok (st', [LpClaimProcessed ex_pool bob (owed ex_registry_claimed 400)])
      /\ vs_claims st' !! (ex_pool, bob) <> None
      /\ forall k, lamports (vs_ledger st') k = lamports (vs_ledger ex_claimed) k
           - to_account (lp_holder_pool_vault ex_pool) (owed ex_registry_claimed 400) k
           + to_account bob (owed ex_registry_claimed 400) k.
Proof.
  apply (honest_claim_always_succeeds ex_P ex_known ex_claimed ex_pool ex_registry_claimed ex_tree bob 400).
  - exact ex_distinct.
  - exact ex_reach_claimed.
  - vm_compute. reflexivity.
  - exact ex_honest.
  - exact ex_collision_free.
  - right. left.
  - reflexivity.
  - vm_compute. reflexivity.
Defined.

Lemma ex_salvaged_inv : vault_inv ex_P ex_known ex_salvaged.
Proof. exact (vault_reachable_inv ex_P ex_known ex_distinct _ ex_reach_salvaged). Qed.

Definition alice_events : list VaultEvent := [LpClaimProcessed ex_pool alice 4800000].

Lemma alice_claims :
  vault_exec (IxClaimLpProceeds (Some ex_clock) alice alice_claim) ex_salvaged = Ok (ex_claimed, alice_events).
Proof. apply after_events. vm_compute. reflexivity. Qed.

Lemma lp_vault_unsweepable_witness :
  lamports (vs_ledger ex_salvaged) (lp_holder_pool_vault ex_pool)
    <= lamports (vs_ledger ex_claimed) (lp_holder_pool_vault ex_pool)
  \/ exists clock h params r amount,
       IxClaimLpProceeds (Some ex_clock) alice alice_claim = IxClaimLpProceeds clock h params
       /\ cp_pool_address params = ex_pool
       /\ vs_registries ex_salvaged !! ex_pool = Some r
       /\ verify_proof (lp_snapshot_merkle_root r)
            (compute_leaf h (cp_lp_balance_at_snapshot params)) (cp_merkle_proof params) = true
       /\ amount = lp_holder_pool_total_lamports r * cp_lp_balance_at_snapshot params
                   / lp_total_supply_at_snapshot r
       /\ lamports (vs_ledger ex_claimed) (lp_holder_pool_vault ex_pool)
          = lamports (vs_ledger ex_salvaged) (lp_holder_pool_vault ex_pool) - amount
       /\ lamports (vs_ledger ex_claimed) h = lamports (vs_ledger ex_salvaged) h + amount.
Proof.
  exact (lp_vault_unsweepable ex_P ex_known _ _ _ _ ex_pool ex_distinct ex_salvaged_inv alice_typed
    alice_claims eq_refl).
Defined.

Lemma ex_registries_typed r :
  vs_registries ex_salvaged !! cp_pool_address alice_claim = Some r -> typed_registry r.
Proof.
  intros Hr. exact (vault_inv_typed _ _ _ _ _ ex_salvaged_inv Hr).
Qed.

Lemma claim_lp_proceeds_spec_witness :
  exists r ck amount L, claimed_by (Some ex_clock) alice alice_claim ex_salvaged r ck amount L
    /\ ex_claimed = claim_state alice_claim alice r ck amount L ex_salvaged
    /\ alice_events = [LpClaimProcessed (cp_pool_address alice_claim) alice amount].
Proof.
  apply (claim_lp_proceeds_spec (Some ex_clock) alice alice_claim ex_salvaged ex_claimed alice_events).
  - exact ex_registries_typed.
  - in_range.
  - exact alice_claims.
Defined.

Lemma alice_step : vault_step ex_P ex_known ex_salvaged ex_claimed.
Proof.
  apply (step_ix ex_P ex_known ex_salvaged _ ex_claimed alice_events alice_typed alice_claims).
  exact (vi_rent _ _ _ (vault_reachable_inv ex_P ex_known ex_distinct _ ex_reach_claimed)).
Qed.

Lemma vault_records_sealed_witness :
  records_kept ex_salvaged ex_claimed
  /\ (forall ctx params, vs_registries ex_salvaged !! sp_pool_address params <> None ->
       is_Some (vs_config ex_claimed) ->
       is_Some (sx_certs ctx !! (sp_amm_program_id params, sp_pool_address params)) ->
       salvage_pool ctx params ex_claimed = Err (Framework AccountAlreadyInUse))
  /\ (forall clock h params, vs_claims ex_salvaged !! (cp_pool_address params, h) <> None ->
       claim_lp_proceeds clock h params ex_claimed = Err (Framework AccountAlreadyInUse)).
Proof.
  exact (vault_records_sealed ex_P ex_known _ _ ex_distinct ex_salvaged_inv alice_step).
Defined.

(** The same salvage with the dust threshold above the memecoin proceeds: the
    conversion is skipped and the memecoin can be swept. *)
Definition dust_configured : VaultState :=
  after (vault_exec (IxInitialize (mkVaultInitializeParams ex_authority 0 0 0 0 0 5000000 0)) ex_genesis).
Definition dust_salvaged : VaultState := after (vault_exec (IxSalvagePool ex_ctx ex_params) dust_configured).
Definition dust_swept : VaultState :=
  after (vault_exec (IxSweepDust (Some ex_clock) ex_memecoin alice ex_pool) dust_salvaged).

Lemma dust_reach : vault_reachable ex_P ex_known dust_salvaged.
Proof.
  apply ex_reach; [|exact ex_salvage_typed|vm_compute; reflexivity].
  apply ex_reach; [exact ex_reach_genesis|apply ex_init_typed|vm_compute; reflexivity].
Qed.

Lemma dust_swept_once_witness :
  (exists q ck dust L0 L1,
     swept (Some ex_clock) ex_memecoin alice ex_pool dust_salvaged dust_swept q ck dust L0 L1)
  /\ forall st2 clock' mint' sweeper' st3 evs',
       rtc (vault_step ex_P ex_known) dust_swept st2 ->
       sweep_dust clock' mint' sweeper' ex_pool st2 <> Ok (st3, evs').
Proof.
  apply (dust_swept_once ex_P ex_known (Some ex_clock) ex_memecoin alice ex_pool dust_salvaged dust_swept
    [DustSwept ex_pool ex_memecoin 1000000 alice]).
  - exact ex_distinct.
  - exact (vault_reachable_inv ex_P ex_known ex_distinct _ dust_reach).
  - by intros ck [= <-].
  - rewrite sweep_exec. apply after_events.
    vm_compute. reflexivity.
  - apply rent_okb_ok. vm_compute. reflexivity.
Defined.


Definition ex_paused : VaultState := after (vault_exec (IxEmergencyPause ex_authority true) ex_salvaged).

Lemma pause_only_stops_salvages_witness :
  (forall ctx params, is_ok (salvage_pool ctx params ex_paused) = false)
  /\ (forall c clock h params,
       claim_lp_proceeds clock h params (set_vault_config c ex_paused)
       = with_config c (claim_lp_proceeds clock h params ex_paused))
  /\ (forall c clock mint sweeper pool,
       sweep_dust clock mint sweeper pool (set_vault_config c ex_paused)
       = with_config c (sweep_dust clock mint sweeper pool ex_paused)).
Proof.
  apply (pause_only_stops_salvages ex_paused (with_paused true ex_config)).
  - vm_compute. reflexivity.
  - reflexivity.
Defined.

(** A paused vault still pays. *)
Example claims_survive_pause :
  is_ok (claim_lp_proceeds (Some ex_clock) alice alice_claim ex_paused) = true.
Proof. vm_compute. reflexivity. Qed.

(** A slippage maximum of 100% is accepted by the update: only the use site
    clamps it to [HARD_MAX_SLIPPAGE_BPS]. *)
Lemma update_accepts_slippage_above_hard_max :
  apply_update ex_config (mkVaultUpdateParams None None None None (Some 10000) None None)
    ≫= (fun c => Ok (max_slippage_bps c)) = Ok 10000
  /\ HARD_MAX_SLIPPAGE_BPS = 1000 /\ effective_slippage_cap_bps 10000 None = 1000.
Proof. split_and!; vm_compute; reflexivity. Qed.
(** ** The settlement of the example *)

Definition ex_redeemed : redeemed :=
  match redeem ex_ctx ex_params ex_configured with
  | Ok rd => rd
  | Err _ => mkRedeemed ex_config ex_clock (vs_ledger ex_genesis) 0 (vs_ledger ex_genesis)
  end.

Lemma ex_redeem : redeem ex_ctx ex_params ex_configured = Ok ex_redeemed.
Proof. vm_compute. reflexivity. Qed.

Lemma ex_holding_sound : holding_sound ex_ctx ex_params ex_configured.
Proof. constructor; [split; [computed|left; vm_compute; reflexivity]|computed|computed]. Qed.

Lemma add_tokens_mint k m k' n toks toks' :
  add_tokens k' n toks = Some toks' -> has_mint k m toks -> has_mint k m toks'.
Proof.
  unfold add_tokens. intros H Hm. apply bind_Some in H as (t & Ht & [= <-]).
  apply has_mint_insert; [done|]. intros ->. simpl. by apply Hm.
Qed.

Lemma toy_keeps_mint : base_ata_keeps_mint.
Proof.
  intros c L L'. apply sample_keeps_mint. intros ix toks toks' H Hm. unfold toy_programs, move_tokens_half in H.
  case_bool_decide.
  - apply bind_Some in H as (toks1 & H1 & (t2 & _ & (toks2 & H2 & H3)%bind_Some)%bind_Some).
    apply bind_Some in H1 as (t & _ & (toks3 & H4 & H5)%bind_Some). eauto using add_tokens_mint.
  - apply bind_Some in H as (t & _ & (toks1 & H1 & H2)%bind_Some). eauto using add_tokens_mint.
Qed.


(** A route that closes the vault's memecoin account fails the salvage, after the
    payments. *)
Definition closing_programs (ix : Instruction) (toks : gmap Pubkey TokenAcc) : option (gmap Pubkey TokenAcc) :=
  toks' ← toy_programs ix toks;
  Some (if bool_decide (ix_program_id ix = RAYDIUM_V4_PROGRAM_ID) then toks'
        else delete (account_at (ix_accounts ix) 0) toks').

Example closed_dust_account_fails_salvage :
  @salvage_pool toy_pda (SampleRuntime closing_programs 890880) ex_ctx ex_params ex_configured
    = Err (Framework AccountNotInitialized)
  /\ is_ok (@redeem toy_pda (SampleRuntime closing_programs 890880) ex_ctx ex_params ex_configured) = true.
Proof. split; vm_compute; reflexivity. Qed.

(** ** The log of the run *)

(** What an instruction emits; defined to be compared by evaluation. *)
Definition events (o : vault_outcome) : list VaultEvent := match o with Ok (_, evs) => evs | Err _ => [] end.

Lemma ex_run evs ix st :
  vault_run ex_P ex_known evs st -> ix_typed ex_P ex_known ix -> commits ix st = true ->
  vault_run ex_P ex_known (evs ++ events (vault_exec ix st)) (after (vault_exec ix st)).
Proof.
  intros Hst Hty Hc. unfold commits in Hc. destruct (vault_exec ix st) as [[st' new]|] eqn:Hx; [|done].
  eapply run_ix; [done..|]. by apply rent_okb_ok.
Qed.

Definition ex_log : list VaultEvent := Eval vm_compute in
  events (vault_exec (IxSalvagePool ex_ctx ex_params) ex_configured)
  ++ events (vault_exec (IxClaimLpProceeds (Some ex_clock) alice alice_claim) ex_salvaged).

Lemma ex_run_claimed : vault_run ex_P ex_known ex_log ex_claimed.
Proof.
  change ex_log with ([] ++ (ex_log ++ [])). rewrite app_nil_r.
  assert (H0 : vault_run ex_P ex_known [] ex_genesis).
  { apply run_genesis; [computed|apply rent_okb_ok; vm_compute; reflexivity]. }
  assert (H1 : vault_run ex_P ex_known [] ex_configured).
  { pose proof (ex_run [] _ ex_genesis H0 (ex_init_typed 0)) as H1. apply H1. vm_compute. reflexivity. }
  pose proof (ex_run [] _ ex_configured H1 ex_salvage_typed ltac:(vm_compute; reflexivity)) as H2.
  pose proof (ex_run _ _ ex_salvaged H2 alice_typed ltac:(vm_compute; reflexivity)) as H3. exact H3.
Qed.

Lemma vault_refines_escrow_witness :
  replay ∅ (labels ex_log) = Some (escrow_of ex_claimed)
  /\ exists pot, escrow_of ex_claimed !! ex_pool = Some pot
    /\ rent_minimum + pot_left pot <= lamports (vs_ledger ex_claimed) (lp_holder_pool_vault ex_pool).
Proof.
  destruct (vault_refines_escrow ex_P ex_known ex_distinct ex_log ex_claimed ex_run_claimed) as [Hr Hc].
  split; [exact Hr|]. eexists. assert (Hp : escrow_of ex_claimed !! ex_pool = Some (mkPot 8000000 {[alice := 4800000]}))
    by (vm_compute; reflexivity). split; [exact Hp|]. apply (Hc ex_pool _ Hp).
Defined.

Lemma event_log_accounts_witness :
  opened_in ex_pool (labels ex_log) = [8000000] /\ paid_in ex_pool (labels ex_log) = [(alice, 4800000)].
Proof.
  pose proof (event_log_accounts ex_P ex_known ex_distinct ex_log ex_claimed ex_pool ex_run_claimed) as Hlog.
  assert (Hr : vs_registries ex_claimed !! ex_pool = Some ex_registry_claimed) by (vm_compute; reflexivity).
  rewrite Hr in Hlog. destruct Hlog as (Ho & _). split; [exact Ho|vm_compute; reflexivity].
Defined.
End VaultExamples.
