(* ===== verification/Snapshot.v ===== *)
(** * Snapshot: the data of the LP-holder snapshotter

    [snapshotter/src/{model, error, locked, source, rpc}.rs]: the snapshot's
    types, the validation of raw lock records and token accounts, the in-memory
    sources. A formatted error message is kept as its constant text. *)

From Stdlib Require Import Ascii String.
From S2P Require Import Prelude Bytes Solana Locker.

(** ** Errors *)

Inductive SnapshotError :=
| Source (msg : string)
| SupplyMismatch (mint_supply enumerated_total : Z)
| CustodyNotFound (locked_total : Z)
| CustodyAmbiguous (locked_total candidates : Z)
| LockRecordInvalid (address : Pubkey) (reason : string)
| LockOwnerIsCustody (owner : Pubkey)
| CustodyExcludedAsSink
| EmptySnapshot
| InvariantViolated (msg : string)
| Overflow
| Serialization (msg : string)
| ArtifactMismatch (msg : string).

(** ** The model *)

Record HolderEntry := mkHolderEntry { owner : Pubkey; lp_balance : Z (* u64 *) }.

Inductive ExclusionReason := ZeroBalance | ExplicitSink.

Record ExcludedBalance := mkExcludedBalance {
  ex_owner : Pubkey;
  ex_lp_balance : Z;                  (* u64 *)
  ex_reason : ExclusionReason;
}.

Record TokenAccountSnapshot := mkTokenAccountSnapshot {
  tas_address : Pubkey;
  tas_owner : Pubkey;
  tas_amount : Z;                     (* u64 *)
}.

Record MintSupply := mkMintSupply { ms_amount : Z (* u64 *); ms_slot : Z (* u64 *) }.

Inductive CustodyMatchMethod := ExactBalanceMatch | ExplicitOverride.

Record CustodyResolution := mkCustodyResolution {
  cr_token_account : Pubkey;
  cr_owner : Pubkey;
  cr_balance : Z;
  cr_method : CustodyMatchMethod;
}.

Record LockedReport := mkLockedReport {
  lock_records_seen : Z;
  total_locked : Z;
  attributions : list HolderEntry;
  custody : option CustodyResolution;
}.

Record Reconciliation := mkReconciliation {
  enumerated_total : Z;
  entries_total : Z;
  sink_exclusions_total : Z;
}.

Record LpSnapshot := mkLpSnapshot {
  sn_pool_address : Pubkey;
  sn_amm_program_id : Pubkey;
  sn_lp_mint : Pubkey;
  snapshot_slot : Z;
  sn_lp_total_supply : Z;
  entries : list HolderEntry;
  exclusions : list ExcludedBalance;
  locked : LockedReport;
  reconciliation : Reconciliation;
}.

#[export] Instance HolderEntry_eq_dec : EqDecision HolderEntry.
Proof. solve_decision. Defined.
#[export] Instance TokenAccountSnapshot_eq_dec : EqDecision TokenAccountSnapshot.
Proof. solve_decision. Defined.

(** [validate_entries]: each window of two, then the last entry. *)
Fixpoint validate_windows (l : list HolderEntry) : result SnapshotError unit :=
  match l with
  | a :: (b :: _) as rest =>
      require (bytes_ltb (owner a) (owner b))
        (InvariantViolated "entries not canonically sorted / unique");;
      require (negb (lp_balance a =? 0)) (InvariantViolated "zero-balance entry reached the leaf set");;
      validate_windows rest
  | _ => mret tt
  end.

Definition validate_entries (l : list HolderEntry) : result SnapshotError unit :=
  require (negb (bool_decide (length l = 0%nat))) EmptySnapshot;;
  validate_windows l;;
  match last l with
  | Some e => require (negb (lp_balance e =? 0))
                (InvariantViolated "zero-balance final entry reached the leaf set")
  | None => mret tt
  end.

(** What the tree builder and the claims path rely on. *)
Record canonical (l : list HolderEntry) : Prop := {
  can_nonempty : l <> [];
  can_sorted : StronglySorted bytes_lt (map owner l);
  can_positive : Forall (fun e => lp_balance e <> 0) l;
}.

Lemma validate_windows_Ok l :
  validate_windows l = Ok tt <->
  Sorted bytes_lt (map owner l)
  /\ Forall (fun e => lp_balance e <> 0) (take (length l - 1) l).
Proof.
  induction l as [|a [|b l] IH]; simpl.
  - split; [by repeat constructor|done].
  - split; [by repeat constructor|done].
  - split.
    + intros Hv. res_inv Hv. bool_simpl. destruct r, r0. apply IH in Hv as [Hs Hf].
      split; [constructor; [done|by constructor]|].
      constructor; [done|]. simpl in Hf. by rewrite Nat.sub_0_r in Hf.
    + intros [Hs Hf]. inversion_clear Hs as [|? ? Hs' Hh]. inversion_clear Hh as [|? ? Hlt].
      inversion_clear Hf as [|? ? Ha Hf'].
      apply bind_Ok. exists tt. split; [by apply require_true|].
      step_guard done. apply IH. split; [done|]. simpl. by rewrite Nat.sub_0_r.
Qed.

Lemma Forall_take_last {A} (P : A -> Prop) (l : list A) :
  Forall P l <-> Forall P (take (length l - 1) l) /\ forall x, last l = Some x -> P x.
Proof.
  induction l as [|x l _] using rev_ind; [by split; [split|]|].
  rewrite length_app. simpl. replace (length l + 1 - 1)%nat with (length l) by lia.
  rewrite take_app_length, last_snoc, Forall_app, Forall_singleton. naive_solver.
Qed.

(** [validate_entries] accepts exactly the canonical leaf sets: not empty,
    strictly ascending by owner bytes (hence without duplicates), every balance
    different from zero. *)
Theorem validate_entries_spec l : validate_entries l = Ok tt <-> canonical l.
Proof.
  assert (Hsorted : Sorted bytes_lt (map owner l) <-> StronglySorted bytes_lt (map owner l)).
  { split; [apply Sorted_StronglySorted, _|apply StronglySorted_Sorted]. }
  unfold validate_entries. split.
  - intros Hv. apply bind_Ok in Hv as ([] & Hne & Hv). apply bind_Ok in Hv as ([] & Hw & Hl).
    apply require_Ok in Hne. bool_simpl. apply validate_windows_Ok in Hw as [Hs Hf].
    constructor; [by intros ->|by apply Hsorted|].
    apply Forall_take_last. split; [done|]. intros e He. rewrite He in Hl.
    apply require_Ok in Hl. by bool_simpl.
  - intros [Hne Hs Hf]. apply Forall_take_last in Hf as [Hf Hl].
    step_guard ltac:(by destruct l). apply bind_Ok. exists tt.
    split; [apply validate_windows_Ok; split; [by apply Hsorted|done]|].
    destruct (last l) as [e|] eqn:He; [|done]. apply require_true. bool_goal. by apply Hl.
Qed.

(** ** Locked-LP evidence *)

(** The crate's own copy of the locker facts. *)
Module uncx.
Definition PROGRAM_ID : Pubkey :=
  Eval vm_compute in pubkey "GsSCS3vPWrtJ5Y9aEVVT65fmrex5P5RGHXdZvsdbWgfo".
Definition TOKEN_LOCK_DISC : list byte := [x49; xe4; x90; xf1; x9a; x2c; x5d; xee].
Definition TOKEN_LOCK_SEED : list byte := bytes_of "uncx_locker".
Definition TOKEN_LOCK_SIZE : nat := 146.
Definition AMM_ID : nat := 9.
Definition LP_MINT : nat := 41.
Definition LOCK_GLOBAL_ID : nat := 73.
Definition CURRENT_LOCKED_AMOUNT : nat := 106.
Definition LOCK_OWNER : nat := 114.
Definition token_lock_address `{PdaDerivation} (lock_global_id : Z) : Pubkey :=
  fst (find_program_address [TOKEN_LOCK_SEED; le_bytes 8 lock_global_id] PROGRAM_ID).
Definition marker_address `{PdaDerivation} (amm_id : Pubkey) : Pubkey :=
  fst (find_program_address [bytes_of "global_lp_tracker"; amm_id] PROGRAM_ID).
End uncx.

(** [uncx_constants_match_the_scanner_adapter]: the two copies agree. *)
Lemma uncx_matches_scanner_adapter `{PdaDerivation} :
  uncx.PROGRAM_ID = Locker.UNCX_PROGRAM_ID /\ uncx.TOKEN_LOCK_DISC = Locker.TOKEN_LOCK_DISC
  /\ uncx.TOKEN_LOCK_SIZE = Locker.TOKEN_LOCK_SIZE /\ uncx.AMM_ID = Locker.AMM_ID
  /\ uncx.LP_MINT = Locker.LOCK_LP_MINT /\ uncx.LOCK_GLOBAL_ID = Locker.LOCK_GLOBAL_ID
  /\ uncx.CURRENT_LOCKED_AMOUNT = Locker.CURRENT_LOCKED_AMOUNT
  /\ (forall id, uncx.token_lock_address id = Locker.token_lock_address id)
  /\ (forall amm, uncx.marker_address amm = Locker.marker_address amm).
Proof. split_and!; reflexivity. Qed.

Record TokenLockRecord := mkTokenLockRecord {
  tl_address : Pubkey;
  lock_global_id : Z;                 (* u64 *)
  current_locked_amount : Z;          (* u64 *)
  lock_owner : Pubkey;
}.

#[export] Instance TokenLockRecord_eq_dec : EqDecision TokenLockRecord.
Proof. solve_decision. Defined.

Section Locks.
Context `{PdaDerivation}.

Definition parse_token_lock (address : Pubkey) (data : list byte) (amm_id lp_mint : Pubkey)
    : result SnapshotError TokenLockRecord :=
  require (bool_decide (length data = uncx.TOKEN_LOCK_SIZE)) (LockRecordInvalid address "size");;
  require (bool_decide (take 8 data = uncx.TOKEN_LOCK_DISC)) (LockRecordInvalid address "discriminator");;
  let lock_global_id := le_Z (slice uncx.LOCK_GLOBAL_ID 8 data) in
  require (bool_decide (address = uncx.token_lock_address lock_global_id)) (LockRecordInvalid address "pda re-derivation");;
  require (bool_decide (slice uncx.AMM_ID 32 data = amm_id)) (LockRecordInvalid address "amm_id binding");;
  require (bool_decide (slice uncx.LP_MINT 32 data = lp_mint)) (LockRecordInvalid address "lp_mint binding");;
  mret (mkTokenLockRecord address lock_global_id (le_Z (slice uncx.CURRENT_LOCKED_AMOUNT 8 data))
    (slice uncx.LOCK_OWNER 32 data)).

Lemma parse_token_lock_iff address data amm_id lp_mint r :
  parse_token_lock address data amm_id lp_mint = Ok r <->
  length data = uncx.TOKEN_LOCK_SIZE /\ take 8 data = uncx.TOKEN_LOCK_DISC
  /\ address = uncx.token_lock_address (le_Z (slice uncx.LOCK_GLOBAL_ID 8 data))
  /\ slice uncx.AMM_ID 32 data = amm_id /\ slice uncx.LP_MINT 32 data = lp_mint
  /\ r = mkTokenLockRecord address (le_Z (slice uncx.LOCK_GLOBAL_ID 8 data))
           (le_Z (slice uncx.CURRENT_LOCKED_AMOUNT 8 data)) (slice uncx.LOCK_OWNER 32 data).
Proof.
  unfold parse_token_lock. split.
  - intros Hp. res_inv Hp. bool_simpl. done.
  - intros (? & ? & ? & ? & ? & ->). do 5 step_guard done. done.
Qed.
End Locks.

(** ** Raw SPL accounts, as the RPC source parses them *)

Definition SPL_ACCOUNT_SIZE : nat := 165.
Definition SPL_MINT_OFFSET : nat := 0.
Definition SPL_OWNER_OFFSET : nat := 32.
Definition SPL_AMOUNT_OFFSET : nat := 64.
Definition SPL_MINT_SIZE : nat := 82.
Definition SPL_MINT_SUPPLY_OFFSET : nat := 36.

Definition parse_spl_token_account (address : Pubkey) (data : list byte) (lp_mint : Pubkey)
    : result SnapshotError TokenAccountSnapshot :=
  require (bool_decide (length data = SPL_ACCOUNT_SIZE)) (Source "token account: unexpected size");;
  require (bool_decide (slice SPL_MINT_OFFSET 32 data = lp_mint))
    (Source "token account: mint field does not match the queried LP mint");;
  mret (mkTokenAccountSnapshot address (slice SPL_OWNER_OFFSET 32 data)
    (le_Z (slice SPL_AMOUNT_OFFSET 8 data))).

Definition parse_spl_mint_supply (account : AccountInfo) (token_program_id : Pubkey)
    : result SnapshotError Z :=
  require (bool_decide (ai_owner account = token_program_id))
    (Source "mint: owner is not the token program");;
  require (bool_decide (length (ai_data account) = SPL_MINT_SIZE)) (Source "mint: unexpected size");;
  mret (le_Z (slice SPL_MINT_SUPPLY_OFFSET 8 (ai_data account))).

Lemma parsed_amount_u64 address data lp_mint t :
  parse_spl_token_account address data lp_mint = Ok t -> is_u64 (tas_amount t).
Proof.
  unfold parse_spl_token_account. intros Hp. res_inv Hp. bool_simpl. simpl. apply le_Z_is_u.
  rewrite slice_length; [done|]. match goal with H : length data = _ |- _ => rewrite H end.
  unfold SPL_AMOUNT_OFFSET, SPL_ACCOUNT_SIZE. lia.
Qed.

Lemma parsed_owner_wf address data lp_mint t :
  parse_spl_token_account address data lp_mint = Ok t -> wf_key (tas_owner t).
Proof.
  unfold parse_spl_token_account. intros Hp. res_inv Hp. bool_simpl. simpl. unfold wf_key.
  rewrite slice_length; [done|]. match goal with H : length data = _ |- _ => rewrite H end.
  unfold SPL_OWNER_OFFSET, SPL_ACCOUNT_SIZE. lia.
Qed.

(** ** Sources *)

(** The two traits: what the builder reads. *)
Class LpAccountSource := {
  lp_mint_supply : Pubkey -> result SnapshotError MintSupply;
  token_accounts : Pubkey -> result SnapshotError (list TokenAccountSnapshot);
}.
Class LockedLpEvidence := {
  token_locks : Pubkey -> Pubkey -> result SnapshotError (list TokenLockRecord);
}.

(** The in-memory implementations. *)
Definition InMemorySource (mint : Pubkey) (slot supply : Z) (accounts : list TokenAccountSnapshot)
    : LpAccountSource := {|
  lp_mint_supply m :=
    require (bool_decide (m = mint)) (Source "in-memory source serves another mint");;
    mret (mkMintSupply supply slot);
  token_accounts m :=
    require (bool_decide (m = mint)) (Source "in-memory source serves another mint");;
    mret accounts;
|}.

(** The derived [Ord] of [TokenLockRecord]: address, id, amount, owner. *)
Definition lock_leb (a b : TokenLockRecord) : bool :=
  if bytes_ltb (tl_address a) (tl_address b) then true
  else if bytes_ltb (tl_address b) (tl_address a) then false
  else if lock_global_id a <? lock_global_id b then true
  else if lock_global_id b <? lock_global_id a then false
  else if current_locked_amount a <? current_locked_amount b then true
  else if current_locked_amount b <? current_locked_amount a then false
  else negb (bytes_ltb (lock_owner b) (lock_owner a)).
Definition lock_le (a b : TokenLockRecord) : Prop := lock_leb a b = true.
#[export] Instance lock_le_dec : RelDecision lock_le.
Proof. intros a b. unfold lock_le. apply _. Defined.

Definition sorted_records (records : list TokenLockRecord) : list TokenLockRecord :=
  merge_sort lock_le records.

Definition InMemoryLocks (amm_id lp_mint : Pubkey) (records : list TokenLockRecord)
    : LockedLpEvidence := {|
  token_locks a m :=
    require (bool_decide (a = amm_id) && bool_decide (m = lp_mint))
      (Source "in-memory lock evidence serves another pool");;
    mret (sorted_records records);
|}.

(** [InMemoryLocks::from_raw]'s loop. *)
Definition locks_from_raw `{PdaDerivation} (amm_id lp_mint : Pubkey)
    (raw : list (Pubkey * list byte)) : result SnapshotError (list TokenLockRecord) :=
  foldM (fun records r =>
    record ← parse_token_lock (fst r) (snd r) amm_id lp_mint; mret (records ++ [record])) [] raw.

(** ** The RPC sources

    The node behind the client is not trusted and not this repository's: two
    methods answer with whatever they like. *)

Inductive RpcFilterType :=
| DataSize (size : Z)
| Memcmp (offset : nat) (bytes : list byte).

Record RpcProgramAccountsConfig := mkRpcProgramAccountsConfig {
  filters : option (list RpcFilterType);
  sort_results : option bool;
}.
Definition gpa_config (fs : list RpcFilterType) : RpcProgramAccountsConfig :=
  mkRpcProgramAccountsConfig (Some fs) (Some true).

Class RpcClient := {
  (** the account, if any, and the context slot *)
  get_account_with_commitment : Pubkey -> result string (option AccountInfo * Z);
  get_program_accounts_with_config :
    Pubkey -> RpcProgramAccountsConfig -> result string (list (Pubkey * AccountInfo));
}.

Definition token_account_filters (lp_mint : Pubkey) : list RpcFilterType :=
  [DataSize (Z.of_nat SPL_ACCOUNT_SIZE); Memcmp SPL_MINT_OFFSET lp_mint].

Definition token_lock_filters (amm_id lp_mint : Pubkey) : list RpcFilterType :=
  [DataSize (Z.of_nat uncx.TOKEN_LOCK_SIZE); Memcmp 0 uncx.TOKEN_LOCK_DISC; Memcmp uncx.AMM_ID amm_id;
   Memcmp uncx.LP_MINT lp_mint].

(** [iter().map(f).collect::<Result<Vec<_>, _>>()] *)
Definition collect {A B} (f : A -> result SnapshotError B) (l : list A) : result SnapshotError (list B) :=
  foldM (fun out x => y ← f x; mret (out ++ [y])) [] l.

Lemma collect_Ok {A B} (f : A -> result SnapshotError B) l out :
  collect f l = Ok out -> Forall2 (fun x y => f x = Ok y) l out.
Proof.
  apply (foldM_ind _ (fun dn ys => Forall2 (fun x y => f x = Ok y) dn ys)); [constructor|].
  intros dn ys x ys' Hf Hs. apply bind_Ok in Hs as (y & Hy & Hs). injection Hs as <-.
  by apply Forall2_app; [|constructor].
Qed.

Section Rpc.
Context `{RpcClient}.

Definition RpcLpAccountSource (token_program_id : Pubkey) : LpAccountSource := {|
  lp_mint_supply lp_mint :=
    response ← map_err Source (get_account_with_commitment lp_mint);
    account ← ok_or (fst response) (Source "mint not found");
    amount ← parse_spl_mint_supply account token_program_id;
    mret (mkMintSupply amount (snd response));
  token_accounts lp_mint :=
    accounts ← map_err Source
      (get_program_accounts_with_config token_program_id (gpa_config (token_account_filters lp_mint)));
    collect (fun p => parse_spl_token_account (fst p) (ai_data (snd p)) lp_mint) accounts;
|}.

Definition RpcLockedLpEvidence `{PdaDerivation} : LockedLpEvidence := {|
  token_locks amm_id lp_mint :=
    accounts ← map_err Source
      (get_program_accounts_with_config uncx.PROGRAM_ID (gpa_config (token_lock_filters amm_id lp_mint)));
    records ← collect (fun p => parse_token_lock (fst p) (ai_data (snd p)) amm_id lp_mint) accounts;
    mret (sorted_records records);
|}.

(** [RpcLpAccountSource::new]: the classic token program. *)
Definition SPL_TOKEN_PROGRAM_ID : Pubkey :=
  Eval vm_compute in pubkey "TokenkegQfeZyiNwAJbNbGKPFXCWuBvf9Ss623VQ5DA".
Definition ClassicLpAccountSource : LpAccountSource := RpcLpAccountSource SPL_TOKEN_PROGRAM_ID.

Lemma rpc_accounts_u64 token_program_id lp_mint accounts :
  token_accounts (LpAccountSource := RpcLpAccountSource token_program_id) lp_mint = Ok accounts ->
  Forall (fun a => is_u64 (tas_amount a)) accounts.
Proof.
  cbn. intros Ha. apply bind_Ok in Ha as (raw & _ & Ha). apply collect_Ok in Ha.
  induction Ha as [|x y l k Hp _ IH]; constructor; [by eapply parsed_amount_u64|done].
Qed.

Lemma rpc_owners_wf token_program_id lp_mint accounts :
  token_accounts (LpAccountSource := RpcLpAccountSource token_program_id) lp_mint = Ok accounts ->
  Forall wf_key (map tas_owner accounts).
Proof.
  cbn. intros Ha. apply bind_Ok in Ha as (raw & _ & Ha). apply collect_Ok in Ha.
  induction Ha as [|x y l k Hp _ IH]; constructor; [by eapply parsed_owner_wf|done].
Qed.

(** The slot is the node's. *)
Lemma rpc_supply_slot token_program_id lp_mint supply :
  lp_mint_supply (LpAccountSource := RpcLpAccountSource token_program_id) lp_mint = Ok supply ->
  exists acc, get_account_with_commitment lp_mint = Ok (acc, ms_slot supply).
Proof.
  cbn. intros Hs. apply bind_Ok in Hs as ([acc slot] & Hr & Hs). apply bind_Ok in Hs as (a & _ & Hs).
  apply bind_Ok in Hs as (n & _ & Hs). injection Hs as <-. exists acc.
  by destruct (get_account_with_commitment lp_mint); [injection Hr as ->|].
Qed.

Lemma rpc_supply_u64 token_program_id lp_mint supply :
  lp_mint_supply (LpAccountSource := RpcLpAccountSource token_program_id) lp_mint = Ok supply ->
  is_u64 (ms_amount supply).
Proof.
  cbn. intros Hs. apply bind_Ok in Hs as (resp & _ & Hs). apply bind_Ok in Hs as (acc & _ & Hs).
  apply bind_Ok in Hs as (n & Hn & Hs). injection Hs as <-. unfold parse_spl_mint_supply in Hn.
  res_inv Hn. bool_simpl. apply le_Z_is_u. rewrite slice_length; [done|].
  match goal with H : length _ = _ |- _ => rewrite H end. unfold SPL_MINT_SUPPLY_OFFSET, SPL_MINT_SIZE. lia.
Qed.
End Rpc.

(** ** One lock layout, two parsers *)

(** A validated lock record, in the scanner's terms. *)
Lemma parse_token_lock_valid `{PdaDerivation} address data amm_id lp_mint a r :
  ai_key a = address -> ai_data a = data ->
  parse_token_lock address data amm_id lp_mint = Ok r <->
  valid_lock lp_mint amm_id a
  /\ r = mkTokenLockRecord address (le_Z (slice uncx.LOCK_GLOBAL_ID 8 data))
           (le_Z (slice uncx.CURRENT_LOCKED_AMOUNT 8 data)) (slice uncx.LOCK_OWNER 32 data).
Proof. intros <- <-. rewrite parse_token_lock_iff. unfold valid_lock. naive_solver. Qed.

(** The off-chain lock parser and the on-chain scanner read one format: on
    an account the locker owns that is not the pool's marker, the scanner counts
    a lock of amount [n] exactly when the snapshotter's parser accepts the
    account for the same pool and mint with current amount [n]. *)
Theorem lock_parsers_agree `{PdaDerivation} lp_mint pool a n :
  on_chain a -> ai_owner a = UNCX_PROGRAM_ID -> ai_key a <> marker_address pool ->
  classify lp_mint pool a = Lock n <->
  exists r, parse_token_lock (ai_key a) (ai_data a) pool lp_mint = Ok r /\ current_locked_amount r = n.
Proof.
  intros Hon Ho Hk. setoid_rewrite (parse_token_lock_valid _ _ _ _ a _ eq_refl eq_refl).
  unfold classify. rewrite decide_True, decide_True, decide_False by done.
  destruct (decide (valid_lock lp_mint pool a)); naive_solver.
Qed.

(** A lying node cannot forge locks: whatever the RPC client answers, every
    record the RPC evidence source serves was read off an account whose address
    is the locker's own derivation for the record's id and whose data names the
    requested pool and LP mint, and the record's fields are the ones in that
    data. *)
Theorem rpc_locks_validated `{RpcClient} `{PdaDerivation} amm_id lp_mint records :
  token_locks (LockedLpEvidence := RpcLockedLpEvidence) amm_id lp_mint = Ok records ->
  forall r, r ∈ records ->
    is_u64 (current_locked_amount r) /\ tl_address r = uncx.token_lock_address (lock_global_id r)
    /\ exists a, valid_lock lp_mint amm_id a /\ ai_key a = tl_address r
         /\ le_Z (slice uncx.CURRENT_LOCKED_AMOUNT 8 (ai_data a)) = current_locked_amount r
         /\ slice uncx.LOCK_OWNER 32 (ai_data a) = lock_owner r.
Proof.
  cbn. intros Hs r Hr. apply bind_Ok in Hs as (raw & _ & Hs). apply bind_Ok in Hs as (parsed & Hc & Hs).
  injection Hs as <-. unfold sorted_records in Hr. rewrite merge_sort_Permutation in Hr.
  apply collect_Ok in Hc. apply list_elem_of_lookup in Hr as [i Hi].
  destruct (Forall2_lookup_r _ _ _ _ _ Hc Hi) as ([k a] & _ & Hp). cbn in Hp.
  set (a' := mkAccountInfo k (ai_lamports a) (ai_data a) (ai_owner a) (ai_executable a)).
  destruct (proj1 (parse_token_lock_valid _ _ _ _ a' _ eq_refl eq_refl) Hp) as [Hv Heq]. subst r.
  pose proof Hv as (Hlen & _ & Ha & _ & _). 
  cbn [a' ai_key ai_data tl_address lock_global_id current_locked_amount lock_owner] in Hlen, Ha |- *.
  split_and!; [|done|by exists a'].
  apply le_Z_is_u. rewrite slice_length; [done|]. rewrite Hlen.
  unfold uncx.CURRENT_LOCKED_AMOUNT, uncx.TOKEN_LOCK_SIZE, TOKEN_LOCK_SIZE. lia.
Qed.
