(* ===== verification/Builder.v ===== *)
(** * Builder: the deterministic snapshot

    [snapshotter/src/builder.rs], on the release profile (the one
    [debug_assert_eq!] is off). A [BTreeMap] is a [gmap] iterated in ascending
    key order; [u64] and [u128] sums are checked where the code checks them. *)

From Stdlib Require Import Ascii String.
From S2P Require Import Prelude Bytes Solana Locker Snapshot.

(** ** Ordered maps *)

Abbreviation BTreeMap := (gmap Pubkey Z).

Definition key_le (a b : Pubkey * Z) : Prop := bytes_le (fst a) (fst b).
#[export] Instance key_le_dec : RelDecision key_le.
Proof. intros a b. unfold key_le. apply _. Defined.

(** [map.iter()], [map.into_iter()]: ascending keys. *)
Definition btree_iter (m : BTreeMap) : list (Pubkey * Z) := merge_sort key_le (map_to_list m).

(** [let e = map.entry(k).or_insert(0); *e = e.checked_add(v).ok_or(Overflow)?] *)
Definition entry_add (m : BTreeMap) (k : Pubkey) (v : Z) : result SnapshotError BTreeMap :=
  sum ← ok_or (checked_add_u 64 (default 0 (m !! k)) v) Overflow;
  mret (<[k := sum]> m).

(** ** The pipeline *)

Record SnapshotRequest := mkSnapshotRequest {
  rq_pool_address : Pubkey;
  rq_amm_program_id : Pubkey;
  rq_lp_mint : Pubkey;
  sink_exclusions : list Pubkey;
  custody_owner_overrides : list Pubkey;
}.

Definition to_u64 (value : Z) : result SnapshotError Z := ok_or (try_into_u 64 value) Overflow.

(** [for x in l { total = total.checked_add(f(x) as u128).ok_or(Overflow)?; }] *)
Definition checked_total {A} (f : A -> Z) (l : list A) : result SnapshotError Z :=
  foldM (fun total x => ok_or (checked_add_u 128 total (f x)) Overflow) 0 l.

(** Step 4. *)
Definition per_owner (accounts : list TokenAccountSnapshot) : result SnapshotError BTreeMap :=
  foldM (fun m a => entry_add m (tas_owner a) (tas_amount a)) ∅ accounts.

(** Step 5: the three locals of the pass. *)
Record Exclusion := mkExclusion {
  ledger : list ExcludedBalance;
  sink_total : Z;                     (* u128 *)
  claimable : BTreeMap;
}.

Definition exclude_one (sinks : gset Pubkey) (s : Exclusion) (p : Pubkey * Z)
    : result SnapshotError Exclusion :=
  let (owner, amount) := p in
  if amount =? 0 then
    mret (mkExclusion (ledger s ++ [mkExcludedBalance owner 0 ZeroBalance]) (sink_total s) (claimable s))
  else if bool_decide (owner ∈ sinks) then
    total ← ok_or (checked_add_u 128 (sink_total s) amount) Overflow;
    mret (mkExclusion (ledger s ++ [mkExcludedBalance owner amount ExplicitSink]) total (claimable s))
  else mret (mkExclusion (ledger s) (sink_total s) (<[owner := amount]> (claimable s))).

Definition exclusion_pass (sinks : gset Pubkey) (m : BTreeMap) : result SnapshotError Exclusion :=
  foldM (exclude_one sinks) (mkExclusion [] 0 ∅) (btree_iter m).

(** Step 6, first half: records in address order, per-owner locked totals. *)
Definition address_le (a b : TokenLockRecord) : Prop := bytes_le (tl_address a) (tl_address b).
#[export] Instance address_le_dec : RelDecision address_le.
Proof. intros a b. unfold address_le. apply _. Defined.

Definition lock_step (s : Z * BTreeMap) (r : TokenLockRecord) : result SnapshotError (Z * BTreeMap) :=
  total ← ok_or (checked_add_u 128 (fst s) (current_locked_amount r)) Overflow;
  m ← entry_add (snd s) (lock_owner r) (current_locked_amount r);
  mret (total, m).

Definition aggregate_locks (records : list TokenLockRecord)
    : result SnapshotError (Z * BTreeMap) := foldM lock_step (0, ∅) records.

(** Step 6, second half: the custody account and its removal. *)
Definition choose_custody (overrides : gset Pubkey) (locked_total : Z)
    (candidates : list TokenAccountSnapshot) : result SnapshotError TokenAccountSnapshot :=
  match candidates with
  | [a] => mret a
  | [] => Err (CustodyNotFound locked_total)
  | _ =>
      match filter (fun a => tas_owner a ∈ overrides) candidates with
      | [a] => mret a
      | _ => Err (CustodyAmbiguous locked_total (len_Z candidates))
      end
  end.

Definition resolve_custody (overrides : gset Pubkey) (accounts : list TokenAccountSnapshot)
    (total_locked : Z) (attributions claimable : BTreeMap)
    : result SnapshotError (option CustodyResolution * BTreeMap) :=
  if 0 <? total_locked then
    locked_total_u64 ← to_u64 total_locked;
    let candidates := filter (fun a => tas_amount a = total_locked) accounts in
    chosen ← choose_custody overrides locked_total_u64 candidates;
    require (bool_decide (attributions !! tas_owner chosen = None))
      (LockOwnerIsCustody (tas_owner chosen));;
    _ ← ok_or (claimable !! tas_owner chosen) CustodyExcludedAsSink;
    mret (Some (mkCustodyResolution (tas_address chosen) (tas_owner chosen) (tas_amount chosen)
                  (if bool_decide (length candidates = 1%nat) then ExactBalanceMatch
                   else ExplicitOverride)),
          delete (tas_owner chosen) claimable)
  else mret (None, claimable).

(** Step 7. *)
Definition merge_attributions (claimable attributions : BTreeMap) : result SnapshotError BTreeMap :=
  foldM (fun m p => entry_add m (fst p) (snd p)) claimable (btree_iter attributions).

Definition holder_entries (m : BTreeMap) : list HolderEntry :=
  map (fun p => mkHolderEntry (fst p) (snd p)) (btree_iter m).

Section Build.
Context `{LpAccountSource, LockedLpEvidence}.

Definition build (request : SnapshotRequest) : result SnapshotError LpSnapshot :=
  supply ← lp_mint_supply (rq_lp_mint request);
  accounts ← token_accounts (rq_lp_mint request);
  enumerated ← checked_total tas_amount accounts;
  (if enumerated =? ms_amount supply then mret tt
   else total ← to_u64 enumerated; Err (SupplyMismatch (ms_amount supply) total));;
  owners ← per_owner accounts;
  excl ← exclusion_pass (list_to_set (sink_exclusions request)) owners;
  served ← token_locks (rq_pool_address request) (rq_lp_mint request);
  let records := merge_sort address_le served in
  locks ← aggregate_locks records;
  let (total_locked, attributions) := (locks : Z * BTreeMap) in
  resolved ← resolve_custody (list_to_set (custody_owner_overrides request)) accounts
               total_locked attributions (claimable excl);
  let (custody, unlocked) := (resolved : option CustodyResolution * BTreeMap) in
  let attribution_list := holder_entries attributions in
  merged ← merge_attributions unlocked attributions;
  let entries := holder_entries merged in
  entries_total ← checked_total lp_balance entries;
  require (entries_total + sink_total excl =? enumerated)
    (InvariantViolated "entries + sink exclusions != enumerated");;
  total_locked_u64 ← to_u64 total_locked;
  enumerated_u64 ← to_u64 enumerated;
  entries_u64 ← to_u64 entries_total;
  sink_u64 ← to_u64 (sink_total excl);
  validate_entries entries;;
  mret {|
    sn_pool_address := rq_pool_address request;
    sn_amm_program_id := rq_amm_program_id request;
    sn_lp_mint := rq_lp_mint request;
    snapshot_slot := ms_slot supply;
    sn_lp_total_supply := ms_amount supply;
    entries := entries;
    exclusions := ledger excl;
    locked := mkLockedReport (len_Z records) total_locked_u64 attribution_list custody;
    reconciliation := mkReconciliation enumerated_u64 entries_u64 sink_u64;
  |}.
End Build.
