(* ===== verification/BuilderSpec.v ===== *)
(** * BuilderSpec: what the snapshot builder computes

    Closed forms of the builder's loops (a fold of checked additions either is
    the mathematical sum or overflows), and from them the theorems about
    [build]: what a snapshot says of every owner, that the ledger closes, that
    the order of the source's answers is irrelevant. *)

From S2P Require Import Prelude Bytes Solana Locker Snapshot Builder.

(** ** Sums over maps *)

Definition values_nonneg (m : BTreeMap) : Prop := map_Forall (fun _ v => 0 <= v) m.
Definition pairs_nonneg (l : list (Pubkey * Z)) : Prop := Forall (fun p => 0 <= snd p) l.

Definition msum (m : BTreeMap) : Z := sum_Z (map snd (map_to_list m)).

(** What the pairs of [l] say of the key [k]. *)
Definition sum_for (k : Pubkey) (l : list (Pubkey * Z)) : Z :=
  sum_Z (map snd (filter (fun p => fst p = k) l)).

Definition tally_one (m : BTreeMap) (p : Pubkey * Z) : BTreeMap :=
  <[fst p := default 0 (m !! fst p) + snd p]> m.
Definition tally (m : BTreeMap) (l : list (Pubkey * Z)) : BTreeMap := foldl tally_one m l.

Section Msum.
Implicit Types (m : BTreeMap) (l : list (Pubkey * Z)).

Lemma msum_insert_new m k v : m !! k = None -> msum (<[k := v]> m) = v + msum m.
Proof. intros Hk. unfold msum. by rewrite map_to_list_insert. Qed.

Lemma msum_delete m k v : m !! k = Some v -> msum m = v + msum (delete k m).
Proof.
  intros Hk. rewrite <- (insert_delete_id m k v) at 1 by done.
  apply msum_insert_new, lookup_delete_eq.
Qed.

Lemma msum_insert m k v : msum (<[k := v]> m) = v - default 0 (m !! k) + msum m.
Proof.
  destruct (m !! k) as [w|] eqn:Hk; simpl.
  - rewrite <- insert_delete_eq, msum_insert_new by apply lookup_delete_eq.
    rewrite (msum_delete m k w Hk). lia.
  - rewrite msum_insert_new by done. lia.
Qed.

Lemma msum_tally m l : msum (tally m l) = msum m + sum_Z (map snd l).
Proof.
  revert m. induction l as [|p l IH]; intros m; simpl; [lia|].
  rewrite IH. unfold tally_one. rewrite msum_insert. lia.
Qed.

Lemma msum_nonneg m : values_nonneg m -> 0 <= msum m.
Proof.
  intros Hm. apply sum_Z_nonneg. apply Forall_map, Forall_forall. intros [k v] Hin.
  apply elem_of_map_to_list in Hin. by apply (Hm k v).
Qed.

Lemma msum_lookup m k v : values_nonneg m -> m !! k = Some v -> v <= msum m.
Proof.
  intros Hm Hk. rewrite (msum_delete m k v Hk).
  assert (0 <= msum (delete k m)); [|lia]. apply msum_nonneg. by apply map_Forall_delete.
Qed.

Lemma sum_for_cons k p l :
  sum_for k (p :: l) = (if decide (fst p = k) then snd p else 0) + sum_for k l.
Proof. unfold sum_for. rewrite filter_cons. destruct (decide (fst p = k)); done. Qed.

Lemma sum_for_perm k l l' : l ≡ₚ l' -> sum_for k l = sum_for k l'.
Proof. intros Hp. unfold sum_for. by rewrite Hp. Qed.

Lemma sum_for_nonneg k l : pairs_nonneg l -> 0 <= sum_for k l.
Proof.
  intros Hl. induction Hl as [|p l Hp Hl IH]; [done|]. rewrite sum_for_cons.
  destruct (decide _); lia.
Qed.

Lemma sum_for_le k l : pairs_nonneg l -> sum_for k l <= sum_Z (map snd l).
Proof.
  intros Hl. induction Hl as [|p l Hp Hl IH]; [done|]. rewrite sum_for_cons. simpl.
  destruct (decide _); lia.
Qed.

Lemma sum_for_notin k l : k ∉ map fst l -> sum_for k l = 0.
Proof.
  induction l as [|p l IH]; intros Hk; [done|]. rewrite sum_for_cons. simpl in Hk.
  rewrite decide_False by set_solver. apply IH. set_solver.
Qed.

Lemma tally_lookup m l k :
  tally m l !! k =
  if decide (k ∈ map fst l) then Some (default 0 (m !! k) + sum_for k l) else m !! k.
Proof.
  revert m. induction l as [|[k' v] l IH]; intros m; simpl; [done|].
  rewrite IH, sum_for_cons. unfold tally_one. simpl.
  destruct (decide (k' = k)) as [->|Hne].
  - rewrite lookup_insert_eq, (decide_True (P := k ∈ k :: _)) by set_solver. simpl.
    destruct (decide (k ∈ map fst l)) as [|Hn]; [f_equal; lia|].
    rewrite (sum_for_notin _ _ Hn). f_equal. lia.
  - rewrite lookup_insert_ne by done.
    destruct (decide (k ∈ map fst l)); [rewrite decide_True by set_solver|rewrite decide_False by set_solver]; done.
Qed.

Lemma tally_default m l k : default 0 (tally m l !! k) = default 0 (m !! k) + sum_for k l.
Proof.
  rewrite tally_lookup. destruct (decide _) as [|Hn]; [done|]. rewrite (sum_for_notin _ _ Hn). lia.
Qed.

Lemma tally_perm m l l' : l ≡ₚ l' -> tally m l = tally m l'.
Proof.
  intros Hp. apply map_eq. intros k. rewrite !tally_lookup, (sum_for_perm k l l' Hp).
  assert (Hk : k ∈ map fst l <-> k ∈ map fst l') by by rewrite Hp.
  destruct (decide (k ∈ map fst l)), (decide (k ∈ map fst l')); naive_solver.
Qed.

Lemma tally_nonneg m l : values_nonneg m -> pairs_nonneg l -> values_nonneg (tally m l).
Proof.
  intros Hm Hl k v. rewrite tally_lookup. destruct (decide _); [|apply Hm].
  intros [= <-]. pose proof (sum_for_nonneg k l Hl).
  destruct (m !! k) as [w|] eqn:Hk; simpl; [|lia]. specialize (Hm k w Hk). simpl in Hm. lia.
Qed.
End Msum.

(** ** Iteration order *)

Lemma elem_of_keys (k : Pubkey) (l : list (Pubkey * Z)) : k ∈ map fst l <-> exists v, (k, v) ∈ l.
Proof.
  induction l as [|[k' v'] l IH]; simpl; [set_solver|].
  rewrite elem_of_cons, IH. setoid_rewrite elem_of_cons. naive_solver.
Qed.

Section Iter.
Implicit Types m : BTreeMap.

#[export] Instance key_le_trans : Transitive key_le.
Proof. intros a b c. unfold key_le. apply transitivity. Qed.
#[export] Instance key_le_total : Total key_le.
Proof. intros a b. unfold key_le. apply (total bytes_le). Qed.

Lemma btree_iter_perm m : btree_iter m ≡ₚ map_to_list m.
Proof. apply merge_sort_Permutation. Qed.

Lemma elem_of_btree_iter m k v : (k, v) ∈ btree_iter m <-> m !! k = Some v.
Proof. by rewrite btree_iter_perm, elem_of_map_to_list. Qed.

Lemma btree_iter_keys m k : k ∈ map fst (btree_iter m) <-> is_Some (m !! k).
Proof.
  rewrite elem_of_keys. unfold is_Some. by setoid_rewrite elem_of_btree_iter.
Qed.

Lemma btree_iter_NoDup m : NoDup (map fst (btree_iter m)).
Proof. rewrite (btree_iter_perm m). apply NoDup_fst_map_to_list. Qed.

Lemma sum_btree_iter m : sum_Z (map snd (btree_iter m)) = msum m.
Proof. by rewrite (btree_iter_perm m). Qed.

Lemma sum_for_iter m k : sum_for k (btree_iter m) = default 0 (m !! k).
Proof.
  rewrite (sum_for_perm k _ (map_to_list m)) by apply btree_iter_perm.
  induction m as [|k' v m Hk' IH] using map_ind; [by rewrite map_to_list_empty, lookup_empty|].
  rewrite (sum_for_perm k _ ((k', v) :: map_to_list m)) by (by apply map_to_list_insert).
  rewrite sum_for_cons, IH. simpl. destruct (decide (k' = k)) as [->|Hne].
  - rewrite lookup_insert_eq, Hk'. simpl. lia.
  - by rewrite lookup_insert_ne.
Qed.

Lemma pairs_nonneg_iter m : values_nonneg m -> pairs_nonneg (btree_iter m).
Proof.
  intros Hm. unfold pairs_nonneg. rewrite (btree_iter_perm m). apply Forall_forall.
  intros [k v] Hin%elem_of_map_to_list. by apply (Hm k v).
Qed.

(** Strictly ascending keys. *)
Lemma btree_iter_sorted m : StronglySorted bytes_lt (map fst (btree_iter m)).
Proof.
  pose proof (btree_iter_NoDup m) as Hnd.
  assert (Hs : StronglySorted key_le (btree_iter m)) by (apply StronglySorted_merge_sort; apply _).
  revert Hnd Hs. induction (btree_iter m) as [|p l IH]; intros Hnd Hs; simpl; [constructor|].
  inversion_clear Hnd. inversion_clear Hs. constructor; [by apply IH|].
  apply Forall_map. apply Forall_forall. intros q Hq. apply bytes_le_lt_eq.
  - rewrite Forall_forall in *. by apply H2.
  - intros Heq. destruct H. rewrite Heq. apply elem_of_keys. exists (snd q). by destruct q.
Qed.
End Iter.

(** ** Closed forms of the loops *)

Lemma foldM_map {E S A B} (f : S -> B -> result E S) (g : A -> B) s l :
  foldM (fun s x => f s (g x)) s l = foldM f s (map g l).
Proof. revert s. induction l as [|x l IH]; intros s; simpl; [done|]. by destruct (f s (g x)); simpl. Qed.

Lemma foldM_ext {E S A} (f g : S -> A -> result E S) s l :
  (forall s x, f s x = g s x) -> foldM f s l = foldM g s l.
Proof. intros Hfg. revert s. induction l as [|x l IH]; intros s; simpl; [done|]. rewrite Hfg. by destruct (g s x); simpl. Qed.

(** A checked sum of non-negative terms. *)
Definition total_result (z : Z) : result SnapshotError Z := if in_u 128 z then Ok z else Err Overflow.

Lemma checked_total_from {A} (f : A -> Z) (l : list A) t0 :
  Forall (fun x => 0 <= f x) l -> 0 <= t0 -> is_u128 t0 ->
  foldM (fun total x => ok_or (checked_add_u 128 total (f x)) Overflow) t0 l
  = total_result (t0 + sum_Z (map f l)).
Proof.
  unfold total_result. intros Hl. revert t0.
  induction Hl as [|x l Hx Hl IH]; intros t0 Ht0 Hu; simpl.
  { rewrite Z.add_0_r. apply in_u_spec in Hu. by rewrite Hu. }
  assert (0 <= sum_Z (map f l)) by (by apply sum_Z_nonneg, Forall_map).
  unfold checked_add_u. destruct (in_u 128 (t0 + f x)) eqn:Hin; simpl.
  - apply in_u_spec in Hin. rewrite IH by (done || lia). by replace (t0 + f x + sum_Z (map f l))
      with (t0 + (f x + sum_Z (map f l))) by lia.
  - destruct (in_u 128 (t0 + (f x + _))) eqn:Hin'; [|done]. apply in_u_spec in Hin'.
    assert (is_u128 (t0 + f x)) as Hc%in_u_spec by (unfold is_u in *; lia). congruence.
Qed.

Lemma checked_total_eq {A} (f : A -> Z) (l : list A) :
  Forall (fun x => 0 <= f x) l -> checked_total f l = total_result (sum_Z (map f l)).
Proof. intros Hl. unfold checked_total. rewrite checked_total_from; [done|done|lia|in_range]. Qed.

Lemma total_result_Ok z t : total_result z = Ok t <-> t = z /\ is_u128 z.
Proof. unfold total_result. rewrite <- in_u_spec. destruct (in_u 128 z); naive_solver. Qed.

(** The loop that adds every pair of [l] to the map. *)
Definition accumulate (m : BTreeMap) (l : list (Pubkey * Z)) : result SnapshotError BTreeMap :=
  foldM (fun m p => entry_add m (fst p) (snd p)) m l.

Definition fits (m : BTreeMap) (l : list (Pubkey * Z)) : Prop :=
  forall k, k ∈ map fst l -> is_u64 (default 0 (m !! k) + sum_for k l).

Lemma entry_add_Ok m k v m' :
  entry_add m k v = Ok m' <-> m' = tally_one m (k, v) /\ is_u64 (default 0 (m !! k) + v).
Proof.
  unfold entry_add, tally_one. simpl. split.
  - intros Hr. res_inv Hr. checked_inv. done.
  - intros [-> Hu]. apply in_u_spec in Hu. unfold checked_add_u. by rewrite Hu.
Qed.

Lemma tally_one_default m p k :
  default 0 (tally_one m p !! k) = default 0 (m !! k) + (if decide (fst p = k) then snd p else 0).
Proof.
  unfold tally_one. destruct (decide (fst p = k)) as [<-|Hne].
  - by rewrite lookup_insert_eq.
  - rewrite lookup_insert_ne by done. lia.
Qed.

Lemma accumulate_Ok m l m' :
  values_nonneg m -> pairs_nonneg l ->
  accumulate m l = Ok m' <-> m' = tally m l /\ fits m l.
Proof.
  intros Hm Hl. revert m Hm. induction Hl as [|p l Hp Hl IH]; intros m Hm.
  { unfold accumulate, fits. simpl. split; [intros [= <-]; split; [done|set_solver]|by intros [-> _]]. }
  cbn [accumulate foldM]. rewrite bind_Ok.
  assert (Hval : forall k, 0 <= default 0 (m !! k)).
  { intros k. destruct (m !! k) eqn:Hk; [by apply (Hm k)|done]. }
  assert (Hm' : values_nonneg (tally_one m p)).
  { apply (tally_nonneg m [p]); [done|by constructor]. }
  split.
  - intros (m1 & H1 & H2). apply entry_add_Ok in H1 as [-> Hu].
    replace (fst p, snd p) with p in * by by destruct p. apply IH in H2 as [-> Hf]; [|done].
    split; [done|]. intros k Hk. simpl in Hk. rewrite sum_for_cons.
    destruct (decide (k ∈ map fst l)) as [Hin|Hn].
    + specialize (Hf k Hin). rewrite tally_one_default in Hf. by rewrite Z.add_assoc.
    + assert (k = fst p) as -> by set_solver. rewrite decide_True, (sum_for_notin _ _ Hn) by done.
      by rewrite Z.add_0_r.
  - intros [-> Hf]. exists (tally_one m p). rewrite entry_add_Ok. split.
    + split; [by destruct p|]. specialize (Hf (fst p) ltac:(set_solver)).
      rewrite sum_for_cons, decide_True in Hf by done. pose proof (sum_for_nonneg (fst p) l Hl).
      specialize (Hval (fst p)). unfold is_u in *. lia.
    + apply IH; [done|]. split; [done|]. intros k Hk. specialize (Hf k ltac:(set_solver)).
      rewrite sum_for_cons in Hf. by rewrite tally_one_default, <- Z.add_assoc.
Qed.

Lemma accumulate_Err m l e : accumulate m l = Err e -> e = Overflow.
Proof.
  revert m. induction l as [|p l IH]; intros m; [done|]. cbn [accumulate foldM].
  rewrite bind_Err. intros [He|(m' & _ & He)]; [|by eapply IH].
  apply bind_Err in He as [He|(? & _ & He)]; [|done]. by apply ok_or_Err in He as [_ <-].
Qed.

Lemma fits_perm m l l' : l ≡ₚ l' -> fits m l -> fits m l'.
Proof. intros Hp Hf k Hk. rewrite <- (sum_for_perm k l l') by done. apply Hf. by rewrite Hp. Qed.

(** The accumulated map does not depend on the order of the pairs. *)
Lemma accumulate_perm m l l' :
  values_nonneg m -> pairs_nonneg l -> l ≡ₚ l' -> accumulate m l = accumulate m l'.
Proof.
  intros Hm Hl Hp. assert (Hl' : pairs_nonneg l') by (unfold pairs_nonneg; by rewrite <- Hp).
  destruct (accumulate m l) as [m1|e] eqn:H1.
  - apply accumulate_Ok in H1 as [-> Hf]; [|done..]. symmetry. apply accumulate_Ok; [done..|].
    split; [by apply tally_perm|by eapply fits_perm].
  - destruct (accumulate m l') as [m2|e'] eqn:H2.
    + apply accumulate_Ok in H2 as [-> Hf]; [|done..].
      assert (accumulate m l = Ok (tally m l)) as Hc; [|by rewrite Hc in H1].
      apply accumulate_Ok; [done..|]. split; [done|]. by eapply fits_perm.
    + by rewrite (accumulate_Err _ _ _ H1), (accumulate_Err _ _ _ H2).
Qed.

(** A total below 2^64 rules every overflow out. *)
Lemma fits_total l : pairs_nonneg l -> is_u64 (sum_Z (map snd l)) -> fits ∅ l.
Proof.
  intros Hl Hu k _. rewrite lookup_empty. simpl. pose proof (sum_for_le k l Hl).
  pose proof (sum_for_nonneg k l Hl). unfold is_u in *. lia.
Qed.

(** ** The stages *)

Definition account_pairs (accounts : list TokenAccountSnapshot) : list (Pubkey * Z) :=
  map (fun a => (tas_owner a, tas_amount a)) accounts.
Definition lock_pairs (records : list TokenLockRecord) : list (Pubkey * Z) :=
  map (fun r => (lock_owner r, current_locked_amount r)) records.

Definition wf_accounts (accounts : list TokenAccountSnapshot) : Prop :=
  Forall (fun a => is_u64 (tas_amount a)) accounts.
Definition wf_records (records : list TokenLockRecord) : Prop :=
  Forall (fun r => is_u64 (current_locked_amount r)) records.

Lemma account_pairs_nonneg accounts : wf_accounts accounts -> pairs_nonneg (account_pairs accounts).
Proof. intros Hw. apply Forall_map. eapply Forall_impl; [exact Hw|]. unfold is_u. simpl. lia. Qed.
Lemma lock_pairs_nonneg records : wf_records records -> pairs_nonneg (lock_pairs records).
Proof. intros Hw. apply Forall_map. eapply Forall_impl; [exact Hw|]. unfold is_u. simpl. lia. Qed.

Lemma account_pairs_sum accounts :
  map snd (account_pairs accounts) = map tas_amount accounts.
Proof. unfold account_pairs. by rewrite map_map. Qed.
Lemma lock_pairs_sum records :
  map snd (lock_pairs records) = map current_locked_amount records.
Proof. unfold lock_pairs. by rewrite map_map. Qed.

Lemma per_owner_eq accounts : per_owner accounts = accumulate ∅ (account_pairs accounts).
Proof.
  exact (foldM_map (fun m p => entry_add m (fst p) (snd p))
    (fun a => (tas_owner a, tas_amount a)) ∅ accounts).
Qed.

Lemma lock_step_eq s r :
  lock_step s r = if in_u 128 (fst s + current_locked_amount r)
    then m ← entry_add (snd s) (lock_owner r) (current_locked_amount r);
         mret (fst s + current_locked_amount r, m)
    else Err Overflow.
Proof. unfold lock_step, checked_add_u. by destruct (in_u 128 _). Qed.

Lemma aggregate_locks_from records t m :
  wf_records records -> 0 <= t -> is_u128 t -> values_nonneg m ->
  foldM lock_step (t, m) records
  = (total ← total_result (t + sum_Z (map current_locked_amount records));
     m' ← accumulate m (lock_pairs records); mret (total, m')).
Proof.
  intros Hw. revert t m. induction Hw as [|r l Hr Hl IH]; intros t m Ht Hu Hm; simpl.
  { unfold total_result. rewrite Z.add_0_r. apply in_u_spec in Hu. by rewrite Hu. }
  assert (0 <= sum_Z (map current_locked_amount l)).
  { apply sum_Z_nonneg, Forall_map. eapply Forall_impl; [exact Hl|]. unfold is_u. simpl. lia. }
  assert (Hp : 0 <= current_locked_amount r) by (unfold is_u in Hr; lia).
  rewrite lock_step_eq. simpl. destruct (in_u 128 (t + current_locked_amount r)) eqn:Hin; simpl.
  - apply in_u_spec in Hin. destruct (entry_add m (lock_owner r) (current_locked_amount r)) as [m1|e] eqn:H1; simpl.
    + assert (accumulate m ((lock_owner r, current_locked_amount r) :: lock_pairs l)
        = accumulate m1 (lock_pairs l)) as -> by (unfold accumulate; simpl; by rewrite H1).
      apply entry_add_Ok in H1 as [-> _]. rewrite IH; [by rewrite Z.add_assoc|lia|done|].
      by apply (tally_nonneg m [(lock_owner r, current_locked_amount r)]); [|constructor].
    + assert (Ha : accumulate m ((lock_owner r, current_locked_amount r) :: lock_pairs l) = Err e)
        by (unfold accumulate; simpl; by rewrite H1).
      rewrite Ha. apply accumulate_Err in Ha as ->. unfold total_result. by destruct (in_u 128 _).
  - unfold total_result. destruct (in_u 128 (t + (_ + _))) eqn:Hin'; [|done].
    apply in_u_spec in Hin'.
    assert (is_u128 (t + current_locked_amount r)) as Hc%in_u_spec by (unfold is_u in *; lia).
    congruence.
Qed.

Lemma aggregate_locks_eq records :
  wf_records records ->
  aggregate_locks records
  = (total ← total_result (sum_Z (map current_locked_amount records));
     m ← accumulate ∅ (lock_pairs records); mret (total, m)).
Proof. intros Hw. apply aggregate_locks_from; [done|done|in_range|apply map_Forall_empty]. Qed.

(** The exclusion pass. *)
Definition kept (sinks : gset Pubkey) (p : Pubkey * Z) : Prop := snd p <> 0 /\ fst p ∉ sinks.
#[export] Instance kept_dec sinks p : Decision (kept sinks p).
Proof. unfold kept. apply _. Defined.

Definition excluded (sinks : gset Pubkey) (p : Pubkey * Z) : option ExcludedBalance :=
  if snd p =? 0 then Some (mkExcludedBalance (fst p) 0 ZeroBalance)
  else if bool_decide (fst p ∈ sinks) then Some (mkExcludedBalance (fst p) (snd p) ExplicitSink)
  else None.

Definition sink_sum (sinks : gset Pubkey) (l : list (Pubkey * Z)) : Z :=
  sum_Z (map snd (filter (fun p => fst p ∈ sinks) l)).

Lemma sink_sum_nonneg sinks l : pairs_nonneg l -> 0 <= sink_sum sinks l.
Proof.
  intros Hl. apply sum_Z_nonneg, Forall_map, Forall_forall. intros p [_ Hp]%list_elem_of_filter.
  by apply (proj1 (Forall_forall _ _) Hl p).
Qed.

Lemma sink_sum_cons sinks p l :
  sink_sum sinks (p :: l) = (if decide (fst p ∈ sinks) then snd p else 0) + sink_sum sinks l.
Proof. unfold sink_sum. rewrite filter_cons. by destruct (decide _). Qed.

Lemma kept_and_sinks sinks l :
  sum_Z (map snd (filter (kept sinks) l)) + sink_sum sinks l = sum_Z (map snd l).
Proof.
  unfold sink_sum. induction l as [|[k v] l IH]; [done|]. rewrite !filter_cons.
  destruct (decide (kept sinks (k, v))) as [[Hv Hs]|Hk], (decide (fst (k, v) ∈ sinks)) as [Hin|Hn];
    simpl in *; [done|lia|lia|].
  assert (v = 0) by (destruct (decide (v = 0)); [done|by destruct Hk]). lia.
Qed.

Lemma exclusion_from sinks l s :
  pairs_nonneg l -> 0 <= sink_total s -> is_u128 (sink_total s + sink_sum sinks l) ->
  foldM (exclude_one sinks) s l
  = Ok (mkExclusion (ledger s ++ omap (excluded sinks) l) (sink_total s + sink_sum sinks l)
          (foldl (fun m p => <[fst p := snd p]> m) (claimable s) (filter (kept sinks) l))).
Proof.
  intros Hl. revert s. induction Hl as [|[k v] l Hv Hl IH]; intros [ex t cl] Ht Hu; simpl in *.
  { by rewrite app_nil_r, Z.add_0_r. }
  pose proof (sink_sum_nonneg sinks l Hl) as Hnn. rewrite sink_sum_cons in *. rewrite filter_cons.
  unfold excluded at 1. simpl in *. destruct (v =? 0) eqn:Hv0; bool_simpl.
  - subst v. rewrite (decide_False (P := kept _ _)) by (by intros []). simpl.
    replace (if decide (k ∈ sinks) then 0 else 0) with 0 in * by (by destruct (decide _)).
    rewrite Z.add_0_l in *. rewrite IH; simpl; [by rewrite <- app_assoc|done..].
  - destruct (decide (k ∈ sinks)) as [Hin|Hn]; simpl in *.
    + rewrite bool_decide_eq_true_2, (decide_False (P := kept _ _)) by (done || by intros []).
      simpl. unfold checked_add_u.
      assert (in_u 128 (t + v) = true) as ->; [apply in_u_spec; unfold is_u in *; lia|]. simpl.
      rewrite IH; simpl; [by rewrite <- app_assoc, Z.add_assoc|lia|by rewrite <- Z.add_assoc].
    + rewrite bool_decide_eq_false_2, (decide_True (P := kept _ _)) by done. simpl.
      rewrite Z.add_0_l in *. by rewrite IH.
Qed.

Lemma insert_all_lookup m l k v :
  NoDup (map fst l) ->
  foldl (fun m p => <[fst p := snd p]> m) m l !! k = Some v
  <-> (k, v) ∈ l \/ (k ∉ map fst l /\ (m : BTreeMap) !! k = Some v).
Proof.
  revert m. induction l as [|[k' v'] l IH]; intros m Hnd; simpl in *; [set_solver|].
  inversion_clear Hnd as [|? ? Hn Hnd']. rewrite IH by done. rewrite elem_of_cons, not_elem_of_cons.
  assert (Hkl : (k, v) ∈ l -> k ∈ map fst l) by (intros; apply elem_of_keys; eauto).
  destruct (decide (k = k')) as [->|Hne].
  - rewrite lookup_insert_eq. naive_solver.
  - rewrite lookup_insert_ne by done. naive_solver.
Qed.

Lemma filter_NoDup_keys (P : Pubkey * Z -> Prop) `{forall p, Decision (P p)} l :
  NoDup (map fst l) -> NoDup (map fst (filter P l)).
Proof.
  induction l as [|p l IH]; intros Hnd; [done|]. inversion_clear Hnd as [|? ? Hn Hnd'].
  rewrite filter_cons. destruct (decide (P p)); [|by apply IH]. simpl. constructor; [|by apply IH].
  rewrite elem_of_keys in *. intros [v Hv%list_elem_of_filter]. apply Hn. exists v. apply Hv.
Qed.

Definition keep_map (sinks : gset Pubkey) (m : BTreeMap) : BTreeMap := filter (kept sinks) m.

Lemma keep_map_lookup sinks m k v :
  keep_map sinks m !! k = Some v <-> m !! k = Some v /\ v <> 0 /\ k ∉ sinks.
Proof. unfold keep_map, kept. by rewrite map_lookup_filter_Some. Qed.

Lemma keep_map_nonneg sinks m : values_nonneg m -> values_nonneg (keep_map sinks m).
Proof. intros Hm k v [Hk _]%keep_map_lookup. by apply (Hm k v). Qed.

Lemma keep_map_spec sinks m :
  foldl (fun m p => <[fst p := snd p]> m) ∅ (filter (kept sinks) (btree_iter m)) = keep_map sinks m.
Proof.
  apply map_eq. intros k. apply option_eq. intros v.
  rewrite insert_all_lookup by apply filter_NoDup_keys, btree_iter_NoDup.
  unfold keep_map. rewrite map_lookup_filter_Some, list_elem_of_filter, elem_of_btree_iter, lookup_empty.
  naive_solver.
Qed.

Lemma msum_keep_map sinks m :
  msum (keep_map sinks m) + sink_sum sinks (btree_iter m) = msum m.
Proof.
  rewrite <- (sum_btree_iter m), <- (kept_and_sinks sinks). f_equal.
  unfold msum, keep_map. rewrite map_filter_alt. apply sum_Z_perm, fmap_Permutation.
  rewrite (btree_iter_perm m). apply map_to_list_to_map.
  apply (filter_NoDup_keys _ (map_to_list m)), NoDup_fst_map_to_list.
Qed.

Lemma exclusion_pass_eq sinks m :
  values_nonneg m -> is_u64 (msum m) ->
  exclusion_pass sinks m
  = Ok (mkExclusion (omap (excluded sinks) (btree_iter m)) (sink_sum sinks (btree_iter m))
          (keep_map sinks m)).
Proof.
  intros Hm Hu. pose proof (pairs_nonneg_iter m Hm) as Hp.
  unfold exclusion_pass. rewrite exclusion_from; [|done|simpl; lia|simpl].
  - simpl. by rewrite keep_map_spec.
  - pose proof (sink_sum_nonneg sinks _ Hp). pose proof (msum_keep_map sinks m).
    assert (0 <= msum (keep_map sinks m)); [|unfold is_u in *; lia].
    by apply msum_nonneg, keep_map_nonneg.
Qed.

(** ** The leaf set of a map *)

Definition balance_of (l : list HolderEntry) (o : Pubkey) : Z :=
  sum_Z (map lp_balance (filter (fun e => owner e = o) l)).

Section Entries.
Implicit Types m : BTreeMap.

Lemma holder_entries_owners m : map owner (holder_entries m) = map fst (btree_iter m).
Proof. unfold holder_entries. by rewrite map_map. Qed.

Lemma holder_entries_balances m : map lp_balance (holder_entries m) = map snd (btree_iter m).
Proof. unfold holder_entries. by rewrite map_map. Qed.

Lemma holder_entries_sum m : sum_Z (map lp_balance (holder_entries m)) = msum m.
Proof. by rewrite holder_entries_balances, sum_btree_iter. Qed.

Lemma elem_of_holder_entries m e : e ∈ holder_entries m <-> m !! owner e = Some (lp_balance e).
Proof.
  unfold holder_entries. rewrite <- elem_of_btree_iter.
  rewrite list_elem_of_In, in_map_iff. setoid_rewrite <- list_elem_of_In.
  split; [by intros ([] & <- & ?)|]. intros Hin. exists (owner e, lp_balance e). by destruct e.
Qed.

Lemma balance_of_holder_entries m o : balance_of (holder_entries m) o = default 0 (m !! o).
Proof.
  rewrite <- sum_for_iter. unfold balance_of, sum_for, holder_entries. f_equal.
  induction (btree_iter m) as [|p l IH]; [done|]. simpl. rewrite !filter_cons. simpl.
  by destruct (decide _); simpl; rewrite IH.
Qed.

Lemma canonical_holder_entries m :
  canonical (holder_entries m) <-> m <> ∅ /\ map_Forall (fun _ v => v <> 0) m.
Proof.
  assert (Hnil : holder_entries m = [] <-> m = ∅).
  { unfold holder_entries. split; [|by intros ->].
    intros Hn%map_eq_nil. apply map_to_list_empty_iff, Permutation_nil_r. by rewrite <- btree_iter_perm, Hn. }
  split.
  - intros [Hne _ Hpos]. split; [by rewrite <- Hnil|]. intros k v Hk.
    rewrite Forall_forall in Hpos. by apply (Hpos (mkHolderEntry k v)), elem_of_holder_entries.
  - intros [Hne Hpos]. constructor; [by rewrite Hnil|rewrite holder_entries_owners; apply btree_iter_sorted|].
    apply Forall_forall. intros e He%elem_of_holder_entries. by apply (Hpos (owner e)).
Qed.

Lemma holder_entries_nonneg m : values_nonneg m -> Forall (fun e => 0 <= lp_balance e) (holder_entries m).
Proof.
  intros Hm. apply Forall_forall. intros e He%elem_of_holder_entries. by apply (Hm (owner e)).
Qed.
End Entries.

(** ** Custody *)

(** [a] is the account the locked total is lifted from. *)
Definition custody_choice (overrides : gset Pubkey) (accounts : list TokenAccountSnapshot)
    (total : Z) (a : TokenAccountSnapshot) : Prop :=
  let candidates := filter (fun a => tas_amount a = total) accounts in
  candidates = [a]
  \/ ((1 < length candidates)%nat /\ filter (fun a => tas_owner a ∈ overrides) candidates = [a]).

Lemma choose_custody_Ok overrides accounts total a :
  choose_custody overrides total (filter (fun a => tas_amount a = total) accounts) = Ok a
  <-> custody_choice overrides accounts total a.
Proof.
  unfold choose_custody, custody_choice.
  destruct (filter (fun a => tas_amount a = total) accounts) as [|x [|y l]]; simpl.
  - split; [done|]. intros [?|[? _]]; [done|simpl in *; lia].
  - split; [intros [= ->]; by left|]. intros [[= ->]|[? _]]; [done|simpl in *; lia].
  - set (via := filter _ (x :: y :: l)). split.
    + destruct via as [|v [|w vs]] eqn:Hv; try done. intros [= <-]. right. split; [lia|done].
    + intros [?|[_ ->]]; done.
Qed.

Lemma custody_choice_in overrides accounts total a :
  custody_choice overrides accounts total a -> a ∈ accounts /\ tas_amount a = total.
Proof.
  intros Hc. assert (Hin : a ∈ filter (fun a => tas_amount a = total) accounts).
  { destruct Hc as [->|[_ Hc]]; [by apply list_elem_of_singleton|].
    apply (list_elem_of_filter (fun a => tas_owner a ∈ overrides)). rewrite Hc.
    by apply list_elem_of_singleton. }
  apply list_elem_of_filter in Hin. tauto.
Qed.

(** Two lists of accounts in different orders make the same choice. *)
Lemma choose_custody_perm overrides total l l' :
  l ≡ₚ l' -> choose_custody overrides total l = choose_custody overrides total l'.
Proof.
  intros Hp. pose proof (Permutation_length Hp) as Hlen. unfold choose_custody, len_Z.
  pose proof (filter_Permutation (fun a => tas_owner a ∈ overrides) _ _ Hp) as Hf.
  destruct l as [|x [|y l]].
  - by apply Permutation_nil_l in Hp as <-.
  - by apply Permutation_singleton_l in Hp as <-.
  - destruct l' as [|x' [|y' l']]; try (simpl in Hlen; lia). rewrite Hlen.
    destruct (filter _ (x :: y :: l)) as [|v [|w vs]].
    + by apply Permutation_nil_l in Hf as <-.
    + by apply Permutation_singleton_l in Hf as <-.
    + apply Permutation_length in Hf.
      destruct (filter _ (x' :: y' :: l')) as [|v' [|w' vs']]; simpl in Hf; (done || lia).
Qed.

Lemma resolve_custody_perm overrides accounts accounts' total attributions claimable :
  accounts ≡ₚ accounts' ->
  resolve_custody overrides accounts total attributions claimable
  = resolve_custody overrides accounts' total attributions claimable.
Proof.
  intros Hp. unfold resolve_custody.
  pose proof (filter_Permutation (fun a => tas_amount a = total) _ _ Hp) as Hf.
  rewrite (Permutation_length Hf). destruct (0 <? total); [|done].
  destruct (to_u64 total); simpl; [|done]. by rewrite (choose_custody_perm _ _ _ _ Hf).
Qed.

(** What a resolution says. *)
Definition resolved (overrides : gset Pubkey) (accounts : list TokenAccountSnapshot) (total : Z)
    (attributions claimable : BTreeMap) (c : option CustodyResolution) (unlocked : BTreeMap) : Prop :=
  (total = 0 /\ c = None /\ unlocked = claimable)
  \/ (0 < total /\ is_u64 total /\ exists a v meth,
        custody_choice overrides accounts total a
        /\ attributions !! tas_owner a = None /\ claimable !! tas_owner a = Some v
        /\ c = Some (mkCustodyResolution (tas_address a) (tas_owner a) (tas_amount a) meth)
        /\ unlocked = delete (tas_owner a) claimable
        /\ meth = (if bool_decide (length (filter (fun a => tas_amount a = total) accounts) = 1%nat)
                   then ExactBalanceMatch else ExplicitOverride)).

Lemma resolve_custody_Ok overrides accounts total attributions claimable c unlocked :
  0 <= total ->
  resolve_custody overrides accounts total attributions claimable = Ok (c, unlocked)
  <-> resolved overrides accounts total attributions claimable c unlocked.
Proof.
  intros Ht. unfold resolve_custody, resolved. destruct (0 <? total) eqn:H0; bool_simpl.
  - split.
    + intros Hr. right. unfold to_u64 in Hr. res_inv Hr. bool_simpl. checked_inv.
      apply choose_custody_Ok in Hr1. eauto 12.
    + intros [(? & _)|(_ & Hu & a & v & meth & Ha & Hn & Hv & -> & -> & ->)]; [lia|].
      apply bind_Ok. exists total. split; [by apply ok_or_Ok, try_into_u_Some|].
      apply bind_Ok. exists a. split; [by apply choose_custody_Ok|]. step_guard done.
      by rewrite Hv.
  - split; [|intros [(-> & -> & ->)|(? & _)]; [done|lia]]. intros [= <- <-]. left. split; [lia|done].
Qed.

(** ** [build] in closed form *)

(** The sources answer a request with this data. *)
Definition serves `{LpAccountSource, LockedLpEvidence} (request : SnapshotRequest)
    (supply : MintSupply) (accounts : list TokenAccountSnapshot)
    (records : list TokenLockRecord) : Prop :=
  lp_mint_supply (rq_lp_mint request) = Ok supply
  /\ token_accounts (rq_lp_mint request) = Ok accounts
  /\ token_locks (rq_pool_address request) (rq_lp_mint request) = Ok records.

(** The types of the data: [u64] amounts. *)
Definition wf_served (supply : MintSupply) (accounts : list TokenAccountSnapshot)
    (records : list TokenLockRecord) : Prop :=
  is_u64 (ms_amount supply) /\ wf_accounts accounts /\ wf_records records.

Definition enumerated_sum (accounts : list TokenAccountSnapshot) : Z := sum_Z (map tas_amount accounts).
Definition locked_sum (records : list TokenLockRecord) : Z :=
  sum_Z (map current_locked_amount records).
Definition owners_of (accounts : list TokenAccountSnapshot) : BTreeMap := tally ∅ (account_pairs accounts).
Definition attributed (records : list TokenLockRecord) : BTreeMap := tally ∅ (lock_pairs records).
Definition sinks_of (request : SnapshotRequest) : gset Pubkey := list_to_set (sink_exclusions request).
Definition overrides_of (request : SnapshotRequest) : gset Pubkey :=
  list_to_set (custody_owner_overrides request).

Definition snapshot_with (request : SnapshotRequest) (supply : MintSupply)
    (accounts : list TokenAccountSnapshot) (records : list TokenLockRecord)
    (c : option CustodyResolution) (merged : BTreeMap) : LpSnapshot :=
  let owners := btree_iter (owners_of accounts) in
  {| sn_pool_address := rq_pool_address request;
     sn_amm_program_id := rq_amm_program_id request;
     sn_lp_mint := rq_lp_mint request;
     snapshot_slot := ms_slot supply;
     sn_lp_total_supply := ms_amount supply;
     entries := holder_entries merged;
     exclusions := omap (excluded (sinks_of request)) owners;
     locked := mkLockedReport (len_Z records) (locked_sum records) (holder_entries (attributed records)) c;
     reconciliation := mkReconciliation (ms_amount supply) (msum merged)
       (sink_sum (sinks_of request) owners) |}.

(** The state in which the pipeline succeeds, and with what. *)
Record build_result (request : SnapshotRequest) (supply : MintSupply)
    (accounts : list TokenAccountSnapshot) (records : list TokenLockRecord)
    (c : option CustodyResolution) (unlocked : BTreeMap) : Prop := {
  br_supply : enumerated_sum accounts = ms_amount supply;
  br_resolved : resolved (overrides_of request) accounts (locked_sum records) (attributed records)
                  (keep_map (sinks_of request) (owners_of accounts)) c unlocked;
  br_closing : msum unlocked + locked_sum records
               + sink_sum (sinks_of request) (btree_iter (owners_of accounts)) = ms_amount supply;
  br_canonical : canonical (holder_entries (tally unlocked (btree_iter (attributed records))));
}.

Section BuildForm.
Context (request : SnapshotRequest) (supply : MintSupply).
Context (accounts : list TokenAccountSnapshot) (records : list TokenLockRecord).
Context (Hwf : wf_served supply accounts records).

Lemma owners_nonneg : values_nonneg (owners_of accounts).
Proof. apply tally_nonneg; [apply map_Forall_empty|]. apply account_pairs_nonneg, Hwf. Qed.

Lemma attributed_nonneg : values_nonneg (attributed records).
Proof. apply tally_nonneg; [apply map_Forall_empty|]. apply lock_pairs_nonneg, Hwf. Qed.

Lemma msum_owners : msum (owners_of accounts) = enumerated_sum accounts.
Proof. unfold owners_of. rewrite msum_tally, account_pairs_sum. done. Qed.

Lemma msum_attributed : msum (attributed records) = locked_sum records.
Proof. unfold attributed. rewrite msum_tally, lock_pairs_sum. done. Qed.

Lemma locked_nonneg : 0 <= locked_sum records.
Proof. rewrite <- msum_attributed. apply msum_nonneg, attributed_nonneg. Qed.

Lemma sinks_nonneg sinks : 0 <= sink_sum sinks (btree_iter (owners_of accounts)).
Proof. apply sink_sum_nonneg, pairs_nonneg_iter, owners_nonneg. Qed.

Lemma kept_nonneg sinks : values_nonneg (keep_map sinks (owners_of accounts)).
Proof. apply keep_map_nonneg, owners_nonneg. Qed.

Lemma resolved_nonneg sinks overrides total c unlocked :
  resolved overrides accounts total (attributed records) (keep_map sinks (owners_of accounts)) c unlocked ->
  values_nonneg unlocked.
Proof.
  pose proof (kept_nonneg sinks) as Hk.
  intros [(_ & _ & ->)|(_ & _ & a & v & meth & _ & _ & _ & _ & -> & _)]; [done|].
  by apply map_Forall_delete.
Qed.

Lemma enumerated_total_eq :
  checked_total tas_amount accounts = total_result (enumerated_sum accounts).
Proof.
  apply checked_total_eq. destruct Hwf as (_ & Ha & _).
  eapply Forall_impl; [exact Ha|]. unfold is_u. simpl. lia.
Qed.

Lemma records_sorted_sum : locked_sum (merge_sort address_le records) = locked_sum records.
Proof. apply sum_Z_perm. by rewrite (merge_sort_Permutation address_le records). Qed.

Lemma lock_pairs_sorted : lock_pairs (merge_sort address_le records) ≡ₚ lock_pairs records.
Proof. unfold lock_pairs. by rewrite (merge_sort_Permutation address_le records). Qed.

(** Step 6's loop over the sorted records is a sum and a tally. *)
Lemma aggregate_sorted_eq :
  aggregate_locks (merge_sort address_le records)
  = (total ← total_result (locked_sum records);
     m ← accumulate ∅ (lock_pairs records); mret (total, m)).
Proof.
  destruct Hwf as (_ & _ & Hr).
  assert (Hr' : wf_records (merge_sort address_le records)).
  { unfold wf_records. by rewrite (merge_sort_Permutation address_le records). }
  rewrite aggregate_locks_eq by done. fold (locked_sum (merge_sort address_le records)).
  rewrite records_sorted_sum.
  by rewrite (accumulate_perm ∅ _ _ (map_Forall_empty _) (lock_pairs_nonneg _ Hr') lock_pairs_sorted).
Qed.
End BuildForm.

Section BuildIff.
Context {LS : LpAccountSource} {LL : LockedLpEvidence}.
Context (request : SnapshotRequest) (supply : MintSupply).
Context (accounts : list TokenAccountSnapshot) (records : list TokenLockRecord).
Context (Hserves : serves request supply accounts records).
Context (Hwf : wf_served supply accounts records).

Let owners := owners_of accounts.
Let att := attributed records.
Let sinks := sinks_of request.

(** Everything after the completeness gate, on the served data. *)
Lemma per_owner_Ok : enumerated_sum accounts = ms_amount supply -> per_owner accounts = Ok owners.
Proof.
  intros Hsum. rewrite per_owner_eq. destruct Hwf as (Hu & Ha & _).
  apply accumulate_Ok; [apply map_Forall_empty|by apply account_pairs_nonneg|].
  split; [done|]. apply fits_total; [by apply account_pairs_nonneg|].
  rewrite account_pairs_sum. fold (enumerated_sum accounts). by rewrite Hsum.
Qed.

Lemma exclusion_Ok :
  enumerated_sum accounts = ms_amount supply ->
  exclusion_pass sinks owners
  = Ok (mkExclusion (omap (excluded sinks) (btree_iter owners)) (sink_sum sinks (btree_iter owners))
          (keep_map sinks owners)).
Proof.
  intros Hsum. apply exclusion_pass_eq; [by eapply owners_nonneg|].
  unfold owners. rewrite msum_owners, Hsum. apply Hwf.
Qed.

Lemma merged_total unlocked : msum (tally unlocked (btree_iter att)) = msum unlocked + locked_sum records.
Proof. unfold att. by rewrite msum_tally, sum_btree_iter, msum_attributed. Qed.

Lemma merge_fits unlocked :
  values_nonneg unlocked -> is_u64 (msum unlocked + locked_sum records) -> fits unlocked (btree_iter att).
Proof.
  intros Hn Hu k _. pose proof (attributed_nonneg _ _ _ Hwf) as Ha.
  pose proof (tally_nonneg unlocked (btree_iter att) Hn (pairs_nonneg_iter _ Ha)) as Ht.
  rewrite <- tally_default. destruct (tally unlocked (btree_iter att) !! k) as [v|] eqn:Hk; simpl.
  - pose proof (msum_lookup _ k v Ht Hk) as Hle. rewrite merged_total in Hle.
    specialize (Ht k v Hk). simpl in Ht. unfold is_u in *. lia.
  - in_range.
Qed.

Lemma merge_attributions_Ok unlocked m :
  values_nonneg unlocked ->
  merge_attributions unlocked att = Ok m <-> m = tally unlocked (btree_iter att) /\ fits unlocked (btree_iter att).
Proof.
  intros Hn. apply accumulate_Ok; [done|]. by eapply pairs_nonneg_iter, attributed_nonneg.
Qed.

Lemma entries_total_eq unlocked :
  values_nonneg unlocked ->
  checked_total lp_balance (holder_entries (tally unlocked (btree_iter att)))
  = total_result (msum unlocked + locked_sum records).
Proof.
  intros Hn. rewrite checked_total_eq, holder_entries_sum, merged_total; [done|].
  apply holder_entries_nonneg, tally_nonneg; [done|]. by eapply pairs_nonneg_iter, attributed_nonneg.
Qed.

Lemma aggregate_sorted_Ok t m :
  aggregate_locks (merge_sort address_le records) = Ok (t, m)
  <-> t = locked_sum records /\ m = att /\ is_u128 (locked_sum records) /\ fits ∅ (lock_pairs records).
Proof.
  assert (Hacc := fun m' => accumulate_Ok ∅ (lock_pairs records) m' (map_Forall_empty _)
    (lock_pairs_nonneg records ltac:(apply Hwf))).
  rewrite (aggregate_sorted_eq _ _ _ Hwf). split.
  - intros Hr. res_inv Hr. apply total_result_Ok in Hr0 as [-> ?]. by apply Hacc in Hr1 as [-> ?].
  - intros (-> & -> & Hu & Hf). apply bind_Ok. exists (locked_sum records).
    split; [by apply total_result_Ok|]. apply bind_Ok. exists att. by rewrite Hacc.
Qed.

Lemma build_inv sn :
  build request = Ok sn ->
  exists c unlocked, build_result request supply accounts records c unlocked
    /\ sn = snapshot_with request supply accounts records c (tally unlocked (btree_iter att)).
Proof.
  destruct Hserves as (H1 & H2 & H3). intros H. unfold build in H.
  rewrite H1 in H. cbn [mbind result_bind] in H. rewrite H2 in H. cbn [mbind result_bind] in H.
  rewrite (enumerated_total_eq _ _ _ Hwf) in H.
  apply bind_Ok in H as (total & Ht & H). apply total_result_Ok in Ht as [-> _].
  apply bind_Ok in H as ([] & Hgate & H).
  destruct (enumerated_sum accounts =? ms_amount supply) eqn:Hsum; [|by apply bind_Ok in Hgate as (?&_&?)].
  bool_simpl. clear Hgate. rewrite per_owner_Ok in H by done. cbn [mbind result_bind] in H.
  fold (sinks_of request) in H. fold sinks in H. fold (overrides_of request) in H. rewrite exclusion_Ok in H by done. cbn [mbind result_bind] in H.
  rewrite H3 in H. cbn [mbind result_bind] in H.
  apply bind_Ok in H as ([t m] & Ha & H). apply aggregate_sorted_Ok in Ha as (-> & -> & _ & _).
  apply bind_Ok in H as ([c unlocked] & Hc & H).
  apply resolve_custody_Ok in Hc; [|by eapply locked_nonneg]. cbn [claimable sink_total ledger] in *.
  pose proof (resolved_nonneg _ _ _ Hwf _ _ _ _ _ Hc) as Hn.
  apply bind_Ok in H as (merged & Hm & H). apply merge_attributions_Ok in Hm as [-> _]; [|done].
  rewrite entries_total_eq in H by done. apply bind_Ok in H as (et & Het & H).
  apply total_result_Ok in Het as [-> _]. unfold to_u64 in H. res_inv H. bool_simpl. checked_inv.
  destruct r4. exists c, unlocked. split.
  - constructor; [done|done| |by apply validate_entries_spec]. by rewrite <- Hsum, <- Hr.
  - unfold snapshot_with, len_Z. rewrite (Permutation_length (merge_sort_Permutation address_le records)).
    by rewrite merged_total, <- Hsum.
Qed.

Lemma build_complete c unlocked :
  build_result request supply accounts records c unlocked ->
  build request = Ok (snapshot_with request supply accounts records c (tally unlocked (btree_iter att))).
Proof.
  destruct Hserves as (H1 & H2 & H3). intros [Hsum Hres Hclose Hcan].
  pose proof (resolved_nonneg _ _ _ Hwf _ _ _ _ _ Hres) as Hn.
  pose proof (msum_nonneg _ Hn) as Hn'. pose proof (locked_nonneg _ _ _ Hwf) as Hl.
  pose proof (sinks_nonneg _ _ _ Hwf sinks) as Hs. fold sinks owners in Hclose, Hs.
  assert (Hu : is_u64 (ms_amount supply)) by apply Hwf.
  assert (Hmono : forall z, is_u64 z -> is_u128 z) by (intros z; apply is_u_mono; lia).
  assert (Hu2 : is_u64 (locked_sum records)) by (unfold is_u in *; lia).
  assert (Hu3 : is_u64 (msum unlocked + locked_sum records)) by (unfold is_u in *; lia).
  assert (Hu4 : is_u64 (sink_sum sinks (btree_iter owners))) by (unfold is_u in *; lia).
  unfold build. rewrite H1. cbn [mbind result_bind]. rewrite H2. cbn [mbind result_bind].
  rewrite (enumerated_total_eq _ _ _ Hwf).
  apply bind_Ok. exists (enumerated_sum accounts). split; [apply total_result_Ok; rewrite Hsum; auto|].
  rewrite Hsum at 1. rewrite Z.eqb_refl. cbn [mbind result_bind mret result_ret].
  rewrite per_owner_Ok by done. cbn [mbind result_bind].
  fold (sinks_of request). fold sinks. fold (overrides_of request). rewrite exclusion_Ok by done. cbn [mbind result_bind].
  rewrite H3. cbn [mbind result_bind]. apply bind_Ok. exists (locked_sum records, att). split.
  { apply aggregate_sorted_Ok. split_and!; [done|done|auto|]. apply fits_total; [apply lock_pairs_nonneg, Hwf|].
    by rewrite lock_pairs_sum. }
  apply bind_Ok. exists (c, unlocked). split; [by apply resolve_custody_Ok|].
  apply bind_Ok. exists (tally unlocked (btree_iter att)). split.
  { apply merge_attributions_Ok; [done|]. split; [done|]. by apply merge_fits. }
  rewrite entries_total_eq by done. apply bind_Ok. exists (msum unlocked + locked_sum records).
  split; [apply total_result_Ok; auto|]. cbn [sink_total ledger].
  step_guard lia. unfold to_u64, try_into_u.
  rewrite Hsum. apply in_u_spec in Hu, Hu2, Hu3, Hu4. rewrite Hu2, Hu, Hu3, Hu4. cbn [ok_or mbind result_bind].
  apply validate_entries_spec in Hcan. fold att in Hcan. rewrite Hcan. cbn [mbind result_bind].
  unfold snapshot_with, len_Z. rewrite (Permutation_length (merge_sort_Permutation address_le records)).
  by rewrite merged_total.
Qed.
End BuildIff.

(** ** What a snapshot says *)

(** What [o] holds on the enumerated accounts, and what is locked for [o]. *)
Definition held (accounts : list TokenAccountSnapshot) (o : Pubkey) : Z :=
  sum_for o (account_pairs accounts).
Definition locked_for (records : list TokenLockRecord) (o : Pubkey) : Z := sum_for o (lock_pairs records).

Definition custody_owner (sn : LpSnapshot) : option Pubkey := cr_owner <$> custody (locked sn).

(** The custody account of a resolution: it holds exactly the locked total,
    its owner holds nothing else, is no sink and no lock's beneficiary. *)
Definition custody_of (request : SnapshotRequest) (accounts : list TokenAccountSnapshot)
    (records : list TokenLockRecord) (c : CustodyResolution) : Prop :=
  0 < locked_sum records /\ cr_balance c = locked_sum records
  /\ (exists a, a ∈ accounts /\ tas_address a = cr_token_account c /\ tas_owner a = cr_owner c
        /\ tas_amount a = cr_balance c)
  /\ held accounts (cr_owner c) = locked_sum records
  /\ cr_owner c ∉ sink_exclusions request /\ cr_owner c ∉ map lock_owner records.

Record faithful_snapshot (request : SnapshotRequest) (supply : MintSupply)
    (accounts : list TokenAccountSnapshot) (records : list TokenLockRecord) (sn : LpSnapshot) : Prop := {
  fs_complete : enumerated_sum accounts = ms_amount supply;
  fs_canonical : canonical (entries sn);
  fs_balance o : balance_of (entries sn) o =
    (if decide (o ∈ sink_exclusions request \/ custody_owner sn = Some o) then 0 else held accounts o)
    + locked_for records o;
  fs_closing : sum_Z (map lp_balance (entries sn)) + sum_Z (map ex_lp_balance (exclusions sn))
    = ms_amount supply;
  fs_u64 : Forall (fun e => is_u64 (lp_balance e)) (entries sn)
    /\ is_u64 (sum_Z (map lp_balance (entries sn))) /\ is_u64 (sum_Z (map ex_lp_balance (exclusions sn)));
  fs_reconciliation : reconciliation sn =
    mkReconciliation (ms_amount supply) (sum_Z (map lp_balance (entries sn)))
      (sum_Z (map ex_lp_balance (exclusions sn)));
  fs_custody : match custody (locked sn) with
    | None => locked_sum records = 0
    | Some c => custody_of request accounts records c
    end;
  fs_locked : total_locked (locked sn) = locked_sum records
    /\ forall o, balance_of (attributions (locked sn)) o = locked_for records o;
  fs_source : sn_pool_address sn = rq_pool_address request /\ sn_lp_mint sn = rq_lp_mint request
    /\ sn_amm_program_id sn = rq_amm_program_id request
    /\ snapshot_slot sn = ms_slot supply /\ sn_lp_total_supply sn = ms_amount supply;
}.

Lemma excluded_sum sinks l :
  sum_Z (map ex_lp_balance (omap (excluded sinks) l)) = sink_sum sinks l.
Proof.
  induction l as [|[k v] l IH]; [done|]. rewrite sink_sum_cons. cbn [omap list_omap].
  unfold excluded at 1. simpl. destruct (v =? 0) eqn:Hv; bool_simpl; simpl.
  - subst v. rewrite IH. by destruct (decide _).
  - destruct (decide (k ∈ sinks)); [rewrite bool_decide_eq_true_2 by done|rewrite bool_decide_eq_false_2 by done];
      simpl; lia.
Qed.

Lemma owners_default accounts o : default 0 (owners_of accounts !! o) = held accounts o.
Proof. unfold owners_of. rewrite tally_default, lookup_empty. done. Qed.

Lemma attributed_default records o : default 0 (attributed records !! o) = locked_for records o.
Proof. unfold attributed. rewrite tally_default, lookup_empty. done. Qed.

Lemma attributed_None records o : attributed records !! o = None <-> o ∉ map lock_owner records.
Proof.
  unfold attributed. rewrite tally_lookup, lookup_empty. unfold lock_pairs. rewrite map_map. simpl.
  destruct (decide _) as [|]; [split; [done|]|]; naive_solver.
Qed.

Lemma kept_default sinks accounts o :
  default 0 (keep_map sinks (owners_of accounts) !! o) = if decide (o ∈ sinks) then 0 else held accounts o.
Proof.
  rewrite <- owners_default. destruct (keep_map sinks (owners_of accounts) !! o) as [v|] eqn:Hk; simpl.
  - apply keep_map_lookup in Hk as (-> & _ & Hn). by rewrite decide_False.
  - destruct (decide (o ∈ sinks)) as [|Hn]; [done|].
    destruct (owners_of accounts !! o) as [v|] eqn:Ho; [|done]. simpl.
    destruct (decide (v = 0)) as [|Hv]; [done|].
    assert (keep_map sinks (owners_of accounts) !! o = Some v) by (by apply keep_map_lookup). congruence.
Qed.

Lemma in_sinks request o : o ∈ sinks_of request <-> o ∈ sink_exclusions request.
Proof. unfold sinks_of. by rewrite elem_of_list_to_set. Qed.

(** The resolution's custody account, with the closing identity: the owner of
    the account held the locked total and nothing else. *)
Lemma resolved_custody_of request supply accounts records c unlocked :
  wf_served supply accounts records ->
  build_result request supply accounts records (Some c) unlocked ->
  custody_of request accounts records c
  /\ unlocked = delete (cr_owner c) (keep_map (sinks_of request) (owners_of accounts)).
Proof.
  intros Hwf [Hsum Hres Hclose _].
  destruct Hres as [(_ & ? & _)|(H0 & _ & a & v & meth & Ha & Hn & Hv & [= ->] & -> & _)]; [done|].
  apply custody_choice_in in Ha as [Hin Hamt]. cbn. split; [|done].
  pose proof (msum_delete _ _ _ Hv) as Hdel. pose proof (msum_keep_map (sinks_of request) (owners_of accounts)) as Hk.
  rewrite msum_owners, Hsum in Hk.
  apply keep_map_lookup in Hv as (Hv & _ & Hns). rewrite in_sinks in Hns.
  split_and!; [done|done|by exists a| |done|by apply attributed_None].
  rewrite <- owners_default. cbn. rewrite Hv. simpl. lia.
Qed.

Lemma build_faithful `{LpAccountSource, LockedLpEvidence} request supply accounts records sn :
  serves request supply accounts records -> wf_served supply accounts records ->
  build request = Ok sn -> faithful_snapshot request supply accounts records sn.
Proof.
  intros Hs Hwf Hb. destruct (build_inv _ _ _ _ Hs Hwf _ Hb) as (c & unlocked & Hr & ->).
  destruct Hr as [Hsum Hres Hclose Hcan] eqn:Heq. clear Heq.
  constructor; cbn [entries exclusions reconciliation locked custody snapshot_with total_locked attributions].
  - done.
  - done.
  - intros o. rewrite balance_of_holder_entries, tally_default, sum_for_iter, attributed_default.
    f_equal. unfold custody_owner. cbn. destruct c as [c|]; cbn.
    + apply resolved_custody_of in Hr as [_ ->]; [|done]. destruct (decide (cr_owner c = o)) as [<-|Hne].
      * rewrite lookup_delete_eq, decide_True by auto. done.
      * rewrite lookup_delete_ne, kept_default by done.
        destruct (decide (o ∈ sinks_of request)) as [Hin|Hn]; rewrite in_sinks in *.
        -- by rewrite decide_True by auto.
        -- rewrite decide_False; [done|]. intros [?|[= ?]]; done.
    + destruct Hres as [(_ & _ & ->)|(_ & _ & ? & ? & ? & _ & _ & _ & ? & _)]; [|done].
      rewrite kept_default. destruct (decide (o ∈ sinks_of request)) as [Hin|Hn]; rewrite in_sinks in *.
      * by rewrite decide_True by auto.
      * rewrite decide_False; [done|]. intros [?|?]; done.
  - rewrite holder_entries_sum, excluded_sum, merged_total. done.
  - rewrite holder_entries_sum, excluded_sum, merged_total.
    pose proof (resolved_nonneg _ _ _ Hwf _ _ _ _ _ Hres) as Hn. pose proof (msum_nonneg _ Hn).
    pose proof (locked_nonneg _ _ _ Hwf). pose proof (sinks_nonneg _ _ _ Hwf (sinks_of request)).
    assert (Hu : is_u64 (ms_amount supply)) by apply Hwf.
    split; [|unfold is_u in *; lia]. apply Forall_forall. intros e He%elem_of_holder_entries.
    assert (Hm : values_nonneg (tally unlocked (btree_iter (attributed records)))).
    { apply tally_nonneg; [done|]. by eapply pairs_nonneg_iter, attributed_nonneg. }
    pose proof (msum_lookup _ _ _ Hm He) as Hle. rewrite merged_total in Hle.
    specialize (Hm _ _ He). simpl in Hm. unfold is_u in *. lia.
  - by rewrite holder_entries_sum, excluded_sum.
  - destruct c as [c|]; [by apply resolved_custody_of in Hr as [? _]|].
    by destruct Hres as [(? & _)|(_ & _ & ? & ? & ? & _ & _ & _ & ? & _)].
  - split; [done|]. intros o. by rewrite balance_of_holder_entries, attributed_default.
  - done.
Qed.

(** ** The theorems *)

(** C13. Correctness of the snapshot: if [build] returns a snapshot for the
    accounts and lock records its sources serve, then the enumeration was
    complete (balances sum to the mint supply); the leaf set is canonical
    (non-empty, ascending unique owners, no zero); every owner's leaf carries
    exactly its unlocked balance plus the LP locked for it, except that declared
    sinks and the custody owner lose their unlocked balance; leaves and ledger
    add up to the supply, and the reconciliation says so; the custody account
    holds exactly the locked total, its owner holds nothing else, is no sink
    and no lock's beneficiary. *)
Theorem build_sound `{LpAccountSource, LockedLpEvidence} request supply accounts records sn :
  serves request supply accounts records -> wf_served supply accounts records ->
  build request = Ok sn -> faithful_snapshot request supply accounts records sn.
Proof. apply build_faithful. Qed.

Lemma bind_ext {E A B} (m : result E A) (f g : A -> result E B) :
  (forall a, f a = g a) -> (m ≫= f) = (m ≫= g).
Proof. intros Hfg. destruct m; simpl; auto. Qed.

Section Determinism.
Context (LS1 LS2 : LpAccountSource) (LL1 LL2 : LockedLpEvidence).
Context (request : SnapshotRequest) (supply : MintSupply).

(** C30. Determinism: two sources that serve the same supply and the same
    accounts and lock records, each in any order, give the same result: the
    same snapshot, field by field, or the same error. *)
Theorem build_deterministic accounts accounts' records records' :
  @serves LS1 LL1 request supply accounts records ->
  @serves LS2 LL2 request supply accounts' records' ->
  wf_served supply accounts records -> accounts ≡ₚ accounts' -> records ≡ₚ records' ->
  @build LS1 LL1 request = @build LS2 LL2 request.
Proof.
  intros (Ha1 & Ha2 & Ha3) (Hb1 & Hb2 & Hb3) Hwf Hpa Hpr.
  assert (Hwf' : wf_served supply accounts' records').
  { destruct Hwf as (Hu & Hx & Hy). split_and!; [done|unfold wf_accounts; by rewrite <- Hpa|].
    unfold wf_records. by rewrite <- Hpr. }
  unfold build. rewrite Ha1, Hb1. cbn [mbind result_bind]. rewrite Ha2, Hb2. cbn [mbind result_bind].
  rewrite (enumerated_total_eq _ _ _ Hwf), (enumerated_total_eq _ _ _ Hwf').
  unfold enumerated_sum. rewrite (fmap_Permutation tas_amount _ _ Hpa : map _ _ ≡ₚ map _ _).
  rewrite !per_owner_eq, (accumulate_perm ∅ (account_pairs accounts) (account_pairs accounts'));
    [|apply map_Forall_empty|by apply account_pairs_nonneg, Hwf|by apply fmap_Permutation].
  rewrite Ha3, Hb3. cbn [mbind result_bind].
  rewrite (aggregate_sorted_eq _ _ _ Hwf), (aggregate_sorted_eq _ _ _ Hwf').
  assert (Hl : locked_sum records = locked_sum records').
  { apply sum_Z_perm. by apply fmap_Permutation. }
  rewrite Hl, (accumulate_perm ∅ (lock_pairs records) (lock_pairs records'));
    [|apply map_Forall_empty|by apply lock_pairs_nonneg, Hwf|by apply fmap_Permutation].
  assert (Hlen : len_Z (merge_sort address_le records) = len_Z (merge_sort address_le records')).
  { unfold len_Z. do 2 rewrite (Permutation_length (merge_sort_Permutation _ _)).
    by rewrite (Permutation_length Hpr). }
  rewrite Hlen. do 4 (apply bind_ext; intros ?). apply bind_ext. intros [t m].
  by rewrite (resolve_custody_perm _ accounts accounts').
Qed.
End Determinism.

(** Somebody holds something exactly when the sum is not zero. *)
Lemma held_somewhere accounts :
  wf_accounts accounts -> enumerated_sum accounts <> 0 <-> exists o, held accounts o <> 0.
Proof.
  intros Hwf. pose proof (account_pairs_nonneg _ Hwf) as Hnn. unfold held, enumerated_sum.
  rewrite <- account_pairs_sum. split.
  - induction Hnn as [|p l Hp Hnn IH]; [done|]. intros Hs.
    destruct (decide (snd p = 0)) as [Hz|Hz].
    + destruct IH as [o Ho]; [unfold sum_Z in *; simpl in Hs; lia|]. exists o. rewrite sum_for_cons.
      pose proof (sum_for_nonneg o l Hnn). case_decide; lia.
    + exists (fst p). rewrite sum_for_cons, decide_True by done. pose proof (sum_for_nonneg (fst p) l Hnn). lia.
  - intros [o Ho]. pose proof (sum_for_le o _ Hnn). pose proof (sum_for_nonneg o _ Hnn). lia.
Qed.

(** Without lock records. *)
Lemma build_unlocked `{LpAccountSource, LockedLpEvidence} request supply accounts :
  serves request supply accounts [] -> wf_served supply accounts [] ->
  (exists sn, build request = Ok sn) <->
  enumerated_sum accounts = ms_amount supply
  /\ exists o, o ∉ sink_exclusions request /\ held accounts o <> 0.
Proof.
  intros Hs Hwf. set (cl := keep_map (sinks_of request) (owners_of accounts)).
  assert (Hatt : btree_iter (attributed []) = []) by reflexivity.
  split.
  - intros [sn Hb]. destruct (build_inv _ _ _ _ Hs Hwf _ Hb) as (c & unlocked & [Hsum Hres _ Hcan] & _).
    split; [done|]. destruct Hres as [(_ & _ & ->)|(? & _)]; [|done].
    rewrite Hatt in Hcan. apply canonical_holder_entries in Hcan as [Hne _].
    apply map_choose in Hne as (o & v & Ho). exists o.
    apply keep_map_lookup in Ho as (Ho & Hv & Hns). rewrite in_sinks in Hns.
    split; [done|]. by rewrite <- owners_default, Ho.
  - intros (Hsum & o & Ho & Hheld).
    eexists. apply (build_complete request supply accounts [] Hs Hwf None cl). constructor.
    + done.
    + by left.
    + pose proof (msum_keep_map (sinks_of request) (owners_of accounts)) as Hk.
      rewrite msum_owners in Hk. unfold cl. rewrite <- Hsum, <- Hk. cbn. lia.
    + rewrite Hatt. apply canonical_holder_entries. cbn. split.
      * intros He. apply Hheld. pose proof (kept_default (sinks_of request) accounts o) as Hk.
        fold cl in Hk. rewrite He, lookup_empty, decide_False in Hk; [done|]. by rewrite in_sinks.
      * intros k v Hk%keep_map_lookup. apply Hk.
Qed.

(** Completeness where nothing is locked: with no lock records, [build]
    succeeds exactly when the balances sum to the supply and some owner that is
    no declared sink holds LP; every failure on such data is one of those. *)
Theorem build_unlocked_iff `{LpAccountSource, LockedLpEvidence} request supply accounts :
  serves request supply accounts [] -> wf_served supply accounts [] ->
  (exists sn, build request = Ok sn) <->
  enumerated_sum accounts = ms_amount supply
  /\ exists o, o ∉ sink_exclusions request /\ held accounts o <> 0.
Proof. apply build_unlocked. Qed.

(** C40. A fully withdrawn lock blocks the snapshot: if every lock record of the
    pool is down to zero, as Criterion 5 of the scanner demands of the pools it
    certifies, and the owner of one of them holds no other LP, then [build]
    never returns a snapshot: the zero attribution becomes a zero leaf, which
    the closing validation refuses as a broken invariant. *)
Theorem emptied_lock_blocks_snapshot `{LpAccountSource, LockedLpEvidence}
    request supply accounts records r sn :
  serves request supply accounts records -> wf_served supply accounts records ->
  locked_sum records = 0 -> r ∈ records -> held accounts (lock_owner r) = 0 ->
  build request <> Ok sn.
Proof.
  intros Hs Hwf Hz Hr Hh Hb.
  destruct (build_inv _ _ _ _ Hs Hwf _ Hb) as (c & unlocked & [Hsum Hres _ Hcan] & _).
  destruct Hres as [(_ & _ & ->)|(? & _)]; [|lia].
  apply canonical_holder_entries in Hcan as [_ Hpos].
  set (k := lock_owner r) in *. set (m := tally _ _) in Hpos.
  assert (Hk : m !! k = Some (default 0 (m !! k))).
  { unfold m. rewrite tally_lookup, decide_True; [done|]. apply btree_iter_keys, not_eq_None_Some.
    rewrite attributed_None. intros Hn. apply Hn. apply list_elem_of_In, in_map, list_elem_of_In, Hr. }
  apply (Hpos k _ Hk). unfold m. rewrite tally_default, kept_default, sum_for_iter, attributed_default.
  assert (locked_for records k = 0) as ->.
  { pose proof (lock_pairs_nonneg records (proj2 (proj2 Hwf))) as Hn.
    pose proof (sum_for_nonneg k _ Hn). pose proof (sum_for_le k _ Hn) as Hle.
    rewrite lock_pairs_sum in Hle. unfold locked_for, locked_sum in *. lia. }
  destruct (decide _); [done|]. by rewrite Hh.
Qed.
