(* ===== verification/Tree.v ===== *)
(** * Tree: the snapshot's Merkle tree

    [snapshotter/src/tree.rs]: the levels, the root and the proofs; and the
    bridge to the vault's verifier ([Merkle]). The [while] loop takes fuel;
    [tree_fuel] shows that one unit per leaf is enough. *)

From Stdlib Require Import Ascii String.
From S2P Require Import Prelude Bytes Solana Merkle Snapshot.

Module SnapshotMerkleTree.
Section Tree.
Context `{Sha256}.

(** [compute_leaf]: the 40-byte buffer. *)
Definition compute_leaf (holder : Pubkey) (lp_balance : Z) : list byte :=
  sha256 (holder ++ le_bytes 8 lp_balance).

(** [hash_pair]: [if a <= b { (a, b) } else { (b, a) }], 64 bytes. *)
Definition hash_pair (a b : list byte) : list byte :=
  let (lo, hi) := if bool_decide (bytes_le a b) then (a, b) else (b, a) in sha256 (lo ++ hi).

Record t := mkTree { levels : list (list (list byte)) }.

(** [for pair in current.chunks(2)]; the odd node is promoted. *)
Fixpoint next_level (current : list (list byte)) : list (list byte) :=
  match current with
  | a :: b :: rest => hash_pair a b :: next_level rest
  | [a] => [a]
  | [] => []
  end.

(** [while levels.last().is_some_and(|l| l.len() > 1)]: the levels from
    [current] on; [None] when the fuel runs out first. *)
Fixpoint grow (fuel : nat) (current : list (list byte)) : option (list (list (list byte))) :=
  match fuel with
  | O => None
  | S fuel =>
      if (1 <? length current)%nat
      then rest ← grow fuel (next_level current); Some (current :: rest)
      else Some [current]
  end.

Definition leaf_hashes (entries : list HolderEntry) : list (list byte) :=
  map (fun e => compute_leaf (owner e) (lp_balance e)) entries.

Definition from_entries (entries : list HolderEntry) : result SnapshotError t :=
  validate_entries entries;;
  match grow (S (length entries)) (leaf_hashes entries) with
  | Some levels => mret (mkTree levels)
  | None => Err (InvariantViolated "out of fuel")
  end.

Definition from_snapshot (snapshot : LpSnapshot) : result SnapshotError t :=
  from_entries (entries snapshot).

(** [None] is the [expect]'s panic. *)
Definition root (tr : t) : option (list byte) := last (levels tr) ≫= head.

Definition leaf_count (tr : t) : nat :=
  match levels tr with level :: _ => length level | [] => 0%nat end.

Definition tree_depth (tr : t) : nat := (length (levels tr) - 1)%nat.

Definition leaf (tr : t) (index : nat) : option (list byte) :=
  head (levels tr) ≫= fun level => level !! index.

(** The walk over every level but the last. [level[i]] out of range would
    panic; on a built tree it never is ([proof_walk_spec]). *)
Fixpoint proof_walk (levels : list (list (list byte))) (idx : nat) : list (list byte) :=
  match levels with
  | level :: (_ :: _) as rest =>
      (if (idx mod 2 =? 0)%nat
       then if (idx + 1 <? length level)%nat then [level !!! (idx + 1)%nat] else []
       else [level !!! (idx - 1)%nat])
      ++ proof_walk rest (idx / 2)
  | _ => []
  end.

Definition proof (tr : t) (index : nat) : option (list (list byte)) :=
  if (leaf_count tr <=? index)%nat then None else Some (proof_walk (levels tr) index).

(** [None] in the result would be the [expect]'s panic. *)
Definition proofs (tr : t) : list (option (list (list byte))) :=
  map (proof tr) (seq 0 (leaf_count tr)).
End Tree.
End SnapshotMerkleTree.

#[export] Instance SnapshotMerkleTree_eq_dec : EqDecision SnapshotMerkleTree.t.
Proof. solve_decision. Defined.

(** ** Producer and verifier hash the same bytes *)

Section TreeSpec.
Context `{Sha256}.
Import SnapshotMerkleTree.
Implicit Types (l : list (list byte)) (ts : list mtree).

Lemma tree_leaf_eq h b : SnapshotMerkleTree.compute_leaf h b = Merkle.compute_leaf h b.
Proof. reflexivity. Qed.

Lemma tree_pair_eq a b : SnapshotMerkleTree.hash_pair a b = Merkle.hash_pair a b.
Proof. unfold hash_pair, Merkle.hash_pair, pair_preimage. by case_bool_decide. Qed.

(** Induction two elements at a time: the chunks of a level. *)
Lemma chunks_ind {A} (P : list A -> Prop) :
  P [] -> (forall a, P [a]) -> (forall a b k, P k -> P (a :: b :: k)) -> forall k, P k.
Proof.
  intros H0 H1 H2. fix IH 1. intros [|a [|b k]]; [exact H0|apply H1|apply H2, IH].
Qed.

Lemma next_level_length l : length (next_level l) = ((length l + 1) / 2)%nat.
Proof.
  induction l as [|a|a b l IH] using chunks_ind; [done|done|]. cbn [next_level length]. rewrite IH.
  replace (S (S (length l)) + 1)%nat with ((length l + 1) + 1 * 2)%nat by lia.
  rewrite Nat.div_add by done. lia.
Qed.

Lemma next_level_shorter l : (1 < length l)%nat -> (0 < length (next_level l) < length l)%nat.
Proof.
  intros Hl. rewrite next_level_length. split.
  - apply Nat.div_str_pos. lia.
  - apply Nat.Div0.div_lt_upper_bound. lia.
Qed.

(** One unit of fuel per node of the level is enough. *)
Lemma tree_fuel fuel l : (0 < length l <= fuel)%nat -> is_Some (grow fuel l).
Proof.
  revert l. induction fuel as [|fuel IH]; intros l Hl; [lia|]. simpl.
  destruct (1 <? length l)%nat eqn:Hc; [|by eexists]. apply Nat.ltb_lt in Hc.
  pose proof (next_level_shorter l Hc). destruct (IH (next_level l)) as [ls ->]; [lia|]. by eexists.
Qed.

Lemma grow_nonempty fuel l ls : grow fuel l = Some ls -> exists rest, ls = l :: rest.
Proof.
  destruct fuel; simpl; [done|]. destruct (1 <? length l)%nat; [|intros [= <-]; eauto].
  intros (rest & _ & [= <-])%bind_Some. eauto.
Qed.

(** The trees whose roots are the nodes of a level. *)
Fixpoint next_trees ts : list mtree :=
  match ts with
  | a :: b :: rest => MNode a b :: next_trees rest
  | [a] => [a]
  | [] => []
  end.

Lemma next_trees_roots ts : map mroot (next_trees ts) = next_level (map mroot ts).
Proof.
  induction ts as [|a|a b ts IH] using chunks_ind; [done|done|]. cbn [next_trees map next_level mroot].
  by rewrite IH, tree_pair_eq.
Qed.

Lemma next_trees_leaves ts : concat (map mleaves (next_trees ts)) = concat (map mleaves ts).
Proof.
  induction ts as [|a|a b ts IH] using chunks_ind; [done|done|]. cbn [next_trees map mleaves].
  cbn [concat]. by rewrite IH, app_assoc.
Qed.

Fixpoint tree_of_level (fuel : nat) ts : option mtree :=
  match fuel with
  | O => None
  | S fuel => if (1 <? length ts)%nat then tree_of_level fuel (next_trees ts) else head ts
  end.

Lemma grow_tree fuel ts ls :
  grow fuel (map mroot ts) = Some ls -> ts <> [] ->
  exists mt, tree_of_level fuel ts = Some mt
    /\ mleaves mt = concat (map mleaves ts) /\ (last ls ≫= head) = Some (mroot mt).
Proof.
  revert ts ls. induction fuel as [|fuel IH]; intros ts ls; simpl; [done|].
  rewrite length_map. destruct (1 <? length ts)%nat eqn:Hc.
  - apply Nat.ltb_lt in Hc. intros (rest & Hr & [= <-])%bind_Some _. rewrite <- next_trees_roots in Hr.
    destruct (IH _ _ Hr) as (mt & Hmt & Hm & Hroot).
    { destruct ts as [|a [|b ts]]; simpl in *; [lia|lia|done]. }
    exists mt. rewrite Hm, next_trees_leaves. split_and!; [done|done|].
    apply grow_nonempty in Hr as [rest' ->]. done.
  - apply Nat.ltb_ge in Hc. intros [= <-] Hne. destruct ts as [|a [|b ts]]; simpl in *; [done| |lia].
    exists a. rewrite app_nil_r. done.
Qed.

(** ** Proofs *)

Lemma next_level_lookup l i :
  (i < length l)%nat ->
  next_level l !!! (i / 2)%nat =
  if (i mod 2 =? 0)%nat
  then if (i + 1 <? length l)%nat then Merkle.hash_pair (l !!! i) (l !!! (i + 1)%nat) else l !!! i
  else Merkle.hash_pair (l !!! (i - 1)%nat) (l !!! i).
Proof.
  revert i. induction l as [|a|a b l IH] using chunks_ind; intros i Hi; cbn [length] in Hi; [lia| |].
  { assert (i = 0%nat) as -> by lia. done. }
  cbn [next_level length]. rewrite tree_pair_eq. destruct i as [|[|i]]; [done|done|].
  replace (S (S i)) with (i + 1 * 2)%nat by lia. rewrite Nat.div_add, Nat.Div0.mod_add by done.
  replace (i / 2 + 1)%nat with (S (i / 2)) by lia. cbn [lookup_total list_lookup_total].
  rewrite IH by lia.
  replace (i + 1 * 2)%nat with (S (S i)) by lia. replace (S (S i) + 1)%nat with (S (S (i + 1))) by lia.
  destruct (i mod 2 =? 0)%nat eqn:He; [done|].
  destruct i as [|i]; [done|]. by replace (S (S (S i)) - 1)%nat with (S (S (S i - 1))) by lia.
Qed.

Context {HL : Sha256Laws}.

Lemma next_level_wf l : Forall wf_hash l -> Forall wf_hash (next_level l).
Proof.
  induction l as [|a|a b l IH] using chunks_ind; intros Hl; [done|done|].
  inversion_clear Hl as [|? ? _ Hl']. inversion_clear Hl'. constructor; [|by apply IH].
  rewrite tree_pair_eq. apply sha256_length.
Qed.

Lemma level_wf l i : Forall wf_hash l -> (i < length l)%nat -> wf_hash (l !!! i).
Proof.
  intros Hl Hi. destruct (lookup_lt_is_Some_2 l i Hi) as [x Hx].
  rewrite (list_lookup_total_correct _ _ _ Hx). by eapply Forall_lookup_1.
Qed.

(** The proof at [idx] folds from the node to the root, is made of hashes and
    has at most one element per level above the node. *)
Lemma proof_walk_spec fuel l ls idx r :
  grow fuel l = Some ls -> (last ls ≫= head) = Some r -> Forall wf_hash l -> (idx < length l)%nat ->
  foldl Merkle.hash_pair (l !!! idx) (proof_walk ls idx) = r
  /\ Forall wf_hash (proof_walk ls idx) /\ (length (proof_walk ls idx) <= length ls - 1)%nat.
Proof.
  revert l ls idx. induction fuel as [|fuel IH]; intros l ls idx; simpl; [done|].
  destruct (1 <? length l)%nat eqn:Hc.
  - apply Nat.ltb_lt in Hc. intros (rest & Hr & [= <-])%bind_Some Hroot Hl Hi.
    pose proof (grow_nonempty _ _ _ Hr) as [rest' Hrest].
    assert (Hroot' : (last rest ≫= head) = Some r) by (by rewrite Hrest in *).
    assert (Hi' : (idx / 2 < length (next_level l))%nat).
    { rewrite next_level_length. apply Nat.Div0.div_lt_upper_bound.
      pose proof (Nat.div_mod (length l + 1) 2). pose proof (Nat.mod_upper_bound (length l + 1) 2). lia. }
    destruct (IH _ _ (idx / 2)%nat Hr Hroot' (next_level_wf _ Hl) Hi') as (Hf & Hw & Hlen).
    rewrite next_level_lookup in Hf by done. rewrite Hrest in *. cbn [proof_walk length] in *.
    rewrite foldl_app, Forall_app, length_app.
    destruct (idx mod 2 =? 0)%nat eqn:He.
    + destruct (idx + 1 <? length l)%nat eqn:Hs; simpl in *.
      * apply Nat.ltb_lt in Hs. split_and!; [done|constructor; [by apply level_wf|done]|done|lia].
      * split_and!; [done|done|done|lia].
    + simpl in *. rewrite hash_pair_comm. split_and!; [done| |done|lia].
      constructor; [apply level_wf; [done|lia]|done].
  - apply Nat.ltb_ge in Hc. intros [= <-] Hroot Hl Hi. destruct l as [|a [|b l]]; simpl in *; [lia| |lia].
    injection Hroot as <-. assert (idx = 0%nat) as -> by lia. split_and!; [done|constructor|lia].
Qed.

(** Depth: the number of halvings. *)
Lemma grow_depth fuel l ls :
  grow fuel l = Some ls -> (0 < length l)%nat -> (length ls - 1)%nat = Nat.log2_up (length l).
Proof.
  revert l ls. induction fuel as [|fuel IH]; intros l ls; simpl; [done|].
  destruct (1 <? length l)%nat eqn:Hc.
  - apply Nat.ltb_lt in Hc. intros (rest & Hr & [= <-])%bind_Some _.
    pose proof (next_level_shorter l Hc) as Hn. specialize (IH _ _ Hr ltac:(lia)).
    pose proof (grow_nonempty _ _ _ Hr) as [rest' ->]. cbn [length] in *.
    symmetry. apply Nat.log2_up_unique; [lia|]. rewrite next_level_length in *.
    pose proof (Nat.div_mod (length l + 1) 2). pose proof (Nat.mod_upper_bound (length l + 1) 2).
    set (h := ((length l + 1) / 2)%nat) in *.
    replace (Nat.pred (S (S (length rest')) - 1)) with (length rest') by lia.
    replace (S (S (length rest')) - 1)%nat with (S (length rest')) by lia.
    replace (length rest') with (Nat.log2_up h) by lia. rewrite Nat.pow_succ_r'.
    destruct (decide (h = 1%nat)) as [->|Hh]; [simpl; lia|].
    pose proof (Nat.log2_up_spec h ltac:(lia)) as [Hlo Hhi].
    assert (Nat.log2_up h = S (Nat.pred (Nat.log2_up h))) as Hs.
    { pose proof (Nat.log2_up_pos h). lia. }
    rewrite Hs, Nat.pow_succ_r' in *. simpl Nat.pred in *. lia.
  - apply Nat.ltb_ge in Hc. intros [= <-] Hl. assert (length l = 1%nat) as -> by lia. done.
Qed.
End TreeSpec.

(** ** The built tree *)

Section Built.
Context `{Sha256}.
Import SnapshotMerkleTree.

Definition entry_pair (e : HolderEntry) : Pubkey * Z := (owner e, lp_balance e).
Definition leaf_trees (es : list HolderEntry) : list mtree :=
  map (fun e => MLeaf (owner e) (lp_balance e)) es.

Lemma leaf_trees_roots es : map mroot (leaf_trees es) = leaf_hashes es.
Proof. unfold leaf_trees, leaf_hashes. by rewrite map_map. Qed.

Lemma leaf_trees_leaves es : concat (map mleaves (leaf_trees es)) = map entry_pair es.
Proof. unfold leaf_trees. rewrite map_map. induction es as [|e es IH]; simpl; [done|by f_equal]. Qed.

Lemma from_entries_Ok es tr :
  from_entries es = Ok tr <->
  canonical es /\ grow (S (length es)) (leaf_hashes es) = Some (levels tr).
Proof.
  unfold from_entries. rewrite bind_Ok. setoid_rewrite <- (validate_entries_spec es). split.
  - intros ([] & Hv & Hg). split; [done|].
    destruct (grow _ _) as [ls|] eqn:Hgr; [|done]. by injection Hg as <-.
  - intros [Hv ->]. exists tt. split; [done|]. by destruct tr.
Qed.

(** [from_entries] refuses exactly the leaf sets that are not canonical. *)
Lemma from_entries_canonical es : is_ok (from_entries es) = true <-> canonical es.
Proof.
  rewrite is_ok_true. setoid_rewrite from_entries_Ok. split; [by intros (? & ? & _)|].
  intros Hc. destruct (tree_fuel (S (length es)) (leaf_hashes es)) as [ls Hls].
  { unfold leaf_hashes. rewrite length_map. destruct Hc as [Hne _ _]. destruct es; [done|simpl; lia]. }
  by exists (mkTree ls).
Qed.

Lemma leaf_hashes_length es : length (leaf_hashes es) = length es.
Proof. unfold leaf_hashes. by rewrite length_map. Qed.

Lemma leaf_hashes_lookup es i e :
  es !! i = Some e -> leaf_hashes es !! i = Some (Merkle.compute_leaf (owner e) (lp_balance e)).
Proof. intros He. unfold leaf_hashes. by rewrite (list_lookup_fmap _ es i : map _ es !! i = _), He. Qed.

Context {HL : Sha256Laws}.

Lemma leaf_hashes_wf es : Forall wf_hash (leaf_hashes es).
Proof. apply Forall_map, Forall_true. intros e. apply sha256_length. Qed.

(** The abstract tree of a leaf set. *)
Definition merkle_tree_of (es : list HolderEntry) : option mtree :=
  tree_of_level (S (length es)) (leaf_trees es).

(** A tree built over [es]: what the vault's verifier makes of it. *)
Record seals (es : list HolderEntry) (tr : t) (r : list byte) : Prop := {
  sl_root : root tr = Some r;
  sl_tree : exists mt, merkle_tree_of es = Some mt /\ mleaves mt = map entry_pair es /\ mroot mt = r;
  sl_count : leaf_count tr = length es;
  sl_depth : tree_depth tr = Nat.log2_up (length es);
  sl_leaf i e : es !! i = Some e -> leaf tr i = Some (Merkle.compute_leaf (owner e) (lp_balance e));
  sl_proof i e : es !! i = Some e -> exists p, proof tr i = Some p /\ Forall wf_hash p
    /\ (length p <= tree_depth tr)%nat
    /\ verify_proof r (Merkle.compute_leaf (owner e) (lp_balance e)) p = true;
  sl_outside i : (length es <= i)%nat -> leaf tr i = None /\ proof tr i = None;
}.

Lemma from_entries_seals es tr : from_entries es = Ok tr -> exists r, seals es tr r.
Proof.
  intros [Hc Hg]%from_entries_Ok. pose proof (grow_nonempty _ _ _ Hg) as [rest Hl].
  assert (Hne : (0 < length es)%nat) by (destruct Hc as [? _ _]; destruct es; [done|simpl; lia]).
  destruct (grow_tree (S (length es)) (leaf_trees es) (levels tr)) as (mt & Hmt & Hm & Hr).
  { by rewrite leaf_trees_roots. }
  { destruct es; [simpl in Hne; lia|done]. }
  rewrite leaf_trees_leaves in Hm. exists (mroot mt).
  assert (Hcount : leaf_count tr = length es) by (unfold leaf_count; by rewrite Hl, leaf_hashes_length).
  constructor.
  - done.
  - eauto.
  - done.
  - unfold tree_depth. rewrite (grow_depth _ _ _ Hg); rewrite leaf_hashes_length; done.
  - intros i e He. unfold leaf. rewrite Hl. simpl. by apply leaf_hashes_lookup.
  - intros i e He. pose proof (lookup_lt_Some _ _ _ He) as Hi. unfold proof.
    rewrite Hcount, (proj2 (Nat.leb_gt _ _) Hi).
    destruct (proof_walk_spec _ _ _ i _ Hg Hr (leaf_hashes_wf es)) as (Hf & Hw & Hlen).
    { by rewrite leaf_hashes_length. }
    eexists. split_and!; [done|done|done|]. apply bool_decide_eq_true.
    by rewrite (list_lookup_total_correct _ _ _ (leaf_hashes_lookup _ _ _ He)) in Hf.
  - intros i Hi. split.
    + unfold leaf. rewrite Hl. simpl. apply lookup_ge_None. by rewrite leaf_hashes_length.
    + unfold proof. by rewrite Hcount, (proj2 (Nat.leb_le _ _) Hi).
Qed.

(** C29. The tree over a leaf set, against the vault's verifier: when
    [from_entries] returns a tree it has a root, that root is the Merkle root of
    exactly these entries, the depth is the rounded-up binary logarithm of their
    number, and the proof generated at each index is accepted by
    [grave_vault::merkle::verify_proof] for that entry, has 32-byte elements
    and is no longer than the tree is deep; no proof exists beyond the last
    index. A tree is returned exactly for the canonical leaf sets: the [while]
    loop terminates. *)
Theorem tree_proofs_verify es :
  (is_ok (from_entries es) = true <-> canonical es)
  /\ forall tr, from_entries es = Ok tr -> exists r, seals es tr r.
Proof. split; [apply from_entries_canonical|apply from_entries_seals]. Qed.
End Built.

Section TreeExample.
#[local] Existing Instance toy_sha256.
#[local] Existing Instance toy_sha256_laws.
Import SnapshotMerkleTree.

Definition three_entries : list HolderEntry :=
  [mkHolderEntry (key_of x10) 1000; mkHolderEntry (key_of x20) 2000; mkHolderEntry (key_of x30) 3000].

(** The repository's own three-leaf shape: the promoted leaf has one sibling. *)
Example promoted_leaf_shape :
  match from_entries three_entries with
  | Ok tr => map (fun p => length <$> p) (proofs tr) = [Some 2; Some 2; Some 1]%nat /\ tree_depth tr = 2%nat
  | Err _ => False
  end.
Proof. vm_compute. done. Qed.

Definition three_tree : t := Eval vm_compute in
  match from_entries three_entries with Ok tr => tr | Err _ => mkTree [] end.

Lemma tree_proofs_verify_witness : exists r, seals three_entries three_tree r.
Proof. apply (proj2 (tree_proofs_verify three_entries)). vm_compute. reflexivity. Defined.
End TreeExample.
