(* ===== verification/MerkleTests.v ===== *)
(** * MerkleTests: the tests of the verifier and of the producer

    [programs/grave-vault/src/merkle.rs] and [snapshotter/src/tree.rs], run on
    SHA-256 itself (Sha.v). The proptests whose property rests on the hash
    being collision-free cannot be proved of a function: their bodies are
    definitions of the drawn inputs and are run on some. *)

From S2P Require Import Prelude TestKit Bytes Solana Merkle Sha Snapshot Tree.

Import SnapshotMerkleTree (t, from_entries, root, leaf, leaf_count, tree_depth, proof, proofs).

Section Tests.
Context `{Sha256}.

(** ** [merkle.rs], [mod tests] *)

Definition alice : Pubkey := key_of x01.
Definition bob : Pubkey := key_of x02.
Definition carol : Pubkey := key_of x03.
Definition dave : Pubkey := key_of x04.

Definition sorted_pair_hash (a b : list byte) : list byte :=
  let (lo, hi) := if bool_decide (bytes_le a b) then (a, b) else (b, a) in sha256 (lo ++ hi).

Definition leaf_is_deterministic : bool := same (compute_leaf alice 100) (compute_leaf alice 100).
Definition leaf_differs_when_balance_differs : bool :=
  negb (same (compute_leaf alice 100) (compute_leaf alice 101)).
Definition leaf_differs_when_pubkey_differs : bool :=
  negb (same (compute_leaf alice 100) (compute_leaf bob 100)).

Definition verify_two_leaf_tree : bool :=
  let la := compute_leaf alice 100 in
  let lb := compute_leaf bob 200 in
  let lc := compute_leaf carol 50 in
  let root := sorted_pair_hash la lb in
  verify_proof root la [lb] && verify_proof root lb [la]
  && negb (verify_proof root lc [lb]) && negb (verify_proof root la [lc]).

Definition verify_four_leaf_tree : bool :=
  let la := compute_leaf alice 100 in
  let lb := compute_leaf bob 200 in
  let lc := compute_leaf carol 300 in
  let ld := compute_leaf dave 400 in
  let n01 := sorted_pair_hash la lb in
  let n23 := sorted_pair_hash lc ld in
  let root := sorted_pair_hash n01 n23 in
  verify_proof root la [lb; n23] && verify_proof root lb [la; n23]
  && verify_proof root lc [ld; n01] && verify_proof root ld [lc; n01]
  && negb (verify_proof root la [n23; lb])
  && negb (verify_proof root (compute_leaf alice 999) [lb; n23])
  && negb (verify_proof root la []).

Definition empty_proof_verifies_leaf_as_root : bool :=
  let la := compute_leaf alice 100 in
  verify_proof la la [] && negb (verify_proof la (compute_leaf bob 200) []).

Definition sorted_pair_order_invariant : bool :=
  let la := compute_leaf alice 100 in
  let lb := compute_leaf bob 200 in
  let root := sorted_pair_hash la lb in
  verify_proof root la [lb] && verify_proof root lb [la].

(** ** [merkle.rs], [mod proptests] *)

(** The 24 bytes of the seed's two encodings: its own, a mixed one, its own
    twice. *)
Definition seed_pubkey (seed : Z) : Pubkey :=
  le_bytes 8 seed ++ le_bytes 8 (seed * 0x9E3779B97F4A7C15) ++ le_bytes 8 seed ++ le_bytes 8 seed.

(** What [holder_set_strategy] draws. *)
Record holder_set (entries : list HolderEntry) : Prop := {
  hs_canonical : canonical entries;
  hs_size : (length entries <= 48)%nat;
  hs_balances : Forall (fun e => 1 <= lp_balance e <= u_max 64 / 2) entries;
}.

Definition leaf_of (e : HolderEntry) : list byte := compute_leaf (owner e) (lp_balance e).

(** Producer leaves and verifier leaves agree, and every proof is accepted. *)
Definition honest_proofs_always_verify : Prop := forall entries, holder_set entries ->
  exists tree r, from_entries entries = Ok tree /\ root tree = Some r
  /\ forall i e, entries !! i = Some e -> leaf tree i = Some (leaf_of e)
     /\ exists p, proof tree i = Some p /\ verify_proof r (leaf_of e) p = true.

Definition proof_lengths_bounded_by_tree_depth : Prop := forall entries, holder_set entries ->
  exists tree, from_entries entries = Ok tree
  /\ Forall (fun o => exists p, o = Some p /\ (length p <= tree_depth tree)%nat) (proofs tree).

(** [bytes[byte_idx] ^= 1 << bit_idx] *)
Definition flip (byte_idx : nat) (bit_idx : Z) (bytes : list byte) : list byte :=
  alter (fun b => Z_byte (Z.lxor (byte_Z b) (Z.shiftl 1 bit_idx))) byte_idx bytes.

Definition any_single_bit_flip_invalidates (entries : list HolderEntry) (flip_target : Z) (byte_idx : nat)
    (bit_idx : Z) : bool :=
  match from_entries entries, entries with
  | Ok tree, e :: _ =>
      match root tree, proof tree 0 with
      | Some root, Some proof =>
          let flip := flip byte_idx bit_idx in
          if flip_target =? 0 then negb (verify_proof (flip root) (leaf_of e) proof)
          else if flip_target =? 1 then negb (verify_proof root (flip (leaf_of e)) proof)
          else match proof with
               | [] => true
               | p :: rest => negb (verify_proof root (leaf_of e) (flip p :: rest))
               end
      | _, _ => false
      end
  | _, _ => false
  end.

Definition foreign_leaf_never_verifies_with_anothers_proof (entries : list HolderEntry) : bool :=
  match from_entries entries with
  | Ok tree =>
      forallb (fun i => forallb (fun j =>
        bool_decide (i = j) ||
        match root tree, proof tree i, entries !! j with
        | Some root, Some proof_i, Some entry_j => negb (verify_proof root (leaf_of entry_j) proof_i)
        | _, _, _ => false
        end) (seq 0 (length entries))) (seq 0 (length entries))
  | Err _ => false
  end.

Definition single_leaf_tree_empty_proof (seed balance : Z) : bool :=
  let owner := seed_pubkey seed in
  let leaf := compute_leaf owner balance in
  verify_proof leaf leaf [] && negb (verify_proof leaf (compute_leaf owner (cast_u 64 (balance + 1))) []).

(** ** [tree.rs], [mod tests] *)

Definition entry (owner : byte) (balance : Z) : HolderEntry := mkHolderEntry (key_of owner) balance.
Definition tree_of (balances : list (byte * Z)) : result SnapshotError t :=
  from_entries (map (fun p => entry (fst p) (snd p)) balances).
Definition on_tree (r : result SnapshotError t) (f : t -> bool) : bool :=
  match r with Ok tree => f tree | Err _ => false end.

(** [(1..=n).map(|i| (i * 8, 1_000 + i))] *)
Definition balances_upto (n : nat) : list (byte * Z) :=
  map (fun i => (Z_byte (Z.of_nat i * 8), 1000 + Z.of_nat i)) (seq 1 n).

Definition leaf_preimage_is_40_bytes_sha256 : bool :=
  let balance := 0x0102030405060708 in
  let leaf := SnapshotMerkleTree.compute_leaf (key_of x01) balance in
  let preimage := key_of x01 ++ le_bytes 8 balance in
  let be := key_of x01 ++ rev (le_bytes 8 balance) in
  same (length preimage) 40%nat && same leaf (sha256 preimage) && negb (same leaf (sha256 be)).

Definition single_leaf_tree_root_is_the_leaf : bool :=
  on_tree (tree_of [(x10, 5000)]) (fun tree =>
    same (root tree) (Some (compute_leaf (key_of x10) 5000)) && same (leaf_count tree) 1%nat
    && same (tree_depth tree) 0%nat && same (proof tree 0) (Some []) && same (proof tree 1) None).

Definition two_leaf_tree_root_is_the_sorted_pair_hash : bool :=
  let la := compute_leaf (key_of x10) 5000 in
  let lb := compute_leaf (key_of x20) 7000 in
  on_tree (tree_of [(x10, 5000); (x20, 7000)]) (fun tree =>
    same (root tree) (Some (SnapshotMerkleTree.hash_pair la lb)) && same (tree_depth tree) 1%nat
    && same (proof tree 0) (Some [lb]) && same (proof tree 1) (Some [la])).

Definition promoted_leaf_has_a_shorter_proof : bool :=
  let l0 := compute_leaf (key_of x10) 1000 in
  let l1 := compute_leaf (key_of x20) 2000 in
  let l2 := compute_leaf (key_of x30) 3000 in
  let p01 := SnapshotMerkleTree.hash_pair l0 l1 in
  on_tree (tree_of [(x10, 1000); (x20, 2000); (x30, 3000)]) (fun tree =>
    same (tree_depth tree) 2%nat && same (proof tree 0) (Some [l1; l2]) && same (proof tree 1) (Some [l0; l2])
    && same (proof tree 2) (Some [p01]) && same (root tree) (Some (SnapshotMerkleTree.hash_pair p01 l2))).

Definition proof_lengths_never_exceed_depth : bool :=
  forallb (fun n => on_tree (tree_of (balances_upto n)) (fun tree =>
    forallb (fun i => match proof tree i with
      | Some proof => (length proof <=? tree_depth tree)%nat
          && (negb (bool_decide (proof = [])) || bool_decide (tree_depth tree = 0%nat))
      | None => false
      end) (seq 0 n))) (seq 1 17).

Definition depth_is_the_level_count_above_the_leaves : bool :=
  forallb (fun c => on_tree (tree_of (balances_upto (fst c))) (fun tree =>
    same (tree_depth tree) (snd c) && same (leaf_count tree) (fst c)))
    [(1, 0); (2, 1); (3, 2); (4, 2); (5, 3); (7, 3); (8, 3); (9, 4); (16, 4); (17, 5)]%nat.

Definition invariant_violated (r : result SnapshotError t) : bool :=
  match r with Err (InvariantViolated _) => true | _ => false end.
Definition empty_snapshot {A} (r : result SnapshotError A) : bool :=
  match r with Err EmptySnapshot => true | _ => false end.

Definition canonical_ordering_is_enforced_fail_closed : bool :=
  invariant_violated (tree_of [(x20, 1000); (x10, 2000)])
  && invariant_violated (tree_of [(x10, 1000); (x10, 2000)])
  && invariant_violated (tree_of [(x10, 0); (x20, 2000)])
  && empty_snapshot (from_entries []).

Definition root_is_a_pure_function_of_the_canonical_set : bool :=
  let balances := [(x10, 1000); (x20, 2000); (x30, 3000); (x40, 4000)] in
  on_tree (tree_of balances) (fun a => on_tree (tree_of balances) (fun b =>
    same a b && same (proofs a) (proofs b))).

End Tests.

(** ** The suites pass *)

#[local] Existing Instance fips_sha256.

Lemma merkle_tests_pass : all_pass [
  leaf_is_deterministic; leaf_differs_when_balance_differs; leaf_differs_when_pubkey_differs;
  verify_two_leaf_tree; verify_four_leaf_tree; empty_proof_verifies_leaf_as_root;
  sorted_pair_order_invariant] = true.
Proof. run_suite. Qed.

Lemma tree_tests_pass : all_pass [
  leaf_preimage_is_40_bytes_sha256; single_leaf_tree_root_is_the_leaf;
  two_leaf_tree_root_is_the_sorted_pair_hash; promoted_leaf_has_a_shorter_proof;
  canonical_ordering_is_enforced_fail_closed; root_is_a_pure_function_of_the_canonical_set] = true.
Proof. run_suite. Qed.

(** These two count nodes, which no hash changes: the short one runs them. *)
Lemma tree_shape_tests_pass :
  all_pass [proof_lengths_never_exceed_depth (H := toy_sha256);
            depth_is_the_level_count_above_the_leaves (H := toy_sha256)] = true.
Proof. run_suite. Qed.

(** Drawn inputs: one holder and three; the two ends of each flipped value. *)
Definition drawn_set (seeds : list Z) : list HolderEntry :=
  map (fun s => mkHolderEntry (seed_pubkey s) (s * 1000 + 7)) seeds.

Lemma drawn_proptests_pass :
  all_pass (map (fun c => any_single_bit_flip_invalidates c.1.1 c.1.2 c.2.1 c.2.2)
    (list_prod (list_prod [drawn_set [9]; drawn_set [1; 2; 3]] [0; 1; 2]) [(0%nat, 0); (31%nat, 7)])) = true
  /\ foreign_leaf_never_verifies_with_anothers_proof (drawn_set [1; 2; 3]) = true
  /\ all_pass [single_leaf_tree_empty_proof 0 1; single_leaf_tree_empty_proof (2 ^ 48 - 1) (u_max 64)] = true.
Proof. split_and!; run_suite. Qed.

(** ** The proptests that hold of every hash *)

Section EveryHash.
Context `{Sha256} {HL : Sha256Laws}.

Lemma holder_set_tree entries :
  holder_set entries -> exists tree r, from_entries entries = Ok tree /\ seals entries tree r.
Proof.
  intros [Hc _ _]. apply from_entries_canonical, is_ok_true in Hc as [tree Ht].
  destruct (from_entries_seals _ _ Ht) as [r Hr]. by exists tree, r.
Qed.

Lemma honest_proofs_always_verify_holds : honest_proofs_always_verify.
Proof.
  intros entries (tree & r & Ht & Hr)%holder_set_tree. exists tree, r.
  split; [exact Ht|]. split; [exact (sl_root _ _ _ Hr)|].
  intros i e He. split; [exact (sl_leaf _ _ _ Hr i e He)|].
  destruct (sl_proof _ _ _ Hr i e He) as (p & Hp & _ & _ & Hv). exists p. split; [exact Hp|exact Hv].
Qed.

Lemma proof_lengths_bounded_holds : proof_lengths_bounded_by_tree_depth.
Proof.
  intros entries (tree & r & Ht & Hr)%holder_set_tree. exists tree. split; [exact Ht|].
  unfold proofs. rewrite (sl_count _ _ _ Hr). apply Forall_map, Forall_seq. intros i Hi.
  destruct (lookup_lt_is_Some_2 entries i) as [e He]; [lia|].
  destruct (sl_proof _ _ _ Hr i e He) as (p & Hp & _ & Hl & _). exists p. split; [exact Hp|exact Hl].
Qed.
End EveryHash.
