(* ===== verification/Artifact.v ===== *)
(** * Artifact: the sealed, published snapshot

    [snapshotter/src/artifact.rs]: sealing, the lookup, the integrity check
    (with the build's overflow checks on) and the hex codec of the hashes. The
    JSON layer is Document.v. *)

From Stdlib Require Import Ascii String.
From S2P Require Import Prelude Bytes Solana Merkle Locker Snapshot Builder BuilderSpec Tree.

Definition ARTIFACT_FORMAT_VERSION : Z := 1.

Record ArtifactEntry := mkArtifactEntry {
  ae_owner : Pubkey;
  ae_lp_balance : Z;                  (* u64 *)
  ae_leaf : list byte;
  ae_proof : list (list byte);
}.

Record SnapshotArtifact := mkSnapshotArtifact {
  format_version : Z;                 (* u32 *)
  ar_pool_address : Pubkey;
  ar_amm_program_id : Pubkey;
  ar_lp_mint : Pubkey;
  ar_snapshot_slot : Z;
  ar_lp_total_supply : Z;             (* u64 *)
  merkle_root : list byte;
  ar_leaf_count : nat;
  ar_tree_depth : nat;
  ar_entries : list ArtifactEntry;
  ar_reconciliation : Reconciliation;
}.

(** An error of the crate, or a panic: an [expect] that fails, or an addition
    that overflows under [overflow-checks = true]. *)
Inductive failure := Refused (e : SnapshotError) | Panicked.

Definition mismatch {A} (reason : string) : result failure A := Err (Refused (ArtifactMismatch reason)).

(** [.expect(...)] *)
Definition expect {A} (o : option A) : result failure A := ok_or o Panicked.

(** [a + b] on [u64]. *)
Definition plus_u64 (a b : Z) : result failure Z := expect (checked_add_u 64 a b).

Section Artifact.
Context `{Sha256}.
Import SnapshotMerkleTree.

Definition seal_entry (tr : t) (i : nat) (e : HolderEntry) : result failure ArtifactEntry :=
  l ← expect (leaf tr i);
  p ← expect (proof tr i);
  mret (mkArtifactEntry (owner e) (lp_balance e) l p).

(** [iter().enumerate().map(...).collect()] *)
Fixpoint seal_entries (tr : t) (i : nat) (es : list HolderEntry) : result failure (list ArtifactEntry) :=
  match es with
  | [] => mret []
  | e :: es =>
      a ← seal_entry tr i e;
      rest ← seal_entries tr (S i) es;
      mret (a :: rest)
  end.

Definition seal (snapshot : LpSnapshot) (tr : t) : result failure SnapshotArtifact :=
  rebuilt ← map_err Refused (from_snapshot snapshot);
  (if bool_decide (rebuilt = tr) then mret tt
   else mismatch "the supplied tree does not match the snapshot's leaf set");;
  es ← seal_entries tr 0 (entries snapshot);
  r ← expect (root tr);
  mret {|
    format_version := ARTIFACT_FORMAT_VERSION;
    ar_pool_address := sn_pool_address snapshot;
    ar_amm_program_id := sn_amm_program_id snapshot;
    ar_lp_mint := sn_lp_mint snapshot;
    ar_snapshot_slot := snapshot_slot snapshot;
    ar_lp_total_supply := sn_lp_total_supply snapshot;
    merkle_root := r;
    ar_leaf_count := leaf_count tr;
    ar_tree_depth := tree_depth tr;
    ar_entries := es;
    ar_reconciliation := reconciliation snapshot;
  |}.

Definition proof_for (a : SnapshotArtifact) (o : Pubkey) : option ArtifactEntry :=
  snd <$> list_find (fun e => ae_owner e = o) (ar_entries a).

Definition artifact_leaves (a : SnapshotArtifact) : list HolderEntry :=
  map (fun e => mkHolderEntry (ae_owner e) (ae_lp_balance e)) (ar_entries a).

(** The loop over the persisted entries. *)
Fixpoint check_entries (tr : t) (i : nat) (es : list ArtifactEntry) : result failure unit :=
  match es with
  | [] => mret tt
  | e :: es =>
      (if bool_decide (leaf tr i = Some (ae_leaf e)) then mret tt else mismatch "leaf mismatch");;
      (if bool_decide (proof tr i = Some (ae_proof e)) then mret tt else mismatch "proof mismatch");;
      check_entries tr (S i) es
  end.

Definition check_reconciliation (a : SnapshotArtifact) : result failure unit :=
  total ← map_err Refused (checked_total ae_lp_balance (ar_entries a));
  let rc := ar_reconciliation a in
  (if total =? entries_total rc then mret tt else mismatch "persisted balances != entries_total");;
  sum ← plus_u64 (entries_total rc) (sink_exclusions_total rc);
  (if sum =? enumerated_total rc then mret tt else mismatch "entries + sinks != enumerated");;
  (if enumerated_total rc =? ar_lp_total_supply a then mret tt
   else mismatch "enumerated_total != lp_total_supply_at_snapshot").

Definition verify_integrity (a : SnapshotArtifact) : result failure unit :=
  (if format_version a =? ARTIFACT_FORMAT_VERSION then mret tt
   else mismatch "unsupported artifact format_version");;
  let es := artifact_leaves a in
  tr ← map_err Refused (from_entries es);
  r ← expect (root tr);
  (if bool_decide (r = merkle_root a) then mret tt
   else mismatch "root does not derive from the persisted entries");;
  (if bool_decide (ar_leaf_count a = length es) && bool_decide (ar_leaf_count a = leaf_count tr)
   then mret tt else mismatch "leaf_count disagrees with the persisted entries");;
  (if bool_decide (ar_tree_depth a = tree_depth tr) then mret tt
   else mismatch "tree_depth disagrees with the persisted entries");;
  check_entries tr 0 (ar_entries a);;
  check_reconciliation a.
End Artifact.

(** ** The hex codec *)

Definition hex_digit (n : Z) : ascii :=
  default "0"%char (String.get (Z.to_nat n) "0123456789abcdef").

(** [encode_hex] *)
Fixpoint encode_hex (bytes : list byte) : string :=
  match bytes with
  | [] => EmptyString
  | b :: bytes =>
      String (hex_digit (Z.shiftr (byte_Z b) 4))
        (String (hex_digit (Z.land (byte_Z b) 15)) (encode_hex bytes))
  end.

(** [hex_val] on the character's byte. *)
Definition hex_val (c : ascii) : option Z :=
  let n := Z.of_nat (nat_of_ascii c) in
  if (48 <=? n) && (n <=? 57) then Some (n - 48)
  else if (97 <=? n) && (n <=? 102) then Some (n - 97 + 10)
  else if (65 <=? n) && (n <=? 70) then Some (n - 65 + 10)
  else None.

(** The loop over [bytes.chunks(2)]; the offset of a bad character is the error. *)
Fixpoint decode_pairs (i : Z) (s : string) : result Z (list byte) :=
  match s with
  | String a (String b s) =>
      hi ← ok_or (hex_val a) (i * 2);
      lo ← ok_or (hex_val b) (i * 2 + 1);
      rest ← decode_pairs (i + 1) s;
      mret (Z_byte (Z.lor (Z.shiftl hi 4) lo) :: rest)
  | _ => mret []
  end.

Inductive hex_error := BadLength (n : nat) | BadCharacter (offset : Z).

Definition decode_hex32 (s : string) : result hex_error (list byte) :=
  if bool_decide (String.length s = 64%nat)
  then map_err BadCharacter (decode_pairs 0 s)
  else Err (BadLength (String.length s)).

(** ** Sealing *)

Lemma guard_Ok (b : bool) (u : unit) reason :
  (if b then mret tt else mismatch reason) = Ok u <-> b = true.
Proof. destruct b, u; simpl; unfold mismatch; naive_solver. Qed.

Lemma map_err_Ok {E F A} (f : E -> F) (m : result E A) a : map_err f m = Ok a <-> m = Ok a.
Proof. destruct m; simpl; naive_solver. Qed.

Section SealSpec.
Context `{Sha256} {HL : Sha256Laws}.
Import SnapshotMerkleTree.

(** The published entry of the leaf at index [i]. *)
Definition sealed_entry (tr : t) (r : list byte) (i : nat) (e : HolderEntry) (a : ArtifactEntry) : Prop :=
  ae_owner a = owner e /\ ae_lp_balance a = lp_balance e
  /\ leaf tr i = Some (ae_leaf a) /\ proof tr i = Some (ae_proof a)
  /\ ae_leaf a = Merkle.compute_leaf (owner e) (lp_balance e)
  /\ Forall wf_hash (ae_proof a) /\ (length (ae_proof a) <= tree_depth tr)%nat
  /\ verify_proof r (ae_leaf a) (ae_proof a) = true.

Lemma seal_entry_seals es tr r i e :
  seals es tr r -> es !! i = Some e ->
  exists a, seal_entry tr i e = Ok a /\ sealed_entry tr r i e a.
Proof.
  intros Hs He. destruct (sl_proof _ _ _ Hs i e He) as (p & Hp & Hw & Hlen & Hv).
  pose proof (sl_leaf _ _ _ Hs i e He) as Hl. unfold seal_entry. rewrite Hl, Hp. simpl.
  eexists. split; [done|]. unfold sealed_entry. simpl. done.
Qed.

Lemma seal_entries_seals es tr r k l :
  seals es tr r -> (forall i e, l !! i = Some e -> es !! (k + i)%nat = Some e) ->
  exists al, seal_entries tr k l = Ok al /\ length al = length l
    /\ forall i e, l !! i = Some e -> exists a, al !! i = Some a /\ sealed_entry tr r (k + i) e a.
Proof.
  intros Hs. revert k. induction l as [|e l IH]; intros k Hl; [by exists []|].
  destruct (seal_entry_seals es tr r k e Hs) as (a & Ha & Hsa).
  { rewrite <- (Hl 0%nat e) by done. f_equal. lia. }
  destruct (IH (S k)) as (al & Hal & Hlen & Hall).
  { intros i x Hx. rewrite <- (Hl (S i) x) by done. f_equal. lia. }
  exists (a :: al). cbn [seal_entries]. rewrite Ha. cbn [mbind result_bind]. rewrite Hal.
  split_and!; [done|by simpl; f_equal|]. intros [|i] x Hx.
  - injection Hx as <-. exists a. by rewrite Nat.add_0_r.
  - destruct (Hall i x Hx) as (b & Hb & Hsb). exists b. by rewrite Nat.add_succ_r.
Qed.

(** What the published document says of the snapshot it was sealed from. *)
Record sealed_from (sn : LpSnapshot) (tr : t) (a : SnapshotArtifact) : Prop := {
  sf_root : root tr = Some (merkle_root a);
  sf_seals : seals (entries sn) tr (merkle_root a);
  sf_leaves : artifact_leaves a = entries sn;
  sf_entries i e : entries sn !! i = Some e ->
    exists x, ar_entries a !! i = Some x /\ sealed_entry tr (merkle_root a) i e x;
  sf_shape : format_version a = ARTIFACT_FORMAT_VERSION /\ ar_leaf_count a = length (entries sn)
    /\ ar_tree_depth a = tree_depth tr;
  sf_meta : ar_pool_address a = sn_pool_address sn /\ ar_lp_mint a = sn_lp_mint sn
    /\ ar_amm_program_id a = sn_amm_program_id sn /\ ar_snapshot_slot a = snapshot_slot sn
    /\ ar_lp_total_supply a = sn_lp_total_supply sn /\ ar_reconciliation a = reconciliation sn;
}.

Lemma leaves_of_sealed tr r es al :
  length al = length es ->
  (forall i e, es !! i = Some e -> exists a, al !! i = Some a /\ sealed_entry tr r i e a) ->
  map (fun a => mkHolderEntry (ae_owner a) (ae_lp_balance a)) al = es.
Proof.
  intros Hlen Hall. apply list_eq. intros i.
  rewrite (list_lookup_fmap _ al i : map _ al !! i = _).
  destruct (es !! i) as [e|] eqn:He.
  - destruct (Hall i e He) as (a & -> & Ho & Hb & _). simpl. rewrite Ho, Hb. by destruct e.
  - apply lookup_ge_None in He. assert (al !! i = None) as -> by (apply lookup_ge_None; lia). done.
Qed.

(** [seal] succeeds exactly on the snapshot's own tree. *)
Lemma seal_iff sn tr :
  (exists a, seal sn tr = Ok a) <-> from_snapshot sn = Ok tr.
Proof.
  split.
  - intros [a Ha]. unfold seal in Ha. apply bind_Ok in Ha as (tr' & Hf & Ha).
    apply map_err_Ok in Hf. apply bind_Ok in Ha as ([] & Hg & _). apply guard_Ok in Hg.
    by bool_simpl; subst.
  - intros Hf. destruct (from_entries_seals _ _ Hf) as [r Hs].
    destruct (seal_entries_seals _ _ _ 0 (entries sn) Hs) as (al & Hal & _); [done|].
    unfold seal. rewrite Hf. simpl. rewrite bool_decide_eq_true_2 by done. simpl. rewrite Hal. simpl.
    rewrite (sl_root _ _ _ Hs). simpl. by eexists.
Qed.

Lemma seal_sealed sn tr a : seal sn tr = Ok a -> sealed_from sn tr a.
Proof.
  intros Ha. assert (Hf : from_snapshot sn = Ok tr) by (apply seal_iff; eauto).
  destruct (from_entries_seals _ _ Hf) as [r Hs].
  destruct (seal_entries_seals _ _ _ 0 (entries sn) Hs) as (al & Hal & Hlen & Hall); [done|].
  unfold seal in Ha. rewrite Hf in Ha. simpl in Ha. rewrite bool_decide_eq_true_2 in Ha by done.
  simpl in Ha. rewrite Hal in Ha. simpl in Ha. rewrite (sl_root _ _ _ Hs) in Ha. injection Ha as <-.
  constructor; simpl; [apply Hs|done| |done| |done].
  - by eapply leaves_of_sealed.
  - split_and!; [done|apply Hs|done].
Qed.

(** ** The integrity check *)

Lemma check_entries_Ok tr k es :
  check_entries tr k es = Ok tt <->
  forall i a, es !! i = Some a -> leaf tr (k + i) = Some (ae_leaf a) /\ proof tr (k + i) = Some (ae_proof a).
Proof.
  revert k. induction es as [|e es IH]; intros k; simpl; [by split|].
  rewrite bind_Ok. setoid_rewrite bind_Ok. setoid_rewrite IH. split.
  - intros ([] & H1 & [] & H2 & H3). apply guard_Ok in H1, H2. bool_simpl.
    intros [|i] a Ha; [injection Ha as <-; by rewrite Nat.add_0_r|]. rewrite Nat.add_succ_r. by apply H3.
  - intros Hall. destruct (Hall 0%nat e) as [Hl Hp]; [done|]. rewrite Nat.add_0_r in *.
    exists tt. split; [by rewrite bool_decide_eq_true_2|]. exists tt. split; [by rewrite bool_decide_eq_true_2|].
    intros i a Ha. rewrite Nat.add_succ_comm. by apply Hall.
Qed.

(** The persisted totals are consistent. *)
Record ledger_closes (a : SnapshotArtifact) : Prop := {
  lc_entries : sum_Z (map ae_lp_balance (ar_entries a)) = entries_total (ar_reconciliation a);
  lc_sum : entries_total (ar_reconciliation a) + sink_exclusions_total (ar_reconciliation a)
    = enumerated_total (ar_reconciliation a);
  lc_supply : enumerated_total (ar_reconciliation a) = ar_lp_total_supply a;
}.

(** An artifact as serde can load it: [u64] and [u32] fields. *)
Record wf_artifact (a : SnapshotArtifact) : Prop := {
  wa_balances : Forall (fun e => is_u64 (ae_lp_balance e)) (ar_entries a);
  wa_entries : is_u64 (entries_total (ar_reconciliation a));
  wa_sinks : is_u64 (sink_exclusions_total (ar_reconciliation a));
  wa_enumerated : is_u64 (enumerated_total (ar_reconciliation a));
  wa_supply : is_u64 (ar_lp_total_supply a);
}.

(** The tree part of the check: everything re-derives from the entries. *)
Record rederives (a : SnapshotArtifact) (tr : t) : Prop := {
  rd_tree : from_entries (artifact_leaves a) = Ok tr;
  rd_root : root tr = Some (merkle_root a);
  rd_count : ar_leaf_count a = length (ar_entries a);
  rd_depth : ar_tree_depth a = tree_depth tr;
  rd_entries i e : ar_entries a !! i = Some e ->
    leaf tr i = Some (ae_leaf e) /\ proof tr i = Some (ae_proof e);
}.

Lemma check_reconciliation_sum a :
  wf_artifact a -> sum_Z (map ae_lp_balance (ar_entries a)) = entries_total (ar_reconciliation a) ->
  check_reconciliation a
  = (sum ← plus_u64 (entries_total (ar_reconciliation a)) (sink_exclusions_total (ar_reconciliation a));
     (if sum =? enumerated_total (ar_reconciliation a) then mret tt
      else mismatch "entries + sinks != enumerated");;
     (if enumerated_total (ar_reconciliation a) =? ar_lp_total_supply a then mret tt
      else mismatch "enumerated_total != lp_total_supply_at_snapshot")).
Proof.
  intros Hw Hsum. unfold check_reconciliation. rewrite checked_total_eq, Hsum.
  - unfold total_result. rewrite (proj2 (in_u_spec 128 _)) by (eapply is_u_mono; [|apply Hw]; lia).
    simpl. by rewrite Z.eqb_refl.
  - eapply Forall_impl; [apply Hw|]. unfold is_u. simpl. lia.
Qed.

Lemma check_reconciliation_Ok a :
  wf_artifact a -> check_reconciliation a = Ok tt <-> ledger_closes a.
Proof.
  intros Hw. split.
  - intros Hc. unfold check_reconciliation in Hc. rewrite checked_total_eq in Hc
      by (eapply Forall_impl; [apply Hw|]; unfold is_u; simpl; lia).
    apply bind_Ok in Hc as (total & Ht & Hc). apply map_err_Ok, total_result_Ok in Ht as [-> _].
    apply bind_Ok in Hc as ([] & Hs & Hc). apply guard_Ok in Hs.
    apply bind_Ok in Hc as (s & Hp & Hc). apply ok_or_Ok, checked_add_u_Some in Hp as [-> _].
    apply bind_Ok in Hc as ([] & He & Hc). apply guard_Ok in He, Hc. bool_simpl. by constructor.
  - intros [H1 H2 H3]. rewrite check_reconciliation_sum by done. unfold plus_u64, checked_add_u.
    rewrite H2, (proj2 (in_u_spec 64 _)) by apply Hw. simpl. by rewrite Z.eqb_refl, H3, Z.eqb_refl.
Qed.

Lemma artifact_leaves_length a : length (artifact_leaves a) = length (ar_entries a).
Proof. unfold artifact_leaves. by rewrite length_map. Qed.

(** Past the tree part only the reconciliation decides. *)
Lemma verify_integrity_rederived a tr :
  format_version a = ARTIFACT_FORMAT_VERSION -> rederives a tr ->
  verify_integrity a = check_reconciliation a.
Proof.
  intros Hf [Ht Hr Hc Hd He]. unfold verify_integrity. rewrite Hf, Z.eqb_refl. cbn [mbind result_bind mret result_ret].
  rewrite Ht. cbn [map_err mbind result_bind]. rewrite Hr. cbn [expect ok_or mbind result_bind].
  rewrite bool_decide_eq_true_2 by done. cbn [mbind result_bind].
  destruct (from_entries_seals _ _ Ht) as [r Hs]. rewrite (sl_count _ _ _ Hs), Hc, artifact_leaves_length.
  rewrite bool_decide_eq_true_2 by done. cbn [andb mbind result_bind].
  rewrite bool_decide_eq_true_2 by done. cbn [mbind result_bind].
  by rewrite (proj2 (check_entries_Ok tr 0 (ar_entries a))).
Qed.

Lemma verify_integrity_Ok a :
  wf_artifact a ->
  verify_integrity a = Ok tt <->
  format_version a = ARTIFACT_FORMAT_VERSION /\ (exists tr, rederives a tr) /\ ledger_closes a.
Proof.
  intros Hw. split.
  - intros Hv. pose proof Hv as Hv'. unfold verify_integrity in Hv.
    apply bind_Ok in Hv as ([] & Hf & Hv). apply guard_Ok in Hf. bool_simpl.
    apply bind_Ok in Hv as (tr & Ht & Hv). apply map_err_Ok in Ht.
    apply bind_Ok in Hv as (r & Hr & Hv). apply ok_or_Ok in Hr.
    apply bind_Ok in Hv as ([] & Hg & Hv). apply guard_Ok in Hg.
    apply bind_Ok in Hv as ([] & Hc & Hv). apply guard_Ok in Hc.
    apply bind_Ok in Hv as ([] & Hd & Hv). apply guard_Ok in Hd.
    apply bind_Ok in Hv as ([] & He & Hv). bool_simpl. subst r.
    assert (rederives a tr).
    { constructor; [done|done|by rewrite <- artifact_leaves_length|done|].
      by apply (check_entries_Ok tr 0). }
    rewrite <- check_reconciliation_Ok by done. eauto.
  - intros (Hf & [tr Hr] & Hl). rewrite (verify_integrity_rederived a tr) by done.
    by apply check_reconciliation_Ok.
Qed.

(** What a reader of a verified document may rely on. *)
Record published (a : SnapshotArtifact) : Prop := {
  pb_canonical : canonical (artifact_leaves a);
  pb_tree : exists mt, merkle_tree_of (artifact_leaves a) = Some mt
    /\ mleaves mt = map entry_pair (artifact_leaves a) /\ mroot mt = merkle_root a;
  pb_depth : ar_leaf_count a = length (ar_entries a)
    /\ ar_tree_depth a = Nat.log2_up (length (ar_entries a));
  pb_proof e : e ∈ ar_entries a ->
    ae_leaf e = Merkle.compute_leaf (ae_owner e) (ae_lp_balance e)
    /\ Forall wf_hash (ae_proof e) /\ (length (ae_proof e) <= ar_tree_depth a)%nat
    /\ verify_proof (merkle_root a) (ae_leaf e) (ae_proof e) = true;
  pb_ledger : ledger_closes a;
}.

Lemma rederives_published a tr : rederives a tr -> ledger_closes a -> published a.
Proof.
  intros [Ht Hr Hc Hd He] Hl. destruct (from_entries_seals _ _ Ht) as [r Hs].
  rewrite (sl_root _ _ _ Hs) in Hr. injection Hr as ->.
  constructor; [by apply from_entries_Ok in Ht as [? _]|apply Hs| | |done].
  - split; [done|]. by rewrite Hd, (sl_depth _ _ _ Hs), artifact_leaves_length.
  - intros e [i Hi]%list_elem_of_lookup. destruct (He i e Hi) as [Hle Hpr].
    assert (Hx : artifact_leaves a !! i = Some (mkHolderEntry (ae_owner e) (ae_lp_balance e))).
    { unfold artifact_leaves. by rewrite (list_lookup_fmap _ (ar_entries a) i : map _ _ !! i = _), Hi. }
    pose proof (sl_leaf _ _ _ Hs _ _ Hx) as Hle'. rewrite Hle in Hle'. injection Hle' as Hle'.
    destruct (sl_proof _ _ _ Hs _ _ Hx) as (p & Hp & Hw & Hlen & Hv).
    rewrite Hpr in Hp. injection Hp as <-. cbn in *. rewrite Hle', Hd. done.
Qed.

Lemma sealed_rederives sn tr a : seal sn tr = Ok a -> rederives a tr.
Proof.
  intros Ha. assert (Hf : from_snapshot sn = Ok tr) by (apply seal_iff; eauto).
  destruct (seal_sealed _ _ _ Ha) as [Hr Hs Hl He (_ & Hc & Hd) _].
  assert (Hlen : length (ar_entries a) = length (entries sn)) by (by rewrite <- Hl, artifact_leaves_length).
  constructor; [by rewrite Hl|done|by rewrite Hlen|done|].
  intros i e Hi. pose proof (lookup_lt_Some _ _ _ Hi) as Hlt. rewrite Hlen in Hlt.
  apply lookup_lt_is_Some_2 in Hlt as [x Hx].
  destruct (He i x Hx) as (e' & He' & _ & _ & ? & ? & _). rewrite Hi in He'. by injection He' as <-.
Qed.

(** ** The theorems *)

Lemma sealed_wf request supply accounts records sn tr a :
  wf_served supply accounts records -> faithful_snapshot request supply accounts records sn ->
  sealed_from sn tr a -> wf_artifact a /\ ledger_closes a.
Proof.
  intros Hwf Hfs Hsf. destruct (sf_meta _ _ _ Hsf) as (_ & _ & _ & _ & Hsup & Hrc).
  destruct (fs_u64 _ _ _ _ _ Hfs) as (Hb & He & Hx).
  destruct (fs_source _ _ _ _ _ Hfs) as (_ & _ & _ & _ & Hs).
  assert (Hbal : map ae_lp_balance (ar_entries a) = map lp_balance (entries sn)).
  { rewrite <- (sf_leaves _ _ _ Hsf). unfold artifact_leaves. by rewrite map_map. }
  assert (Hu : is_u64 (ms_amount supply)) by apply Hwf.
  rewrite (fs_reconciliation _ _ _ _ _ Hfs) in Hrc. pose proof (fs_closing _ _ _ _ _ Hfs) as Hc.
  split; constructor; rewrite ?Hrc, ?Hsup, ?Hs; simpl; try done; [|by rewrite Hbal].
  apply Forall_map in Hb. rewrite <- Hbal in Hb. by apply (proj1 (Forall_map _ _ _)) in Hb.
Qed.

(** From a built snapshot to its checked document. *)
Lemma pipeline_runs `{LpAccountSource, LockedLpEvidence} request supply accounts records sn :
  serves request supply accounts records -> wf_served supply accounts records ->
  build request = Ok sn ->
  exists tr a, from_snapshot sn = Ok tr /\ seal sn tr = Ok a /\ sealed_from sn tr a
    /\ verify_integrity a = Ok tt /\ published a.
Proof.
  intros Hserves Hwf Hb. pose proof (build_faithful _ _ _ _ _ Hserves Hwf Hb) as Hfs.
  pose proof (fs_canonical _ _ _ _ _ Hfs) as Hcan.
  apply from_entries_canonical, is_ok_true in Hcan as [tr Htr].
  destruct (proj2 (seal_iff sn tr) Htr) as [a Ha]. exists tr, a.
  pose proof (seal_sealed _ _ _ Ha) as Hsf. pose proof (sealed_rederives _ _ _ Ha) as Hrd.
  destruct (sealed_wf _ _ _ _ _ _ _ Hwf Hfs Hsf) as [Hwa Hl].
  split_and!; [done|done|done| |by eapply rederives_published].
  apply verify_integrity_Ok; [done|]. split_and!; [apply Hsf|by exists tr|done].
Qed.

(** C26. The off-chain pipeline: whenever [build] returns a snapshot, the tree
    builds, sealing that tree succeeds without a panic, and the sealed artifact
    carries the snapshot's leaves, metadata and reconciliation, passes
    [verify_integrity] and stands for what a published document promises. *)
Theorem snapshot_pipeline `{LpAccountSource, LockedLpEvidence} request supply accounts records sn :
  serves request supply accounts records -> wf_served supply accounts records ->
  build request = Ok sn ->
  exists tr a, from_snapshot sn = Ok tr /\ seal sn tr = Ok a /\ sealed_from sn tr a
    /\ verify_integrity a = Ok tt /\ published a.
Proof. apply pipeline_runs. Qed.

(** The integrity check accepts an artifact exactly when its format is the
    current one, everything in it re-derives from its own entries (the root,
    the count, the depth, every leaf and every proof) and its ledger closes; so
    every entry of an accepted artifact carries its leaf hash and a proof that
    the vault's verifier accepts against the artifact's root. *)
Theorem verify_integrity_spec a :
  wf_artifact a ->
  (verify_integrity a = Ok tt <->
   format_version a = ARTIFACT_FORMAT_VERSION /\ (exists tr, rederives a tr) /\ ledger_closes a)
  /\ (verify_integrity a = Ok tt -> published a).
Proof.
  intros Hw. split; [by apply verify_integrity_Ok|].
  intros (_ & [tr Hr] & Hl)%verify_integrity_Ok; [|done]. by eapply rederives_published.
Qed.

(** A document with entries that re-derive, but whose two ledger totals add up
    to more than a [u64], is not refused: the check's own addition panics. *)
Lemma integrity_check_panics a tr :
  wf_artifact a -> format_version a = ARTIFACT_FORMAT_VERSION -> rederives a tr ->
  sum_Z (map ae_lp_balance (ar_entries a)) = entries_total (ar_reconciliation a) ->
  ~ is_u64 (entries_total (ar_reconciliation a) + sink_exclusions_total (ar_reconciliation a)) ->
  verify_integrity a = Err Panicked.
Proof.
  intros Hw Hf Hr Hsum Hover. rewrite (verify_integrity_rederived a tr) by done.
  rewrite check_reconciliation_sum by done. unfold plus_u64.
  apply checked_add_u_None in Hover. by rewrite Hover.
Qed.

(** The linear scan finds a holder's one entry. *)
Lemma proof_for_spec a o e :
  published a -> proof_for a o = Some e <-> e ∈ ar_entries a /\ ae_owner e = o.
Proof.
  intros Hp. unfold proof_for. split.
  - intros ([i x] & Hf & [= <-])%fmap_Some. apply list_find_Some in Hf as (Hi & Ho & _).
    split; [by eapply list_elem_of_lookup_2|done].
  - intros [Hin Ho].
    destruct (list_find_elem_of (fun e => ae_owner e = o) _ e Hin Ho) as [[i x] Hf]. rewrite Hf. simpl. f_equal.
    apply list_find_Some in Hf as (Hi & Hx & _). apply list_elem_of_lookup in Hin as [j Hj].
    enough (i = j) as -> by congruence.
    destruct (pb_canonical _ Hp) as [_ Hs _]. unfold artifact_leaves in Hs. rewrite map_map in Hs.
    assert (Hnd : NoDup (map ae_owner (ar_entries a))).
    { revert Hs. clear. simpl. induction (map ae_owner (ar_entries a)) as [|k l IH]; [constructor|].
      intros Hs. inversion_clear Hs as [|? ? Hs' Hall]. constructor; [|by apply IH].
      intros Hk. rewrite Forall_forall in Hall. by apply (bytes_lt_ne k k (Hall k Hk)). }
    apply (NoDup_lookup _ i j o Hnd);
      rewrite (list_lookup_fmap _ (ar_entries a) _ : map _ _ !! _ = _); [rewrite Hi|rewrite Hj]; simpl; congruence.
Qed.
End SealSpec.

(** ** The hex codec *)

(** [char::to_ascii_lowercase] on the hex digits. *)
Definition hex_lower (c : ascii) : ascii :=
  match hex_val c with Some v => hex_digit v | None => c end.
Fixpoint lower (s : string) : string :=
  match s with EmptyString => EmptyString | String c s => String (hex_lower c) (lower s) end.

Definition nibbles : list Z := [0; 1; 2; 3; 4; 5; 6; 7; 8; 9; 10; 11; 12; 13; 14; 15].

Lemma nibble_in v : 0 <= v < 16 -> v ∈ nibbles.
Proof.
  intros Hv. assert (Hc : v = 0 \/ v = 1 \/ v = 2 \/ v = 3 \/ v = 4 \/ v = 5 \/ v = 6 \/ v = 7 \/ v = 8
    \/ v = 9 \/ v = 10 \/ v = 11 \/ v = 12 \/ v = 13 \/ v = 14 \/ v = 15) by lia.
  unfold nibbles. set_solver.
Qed.

Lemma hex_val_digit v : 0 <= v < 16 -> hex_val (hex_digit v) = Some v.
Proof.
  intros Hv%nibble_in.
  assert (Hall : Forall (fun v => hex_val (hex_digit v) = Some v) nibbles) by (repeat constructor).
  rewrite Forall_forall in Hall. by apply Hall.
Qed.

Lemma hex_val_range c v : hex_val c = Some v -> 0 <= v < 16.
Proof.
  unfold hex_val. set (n := Z.of_nat (nat_of_ascii c)). intros Hv.
  repeat (match type of Hv with (if ?b then _ else _) = _ => destruct b eqn:? end; [bool_simpl; injection Hv as <-; lia|]).
  done.
Qed.

(** The high and the low nibble of a byte. *)
Lemma byte_nibbles b :
  0 <= Z.shiftr (byte_Z b) 4 < 16 /\ 0 <= Z.land (byte_Z b) 15 < 16
  /\ Z_byte (Z.lor (Z.shiftl (Z.shiftr (byte_Z b) 4) 4) (Z.land (byte_Z b) 15)) = b.
Proof. destruct b; vm_compute; split_and!; done. Qed.

Lemma nibbles_byte hi lo :
  0 <= hi < 16 -> 0 <= lo < 16 ->
  Z.shiftr (byte_Z (Z_byte (Z.lor (Z.shiftl hi 4) lo))) 4 = hi
  /\ Z.land (byte_Z (Z_byte (Z.lor (Z.shiftl hi 4) lo))) 15 = lo.
Proof.
  intros Hhi%nibble_in Hlo%nibble_in.
  assert (Hall : Forall (fun hi => Forall (fun lo =>
    Z.shiftr (byte_Z (Z_byte (Z.lor (Z.shiftl hi 4) lo))) 4 = hi
    /\ Z.land (byte_Z (Z_byte (Z.lor (Z.shiftl hi 4) lo))) 15 = lo) nibbles) nibbles)
    by (repeat constructor).
  rewrite Forall_forall in Hall. specialize (Hall hi Hhi). rewrite Forall_forall in Hall. by apply Hall.
Qed.

Lemma encode_hex_length bytes : String.length (encode_hex bytes) = (2 * length bytes)%nat.
Proof. induction bytes as [|b bytes IH]; simpl; [done|]. rewrite IH. lia. Qed.

Lemma decode_encode_pairs bytes i : decode_pairs i (encode_hex bytes) = Ok bytes.
Proof.
  revert i. induction bytes as [|b bytes IH]; intros i; [done|]. cbn [encode_hex decode_pairs].
  destruct (byte_nibbles b) as (Hhi & Hlo & Hb). rewrite !hex_val_digit by done.
  cbn [ok_or mbind result_bind]. rewrite IH. cbn [mbind result_bind]. by rewrite Hb.
Qed.

Lemma decode_pairs_encode n i s h :
  String.length s = (2 * n)%nat -> decode_pairs i s = Ok h -> length h = n /\ encode_hex h = lower s.
Proof.
  revert i s h. induction n as [|n IH]; intros i s h Hlen Hd.
  { destruct s; [|done]. by injection Hd as <-. }
  destruct s as [|a [|b s]]; simpl in Hlen; [done|lia|]. cbn [decode_pairs] in Hd.
  res_inv Hd. destruct (IH _ s r1 ltac:(lia) Hr1) as [Hl He].
  pose proof (hex_val_range _ _ Hr) as H1. pose proof (hex_val_range _ _ Hr0) as H2.
  destruct (nibbles_byte r r0 H1 H2) as [Hhi Hlo]. split; [by simpl; rewrite Hl|].
  cbn [encode_hex lower]. unfold hex_lower. by rewrite Hhi, Hlo, Hr, Hr0, He.
Qed.

Lemma lower_valid n i s bytes :
  String.length s = (2 * n)%nat -> lower s = encode_hex bytes -> decode_pairs i s = Ok bytes.
Proof.
  revert i s bytes. induction n as [|n IH]; intros i s bytes Hlen Hs.
  { destruct s; [|done]. by destruct bytes. }
  destruct s as [|a [|b s]]; simpl in Hlen; [done|lia|].
  destruct bytes as [|x bytes]; [done|]. cbn [encode_hex lower] in Hs. injection Hs as Ha Hb Hs.
  destruct (byte_nibbles x) as (Hhi & Hlo & Hx).
  assert (Hlow : forall c v, 0 <= v < 16 -> hex_lower c = hex_digit v -> hex_val c = Some v).
  { intros c v Hv Hc. unfold hex_lower in Hc. destruct (hex_val c) as [w|] eqn:Hw.
    - pose proof (hex_val_digit v Hv) as Hd. rewrite <- Hc, (hex_val_digit w) in Hd; [done|].
      by eapply hex_val_range.
    - rewrite Hc, hex_val_digit in Hw; done. }
  cbn [decode_pairs]. rewrite (Hlow _ _ Hhi Ha), (Hlow _ _ Hlo Hb). cbn [ok_or mbind result_bind].
  rewrite (IH _ s bytes) by (done || lia). cbn [mbind result_bind]. by rewrite Hx.
Qed.

(** The hash codec of the artifact: [decode_hex32] accepts a string exactly
    when it is 64 characters long and, lowered, is what [encode_hex] writes for
    the hash it returns. So decoding inverts encoding on every 32-byte hash,
    and every accepted string is some hash's encoding up to the case of its
    digits. *)
Theorem hex32_roundtrip s h :
  decode_hex32 s = Ok h <-> wf_hash h /\ lower s = encode_hex h /\ String.length s = 64%nat.
Proof.
  unfold decode_hex32, wf_hash. case_bool_decide as Hlen.
  - rewrite (map_err_Ok BadCharacter). split.
    + intros Hd. apply (decode_pairs_encode 32) in Hd as [? ?]; done.
    + intros (_ & Hl & _). by apply (lower_valid 32).
  - split; [done|]. by intros (_ & _ & ?).
Qed.

Lemma encode_hex_lower bytes : lower (encode_hex bytes) = encode_hex bytes.
Proof.
  pose proof (decode_encode_pairs bytes 0) as Hd.
  apply (decode_pairs_encode (length bytes)) in Hd as [_ Hd]; [done|]. apply encode_hex_length.
Qed.

Lemma decode_encode_hex h : wf_hash h -> decode_hex32 (encode_hex h) = Ok h.
Proof.
  intros Hh. apply hex32_roundtrip. rewrite encode_hex_lower, encode_hex_length, Hh. done.
Qed.
