(* ===== verification/Document.v ===== *)
(** * Document: the JSON layer of the artifact

    [snapshotter/src/artifact.rs]: the three codecs the fields name
    ([hex32], [base58_pubkey], [vec_hex32]), the structs' serde derives and
    [to_json], [to_json_pretty] and [from_json]. serde and serde_json are not
    this repository's, and neither is [Pubkey]'s base58: a [DataFormat] is what
    the code asks of the first two, a [Base58] of the third, and their [Laws]
    are what is documented of them. *)

From Stdlib Require Import Ascii String.
From S2P Require Import Prelude Bytes Solana Merkle Locker Snapshot Builder BuilderSpec Tree Artifact.

(** ** What the code relies on *)

(** serde's data model as the code uses it: what a [Serializer] is handed and
    a [Deserializer] presents, and serde_json's text for it. [as_struct] finds
    the fields of the given names, in that order, as a derived [Deserialize]
    does. *)
Class DataFormat := {
  value : Type;
  of_str : string -> value;                           (* [serialize_str] *)
  of_uint : Z -> value;                               (* [serialize_u32], [serialize_u64] *)
  of_seq : list value -> value;                       (* [collect_seq] *)
  of_struct : list (string * value) -> value;         (* [serialize_struct] *)
  as_str : value -> option string;
  as_uint : Z -> value -> option Z;                   (* at a width in bits *)
  as_seq : value -> option (list value);
  as_struct : list string -> value -> option (list value);
  serde_to_string : value -> option string;
  serde_to_string_pretty : value -> option string;
  serde_from_str : string -> option value;
  store_error : value -> string;                      (* [e.to_string()] when writing fails *)
  load_error : string -> string;                      (* [e.to_string()] when loading fails *)
}.

Section Written.
Context `{DataFormat}.

(** The values a serializer can be handed: no struct names a field twice, and
    sequences and structs are nested at most [d] deep. *)
Inductive written : nat -> value -> Prop :=
| written_str d s : written d (of_str s)
| written_uint d n : is_u64 n -> written d (of_uint n)
| written_seq d l : Forall (written d) l -> written (S d) (of_seq l)
| written_struct d fs : NoDup fs.*1 -> Forall (written d) fs.*2 -> written (S d) (of_struct fs).

Lemma written_mono d d' v : (d <= d')%nat -> written d v -> written d' v.
Proof.
  revert d' v. induction d as [|d IH]; intros d' v Hle Hv; inversion Hv; subst; try by constructor.
  all: destruct d' as [|d']; [lia|]; constructor; [done..|].
  all: eapply Forall_impl; [eassumption|]; intros x Hx; apply IH; [lia|done].
Qed.
End Written.

(** [serde_json] refuses to read values nested 128 deep or more. *)
Definition RECURSION_LIMIT : nat := 128.

(** ["\n"] *)
Definition newline : string := String (Ascii.ascii_of_nat 10) EmptyString.

(** Reading gives back what was written, an integer is read only within its
    width, and a text that was written loads as the value it was written from
    (within the recursion limit), with or without a newline at its end. *)
Class DataFormatLaws `{DataFormat} : Prop := {
  as_str_of_str s : as_str (of_str s) = Some s;
  as_uint_of_uint w n : is_u w n -> as_uint w (of_uint n) = Some n;
  as_uint_range w v n : as_uint w v = Some n -> is_u w n;
  as_seq_of_seq l : as_seq (of_seq l) = Some l;
  as_struct_of_struct fs : NoDup fs.*1 -> as_struct fs.*1 (of_struct fs) = Some fs.*2;
  text_written d v : written d v -> exists s, serde_to_string v = Some s;
  text_written_pretty d v : written d v -> exists s, serde_to_string_pretty v = Some s;
  text_loads d v s : written d v -> (d < RECURSION_LIMIT)%nat ->
    serde_to_string v = Some s \/ serde_to_string_pretty v = Some s ->
    serde_from_str s = Some v /\ serde_from_str (String.append s newline) = Some v;
}.

(** [Pubkey::to_string] and [Pubkey::from_str]. *)
Class Base58 := {
  Pubkey_to_string : Pubkey -> string;
  Pubkey_from_str : string -> option Pubkey;
}.
Class Base58Laws `{Base58} : Prop := {
  Pubkey_parses k : wf_key k -> Pubkey_from_str (Pubkey_to_string k) = Some k;
  Pubkey_parsed s k : Pubkey_from_str s = Some k -> wf_key k;
}.

(** ** The codecs *)

Module hex32.
Section Codec.
Context `{DataFormat}.
Definition serialize (v : list byte) : value := of_str (encode_hex v).
Definition deserialize (v : value) : option (list byte) :=
  s ← as_str v;
  match decode_hex32 s with Ok h => Some h | Err _ => None end.
End Codec.
End hex32.

Module base58_pubkey.
Section Codec.
Context `{DataFormat, Base58}.
Definition serialize (v : Pubkey) : value := of_str (Pubkey_to_string v).
Definition deserialize (v : value) : option Pubkey := s ← as_str v; Pubkey_from_str s.
End Codec.
End base58_pubkey.

Module vec_hex32.
Section Codec.
Context `{DataFormat}.
Definition serialize (v : list (list byte)) : value := of_seq (map (fun h => of_str (encode_hex h)) v).
(** [Vec::<String>::deserialize], then [decode_hex32] on each. *)
Definition deserialize (v : value) : option (list (list byte)) :=
  vs ← as_seq v;
  items ← mapM as_str vs;
  mapM (fun s => match decode_hex32 s with Ok h => Some h | Err _ => None end) items.
End Codec.
End vec_hex32.

(** ** The derived impls *)

Module Json.
Section Derived.
Context `{DataFormat, Base58}.
Local Open Scope string_scope.

(** [u32], [u64] and [usize] *)
Definition usize_value (n : nat) : value := of_uint (Z.of_nat n).
Definition as_usize (v : value) : option nat := n ← as_uint 64 v; Some (Z.to_nat n).

Definition serialize_entry (e : ArtifactEntry) : value :=
  of_struct [
    ("owner", base58_pubkey.serialize (ae_owner e));
    ("lp_balance", of_uint (ae_lp_balance e));
    ("leaf", hex32.serialize (ae_leaf e));
    ("proof", vec_hex32.serialize (ae_proof e))].

Definition deserialize_entry (v : value) : option ArtifactEntry :=
  fs ← as_struct ["owner"; "lp_balance"; "leaf"; "proof"] v;
  match fs with
  | [v1; v2; v3; v4] =>
      owner ← base58_pubkey.deserialize v1;
      lp_balance ← as_uint 64 v2;
      leaf ← hex32.deserialize v3;
      proof ← vec_hex32.deserialize v4;
      Some (mkArtifactEntry owner lp_balance leaf proof)
  | _ => None
  end.

(** [Vec<ArtifactEntry>] *)
Definition serialize_entries (es : list ArtifactEntry) : value := of_seq (map serialize_entry es).
Definition deserialize_entries (v : value) : option (list ArtifactEntry) :=
  vs ← as_seq v; mapM deserialize_entry vs.

Definition serialize_reconciliation (r : Reconciliation) : value :=
  of_struct [
    ("enumerated_total", of_uint (enumerated_total r));
    ("entries_total", of_uint (entries_total r));
    ("sink_exclusions_total", of_uint (sink_exclusions_total r))].

Definition deserialize_reconciliation (v : value) : option Reconciliation :=
  fs ← as_struct ["enumerated_total"; "entries_total"; "sink_exclusions_total"] v;
  match fs with
  | [v1; v2; v3] =>
      enumerated ← as_uint 64 v1;
      entries ← as_uint 64 v2;
      sinks ← as_uint 64 v3;
      Some {| enumerated_total := enumerated; entries_total := entries; sink_exclusions_total := sinks |}
  | _ => None
  end.

Definition serialize (a : SnapshotArtifact) : value :=
  of_struct [
    ("format_version", of_uint (format_version a));
    ("pool_address", base58_pubkey.serialize (ar_pool_address a));
    ("amm_program_id", base58_pubkey.serialize (ar_amm_program_id a));
    ("lp_mint", base58_pubkey.serialize (ar_lp_mint a));
    ("snapshot_slot", of_uint (ar_snapshot_slot a));
    ("lp_total_supply_at_snapshot", of_uint (ar_lp_total_supply a));
    ("merkle_root", hex32.serialize (merkle_root a));
    ("leaf_count", usize_value (ar_leaf_count a));
    ("tree_depth", usize_value (ar_tree_depth a));
    ("entries", serialize_entries (ar_entries a));
    ("reconciliation", serialize_reconciliation (ar_reconciliation a))].

Definition deserialize (v : value) : option SnapshotArtifact :=
  fs ← as_struct ["format_version"; "pool_address"; "amm_program_id"; "lp_mint"; "snapshot_slot";
    "lp_total_supply_at_snapshot"; "merkle_root"; "leaf_count"; "tree_depth"; "entries"; "reconciliation"] v;
  match fs with
  | [v1; v2; v3; v4; v5; v6; v7; v8; v9; v10; v11] =>
      version ← as_uint 32 v1;
      pool ← base58_pubkey.deserialize v2;
      amm ← base58_pubkey.deserialize v3;
      lp_mint ← base58_pubkey.deserialize v4;
      slot ← as_uint 64 v5;
      supply ← as_uint 64 v6;
      root ← hex32.deserialize v7;
      leaves ← as_usize v8;
      depth ← as_usize v9;
      es ← deserialize_entries v10;
      rc ← deserialize_reconciliation v11;
      Some (mkSnapshotArtifact version pool amm lp_mint slot supply root leaves depth es rc)
  | _ => None
  end.

(** ** The artifact's text *)

Definition to_json_pretty (a : SnapshotArtifact) : result SnapshotError string :=
  ok_or (serde_to_string_pretty (serialize a)) (Serialization (store_error (serialize a))).

Definition to_json (a : SnapshotArtifact) : result SnapshotError string :=
  ok_or (serde_to_string (serialize a)) (Serialization (store_error (serialize a))).

Definition from_json (json : string) : result SnapshotError SnapshotArtifact :=
  ok_or (v ← serde_from_str json; deserialize v) (Serialization (load_error json)).
End Derived.
End Json.
Export Json.

(** ** Every codec inverts and types *)

(** A serializer with its deserializer: what is well formed is written as a
    value, of a depth of its type, and read back from it, and whatever is read
    is well formed. *)
Class Codec `{DataFormat} {A} (d : nat) (wf : A -> Prop) (ser : A -> value) (de : value -> option A) : Prop := {
  codec_written a : wf a -> written d (ser a);
  codec_reads a : wf a -> de (ser a) = Some a;
  codec_typed v a : de v = Some a -> wf a;
}.

(** The fields of a persisted reconciliation, entry and document. *)
Definition wf_reconciliation (r : Reconciliation) : Prop :=
  is_u64 (enumerated_total r) /\ is_u64 (entries_total r) /\ is_u64 (sink_exclusions_total r).

Definition wf_document_entry (e : ArtifactEntry) : Prop :=
  wf_key (ae_owner e) /\ is_u64 (ae_lp_balance e) /\ wf_hash (ae_leaf e) /\ Forall wf_hash (ae_proof e).

Definition is_usize (n : nat) : Prop := is_u64 (Z.of_nat n).

(** The Rust type of the artifact. *)
Record wf_document (a : SnapshotArtifact) : Prop := {
  wd_version : is_u32 (format_version a);
  wd_keys : wf_key (ar_pool_address a) /\ wf_key (ar_amm_program_id a) /\ wf_key (ar_lp_mint a);
  wd_numbers : is_u64 (ar_snapshot_slot a) /\ is_u64 (ar_lp_total_supply a);
  wd_root : wf_hash (merkle_root a);
  wd_shape : is_usize (ar_leaf_count a) /\ is_usize (ar_tree_depth a);
  wd_entries : Forall wf_document_entry (ar_entries a);
  wd_reconciliation : wf_reconciliation (ar_reconciliation a);
}.

Lemma mapM_map {A B} (f : A -> B) (g : B -> option A) l :
  Forall (fun x => g (f x) = Some x) l -> mapM g (map f l) = Some l.
Proof. induction 1 as [|x l Hx _ IH]; [done|]. simpl. by rewrite Hx, IH. Qed.

Lemma mapM_Forall {A B} (g : B -> option A) (P : A -> Prop) k l :
  (forall v a, g v = Some a -> P a) -> mapM g k = Some l -> Forall P l.
Proof.
  intros HP Hm. apply mapM_Some_1 in Hm. induction Hm; constructor; eauto.
Qed.

(** Takes apart a deserializer that succeeded. *)
Ltac de_inv H := repeat (let x := fresh "x" in let Hx := fresh "Hx" in apply bind_Some in H as (x & Hx & H)).

Lemma entry_leaf a e : e ∈ ar_entries a -> mkHolderEntry (ae_owner e) (ae_lp_balance e) ∈ artifact_leaves a.
Proof. intros He. apply list_elem_of_In, in_map_iff. exists e. by rewrite <- list_elem_of_In. Qed.

Section Codecs.
Context `{DataFormat, Base58} {DFL : DataFormatLaws} {BL : Base58Laws}.

#[local] Instance uint_codec w : w <= 64 -> Codec 0 (is_u w) of_uint (as_uint w).
Proof.
  intros Hw. constructor.
  - intros a Ha. constructor. by eapply is_u_mono.
  - by apply as_uint_of_uint.
  - apply as_uint_range.
Qed.

Lemma u32_codec : Codec 0 is_u32 of_uint (as_uint 32).
Proof. by apply uint_codec. Qed.
Lemma u64_codec : Codec 0 is_u64 of_uint (as_uint 64).
Proof. by apply uint_codec. Qed.

Lemma usize_codec : Codec 0 is_usize usize_value as_usize.
Proof.
  constructor.
  - intros n Hn. by constructor.
  - intros n Hn. unfold as_usize, usize_value. rewrite as_uint_of_uint by done. simpl. by rewrite Nat2Z.id.
  - intros v n Hn. unfold as_usize in Hn. de_inv Hn. injection Hn as <-.
    apply as_uint_range in Hx. unfold is_usize. rewrite Z2Nat.id; [done|]. by destruct Hx.
Qed.

Lemma hex32_codec : Codec 0 wf_hash hex32.serialize hex32.deserialize.
Proof.
  constructor.
  - intros h _. constructor.
  - intros h Hh. unfold hex32.deserialize, hex32.serialize. rewrite as_str_of_str. simpl.
    by rewrite decode_encode_hex.
  - intros v h Hd. unfold hex32.deserialize in Hd. de_inv Hd. case_match eqn:Hs; [|done].
    injection Hd as ->. by apply hex32_roundtrip in Hs as [? _].
Qed.

Lemma base58_codec : Codec 0 wf_key base58_pubkey.serialize base58_pubkey.deserialize.
Proof.
  constructor.
  - intros k _. constructor.
  - intros k Hk. unfold base58_pubkey.deserialize, base58_pubkey.serialize. rewrite as_str_of_str. simpl.
    by apply Pubkey_parses.
  - intros v k Hd. unfold base58_pubkey.deserialize in Hd. de_inv Hd. by eapply Pubkey_parsed.
Qed.

Lemma seq_codec {A} d (wf : A -> Prop) ser de : Codec d wf ser de ->
  Codec (S d) (Forall wf) (fun l => of_seq (map ser l)) (fun v => vs ← as_seq v; mapM de vs).
Proof.
  intros HC. constructor.
  - intros l Hl. constructor. apply Forall_map. eapply Forall_impl; [exact Hl|]. apply codec_written.
  - intros l Hl. rewrite as_seq_of_seq. simpl. apply mapM_map.
    eapply Forall_impl; [exact Hl|]. apply codec_reads.
  - intros v l Hd. de_inv Hd. eapply mapM_Forall; [|exact Hd]. apply codec_typed.
Qed.

Lemma vec_hex32_codec : Codec 1 (Forall wf_hash) vec_hex32.serialize vec_hex32.deserialize.
Proof.
  constructor.
  - intros l _. constructor. apply Forall_map, Forall_true. intros. constructor.
  - intros l Hl. unfold vec_hex32.deserialize, vec_hex32.serialize. rewrite as_seq_of_seq. simpl.
    rewrite <- (map_map encode_hex of_str), (mapM_map of_str).
    + simpl. apply mapM_map. eapply Forall_impl; [exact Hl|]. intros h Hh. by rewrite decode_encode_hex.
    + apply Forall_true. intros. apply as_str_of_str.
  - intros v l Hd. unfold vec_hex32.deserialize in Hd. de_inv Hd. eapply mapM_Forall; [|exact Hd].
    intros s h Hs. cbv beta in Hs. case_match eqn:Hdec; [|done]. injection Hs as ->. by apply hex32_roundtrip in Hdec as [? _].
Qed.

(** A struct with distinct field names, read back by those names. *)
Lemma struct_reads {A} (names : list string) (vs : list value) (k : list value -> option A) :
  NoDup names -> length names = length vs ->
  (fs ← as_struct names (of_struct (zip names vs)); k fs) = k vs.
Proof.
  intros Hnd Hlen. pose proof (as_struct_of_struct (zip names vs)) as Hs.
  rewrite fst_zip, snd_zip in Hs by lia. rewrite Hs by done. done.
Qed.

Lemma struct_written d (names : list string) (vs : list value) :
  NoDup names -> length names = length vs -> Forall (written d) vs -> written (S d) (of_struct (zip names vs)).
Proof.
  intros Hnd Hlen Hvs. constructor; [rewrite fst_zip by lia; done|rewrite snd_zip by lia; done].
Qed.

(** [apply struct_reads] and [apply struct_written] up to the zip. *)
Ltac names_distinct := apply (bool_decide_unpack _); vm_compute; exact I.

Ltac fields_written :=
  repeat (apply Forall_cons_2; [eapply written_mono; [|by eapply codec_written]; lia|]); apply Forall_nil_2.

Ltac fields_read :=
  cbv beta iota;
  rewrite ?(codec_reads (de := base58_pubkey.deserialize)), ?(codec_reads (de := hex32.deserialize)),
    ?(codec_reads (de := vec_hex32.deserialize)), ?(codec_reads (de := as_uint 64)),
    ?(codec_reads (de := as_usize)), ?(codec_reads (de := as_uint 32)) by done;
  cbn [mbind option_bind].

Ltac fields_typed :=
  repeat match goal with
  | Hd : ?de _ = Some _ |- _ => apply (codec_typed (de := de)) in Hd
  end.

#[local] Hint Extern 1 (Codec _ _ _ _) => (apply u64_codec || apply u32_codec || apply usize_codec
  || apply hex32_codec || apply base58_codec || apply vec_hex32_codec) : typeclass_instances.

(** One derived struct with its names, values and a destructor of the list. *)
Tactic Notation "struct_codec" uconstr(names) uconstr(vs) :=
  constructor;
  [ intros a Hwf; apply (struct_written _ names vs); [names_distinct|done|]
  | intros a Hwf; etrans; [apply (struct_reads names vs); [names_distinct|done]|]
  | intros v a Hd; apply bind_Some in Hd as (fs & _ & Hd);
    repeat (destruct fs as [|? fs]; [done|]);
    try (destruct fs; [|done]); de_inv Hd; injection Hd as <- ].

Lemma entry_codec : Codec 2 wf_document_entry serialize_entry deserialize_entry.
Proof.
  struct_codec ["owner"; "lp_balance"; "leaf"; "proof"]%string [_; _; _; _].
  - destruct Hwf as (Ho & Hb & Hl & Hp). fields_written.
  - destruct Hwf as (Ho & Hb & Hl & Hp). fields_read. by destruct a.
  - fields_typed. done.
Qed.

Lemma reconciliation_codec : Codec 1 wf_reconciliation serialize_reconciliation deserialize_reconciliation.
Proof.
  struct_codec ["enumerated_total"; "entries_total"; "sink_exclusions_total"]%string [_; _; _].
  - destruct Hwf as (He & Hn & Hx). fields_written.
  - destruct Hwf as (He & Hn & Hx). fields_read. by destruct a.
  - fields_typed. done.
Qed.

Lemma entries_codec : Codec 3 (Forall wf_document_entry) serialize_entries deserialize_entries.
Proof. apply seq_codec, entry_codec. Qed.

#[local] Hint Extern 2 (Codec _ _ _ _) =>
  (apply entries_codec || apply reconciliation_codec) : typeclass_instances.

Lemma document_codec : Codec 4 wf_document Json.serialize Json.deserialize.
Proof.
  struct_codec ["format_version"; "pool_address"; "amm_program_id"; "lp_mint"; "snapshot_slot";
    "lp_total_supply_at_snapshot"; "merkle_root"; "leaf_count"; "tree_depth"; "entries"; "reconciliation"]%string
    [_; _; _; _; _; _; _; _; _; _; _].
  - destruct Hwf as [Hv (Hp & Ha & Hm) (Hs & Hu) Hr (Hc & Hd) He Hx].
    apply (is_u_mono 32 64) in Hv; [|done]. fields_written.
  - destruct Hwf as [Hv (Hp & Ha & Hm) (Hs & Hu) Hr (Hc & Hd) He Hx]. fields_read.
    rewrite (codec_reads (de := deserialize_entries)) by done. cbn [mbind option_bind].
    rewrite (codec_reads (de := deserialize_reconciliation)) by done. by destruct a.
  - fields_typed. done.
Qed.

(** ** The text *)

Definition wf_owners (a : SnapshotArtifact) : Prop := Forall (fun e => wf_key (ae_owner e)) (ar_entries a).

Lemma wf_document_artifact a : wf_document a -> wf_artifact a.
Proof.
  intros [_ _ (_ & Hu) _ _ He (H1 & H2 & H3)]. constructor; try done.
  eapply Forall_impl; [exact He|]. by intros e (_ & ? & _).
Qed.

Lemma wf_document_owners a : wf_document a -> wf_owners a.
Proof. intros Hw. eapply Forall_impl; [apply Hw|]. by intros e (? & _). Qed.

(** Both texts exist, and both load, with or without the newline the command
    line puts behind them. *)
Lemma json_written a : wf_document a ->
  exists s p, to_json a = Ok s /\ to_json_pretty a = Ok p
  /\ Forall (fun t => from_json t = Ok a) [s; String.append s newline; p; String.append p newline].
Proof.
  intros Hw. pose proof document_codec as HC. pose proof (codec_written a Hw) as Hv.
  destruct (text_written _ _ Hv) as [s Hs]. destruct (text_written_pretty _ _ Hv) as [p Hp].
  exists s, p. unfold to_json, to_json_pretty. rewrite Hs, Hp. split_and!; [done..|].
  assert (Hd : (4 < RECURSION_LIMIT)%nat) by (unfold RECURSION_LIMIT; lia).
  destruct (text_loads _ _ s Hv Hd) as [L1 L2]; [by left|]. destruct (text_loads _ _ p Hv Hd) as [L3 L4]; [by right|].
  unfold from_json. repeat constructor; rewrite ?L1, ?L2, ?L3, ?L4; simpl; by rewrite (codec_reads a).
Qed.

Lemma from_json_typed s a : from_json s = Ok a -> wf_document a.
Proof.
  intros Hl. unfold from_json in Hl. apply ok_or_Ok, bind_Some in Hl as (v & _ & Hl).
  pose proof document_codec as HC. by apply codec_typed in Hl.
Qed.

(** A verified artifact of 32-byte keys fits its types: there are at most as
    many entries as LP tokens. *)
Lemma published_document `{Sha256} {SL : Sha256Laws} a :
  format_version a = ARTIFACT_FORMAT_VERSION -> published a -> wf_artifact a -> wf_owners a ->
  wf_key (ar_pool_address a) -> wf_key (ar_amm_program_id a) -> wf_key (ar_lp_mint a) ->
  is_u64 (ar_snapshot_slot a) -> wf_document a.
Proof.
  intros Hf Hp Hw Ho Kp Ka Km Hs.
  assert (Hlen : Z.of_nat (length (ar_entries a)) <= entries_total (ar_reconciliation a)).
  { rewrite <- (lc_entries _ (pb_ledger _ Hp)).
    assert (Hpos : Forall (fun e => 1 <= ae_lp_balance e) (ar_entries a)).
    { apply Forall_forall. intros e He.
      pose proof (proj1 (Forall_forall _ _) (can_positive _ (pb_canonical _ Hp)) _ (entry_leaf a e He)) as Hnz.
      pose proof (proj1 (Forall_forall _ _) (wa_balances _ Hw) _ He) as Hu. simpl in Hnz. ints. }
    clear -Hpos. induction Hpos; simpl; lia. }
  pose proof (wa_entries _ Hw) as Hu. destruct (pb_depth _ Hp) as [Hc Hd].
  pose proof (Nat.log2_up_le_lin (length (ar_entries a)) ltac:(lia)) as Hlog.
  constructor; try done.
  - rewrite Hf. by in_range.
  - by split; [|apply Hw].
  - destruct (pb_tree _ Hp) as (mt & _ & _ & <-). apply mroot_wf.
  - unfold is_usize. rewrite Hc, Hd. ints.
  - apply Forall_forall. intros e He. destruct (pb_proof _ Hp e He) as (Hl & Hh & _ & _).
    split_and!; [by apply (proj1 (Forall_forall _ _) Ho)|by apply (proj1 (Forall_forall _ _) (wa_balances _ Hw))| |done].
    rewrite Hl. apply sha256_length.
  - destruct Hw. done.
Qed.

(** C19. The document's text is its identity. Any artifact whose fields are what
    their Rust types hold can be written, compact or pretty; either text,
    and either text followed by a newline, loads as that very artifact, every
    owner, balance, leaf, proof element and total of it; and two artifacts with
    the same text are equal. *)
Theorem document_roundtrip a :
  wf_document a ->
  (exists s p, to_json a = Ok s /\ to_json_pretty a = Ok p
    /\ Forall (fun t => from_json t = Ok a) [s; String.append s newline; p; String.append p newline])
  /\ forall b, wf_document b -> to_json a = to_json b \/ to_json_pretty a = to_json_pretty b -> a = b.
Proof.
  intros Hw. pose proof (json_written a Hw) as (s & p & Hs & Hp & Hall). split; [by eauto|].
  intros b Hwb Heq. destruct (json_written b Hwb) as (s' & p' & Hs' & Hp' & Hall').
  rewrite Hs, Hp, Hs', Hp' in Heq. rewrite !Forall_cons in Hall, Hall'.
  destruct Hall as (Ls & _ & Lp & _), Hall' as (Ls' & _ & Lp' & _).
  destruct Heq as [[= <-]|[= <-]]; congruence.
Qed.

(** C28. What loads is typed, whoever wrote the text: its keys and hashes are 32
    bytes long and every number is within its width, so that the integrity
    check decides it without further assumption and can be trusted when it
    passes. And a document that loads has a canonical text: written again, it
    loads as itself. *)
Theorem loaded_document_typed `{Sha256} {SL : Sha256Laws} s a :
  from_json s = Ok a ->
  wf_document a
  /\ (verify_integrity a = Ok tt <->
      format_version a = ARTIFACT_FORMAT_VERSION /\ (exists tr, rederives a tr) /\ ledger_closes a)
  /\ (verify_integrity a = Ok tt -> published a)
  /\ exists t, to_json a = Ok t /\ from_json t = Ok a.
Proof.
  intros Hl. apply from_json_typed in Hl. pose proof (wf_document_artifact a Hl) as Hw.
  pose proof (verify_integrity_Ok a Hw) as Hv.
  split_and!; [done|done| |].
  - intros (_ & [tr Htr] & Hlc)%Hv. by eapply rederives_published.
  - destruct (json_written a Hl) as (t & p & Ht & _ & Hall). exists t. split; [done|].
    by apply Forall_inv in Hall.
Qed.
End Codecs.
