(* ===== verification/DocumentExamples.v ===== *)
(** * DocumentExamples: a data format and a document

    An instance of the format and of base58 that satisfies their laws: values
    are stdpp's generic trees, written as the bits of their code. *)

From stdpp Require Import countable.
From Stdlib Require Import Ascii String.
From S2P Require Import Prelude Bytes Solana Merkle Locker Snapshot Builder BuilderSpec Tree Artifact Document.

(** ** Bits *)

Fixpoint bits_of (p : positive) : string :=
  match p with
  | xH => EmptyString
  | xO p => String "0" (bits_of p)
  | xI p => String "1" (bits_of p)
  end.

(** Reads up to the first character that is no bit. *)
Fixpoint read_bits (s : string) : positive :=
  match s with
  | String "0" s => xO (read_bits s)
  | String "1" s => xI (read_bits s)
  | _ => xH
  end.

Lemma read_bits_of p rest : read_bits rest = xH -> read_bits (String.append (bits_of p) rest) = p.
Proof. intros Hr. induction p as [p IH|p IH|]; [exact (f_equal xI IH)|exact (f_equal xO IH)|exact Hr]. Qed.

Lemma append_nil s : String.append s EmptyString = s.
Proof. induction s as [|c s IH]; [done|exact (f_equal (String c) IH)]. Qed.

(** ** Values *)

Abbreviation tree := (gen_tree (string + Z)).

(** A struct's children: name, value, name, value, ... *)
Fixpoint fields_of (l : list tree) : list (string * tree) :=
  match l with
  | GenLeaf (inl name) :: v :: l => (name, v) :: fields_of l
  | _ => []
  end.
Definition children_of (fs : list (string * tree)) : list tree :=
  concat (map (fun f => [GenLeaf (inl f.1); f.2]) fs).

Lemma fields_children fs : fields_of (children_of fs) = fs.
Proof. induction fs as [|[n v] fs IH]; [done|]. unfold children_of in *. simpl. by rewrite IH. Qed.

Fixpoint field (name : string) (fs : list (string * tree)) : option tree :=
  match fs with
  | [] => None
  | (n, v) :: fs => if String.eqb n name then Some v else field name fs
  end.

Lemma field_found fs : NoDup fs.*1 -> mapM (fun n => field n fs) fs.*1 = Some fs.*2.
Proof.
  intros Hnd. apply mapM_Some_2.
  assert (Hall : forall gs, (forall n v, (n, v) ∈ gs -> field n fs = Some v) ->
    Forall2 (fun n v => field n fs = Some v) gs.*1 gs.*2).
  { induction gs as [|[n v] gs IH]; intros Hg; constructor; [apply Hg; left|].
    apply IH. intros n' v' Hin. apply Hg. by right. }
  apply Hall. clear Hall. induction fs as [|[m w] fs IH]; intros n v Hin; [by apply elem_of_nil in Hin|].
  simpl in *. apply NoDup_cons in Hnd as [Hm Hnd]. apply elem_of_cons in Hin as [[= -> ->]|Hin].
  - by rewrite String.eqb_refl.
  - rewrite (proj2 (String.eqb_neq m n)); [by apply IH|]. intros ->. apply Hm.
    apply list_elem_of_fmap. by exists (n, v).
Qed.

Definition toy_format : DataFormat := {|
  value := tree;
  of_str s := GenLeaf (inl s);
  of_uint n := GenLeaf (inr n);
  of_seq l := GenNode 0 l;
  of_struct fs := GenNode 1 (children_of fs);
  as_str v := match v with GenLeaf (inl s) => Some s | _ => None end;
  as_uint w v := match v with GenLeaf (inr n) => try_into_u w n | _ => None end;
  as_seq v := match v with GenNode 0 l => Some l | _ => None end;
  as_struct names v := match v with GenNode 1 l => mapM (fun n => field n (fields_of l)) names | _ => None end;
  serde_to_string v := Some (bits_of (encode v));
  serde_to_string_pretty v := Some (bits_of (encode v));
  serde_from_str s := decode (read_bits s);
  store_error _ := EmptyString;
  load_error _ := "no artifact"%string;
|}.

#[export] Instance toy_format_laws : DataFormatLaws (H := toy_format).
Proof.
  constructor; simpl; try done.
  - intros w n Hn. by apply try_into_u_Some.
  - intros w [[s|z]|k l] n Hn; try done. by apply try_into_u_Some in Hn as [-> ?].
  - intros fs Hnd. rewrite fields_children. by apply field_found.
  - by eauto.
  - by eauto.
  - intros d v s _ _ Hs. assert (s = bits_of (encode v)) as -> by (destruct Hs; congruence).
    rewrite <- (append_nil (bits_of (encode v))) at 1. by rewrite !read_bits_of, decode_encode.
Qed.

(** A pubkey as its bytes. *)
Definition toy_base58 : Base58 := {|
  Pubkey_to_string k := string_of_list_byte k;
  Pubkey_from_str s := let k := list_byte_of_string s in if bool_decide (wf_key k) then Some k else None;
|}.

#[export] Instance toy_base58_laws : Base58Laws (H := toy_base58).
Proof.
  constructor; simpl.
  - intros k Hk. by rewrite list_byte_of_string_of_list_byte, bool_decide_eq_true_2.
  - intros s k Hk. case_bool_decide; [|done]. by injection Hk as <-.
Qed.
