(* ===== verification/SnapshotTests.v ===== *)
(** * SnapshotTests: the snapshotter's own tests

    [snapshotter/src/{builder, locked, rpc, artifact}.rs]: the tests beside the
    code, the artifact's on SHA-256 itself. The filters' JSON is the client
    library's and is not replayed: the filters are. *)

From Stdlib Require Import Ascii String.
From S2P Require Import Prelude TestKit Bytes Solana Merkle Sha Snapshot Builder Tree Artifact Document DocumentExamples.

#[local] Existing Instance fips_sha256.

#[local] Instance SnapshotError_eq_dec : EqDecision SnapshotError.
Proof. solve_decision. Defined.
#[local] Instance custody_method_eq_dec : EqDecision CustodyMatchMethod.
Proof. solve_decision. Defined.
#[local] Instance filter_eq_dec : EqDecision RpcFilterType.
Proof. solve_decision. Defined.
#[local] Instance artifact_entry_eq_dec : EqDecision ArtifactEntry.
Proof. solve_decision. Defined.
#[local] Instance reconciliation_eq_dec : EqDecision Reconciliation.
Proof. solve_decision. Defined.
#[local] Instance artifact_eq_dec : EqDecision SnapshotArtifact.
Proof. solve_decision. Defined.

(** [matches!(err, ...)] *)
Definition fails_as {E A} (r : result E A) (is_it : E -> bool) : bool :=
  match r with Ok _ => false | Err e => is_it e end.
Definition on {E A} (r : result E A) (f : A -> bool) : bool := match r with Ok a => f a | Err _ => false end.

(** ** Fixtures *)

Definition acct (address owner : byte) (amount : Z) : TokenAccountSnapshot :=
  mkTokenAccountSnapshot (key_of address) (key_of owner) amount.
Definition lock (address_seed : byte) (global_id : Z) (owner : byte) (amount : Z) : TokenLockRecord :=
  mkTokenLockRecord (key_of address_seed) global_id amount (key_of owner).
Definition snapshot_request (lp_mint : Pubkey) : SnapshotRequest :=
  mkSnapshotRequest (key_of xaa) (key_of xab) lp_mint [] [].
Definition with_sinks (sinks : list Pubkey) (r : SnapshotRequest) : SnapshotRequest :=
  mkSnapshotRequest (rq_pool_address r) (rq_amm_program_id r) (rq_lp_mint r) sinks (custody_owner_overrides r).
Definition with_overrides (owners : list Pubkey) (r : SnapshotRequest) : SnapshotRequest :=
  mkSnapshotRequest (rq_pool_address r) (rq_amm_program_id r) (rq_lp_mint r) (sink_exclusions r) owners.

Definition build_from (slot supply : Z) (accounts : list TokenAccountSnapshot) (records : list TokenLockRecord)
    (request : SnapshotRequest) : result SnapshotError LpSnapshot :=
  @build (InMemorySource (rq_lp_mint request) slot supply accounts)
    (InMemoryLocks (key_of xaa) (rq_lp_mint request) records) request.

(** ** [builder.rs] *)

Definition entry (o : byte) (balance : Z) : HolderEntry := mkHolderEntry (key_of o) balance.

Definition closing_identity_holds_with_sinks_and_locks : bool :=
  on (build_from 42 10000 [acct x01 x10 6000; acct x02 x20 1000; acct x03 x30 3000]
        [lock x51 1 x40 2000; lock x52 2 x50 1000] (with_sinks [key_of x20] (snapshot_request (key_of x01))))
    (fun s =>
      same (enumerated_total (reconciliation s)) 10000
      && same (sink_exclusions_total (reconciliation s)) 1000
      && same (entries_total (reconciliation s)) 9000
      && same (sn_lp_total_supply s) 10000 && same (snapshot_slot s) 42
      && same (entries s) [entry x10 6000; entry x40 2000; entry x50 1000]
      && same (total_locked (locked s)) 3000
      && match custody (locked s) with
         | Some c => same (cr_balance c) 3000 && same (cr_method c) ExactBalanceMatch
         | None => false
         end).

Definition three_of_500 := [acct x01 x10 500; acct x02 x20 500; acct x03 x30 500].

Definition custody_ambiguity_fails_closed_without_override : bool :=
  refused_with (build_from 7 1500 three_of_500 [lock x51 1 x40 500] (snapshot_request (key_of x02)))
    (CustodyAmbiguous 500 3).

Definition custody_owner_override_resolves_ambiguity : bool :=
  on (build_from 7 1500 three_of_500 [lock x51 1 x40 500] (with_overrides [key_of x20] (snapshot_request (key_of x03))))
    (fun s =>
      match custody (locked s) with
      | Some c => same (cr_owner c) (key_of x20) && same (cr_method c) ExplicitOverride
      | None => false
      end
      && same (entries s) [entry x10 500; entry x30 500; entry x40 500]).

Definition custody_not_found_fails_closed : bool :=
  refused_with (build_from 7 1000 [acct x01 x10 400; acct x02 x20 600] [lock x51 1 x40 300]
    (snapshot_request (key_of x04))) (CustodyNotFound 300).

Definition lock_owner_matching_custody_owner_fails_closed : bool :=
  fails_as (build_from 7 1000 [acct x01 x10 300; acct x02 x30 700] [lock x51 1 x30 700]
    (snapshot_request (key_of x05))) (fun e => match e with LockOwnerIsCustody _ => true | _ => false end).

Definition custody_marked_as_sink_is_a_misconfiguration : bool :=
  refused_with (build_from 7 1000 [acct x01 x10 300; acct x02 x30 700] [lock x51 1 x40 700]
    (with_sinks [key_of x30] (snapshot_request (key_of x06)))) CustodyExcludedAsSink.

Definition supply_mismatch_fails_closed : bool :=
  refused_with (build_from 7 9999 [acct x01 x10 400; acct x02 x20 600] [] (snapshot_request (key_of x07)))
    (SupplyMismatch 9999 1000).

Definition zero_supply_yields_empty_snapshot_error : bool :=
  refused_with (build_from 7 0 [] [] (snapshot_request (key_of x08))) EmptySnapshot.

Definition lock_owner_also_holding_unlocked_lp_is_merged_into_one_entry : bool :=
  on (build_from 7 10000 [acct x01 x10 5000; acct x02 x20 3000; acct x03 x30 2000] [lock x51 1 x10 2000]
        (snapshot_request (key_of x09)))
    (fun s => same (entries s) [entry x10 7000; entry x20 3000]).

Lemma builder_tests_pass : all_pass [
  closing_identity_holds_with_sinks_and_locks; custody_ambiguity_fails_closed_without_override;
  custody_owner_override_resolves_ambiguity; custody_not_found_fails_closed;
  lock_owner_matching_custody_owner_fails_closed; custody_marked_as_sink_is_a_misconfiguration;
  supply_mismatch_fails_closed; zero_supply_yields_empty_snapshot_error;
  lock_owner_also_holding_unlocked_lp_is_merged_into_one_entry] = true.
Proof. run_suite. Qed.

(** ** [locked.rs] *)

Definition amm : Pubkey := key_of x07.
Definition mint : Pubkey := key_of x08.

Section LockTests.
#[local] Instance digest_pda : PdaDerivation := fun seeds prog => (sha256 (concat seeds ++ prog), 255).

(** The filler between the fields is zero. *)
Definition encode_lock (lock_global_id locked : Z) (lock_owner : Pubkey) : list byte :=
  uncx.TOKEN_LOCK_DISC ++ [xff] ++ amm ++ mint ++ le_bytes 8 lock_global_id ++ zeroes 25 ++ le_bytes 8 locked
  ++ lock_owner.

Definition parses_a_wellformed_record_and_pins_offsets : bool :=
  let id := 4242 in
  let address := uncx.token_lock_address id in
  on (parse_token_lock address (encode_lock id 123456 (key_of x01)) amm mint) (fun r =>
    same r (mkTokenLockRecord address id 123456 (key_of x01)))
  && same (uncx.LOCK_OWNER + 32)%nat uncx.TOKEN_LOCK_SIZE
  && same (uncx.CURRENT_LOCKED_AMOUNT + 8)%nat uncx.LOCK_OWNER.

Definition refused_lock (address : Pubkey) (data : list byte) (amm mint : Pubkey) (why : string) : bool :=
  fails_as (parse_token_lock address data amm mint) (fun e =>
    match e with LockRecordInvalid _ reason => String.eqb reason why | _ => false end).

Definition rejects_bad_size : bool :=
  refused_lock (uncx.token_lock_address 1) (zeroes (uncx.TOKEN_LOCK_SIZE - 1)) amm mint "size".
Definition rejects_bad_discriminator : bool :=
  let data := alter (fun b => Z_byte (Z.lxor (byte_Z b) 255)) 0%nat (encode_lock 1 10 (key_of x02)) in
  refused_lock (uncx.token_lock_address 1) data amm mint "discriminator".
Definition rejects_forged_pda_address : bool :=
  refused_lock (key_of xee) (encode_lock 1 10 (key_of x02)) amm mint "pda re-derivation".
Definition rejects_foreign_amm_binding : bool :=
  refused_lock (uncx.token_lock_address 1) (encode_lock 1 10 (key_of x02)) (key_of x77) mint "amm_id binding".
Definition rejects_foreign_mint_binding : bool :=
  refused_lock (uncx.token_lock_address 1) (encode_lock 1 10 (key_of x02)) amm (key_of x88) "lp_mint binding".
Definition pda_derivation_matches_explicit_find_program_address : bool :=
  same (uncx.token_lock_address 7)
    (fst (find_program_address [list_byte_of_string "uncx_locker"; le_bytes 8 7] uncx.PROGRAM_ID)).

Lemma locked_tests_pass : all_pass [
  parses_a_wellformed_record_and_pins_offsets; rejects_bad_size; rejects_bad_discriminator;
  rejects_forged_pda_address; rejects_foreign_amm_binding; rejects_foreign_mint_binding;
  pda_derivation_matches_explicit_find_program_address] = true.
Proof. run_suite. Qed.
End LockTests.

(** ** [rpc.rs] *)

Definition token_account_filters_have_the_documented_wire_shape : bool :=
  same (token_account_filters (key_of x05)) [DataSize 165; Memcmp 0 (key_of x05)].
Definition token_lock_filters_pin_all_four_constraints : bool :=
  same (token_lock_filters (key_of x06) (key_of x05))
    [DataSize 146; Memcmp 0 uncx.TOKEN_LOCK_DISC; Memcmp uncx.AMM_ID (key_of x06); Memcmp uncx.LP_MINT (key_of x05)].

Definition is_source_error (e : SnapshotError) : bool := match e with Source _ => true | _ => false end.

Definition parses_a_valid_spl_token_account : bool :=
  on (parse_spl_token_account (key_of x01) (key_of x05 ++ key_of x09 ++ le_bytes 8 777 ++ zeroes 93) (key_of x05))
    (fun parsed => same (tas_owner parsed) (key_of x09) && same (tas_amount parsed) 777).
Definition rejects_truncated_and_foreign_mint_token_accounts : bool :=
  fails_as (parse_spl_token_account (key_of x01) (zeroes 164) (key_of x05)) is_source_error
  && fails_as (parse_spl_token_account (key_of x01) (key_of x02 ++ zeroes 133) (key_of x05)) is_source_error.
Definition parses_mint_supply_and_rejects_bad_owners : bool :=
  let data := zeroes 36 ++ le_bytes 8 9999 ++ zeroes 38 in
  let mint_acct owner := mkAccountInfo (key_of x05) 1 data owner false in
  yields (parse_spl_mint_supply (mint_acct SPL_TOKEN_PROGRAM_ID) SPL_TOKEN_PROGRAM_ID) 9999
  && fails_as (parse_spl_mint_supply (mint_acct (key_of x03)) SPL_TOKEN_PROGRAM_ID) is_source_error.

Lemma rpc_tests_pass : all_pass [
  token_account_filters_have_the_documented_wire_shape; token_lock_filters_pin_all_four_constraints;
  parses_a_valid_spl_token_account; rejects_truncated_and_foreign_mint_token_accounts;
  parses_mint_supply_and_rejects_bad_owners] = true.
Proof. run_suite. Qed.

(** ** [artifact.rs]

    The text layer is the one of DocumentExamples.v. An edit of the JSON is the
    text of the edited artifact. *)

#[local] Existing Instance toy_format.
#[local] Existing Instance toy_base58.

Definition sealed_artifact : option (LpSnapshot * SnapshotArtifact) :=
  match build_from 123 8000 [acct x01 x10 4000; acct x02 x20 2500; acct x03 x50 500; acct x04 x40 1000]
          [lock x71 1 x60 1000] (with_sinks [key_of x50] (snapshot_request (key_of x01))) with
  | Ok snapshot =>
      match SnapshotMerkleTree.from_snapshot snapshot with
      | Ok tree => match seal snapshot tree with Ok a => Some (snapshot, a) | Err _ => None end
      | Err _ => None
      end
  | Err _ => None
  end.
Definition on_artifact (f : SnapshotArtifact -> bool) : bool :=
  match sealed_artifact with Some (_, a) => f a | None => false end.

Definition is_mismatch {A} (r : result failure A) : bool :=
  fails_as r (fun e => match e with Refused (ArtifactMismatch _) => true | _ => false end).

Definition seal_is_byte_deterministic_across_rebuilds : bool :=
  on_artifact (fun a => on_artifact (fun b =>
    on (to_json_pretty a) (fun json_a =>
      yields (to_json_pretty b) json_a && same (to_json a) (to_json b)
      && on (from_json json_a) (fun loaded => same loaded a && yields (to_json_pretty loaded) json_a)))).

Definition sealed_artifact_passes_verify_integrity : bool := on_artifact (fun a => is_ok (verify_integrity a)).

Definition seal_rejects_a_foreign_tree : bool :=
  match sealed_artifact, SnapshotMerkleTree.from_entries [entry x90 1111; entry x91 2222] with
  | Some (snapshot, _), Ok foreign_tree => is_mismatch (seal snapshot foreign_tree)
  | _, _ => false
  end.

Definition proof_lookup_finds_the_right_claimant : bool :=
  on_artifact (fun a =>
    match proof_for a (key_of x60) with Some e => same (ae_lp_balance e) 1000 | None => false end
    && same (proof_for a (key_of x99)) None && same (ar_tree_depth a) 2%nat
    && forallb (fun e => negb (same (ae_proof e) [])) (ar_entries a)
    && existsb (fun e => (length (ae_proof e) <? ar_tree_depth a)%nat) (ar_entries a)).

(** Edited, written and reloaded. *)
Definition with_integrity_fields (version : Z) (root : list byte) (es : list ArtifactEntry) (a : SnapshotArtifact)
    : SnapshotArtifact :=
  mkSnapshotArtifact version (ar_pool_address a) (ar_amm_program_id a) (ar_lp_mint a) (ar_snapshot_slot a)
    (ar_lp_total_supply a) root (ar_leaf_count a) (ar_tree_depth a) es (ar_reconciliation a).
Definition tampered (edit : SnapshotArtifact -> SnapshotArtifact) : bool :=
  on_artifact (fun a => on (to_json_pretty (edit a)) (fun json => on (from_json json) (fun loaded =>
    is_mismatch (verify_integrity loaded)))).

Definition bump_first (es : list ArtifactEntry) : list ArtifactEntry :=
  match es with
  | e :: es => mkArtifactEntry (ae_owner e) (ae_lp_balance e + 1) (ae_leaf e) (ae_proof e) :: es
  | [] => []
  end.
Definition verify_integrity_catches_a_tampered_balance : bool :=
  tampered (fun a => with_integrity_fields (format_version a) (merkle_root a) (bump_first (ar_entries a)) a).
Definition verify_integrity_catches_a_tampered_root : bool :=
  tampered (fun a => with_integrity_fields (format_version a) (zeroes 32) (ar_entries a) a).
Definition verify_integrity_catches_an_unsupported_format_version : bool :=
  tampered (fun a => with_integrity_fields 99 (merkle_root a) (ar_entries a) a).

Fixpoint upper (s : string) : string :=
  match s with
  | EmptyString => EmptyString
  | String c s =>
      let n := nat_of_ascii c in
      String (if (97 <=? n)%nat && (n <=? 122)%nat then ascii_of_nat (n - 32) else c) (upper s)
  end.
Fixpoint has_upper (s : string) : bool :=
  match s with
  | EmptyString => false
  | String c s => let n := nat_of_ascii c in ((65 <=? n)%nat && (n <=? 90)%nat) || has_upper s
  end.

Definition hex_codec_round_trips_and_is_strict : bool :=
  let bytes := [x00; x01; x0a; x0f; xa0; xff; x7f; x80] ++ zeroes 23 ++ [x01] in
  let encoded := encode_hex bytes in
  same (String.length encoded) 64%nat && negb (has_upper encoded)
  && yields (decode_hex32 encoded) bytes && yields (decode_hex32 (upper encoded)) bytes
  && fails (decode_hex32 EmptyString) && fails (decode_hex32 (substring 0 63 encoded))
  && fails (decode_hex32 (String.append encoded "0")) && fails (decode_hex32 (String.append (substring 0 63 encoded) "g")).

Lemma artifact_tests_pass : all_pass [
  seal_is_byte_deterministic_across_rebuilds; sealed_artifact_passes_verify_integrity;
  seal_rejects_a_foreign_tree; proof_lookup_finds_the_right_claimant;
  verify_integrity_catches_a_tampered_balance; verify_integrity_catches_a_tampered_root;
  verify_integrity_catches_an_unsupported_format_version; hex_codec_round_trips_and_is_strict] = true.
Proof. run_suite. Qed.
