(* ===== verification/Protocol.v ===== *)
(** * Protocol: the three programs together

    The chain a claim hangs on: the scanner certifies a pool twice, the
    snapshotter seals its LP holders, the vault salvages the certified pool
    against that seal and pays each holder. Nothing here is new code; the
    theorems are about the components' composition. *)

From S2P Require Import Prelude Bytes Solana Criteria Attestation Adapters Locker ScannerState Scanner.
From S2P Require Import Runtime Merkle VaultState AmmCpi Salvage SalvageSpec Vault VaultInv VaultSpec Payout.
From S2P Require Import Snapshot Builder BuilderSpec Tree Artifact Document.

(** ** Where anchors and certificates come from *)

Section Provenance.
Context `{PdaDerivation}.

(** The anchor was written by a Phase 1 that held in some reachable state. *)
Definition anchor_origin (k : PoolKey) (e : Z) : Prop :=
  exists env pool params st0 cfg l clock,
    scanner_reachable st0 /\ wf_env env /\ pool_key params = k
    /\ phase1_ready env pool params st0 cfg l clock /\ clock_epoch clock = e.

(** The cert was written by a Phase 2 that held in some reachable state, over an
    anchor with an origin of its own. *)
Definition cert_origin (k : PoolKey) (c : EligibilityCert) : Prop :=
  exists writer env pool params st0 cfg l clock anchor old,
    scanner_reachable st0 /\ wf_env env /\ pool_key params = k
    /\ phase2_ready env pool params st0 cfg l clock anchor old
    /\ c = new_cert writer params clock cfg anchor old
    /\ anchor_origin k (first_eligible_epoch anchor).

Definition provenance (st : ScannerState) : Prop :=
  map_Forall (fun k a => anchor_origin k (first_eligible_epoch a)) (sc_anchors st)
  /\ map_Forall cert_origin (sc_certs st).

Lemma provenance_effect env who st st' :
  wf_env env -> scanner_reachable st -> provenance st -> scanner_effect env who st st' -> provenance st'.
Proof.
  intros Hwe Hr [Ha Hc] He.
  destruct He as [cfg|cfg cfg'|cfg k l|writer pool params cfg l clock Hp _|
    writer pool params cfg l clock anchor old Hp _|cfg k a|cfg k a clock];
    split; simpl; try done.
  - apply map_Forall_insert_2; [|done]. by exists env, pool, params, st, cfg, l, clock.
  - apply map_Forall_insert_2; [|done].
    exists writer, env, pool, params, st, cfg, l, clock, anchor, old.
    split_and!; try done. by apply Ha, (p2_anchor _ _ _ _ _ _ _ _ _ Hp).
  - apply map_Forall_insert_2; [|done]. simpl. by apply Ha.
  - by apply map_Forall_delete.
Qed.

Lemma reachable_provenance st : scanner_reachable st -> provenance st.
Proof.
  induction 1 as [|st evs st' Hr IH Hs].
  - split; apply map_Forall_empty.
  - destruct Hs as [env ix st st' evs Hwe Hwi Hx]. eapply (provenance_effect env); [done..|].
    eapply scanner_exec_effect; [done..|by apply scanner_reachable_inv|done].
Qed.
End Provenance.

(** ** A salvaged pool was found derelict twice *)

Section Salvaged.
Context `{PdaDerivation, Runtime}.

(** C6. A salvage rests on two independent verdicts. If [salvage_pool] succeeds
    against the certificates of a reachable scanner state, then for this very
    (AMM program, pool) pair the full verification stack of the scanner (oracle
    attestation, Raydium snapshot, locker evidence and the six criteria) held
    once at an epoch [e1], in a Phase 1, and again at an epoch at least two
    later, in a Phase 2 with the pool's anchor not invalidated; and the salvage
    runs before the time-to-live of the certificate issued then has passed. *)
Theorem salvage_twice_certified sst ctx params st st' evs :
  scanner_reachable sst -> sx_certs ctx = sc_certs sst ->
  salvage_pool ctx params st = Ok (st', evs) ->
  let k := (sp_amm_program_id params, sp_pool_address params) in
  exists clock env pool prm sst0 cfg l ck anchor old,
    sx_clock ctx = Some clock
    /\ anchor_origin k (first_eligible_epoch anchor)
    /\ scanner_reachable sst0 /\ wf_env env /\ pool_key prm = k
    /\ phase2_ready env pool prm sst0 cfg l ck anchor old
    /\ first_eligible_epoch anchor + MIN_EPOCH_CONFIRMATION <= clock_epoch ck
    /\ clock_unix_timestamp clock < clock_unix_timestamp ck + cfg_cert_ttl_seconds cfg.
Proof.
  intros Hr Hcerts Hs k. apply salvage_pool_traced in Hs as (t & Ht & _ & _).
  pose proof (traced_admissible _ _ _ _ Ht) as Ha.
  pose proof (ad_cert _ _ _ _ _ _ Ha) as Hc. rewrite Hcerts in Hc.
  destruct (proj2 (reachable_provenance _ Hr) _ _ Hc)
    as (writer & env & pool & prm & sst0 & cfg & l & ck & anchor & old & Hr0 & Hwe & Hk & Hp & Heq & Ho).
  exists (tr_clock t), env, pool, prm, sst0, cfg, l, ck, anchor, old.
  split_and!; try done.
  - by apply (ad_clock _ _ _ _ _ _ Ha).
  - destruct (p2_evidence _ _ _ _ _ _ _ _ _ Hp) as (ts & pd & pr & He).
    destruct (d_confirmed _ _ _ (pe_derelict _ _ _ _ _ _ _ _ _ _ _ He) eq_refl) as (e & He1 & He2).
    simpl in He1, He2. by injection He1 as <-.
  - pose proof (ad_live _ _ _ _ _ _ Ha) as Hl. by rewrite Heq in Hl.
Qed.

(** Both programs read one pool: when the scanner's view of the pool account
    and the vault's salvage are over the same account data, the LP mint the
    vault burns is the one the scanner checked for locks and supply, and the
    scanner's base and quote mints are the salvaged memecoin and WSOL in one of
    the two orders. *)
Theorem scanner_and_vault_read_one_pool ctx params st st' evs pool ras pd :
  salvage_pool ctx params st = Ok (st', evs) ->
  raydium_view pool ras pd -> ai_data pool = ai_data (sx_pool ctx) ->
  sx_lp_mint ctx = lp_mint pd
  /\ ((base_mint pd, quote_mint pd) = (WSOL_MINT, sx_memecoin_mint ctx)
      \/ (base_mint pd, quote_mint pd) = (sx_memecoin_mint ctx, WSOL_MINT)).
Proof.
  intros Hs Hv Hd. destruct (salvage_binds _ _ _ _ _ Hs) as (b & Hlp & Hm).
  rewrite (rv_base_mint _ _ _ Hv), (rv_quote_mint _ _ _ Hv), (rv_lp_mint _ _ _ Hv), Hd.
  change (Adapters.COIN_VAULT_MINT) with 400%nat. change (Adapters.PC_VAULT_MINT) with 432%nat.
  split; [done|]. destruct b; injection Hm as -> ->; auto.
Qed.
End Salvaged.

(** ** Leaf sets and balances *)

Section Leaves.

Lemma canonical_NoDup l : canonical l -> NoDup (map owner l).
Proof.
  intros [_ Hs _]. revert Hs. induction (map owner l) as [|k ks IH]; [constructor|].
  intros Hs. inversion_clear Hs as [|? ? Hs' Hall]. constructor; [|by apply IH].
  intros Hk. rewrite Forall_forall in Hall. by apply (bytes_lt_ne k k (Hall k Hk)).
Qed.

Lemma balance_of_cons e l o :
  balance_of (e :: l) o = (if decide (owner e = o) then lp_balance e else 0) + balance_of l o.
Proof. unfold balance_of. rewrite filter_cons. by destruct (decide _). Qed.

Lemma balance_of_notin l o : o ∉ map owner l -> balance_of l o = 0.
Proof.
  induction l as [|e l IH]; [done|]. simpl. rewrite not_elem_of_cons, balance_of_cons.
  intros [Hne Hn]. by rewrite decide_False, IH.
Qed.

(** In a canonical leaf set an owner's balance is its one leaf. *)
Lemma balance_of_leaf l o b :
  canonical l -> b <> 0 -> balance_of l o = b <-> mkHolderEntry o b ∈ l.
Proof.
  intros Hc Hb. apply canonical_NoDup in Hc. induction l as [|e l IH].
  - split; [intros H0; by destruct Hb|by intros ?%elem_of_nil].
  - simpl in Hc. inversion_clear Hc as [|? ? Hn Hnd]. specialize (IH Hnd).
    rewrite balance_of_cons, elem_of_cons. destruct (decide (owner e = o)) as [<-|Hne].
    + rewrite (balance_of_notin _ _ Hn), Z.add_0_r. split.
      * intros <-. left. by destruct e.
      * intros [Heq|Hin]; [by rewrite <- Heq|]. destruct Hn. apply list_elem_of_In, in_map_iff.
        exists (mkHolderEntry (owner e) b). by rewrite <- list_elem_of_In.
    + rewrite Z.add_0_l, IH. split; [by right|]. intros [Heq|]; [|done]. by rewrite <- Heq in Hne.
Qed.

(** The document's lookup finds an owner's balance, and only that. *)
Lemma sealed_lookup `{Sha256} sn tr a o :
  canonical (entries sn) -> sealed_from sn tr a -> published a ->
  (balance_of (entries sn) o <> 0 ->
     exists e, proof_for a o = Some e /\ e ∈ ar_entries a /\ ae_owner e = o
       /\ ae_lp_balance e = balance_of (entries sn) o)
  /\ (balance_of (entries sn) o = 0 -> proof_for a o = None).
Proof.
  intros Hc Hsf Hp. split.
  - intros Hne. assert (Hbal := eq_refl (balance_of (entries sn) o)).
    apply balance_of_leaf in Hbal; [|done..]. apply list_elem_of_lookup in Hbal as [i Hi].
    destruct (sf_entries _ _ _ Hsf i _ Hi) as (e & He & Ho & Hbe & _). apply list_elem_of_lookup_2 in He.
    exists e. split_and!; try done. by apply proof_for_spec.
  - intros Hz. destruct (proof_for a o) as [e|] eqn:He; [|done]. exfalso.
    apply proof_for_spec in He as [He Ho]; [|done].
    assert (Hin : mkHolderEntry o (ae_lp_balance e) ∈ entries sn).
    { rewrite <- (sf_leaves _ _ _ Hsf). apply list_elem_of_In, in_map_iff. exists e.
      by rewrite Ho, <- list_elem_of_In. }
    assert (Hpos : ae_lp_balance e <> 0).
    { by apply (proj1 (Forall_forall _ _) (can_positive _ Hc) _ Hin). }
    apply (balance_of_leaf _ _ _ Hc Hpos) in Hin. congruence.
Qed.

(** Every leaf of a faithful snapshot belongs to an enumerated owner or to the
    beneficiary of a lock. *)
Lemma faithful_owner request supply accounts records sn e :
  faithful_snapshot request supply accounts records sn -> e ∈ entries sn ->
  owner e ∈ map tas_owner accounts \/ owner e ∈ map lock_owner records.
Proof.
  intros Hf He. pose proof (fs_canonical _ _ _ _ _ Hf) as Hc.
  assert (Hpos : lp_balance e <> 0).
  { by apply (proj1 (Forall_forall _ _) (can_positive _ Hc)). }
  assert (Hbal : balance_of (entries sn) (owner e) = lp_balance e).
  { apply balance_of_leaf; [done|done|]. by destruct e. }
  rewrite (fs_balance _ _ _ _ _ Hf) in Hbal.
  destruct (decide (owner e ∈ map tas_owner accounts)) as [|Ha]; [by left|]. right. apply dec_stable. intros Hr.
  apply Hpos. rewrite <- Hbal. unfold held, locked_for. rewrite !sum_for_notin; [by destruct (decide _)|..].
  - unfold lock_pairs. by rewrite map_map.
  - unfold account_pairs. by rewrite map_map.
Qed.
End Leaves.

(** ** From a published document to lamports *)

Section Paid.
Context `{PdaDerivation} `{HR : Runtime} {HRL : RuntimeLaws} `{HS : Sha256} {HSL : Sha256Laws}.
Variable P : Pubkey -> Prop.
Variable known : list byte -> Prop.

(** The registry a salvage wrote for the document's root and supply. *)
Definition sealed_into (r : PoolRegistry) (a : SnapshotArtifact) : Prop :=
  lp_snapshot_merkle_root r = merkle_root a /\ lp_total_supply_at_snapshot r = ar_lp_total_supply a.

(** What the document's tree hashes is among the known strings. *)
Definition tree_known (a : SnapshotArtifact) : Prop :=
  forall mt, merkle_tree_of (artifact_leaves a) = Some mt -> Forall known (mpreimages mt).

Lemma published_honest a r :
  wf_artifact a -> wf_owners a -> published a -> tree_known a -> sealed_into r a ->
  exists mt, honest_snapshot known r mt /\ mleaves mt = map entry_pair (artifact_leaves a).
Proof.
  intros Hw Ho Hp Hk [Hroot Hsup]. destruct (pb_tree _ Hp) as (mt & Hmt & Hm & Hr). exists mt. split; [|done].
  assert (Hpairs : map entry_pair (artifact_leaves a) = map (fun e => (ae_owner e, ae_lp_balance e)) (ar_entries a)).
  { unfold artifact_leaves. by rewrite map_map. }
  constructor.
  - by rewrite Hroot, Hr.
  - rewrite Hm, Hpairs. apply Forall_map, Forall_forall. intros e He. split; simpl.
    + by apply (proj1 (Forall_forall _ _) Ho).
    + by apply (proj1 (Forall_forall _ _) (wa_balances _ Hw)).
  - unfold balances_total. rewrite Hm, Hpairs, map_map, Hsup.
    change (sum_Z (map ae_lp_balance (ar_entries a)) <= ar_lp_total_supply a).
    destruct (pb_ledger _ Hp) as [H1 H2 H3]. rewrite H1, <- H3, <- H2.
    destruct (wa_sinks _ Hw). lia.
  - by apply Hk.
Qed.

Lemma entry_pays st p r a e ck :
  lp_vaults_distinct P -> vault_reachable P known st -> collision_free known ->
  vs_registries st !! p = Some r -> sealed_into r a ->
  wf_artifact a -> wf_owners a -> published a -> tree_known a ->
  e ∈ ar_entries a -> vs_claims st !! (p, ae_owner e) = None ->
  exists st',
    claim_lp_proceeds (Some ck) (ae_owner e) (mkClaimLpProceedsParams p (ae_lp_balance e) (ae_proof e)) st
      = Ok (st', [LpClaimProcessed p (ae_owner e) (owed r (ae_lp_balance e))])
    /\ vs_claims st' !! (p, ae_owner e) <> None
    /\ forall k, lamports (vs_ledger st') k = lamports (vs_ledger st) k
         - to_account (lp_holder_pool_vault p) (owed r (ae_lp_balance e)) k
         + to_account (ae_owner e) (owed r (ae_lp_balance e)) k.
Proof.
  intros HD Hst Hcf Hr Hsi Hw Ho Hp Hk He Hfresh.
  destruct (published_honest a r Hw Ho Hp Hk Hsi) as (mt & Hh & Hm).
  destruct (pb_proof _ Hp e He) as (Hleaf & _ & _ & Hv).
  assert (Hin : mkHolderEntry (ae_owner e) (ae_lp_balance e) ∈ artifact_leaves a).
  { apply list_elem_of_In, in_map_iff. exists e. by rewrite <- list_elem_of_In. }
  apply (honest_claim_pays P known st p r mt); try done.
  - rewrite Hm. apply list_elem_of_In, in_map_iff. eexists. rewrite <- list_elem_of_In. by split; [|exact Hin].
  - assert (ae_lp_balance e <> 0).
    { by apply (proj1 (Forall_forall _ _) (can_positive _ (pb_canonical _ Hp)) _ Hin). }
    destruct (proj1 (Forall_forall _ _) (wa_balances _ Hw) e He). lia.
  - destruct Hsi as [-> _]. by rewrite <- Hleaf.
Qed.

(** A verified document is worth what it says: take any document that passes
    [verify_integrity], and any reachable vault state with a salvaged pool whose
    recorded root and supply are the document's. Then every entry not yet
    claimed pays: submitting that entry's balance and published proof succeeds,
    and moves exactly [floor(total * balance / supply)] lamports from the pool's
    LP-holder account to the entry's owner. *)
Theorem published_entries_pay st p r a e ck :
  lp_vaults_distinct P -> vault_reachable P known st -> collision_free known ->
  vs_registries st !! p = Some r -> sealed_into r a ->
  wf_artifact a -> wf_owners a -> verify_integrity a = Ok tt -> tree_known a ->
  e ∈ ar_entries a -> vs_claims st !! (p, ae_owner e) = None ->
  exists st',
    claim_lp_proceeds (Some ck) (ae_owner e) (mkClaimLpProceedsParams p (ae_lp_balance e) (ae_proof e)) st
      = Ok (st', [LpClaimProcessed p (ae_owner e) (owed r (ae_lp_balance e))])
    /\ vs_claims st' !! (p, ae_owner e) <> None
    /\ forall k, lamports (vs_ledger st') k = lamports (vs_ledger st) k
         - to_account (lp_holder_pool_vault p) (owed r (ae_lp_balance e)) k
         + to_account (ae_owner e) (owed r (ae_lp_balance e)) k.
Proof.
  intros HD Hst Hcf Hr Hsi Hw Ho Hv Hk He Hfresh. apply (entry_pays st p r a e ck); try done.
  apply verify_integrity_Ok in Hv as (_ & [tr Htr] & Hl); [|done]. by eapply rederives_published.
Qed.

(** The ticket an entry of the document is. *)
Definition ticket_of (e : ArtifactEntry) : Ticket := mkTicket (ae_owner e) (ae_lp_balance e) (ae_proof e).

(** What verifying the document's own proofs hashes is among the known strings. *)
Definition proofs_known (a : SnapshotArtifact) : Prop :=
  Forall (fun e => Forall known (path_preimages (ae_owner e) (ae_lp_balance e) (ae_proof e))) (ar_entries a).

Lemma entry_payable a r mt e :
  wf_artifact a -> published a -> proofs_known a -> sealed_into r a ->
  mleaves mt = map entry_pair (artifact_leaves a) ->
  signed_externally P [ae_owner e] -> e ∈ ar_entries a -> payable P known r mt (ticket_of e).
Proof.
  intros Hw Hp Hk [Hroot _] Hm Hsig He. pose proof (entry_leaf a e He) as Hin.
  destruct (pb_proof _ Hp e He) as (Hleaf & Hwf & _ & Hv). constructor; simpl; try done.
  - rewrite Hm. apply list_elem_of_In, in_map_iff. eexists. rewrite <- list_elem_of_In. by split; [|exact Hin].
  - assert (ae_lp_balance e <> 0) by apply (proj1 (Forall_forall _ _) (can_positive _ (pb_canonical _ Hp)) _ Hin).
    destruct (proj1 (Forall_forall _ _) (wa_balances _ Hw) e He). lia.
  - by rewrite Hroot, <- Hleaf.
  - by apply (proj1 (Forall_forall _ _) Hk).
Qed.

(** A document that passes the integrity check can be paid out to the last
    entry. In any reachable vault state whose registry for the pool carries the
    document's root and supply and from which none of the entries has claimed,
    the entries claim with the published proofs one after the other, in
    whatever order, and every claim succeeds; each owner receives exactly the
    floor of its share, out of the pool's account and out of nothing else. Of
    what was never claimed before, only the sinks' share and less than one
    lamport per entry stays behind. *)
Theorem document_pays_everyone st p r a l ck :
  lp_vaults_distinct P -> vault_reachable P known st -> collision_free known ->
  vs_registries st !! p = Some r -> sealed_into r a ->
  wf_artifact a -> wf_owners a -> verify_integrity a = Ok tt -> tree_known a -> proofs_known a ->
  Forall (fun e => signed_externally P [ae_owner e] /\ vs_claims st !! (p, ae_owner e) = None) (ar_entries a) ->
  l ≡ₚ map ticket_of (ar_entries a) ->
  exists st', run_claims ck p l st
      = Ok (st', map (fun x => LpClaimProcessed p (tk_holder x) (ticket_owed r x)) l)
    /\ paid_out P known ck p r l st st'
    /\ (lp_holder_pool_claimed_lamports r = 0 -> 0 < ar_lp_total_supply a ->
        forall r1, vs_registries st' !! p = Some r1 ->
        ar_lp_total_supply a * remaining_lamports r1
        <= lp_holder_pool_total_lamports r * sink_exclusions_total (ar_reconciliation a)
           + Z.of_nat (length (ar_entries a)) * (ar_lp_total_supply a - 1)).
Proof.
  intros HD Hst Hcf Hr Hsi Hw Ho Hv Hk Hpk Hall Hl.
  apply verify_integrity_Ok in Hv as (_ & [tr Htr] & Hlc); [|done].
  pose proof (rederives_published _ _ Htr Hlc) as Hp.
  destruct (published_honest a r Hw Ho Hp Hk Hsi) as (mt & Hh & Hm).
  rewrite Forall_forall in Hall.
  destruct (run_claims_paid P known HD Hcf ck p r mt l st) as (st' & Hrun & Hpo); try done.
  - rewrite Hl, map_map. pose proof (canonical_NoDup _ (pb_canonical _ Hp)) as Hnd.
    unfold artifact_leaves in Hnd. by rewrite map_map in Hnd.
  - rewrite Hl. apply Forall_map, Forall_forall. intros e He.
    apply (entry_payable a r mt); try done. by apply Hall.
  - rewrite Hl. apply Forall_map, Forall_forall. intros e He. by apply Hall.
  - exists st'. split_and!; [done..|]. intros H0 Hs r1 Hr1.
    pose proof (remaining_bound P known HD _ _ _ _ _ _ Hpo H0 ltac:(by destruct Hsi as [_ ->]) r1 Hr1) as Hb.
    destruct Hsi as [_ Hsup]. rewrite Hsup in Hb. rewrite Hl, length_map in Hb.
    assert (Hbal : balances_of (map ticket_of (ar_entries a)) = entries_total (ar_reconciliation a)).
    { destruct Hlc as [H1 _ _]. rewrite <- H1. unfold balances_of. by rewrite map_map. }
    destruct Hlc as [_ H2 H3]. rewrite Hbal in Hb. nia.
Qed.

(** C3. The text of a document can be paid out to the last entry. Take any text
    that loads as an artifact, whoever wrote it, and passes the integrity check.
    In any reachable vault state whose registry for the pool carries the
    artifact's root and supply and from which none of the entries has claimed,
    the entries claim with the published proofs one after the other, in
    whatever order, and every claim succeeds; each owner receives exactly the
    floor of its share, out of the pool's account and out of nothing else. Of
    what was never claimed before, only the sinks' share and less than one
    lamport per entry stays behind. *)
Theorem published_text_pays_everyone `{DataFormat, Base58} {DFL : DataFormatLaws} {BL : Base58Laws}
    text st p r a l ck :
  from_json text = Ok a -> verify_integrity a = Ok tt ->
  lp_vaults_distinct P -> vault_reachable P known st -> collision_free known ->
  vs_registries st !! p = Some r -> sealed_into r a -> tree_known a -> proofs_known a ->
  Forall (fun e => signed_externally P [ae_owner e] /\ vs_claims st !! (p, ae_owner e) = None) (ar_entries a) ->
  l ≡ₚ map ticket_of (ar_entries a) ->
  exists st', run_claims ck p l st
      = Ok (st', map (fun x => LpClaimProcessed p (tk_holder x) (ticket_owed r x)) l)
    /\ paid_out P known ck p r l st st'
    /\ (lp_holder_pool_claimed_lamports r = 0 -> 0 < ar_lp_total_supply a ->
        forall r1, vs_registries st' !! p = Some r1 ->
        ar_lp_total_supply a * remaining_lamports r1
        <= lp_holder_pool_total_lamports r * sink_exclusions_total (ar_reconciliation a)
           + Z.of_nat (length (ar_entries a)) * (ar_lp_total_supply a - 1)).
Proof.
  intros Hl Hv HD Hst Hcf Hr Hsi. apply from_json_typed in Hl.
  eapply document_pays_everyone; eauto using wf_document_artifact, wf_document_owners.
Qed.

Lemma sealed_owners request supply accounts records sn tr a :
  faithful_snapshot request supply accounts records sn -> sealed_from sn tr a ->
  Forall wf_key (map tas_owner accounts) -> Forall wf_key (map lock_owner records) -> wf_owners a.
Proof.
  intros Hf Hs Ha Hr. apply Forall_forall. intros e He.
  assert (Hin : mkHolderEntry (ae_owner e) (ae_lp_balance e) ∈ entries sn).
  { rewrite <- (sf_leaves _ _ _ Hs). apply list_elem_of_In, in_map_iff. exists e.
    by rewrite <- list_elem_of_In. }
  rewrite Forall_forall in Ha, Hr.
  destruct (faithful_owner _ _ _ _ _ _ Hf Hin) as [Ho|Ho]; auto.
Qed.

(** C2. The protocol's promise to an LP holder, end to end. The snapshotter
    enumerates the pool's LP accounts and locks, builds, seals; the vault's
    registry carries the sealed root and supply. Then every owner that is
    neither a declared sink nor the custody account, and that held or had locked
    any LP, finds an entry in the document for exactly its unlocked plus locked
    balance, and as long as it has not claimed, claiming with the published
    proof succeeds and pays the pro-rata floor of the pool's proceeds. *)
Theorem lp_holder_gets_paid `{LpAccountSource, LockedLpEvidence}
    request supply accounts records sn tr a st p r o ck :
  serves request supply accounts records -> wf_served supply accounts records ->
  Forall wf_key (map tas_owner accounts) -> Forall wf_key (map lock_owner records) ->
  build request = Ok sn -> seal sn tr = Ok a ->
  lp_vaults_distinct P -> vault_reachable P known st -> collision_free known -> tree_known a ->
  vs_registries st !! p = Some r -> sealed_into r a ->
  o ∉ sink_exclusions request -> custody_owner sn <> Some o ->
  held accounts o + locked_for records o <> 0 -> vs_claims st !! (p, o) = None ->
  let b := held accounts o + locked_for records o in
  exists e st', proof_for a o = Some e /\ ae_lp_balance e = b
    /\ claim_lp_proceeds (Some ck) o (mkClaimLpProceedsParams p b (ae_proof e)) st
       = Ok (st', [LpClaimProcessed p o (owed r b)])
    /\ forall k, lamports (vs_ledger st') k = lamports (vs_ledger st) k
         - to_account (lp_holder_pool_vault p) (owed r b) k + to_account o (owed r b) k.
Proof.
  intros Hserves Hwf Hko Hkr Hb Ha HD Hst Hcf Htk Hr Hsi Hns Hnc Hpos Hfresh b.
  pose proof (build_faithful _ _ _ _ _ Hserves Hwf Hb) as Hf.
  pose proof (seal_sealed _ _ _ Ha) as Hsf. pose proof (sealed_rederives _ _ _ Ha) as Hrd.
  destruct (sealed_wf _ _ _ _ _ _ _ Hwf Hf Hsf) as [Hwa Hl].
  pose proof (rederives_published _ _ Hrd Hl) as Hp.
  assert (Hbal : balance_of (entries sn) o = b).
  { rewrite (fs_balance _ _ _ _ _ Hf), decide_False; [done|]. by intros [?|?]. }
  destruct (sealed_lookup sn tr a o (fs_canonical _ _ _ _ _ Hf) Hsf Hp) as [Hfind _].
  rewrite Hbal in Hfind. destruct (Hfind Hpos) as (e & Hpf & He & Ho & Hbe).
  pose proof (sealed_owners _ _ _ _ _ _ _ Hf Hsf Hko Hkr) as Hwo.
  destruct (entry_pays st p r a e ck) as (st' & Hc & _ & Hlam); try done; [by rewrite Ho|].
  rewrite Ho, Hbe in Hc, Hlam. by exists e, st'.
Qed.

(** C18. Nobody else gets paid: an accepted proof of (holder, balance) against the
    root of a document that passes [verify_integrity] is a proof of an entry of the document, or it exhibits a
    SHA-256 collision between a string the verifier hashed and a string the
    tree was built from. *)
Theorem published_root_is_exact a holder balance proof :
  verify_integrity a = Ok tt -> wf_artifact a -> wf_owners a ->
  wf_entry (holder, balance) -> Forall wf_hash proof ->
  verify_proof (merkle_root a) (Merkle.compute_leaf holder balance) proof = true ->
  mkHolderEntry holder balance ∈ artifact_leaves a
  \/ exists mt, merkle_tree_of (artifact_leaves a) = Some mt
       /\ collision (path_preimages holder balance proof) (mpreimages mt).
Proof.
  intros Hi Hw Ho He Hh Hv.
  apply verify_integrity_Ok in Hi as (_ & [tr Htr] & Hl); [|done].
  pose proof (rederives_published _ _ Htr Hl) as Hp. destruct (pb_tree _ Hp) as (mt & Hmt & Hm & Hr).
  apply bool_decide_eq_true in Hv. rewrite <- Hr in Hv.
  destruct (member_or_collision mt holder balance proof) as [Hin|Hc]; [|done..| |right; eauto].
  - rewrite Hm. unfold artifact_leaves. rewrite map_map. apply Forall_map, Forall_forall. intros e Hin.
    split; [by apply (proj1 (Forall_forall _ _) Ho)|by apply (proj1 (Forall_forall _ _) (wa_balances _ Hw))].
  - left. rewrite Hm in Hin. apply list_elem_of_In, in_map_iff in Hin as ([h b] & [= -> ->] & Hin).
    by rewrite list_elem_of_In.
Qed.
End Paid.
