(* ===== verification/Cli.v ===== *)
(** * Cli: the snapshotter binary

    [snapshotter/src/bin/grave-snapshotter-cli.rs]: the argument parser and the
    run from the node's answers to the file. Base58 and JSON are Document.v's
    parameters; the node behind the URL and the file system are a [Host]. What the binary prints on stderr is not modelled, but for the values
    of its closing line. *)

From Stdlib Require Import Ascii String.
From S2P Require Import Prelude Bytes Solana Merkle Locker Snapshot Builder BuilderSpec Tree Artifact Document Protocol.

Record Args := mkArgs {
  url : string;
  pool : Pubkey;
  amm : Pubkey;
  lp_mint : Pubkey;
  out : string;
}.

(** The closing line, and the file behind it. *)
Record Report := mkReport {
  rp_path : string;
  rp_contents : string;
  rp_root : string;
  rp_leaves : nat;
  rp_depth : nat;
}.

(** How the process ends: [std::process::exit], a panic, or the end of [main]. *)
Inductive outcome := Exited (code : Z) | Aborted | Finished (r : Report).

Class Host := {
  new_client : string -> RpcClient;
  fs_write : string -> string -> bool;        (* [fs::write(path, contents).is_ok()] *)
}.

(** The five [Option]s of [parse_args]. *)
Record Slots := mkSlots {
  s_url : option string;
  s_pool : option Pubkey;
  s_amm : option Pubkey;
  s_lp_mint : option Pubkey;
  s_out : option string;
}.
Definition no_slots : Slots := mkSlots None None None None None.

Definition set_url (v : option string) (s : Slots) : Slots :=
  mkSlots v (s_pool s) (s_amm s) (s_lp_mint s) (s_out s).
Definition set_pool (v : Pubkey) (s : Slots) : Slots :=
  mkSlots (s_url s) (Some v) (s_amm s) (s_lp_mint s) (s_out s).
Definition set_amm (v : Pubkey) (s : Slots) : Slots :=
  mkSlots (s_url s) (s_pool s) (Some v) (s_lp_mint s) (s_out s).
Definition set_lp_mint (v : Pubkey) (s : Slots) : Slots :=
  mkSlots (s_url s) (s_pool s) (s_amm s) (Some v) (s_out s).
Definition set_out (v : option string) (s : Slots) : Slots :=
  mkSlots (s_url s) (s_pool s) (s_amm s) (s_lp_mint s) v.

(** [format!("{b:02x}")] *)
Definition hex_byte (b : byte) : string :=
  String (hex_digit (byte_Z b / 16)) (String (hex_digit (byte_Z b mod 16)) EmptyString).

(** [bytes.iter().map(..).collect()] *)
Definition hex (bytes : list byte) : string :=
  foldr (fun b s => String.append (hex_byte b) s) EmptyString bytes.

Section Cli.
Context `{Host, DataFormat, Base58, Sha256}.

(** [Pubkey::from_str(&it.next().expect(..)).expect(..)] *)
Definition pubkey_value (next : option string) : result outcome Pubkey :=
  v ← ok_or next Aborted; ok_or (Pubkey_from_str v) Aborted.

(** [while let Some(a) = it.next()]. [take] stores whatever [it.next()] gives,
    [None] included. *)
Fixpoint parse_loop (it : list string) (s : Slots) : result outcome Slots :=
  match it with
  | [] => mret s
  | a :: it =>
      let next := head it in
      let rest f := match it with [] => mret (f s) | _ :: it => parse_loop it (f s) end in
      if String.eqb a "--url" then rest (set_url next)
      else if String.eqb a "--pool" then k ← pubkey_value next; rest (set_pool k)
      else if String.eqb a "--amm" then k ← pubkey_value next; rest (set_amm k)
      else if String.eqb a "--lp-mint" then k ← pubkey_value next; rest (set_lp_mint k)
      else if String.eqb a "--out" then rest (set_out next)
      else Err (Exited 2)
  end.

(** The check for missing slots, then the [unwrap]s. *)
Definition complete (s : Slots) : result outcome Args :=
  match s_url s, s_pool s, s_amm s, s_lp_mint s, s_out s with
  | Some u, Some p, Some a, Some m, Some o => mret (mkArgs u p a m o)
  | _, _, _, _, _ => Err (Exited 2)
  end.

(** [parse_args], on the arguments after the program's name. *)
Definition parse_args (argv : list string) : result outcome Args :=
  s ← parse_loop argv no_slots; complete s.

Definition request_of (a : Args) : SnapshotRequest := mkSnapshotRequest (pool a) (amm a) (lp_mint a) [] [].

(** An error prints and exits with 1; a panic is a panic. *)
Definition or_exit {A} (m : result SnapshotError A) : result outcome A := map_err (fun _ => Exited 1) m.
Definition or_abort {A} (m : result failure A) : result outcome A :=
  map_err (fun e => match e with Refused _ => Exited 1 | Panicked => Aborted end) m.

(** [main] after the arguments. *)
Definition run (args : Args) : result outcome Report :=
  let source := ClassicLpAccountSource (H := new_client (url args)) in
  let locks := InMemoryLocks (pool args) (lp_mint args) [] in
  snapshot ← or_exit (build (request_of args));
  tree ← or_exit (SnapshotMerkleTree.from_snapshot snapshot);
  artifact ← or_abort (seal snapshot tree);
  or_abort (verify_integrity artifact);;
  json ← or_exit (to_json_pretty artifact);
  let contents := String.append json newline in
  require (fs_write (out args) contents) (Exited 1);;
  mret (mkReport (out args) contents (hex (merkle_root artifact))
          (SnapshotMerkleTree.leaf_count tree) (SnapshotMerkleTree.tree_depth tree)).

Definition main (argv : list string) : outcome :=
  match (args ← parse_args argv; run args) with Ok r => Finished r | Err o => o end.
End Cli.

(** ** The argument parser *)

Section ParseSpec.
Context `{Base58} {BL : Base58Laws}.

(** A flag with its value, as the user means it. *)
Inductive Flag :=
| FUrl (v : string)
| FPool (k : Pubkey)
| FAmm (k : Pubkey)
| FLpMint (k : Pubkey)
| FOut (v : string).

Definition render (f : Flag) : list string :=
  match f with
  | FUrl v => ["--url"; v]
  | FPool k => ["--pool"; Pubkey_to_string k]
  | FAmm k => ["--amm"; Pubkey_to_string k]
  | FLpMint k => ["--lp-mint"; Pubkey_to_string k]
  | FOut v => ["--out"; v]
  end%string.

Definition store (s : Slots) (f : Flag) : Slots :=
  match f with
  | FUrl v => set_url (Some v) s
  | FPool k => set_pool k s
  | FAmm k => set_amm k s
  | FLpMint k => set_lp_mint k s
  | FOut v => set_out (Some v) s
  end.

(** The last value given to each flag. *)
Definition urls (l : list Flag) := last (omap (fun f => match f with FUrl v => Some v | _ => None end) l).
Definition pools (l : list Flag) := last (omap (fun f => match f with FPool k => Some k | _ => None end) l).
Definition amms (l : list Flag) := last (omap (fun f => match f with FAmm k => Some k | _ => None end) l).
Definition lp_mints (l : list Flag) := last (omap (fun f => match f with FLpMint k => Some k | _ => None end) l).
Definition outs (l : list Flag) := last (omap (fun f => match f with FOut v => Some v | _ => None end) l).

Lemma stored l : foldl store no_slots l = mkSlots (urls l) (pools l) (amms l) (lp_mints l) (outs l).
Proof.
  induction l as [|f l IH] using rev_ind; [done|]. rewrite foldl_app, IH.
  unfold urls, pools, amms, lp_mints, outs. rewrite !omap_app.
  destruct f; simpl; by rewrite ?app_nil_r, ?last_snoc.
Qed.

Definition wf_flag (f : Flag) : Prop :=
  match f with FPool k | FAmm k | FLpMint k => wf_key k | _ => True end.

Definition command_line (l : list Flag) : list string := concat (map render l).

Lemma parse_loop_render f rest s :
  wf_flag f -> parse_loop (render f ++ rest) s = parse_loop rest (store s f).
Proof. destruct f; intros Hf; cbn; unfold pubkey_value; cbn; rewrite ?Pubkey_parses; done. Qed.

Lemma parse_loop_flags l rest s :
  Forall wf_flag l ->
  parse_loop (command_line l ++ rest) s = parse_loop rest (foldl store s l).
Proof.
  intros Hl. revert s. induction Hl as [|f l Hf _ IH]; intros s; [done|].
  unfold command_line in *. cbn [map concat]. rewrite <- app_assoc, parse_loop_render by done. apply IH.
Qed.

(** A command line that is well formed up to [rest]. *)
Lemma parse_args_flags l rest :
  Forall wf_flag l ->
  parse_args (command_line l ++ rest)
  = (s ← parse_loop rest (mkSlots (urls l) (pools l) (amms l) (lp_mints l) (outs l)); complete s).
Proof. intros Hl. unfold parse_args. by rewrite parse_loop_flags, stored. Qed.

Definition value_flag (a : string) : Prop := a = "--pool"%string \/ a = "--amm"%string \/ a = "--lp-mint"%string.

Lemma value_flag_runs a rest s :
  value_flag a -> exists f, parse_loop (a :: rest) s =
    (k ← pubkey_value (head rest); match rest with [] => mret (f k s) | _ :: it => parse_loop it (f k s) end).
Proof. intros [->|[-> | ->]]; [exists set_pool|exists set_amm|exists set_lp_mint]; done. Qed.

Definition known_flag (a : string) : Prop := a = "--url"%string \/ a = "--out"%string \/ value_flag a.

Lemma unknown_flag_exits a rest s : ~ known_flag a -> parse_loop (a :: rest) s = Err (Exited 2).
Proof. intros Hk. unfold known_flag, value_flag in Hk. cbn [parse_loop].
  by rewrite !(proj2 (String.eqb_neq a _)) by tauto.
Qed.

(** The argument parser on every command line that is well formed up to a
    point. If it is well formed to its end, the five values are the last ones
    given to each flag, in whatever order the flags come, and a flag that never
    came makes the process exit with 2. A pubkey flag without a value, or with
    one that is no pubkey, panics; an unknown flag exits with 2; and a trailing
    [--url] or [--out] without a value takes back the value given before. *)
Theorem parse_args_spec l :
  Forall wf_flag l ->
  parse_args (command_line l)
    = (match urls l, pools l, amms l, lp_mints l, outs l with
       | Some u, Some p, Some a, Some m, Some o => Ok (mkArgs u p a m o)
       | _, _, _, _, _ => Err (Exited 2)
       end)
  /\ (forall a, value_flag a -> parse_args (command_line l ++ [a]) = Err Aborted)
  /\ (forall a v rest, value_flag a -> Pubkey_from_str v = None ->
       parse_args (command_line l ++ a :: v :: rest) = Err Aborted)
  /\ (forall a rest, ~ known_flag a -> parse_args (command_line l ++ a :: rest) = Err (Exited 2))
  /\ (forall a, a = "--url"%string \/ a = "--out"%string ->
       parse_args (command_line l ++ [a]) = Err (Exited 2)).
Proof.
  intros Hl. split_and!.
  - by rewrite <- (app_nil_r (command_line l)), parse_args_flags.
  - intros a Ha. rewrite parse_args_flags by done. edestruct value_flag_runs as [f ->]; [exact Ha|]. done.
  - intros a v rest Ha Hv. rewrite parse_args_flags by done. edestruct value_flag_runs as [f ->]; [exact Ha|].
    cbn. by rewrite Hv.
  - intros a rest Ha. by rewrite parse_args_flags, unknown_flag_exits.
  - intros a [->| ->]; rewrite parse_args_flags by done; cbn; unfold complete; cbn; by repeat case_match.
Qed.
End ParseSpec.

(** Every key of the parsed arguments came out of [Pubkey::from_str]. *)
Section ParsedKeys.
Context `{Base58} {BL : Base58Laws}.

Definition wf_slots (s : Slots) : Prop :=
  forall k, s_pool s = Some k \/ s_amm s = Some k \/ s_lp_mint s = Some k -> wf_key k.

Lemma pubkey_value_wf next k : pubkey_value next = Ok k -> wf_key k.
Proof. unfold pubkey_value. intros Hk. res_inv Hk. by eapply Pubkey_parsed. Qed.

Lemma wf_slots_set s :
  wf_slots s -> (forall v, wf_slots (set_url v s)) /\ (forall v, wf_slots (set_out v s))
  /\ forall k, wf_key k -> wf_slots (set_pool k s) /\ wf_slots (set_amm k s) /\ wf_slots (set_lp_mint k s).
Proof.
  intros Hs. split_and!; try done. intros k Hk.
  split_and!; intros q [Hq|[Hq|Hq]]; simpl in Hq; first [injection Hq as <-; done|apply Hs; tauto].
Qed.

(** One step of the loop. *)
Lemma parse_loop_cons a rest s r :
  parse_loop (a :: rest) s = Ok r -> wf_slots s ->
  exists s', wf_slots s' /\ (rest = [] /\ r = s' \/ exists v it, rest = v :: it /\ parse_loop it s' = Ok r).
Proof.
  intros Hp Hs. destruct (wf_slots_set s Hs) as (Hu & Ho & Hk). cbn [parse_loop] in Hp.
  assert (Hend : forall f, wf_slots (f s) ->
    match rest with [] => mret (f s) | _ :: it => parse_loop it (f s) end = Ok r ->
    exists s', wf_slots s' /\ (rest = [] /\ r = s' \/ exists v it, rest = v :: it /\ parse_loop it s' = Ok r)).
  { intros f Hf Hr. exists (f s). split; [done|]. destruct rest as [|v it]; [injection Hr as <-; by left|right; eauto]. }
  repeat case_match; try done; try (apply bind_Ok in Hp as (k & Hv & Hp); apply pubkey_value_wf, Hk in Hv as (? & ? & ?));
    eapply Hend; try exact Hp; eauto.
Qed.

Lemma parse_loop_wf n it s r :
  (length it <= n)%nat -> parse_loop it s = Ok r -> wf_slots s -> wf_slots r.
Proof.
  revert it s. induction n as [|n IH]; intros [|a it] s Hn Hp Hs; simpl in Hn; try lia;
    try (by injection Hp as <-).
  destruct (parse_loop_cons a it s r Hp Hs) as (s' & Hs' & [[_ ->]|(v & it' & -> & Hr)]); [done|].
  simpl in Hn. apply (IH it' s'); [lia|done..].
Qed.

Lemma parse_args_wf argv args :
  parse_args argv = Ok args -> wf_key (pool args) /\ wf_key (amm args) /\ wf_key (lp_mint args).
Proof.
  unfold parse_args. intros Hp. apply bind_Ok in Hp as (s & Hs & Hc).
  apply (parse_loop_wf _ _ _ _ (le_n _)) in Hs; [|by intros k [?|[?|?]]].
  unfold complete in Hc. destruct (s_url s), (s_pool s) eqn:Hpo, (s_amm s) eqn:Ham, (s_lp_mint s) eqn:Hlp, (s_out s);
    try done. injection Hc as <-. split_and!; apply Hs; simpl; auto.
Qed.

(** A refused command line is an exit or a panic. *)
Lemma pubkey_value_ends next r : pubkey_value next <> Err (Finished r).
Proof.
  unfold pubkey_value. intros [He|(v & _ & He)]%bind_Err; apply ok_or_Err in He as [_ He]; done.
Qed.

Lemma parse_loop_ends n it s r : (length it <= n)%nat -> parse_loop it s <> Err (Finished r).
Proof.
  revert it s. induction n as [|n IH]; intros [|a it] s Hn Hp; simpl in Hn; try lia; try done.
  assert (Hend : forall f, match it with [] => mret (f s) | _ :: it => parse_loop it (f s) end <> Err (Finished r)).
  { intros f Hf. destruct it as [|v it]; [done|]. simpl in Hn. apply (IH it (f s)); [lia|done]. }
  cbn [parse_loop] in Hp. repeat case_match; try done;
    try (apply bind_Err in Hp as [Hp|(k & _ & Hp)]; [by apply pubkey_value_ends in Hp|]); by eapply Hend.
Qed.

Lemma parse_args_ends argv r : parse_args argv <> Err (Finished r).
Proof.
  unfold parse_args. intros [Hp|(s & _ & Hc)]%bind_Err; [by eapply parse_loop_ends in Hp|].
  unfold complete in Hc. by repeat case_match.
Qed.
End ParsedKeys.

(** ** The run *)

Section RunSpec.
Context `{Host, DataFormat, Base58, Sha256} {HSL : Sha256Laws}.

Lemma hex_encode bytes : hex bytes = encode_hex bytes.
Proof.
  induction bytes as [|b bytes IH]; [done|]. cbn [hex foldr encode_hex hex_byte String.append].
  fold (hex bytes). rewrite IH, Z.shiftr_div_pow2 by done.
  change 15 with (Z.ones 4). by rewrite Z.land_ones.
Qed.

(** A document of an unlocked pool: every owner has the entry of what it holds,
    and nobody else has one. *)
Record credits (a : SnapshotArtifact) (args : Args) (supply : MintSupply)
    (accounts : list TokenAccountSnapshot) : Prop := {
  cr_published : published a;
  cr_meta : ar_pool_address a = pool args /\ ar_amm_program_id a = amm args /\ ar_lp_mint a = lp_mint args
    /\ ar_snapshot_slot a = ms_slot supply /\ ar_lp_total_supply a = ms_amount supply;
  cr_held o : held accounts o <> 0 ->
    exists e, proof_for a o = Some e /\ ae_lp_balance e = held accounts o;
  cr_none o : held accounts o = 0 -> proof_for a o = None;
}.

Lemma built_credits `{LpAccountSource, LockedLpEvidence} args supply accounts sn tr a :
  serves (request_of args) supply accounts [] ->
  wf_served supply accounts [] ->
  build (request_of args) = Ok sn ->
  seal sn tr = Ok a -> published a -> credits a args supply accounts.
Proof.
  intros Hs Hwf Hb Ha Hp. pose proof (build_faithful _ _ _ _ _ Hs Hwf Hb) as Hf.
  pose proof (seal_sealed _ _ _ Ha) as Hsf.
  assert (Hbal : forall o, balance_of (entries sn) o = held accounts o).
  { intros o. rewrite (fs_balance _ _ _ _ _ Hf), decide_False; [apply Z.add_0_r|].
    intros [Ho|Ho]; [by apply elem_of_nil in Ho|]. pose proof (fs_custody _ _ _ _ _ Hf) as Hc.
    unfold custody_owner in Ho. destruct (custody (locked sn)) as [c|]; [|done].
    by destruct Hc as [Hpos _]. }
  destruct (sf_meta _ _ _ Hsf) as (F1 & F2 & F3 & F4 & F5 & _).
  destruct (fs_source _ _ _ _ _ Hf) as (G1 & G2 & G3 & G4 & G5).
  constructor; [done|by rewrite F1, F2, F3, F4, F5, G1, G2, G3, G4, G5|..]; intros o Ho.
  - destruct (proj1 (sealed_lookup sn tr a o (fs_canonical _ _ _ _ _ Hf) Hsf Hp)) as (e & He & _ & _ & Hbe).
    + by rewrite Hbal.
    + exists e. by rewrite <- Hbal.
  - apply (sealed_lookup sn tr a o (fs_canonical _ _ _ _ _ Hf) Hsf Hp). by rewrite Hbal.
Qed.

(** The document the run hands to the file system. *)
Definition publish (args : Args) (a : SnapshotArtifact) : result outcome Report :=
  json ← or_exit (to_json_pretty a);
  let contents := String.append json newline in
  require (fs_write (out args) contents) (Exited 1);;
  mret (mkReport (out args) contents (encode_hex (merkle_root a)) (ar_leaf_count a) (ar_tree_depth a)).

(** The snapshot the run seals, when the node's answers add up. *)
Lemma run_publishes args supply accounts :
  let source := ClassicLpAccountSource (H := new_client (url args)) in
  @lp_mint_supply source (lp_mint args) = Ok supply -> @token_accounts source (lp_mint args) = Ok accounts ->
  enumerated_sum accounts = ms_amount supply -> ms_amount supply <> 0 ->
  exists a, verify_integrity a = Ok tt /\ credits a args supply accounts /\ wf_artifact a /\ wf_owners a
    /\ run args = publish args a.
Proof.
  intros source Hsup Hacc Hsum Hpos. unfold run. fold source.
  set (locks := InMemoryLocks (pool args) (lp_mint args) []).
  assert (Hs : @serves source locks (request_of args) supply accounts []).
  { split_and!; [done..|]. cbn. by rewrite !bool_decide_eq_true_2. }
  assert (Hwf : wf_served supply accounts []).
  { split_and!; [by eapply rpc_supply_u64|by eapply rpc_accounts_u64|constructor]. }
  pose proof (held_somewhere accounts (proj1 (proj2 Hwf))) as Hheld.
  destruct (proj2 (build_unlocked _ _ _ Hs Hwf)) as [sn Hb].
  { split; [done|]. rewrite Hsum in Hheld. destruct (proj1 Hheld Hpos) as [o Ho].
    exists o. split; [|done]. by apply not_elem_of_nil. }
  destruct (pipeline_runs _ _ _ _ _ Hs Hwf Hb) as (tr & a & Htr & Ha & Hsf & Hv & Hp).
  pose proof (build_faithful _ _ _ _ _ Hs Hwf Hb) as Hf.
  exists a. split_and!; [done|by eapply built_credits|by eapply sealed_wf| |].
  { eapply sealed_owners; [done|done|by eapply rpc_owners_wf|constructor]. }
  unfold source, locks in *. rewrite Hb. cbn.
  rewrite Htr. cbn. rewrite Ha. cbn. rewrite Hv. cbn. unfold publish.
  destruct (sf_shape _ _ _ Hsf) as (_ & -> & ->). by rewrite <- hex_encode, (sl_count _ _ _ (sf_seals _ _ _ Hsf)).
Qed.

(** A run that does anything else ends with 1. *)
Lemma run_refuses args :
  let source := ClassicLpAccountSource (H := new_client (url args)) in
  (forall supply accounts, @lp_mint_supply source (lp_mint args) = Ok supply ->
     @token_accounts source (lp_mint args) = Ok accounts ->
     ~ (enumerated_sum accounts = ms_amount supply /\ ms_amount supply <> 0)) ->
  run args = Err (Exited 1).
Proof.
  intros source Hno. unfold run. fold source. set (locks := InMemoryLocks (pool args) (lp_mint args) []).
  destruct (@build source locks (request_of args)) as [sn|e] eqn:Hb; [|done]. exfalso.
  destruct (@lp_mint_supply source (lp_mint args)) as [supply|e] eqn:Hsup.
  2:{ unfold build in Hb. cbn [rq_lp_mint request_of] in Hb. by rewrite Hsup in Hb. }
  destruct (@token_accounts source (lp_mint args)) as [accounts|e] eqn:Hacc.
  2:{ unfold build in Hb. cbn [rq_lp_mint request_of] in Hb. by rewrite Hsup, Hacc in Hb. }
  assert (Hs : @serves source locks (request_of args) supply accounts []).
  { split_and!; [done..|]. cbn. by rewrite !bool_decide_eq_true_2. }
  assert (Hwf : wf_served supply accounts []).
  { split_and!; [by eapply rpc_supply_u64|by eapply rpc_accounts_u64|constructor]. }
  destruct (proj1 (build_unlocked _ _ _ Hs Hwf)) as (Hsum & o & _ & Ho); [by exists sn|].
  apply (Hno supply accounts); [done..|]. split; [done|].
  rewrite <- Hsum. apply (held_somewhere accounts (proj1 (proj2 Hwf))). by exists o.
Qed.

(** The whole run, on whatever the node answers. If it cannot be read, or the
    enumerated accounts do not add up to the mint's supply, or there is no LP
    at all, the process exits with 1; it never panics. Otherwise the document
    it hands to the file system passes the integrity check, carries the
    requested pool, program and mint, and has for every owner exactly the
    balance the accounts say, under a published proof, and no other entry; the
    closing line reports that document's root, leaf count and depth. *)
Theorem cli_run_spec args :
  let source := ClassicLpAccountSource (H := new_client (url args)) in
  match @lp_mint_supply source (lp_mint args), @token_accounts source (lp_mint args) with
  | Ok supply, Ok accounts =>
      if decide (enumerated_sum accounts = ms_amount supply /\ ms_amount supply <> 0)
      then exists a, verify_integrity a = Ok tt /\ credits a args supply accounts
             /\ run args = publish args a
      else run args = Err (Exited 1)
  | _, _ => run args = Err (Exited 1)
  end.
Proof.
  intros source.
  destruct (@lp_mint_supply source (lp_mint args)) as [supply|e] eqn:Hsup.
  2:{ apply run_refuses. fold source. intros ? ? Hx. by rewrite Hsup in Hx. }
  destruct (@token_accounts source (lp_mint args)) as [accounts|e] eqn:Hacc.
  2:{ apply run_refuses. fold source. intros ? ? _ Hx. by rewrite Hacc in Hx. }
  case_decide as Hd.
  - destruct (run_publishes args supply accounts Hsup Hacc) as (a & Hv & Hc & _ & _ & Hr); [apply Hd..|]. eauto.
  - apply run_refuses. fold source. intros supply' accounts' Hs Ha. rewrite Hsup in Hs. rewrite Hacc in Ha.
    by injection Hs as <-; injection Ha as <-.
Qed.
End RunSpec.
