(* ===== verification/Delivery.v ===== *)
(** * Delivery: from a command line to lamports

    The snapshotter's binary, the file it writes and the vault that pays on it,
    composed: what somebody who only has the file can rely on. *)

From Stdlib Require Import String.
From S2P Require Import Prelude Bytes Solana Runtime Merkle VaultState AmmCpi Salvage SalvageSpec Vault VaultInv VaultSpec.
From S2P Require Import Locker Snapshot Builder BuilderSpec Tree Artifact Document Protocol Cli.

(** [RpcResponseContext]'s slot is a [u64]. *)
Class HostLaws `{Host} :=
  context_slot_u64 url k acc slot :
    get_account_with_commitment (RpcClient := new_client url) k = Ok (acc, slot) -> is_u64 slot.

Lemma encode_hex_inj a b : encode_hex a = encode_hex b -> a = b.
Proof.
  intros Heq. pose proof (decode_encode_pairs a 0) as Ha. rewrite Heq, decode_encode_pairs in Ha. congruence.
Qed.

Section Delivery.
Context `{PdaDerivation} `{HR : Runtime} {HRL : RuntimeLaws} `{HS : Sha256} {HSL : Sha256Laws}.
Context `{Host, DataFormat, Base58} {HL : HostLaws} {DFL : DataFormatLaws} {BL : Base58Laws}.

(** The node's answers for a run: they can be read and they add up. *)
Definition node_serves (args : Args) (supply : MintSupply) (accounts : list TokenAccountSnapshot) : Prop :=
  let source := ClassicLpAccountSource (H := new_client (url args)) in
  @lp_mint_supply source (lp_mint args) = Ok supply /\ @token_accounts source (lp_mint args) = Ok accounts
  /\ enumerated_sum accounts = ms_amount supply /\ ms_amount supply <> 0.

(** A file that is as good as its snapshot. *)
Record delivered (args : Args) (supply : MintSupply) (accounts : list TokenAccountSnapshot)
    (rep : Report) (a : SnapshotArtifact) : Prop := {
  dl_path : rp_path rep = out args;
  dl_loads : from_json (rp_contents rep) = Ok a;
  dl_verified : verify_integrity a = Ok tt;
  dl_credits : credits a args supply accounts;
  dl_line : rp_root rep = encode_hex (merkle_root a) /\ rp_leaves rep = length (ar_entries a);
}.

(** With arguments that parse and a node that adds up, only the file system can
    stop the run. *)
Lemma main_delivers argv args supply accounts :
  parse_args argv = Ok args -> node_serves args supply accounts ->
  exists rep a, delivered args supply accounts rep a /\ wf_document a
    /\ main argv = if fs_write (rp_path rep) (rp_contents rep) then Finished rep else Exited 1.
Proof.
  intros Hargs (Hsup & Hacc & Hsum & Hpos).
  destruct (run_publishes args supply accounts Hsup Hacc Hsum Hpos) as (a & Hv & Hc & Hw & Ho & Hrun).
  destruct (parse_args_wf argv args Hargs) as (Kp & Ka & Km).
  pose proof (verify_integrity_Ok a Hw) as Hvi. destruct (proj1 Hvi Hv) as (Hfv & _ & _).
  destruct (cr_meta _ _ _ _ Hc) as (M1 & M2 & M3 & M4 & _).
  assert (Hdoc : wf_document a).
  { apply published_document; rewrite ?M1, ?M2, ?M3, ?M4; try done; [apply Hc|].
    apply rpc_supply_slot in Hsup as [acc Hslot]. by eapply context_slot_u64. }
  destruct (json_written a Hdoc) as (s & p & _ & Hp & Hall). rewrite !Forall_cons in Hall.
  destruct Hall as (_ & _ & _ & Hl & _).
  exists (mkReport (out args) (String.append p newline) (encode_hex (merkle_root a)) (ar_leaf_count a) (ar_tree_depth a)), a.
  split_and!; [|done|].
  - constructor; simpl; try done. split; [done|]. apply (pb_depth _ (cr_published _ _ _ _ Hc)).
  - unfold main. rewrite Hargs. cbn [mbind result_bind]. rewrite Hrun. unfold publish. rewrite Hp.
    cbn. by destruct (fs_write _ _).
Qed.

Lemma node_serves_or args :
  (exists supply accounts, node_serves args supply accounts) \/ forall supply accounts, ~ node_serves args supply accounts.
Proof.
  unfold node_serves. set (source := ClassicLpAccountSource (H := new_client (url args))).
  destruct (@lp_mint_supply source (lp_mint args)) as [supply|], (@token_accounts source (lp_mint args)) as [accounts|];
    try (right; naive_solver).
  destruct (decide (enumerated_sum accounts = ms_amount supply /\ ms_amount supply <> 0)); [left|right]; naive_solver.
Qed.

Lemma finished_delivered argv rep :
  main argv = Finished rep ->
  exists args supply accounts a, parse_args argv = Ok args /\ node_serves args supply accounts
    /\ delivered args supply accounts rep a /\ wf_document a.
Proof.
  intros Hm. destruct (parse_args argv) as [args|e] eqn:Hargs.
  2:{ exfalso. unfold main in Hm. rewrite Hargs in Hm. cbn in Hm. subst e. by eapply parse_args_ends. }
  destruct (node_serves_or args) as [(supply & accounts & Hns)|Hno].
  2:{ exfalso. unfold main in Hm. rewrite Hargs in Hm. cbn [mbind result_bind] in Hm.
      rewrite run_refuses in Hm; [done|]. intros supply accounts ? ? Hx. by apply (Hno supply accounts). }
  destruct (main_delivers argv args supply accounts Hargs Hns) as (rep' & a & Hd & Hw & Hmain).
  rewrite Hm in Hmain. destruct (fs_write _ _); [|done]. injection Hmain as <-. by exists args, supply, accounts, a.
Qed.

Lemma delivered_unique args supply accounts rep a b :
  delivered args supply accounts rep a -> from_json (rp_contents rep) = Ok b -> b = a.
Proof. intros [_ Hl _ _ _] Hb. congruence. Qed.

(** C27. A run that finishes has delivered: its arguments parsed, the node's
    accounts added up to the mint's supply, and the file it wrote loads as an
    artifact that passes the integrity check, has for every owner exactly what
    the accounts say and nobody else, and has the root and the leaf count of
    the closing line. And with arguments that parse and a node that adds up
    nothing but the file system can keep a run from finishing. *)
Theorem cli_delivers argv :
  (forall rep, main argv = Finished rep ->
     exists args supply accounts a, parse_args argv = Ok args /\ node_serves args supply accounts
       /\ fs_write (rp_path rep) (rp_contents rep) = true /\ delivered args supply accounts rep a)
  /\ (forall args supply accounts, parse_args argv = Ok args -> node_serves args supply accounts ->
     exists rep a, delivered args supply accounts rep a
       /\ main argv = if fs_write (rp_path rep) (rp_contents rep) then Finished rep else Exited 1).
Proof.
  split.
  - intros rep Hm. destruct (finished_delivered argv rep Hm) as (args & supply & accounts & a & Hp & Hn & Hd & _).
    exists args, supply, accounts, a. split_and!; try done.
    destruct (main_delivers argv args supply accounts Hp Hn) as (rep' & b & _ & _ & Hmain).
    rewrite Hm in Hmain. destruct (fs_write (rp_path rep') _) eqn:Hw; [|done]. by injection Hmain as ->.
  - intros args supply accounts Hp Hn.
    destruct (main_delivers argv args supply accounts Hp Hn) as (rep & a & Hd & _ & Hm). eauto.
Qed.

Variable P : Pubkey -> Prop.
Variable known : list byte -> Prop.

(** C1. From the command line to the lamports. Somebody ran the binary on a pool
    and it finished; the file is loaded by whoever has it; a salvage recorded
    the root of the closing line and the file's supply for that pool. Then in
    every reachable state of the vault, each owner the node listed with any LP
    finds its entry in the file, for exactly the sum of its accounts, and if it
    has not claimed, claiming with the file's proof succeeds and pays the floor
    of its share of the pool's proceeds, from the pool's account to the owner. *)
Theorem file_pays_holders argv args supply accounts rep a st r o ck :
  main argv = Finished rep -> parse_args argv = Ok args -> node_serves args supply accounts ->
  from_json (rp_contents rep) = Ok a ->
  lp_vaults_distinct P -> vault_reachable P known st -> collision_free known -> tree_known known a ->
  vs_registries st !! pool args = Some r ->
  encode_hex (lp_snapshot_merkle_root r) = rp_root rep ->
  lp_total_supply_at_snapshot r = ar_lp_total_supply a ->
  held accounts o <> 0 -> vs_claims st !! (pool args, o) = None ->
  exists e st', proof_for a o = Some e /\ ae_lp_balance e = held accounts o
    /\ claim_lp_proceeds (Some ck) o (mkClaimLpProceedsParams (pool args) (held accounts o) (ae_proof e)) st
       = Ok (st', [LpClaimProcessed (pool args) o (owed r (held accounts o))])
    /\ forall k, lamports (vs_ledger st') k = lamports (vs_ledger st) k
         - to_account (lp_holder_pool_vault (pool args)) (owed r (held accounts o)) k
         + to_account o (owed r (held accounts o)) k.
Proof.
  intros Hm Hargs Hn Hl HD Hst Hcf Htk Hr Hroot Hsup Hheld Hfresh.
  destruct (main_delivers argv args supply accounts Hargs Hn) as (rep' & b & Hd & _ & Hmain).
  rewrite Hm in Hmain. destruct (fs_write _ _); [|done]. injection Hmain as <-.
  pose proof (delivered_unique _ _ _ _ _ _ Hd Hl) as ->.
  apply from_json_typed in Hl. destruct Hd as [_ _ _ Hc [Hline _]].
  destruct (cr_held _ _ _ _ Hc o Hheld) as (e & He & Hb).
  pose proof He as Hin. apply proof_for_spec in Hin as [Hin Ho]; [|apply Hc].
  destruct (entry_pays P known st (pool args) r b e ck) as (st' & Hcl & _ & Hlam); try done.
  - split; [|done]. apply encode_hex_inj. congruence.
  - by apply wf_document_artifact.
  - by apply wf_document_owners.
  - apply Hc.
  - by rewrite Ho.
  - rewrite Ho, Hb in Hcl, Hlam. by exists e, st'.
Qed.
End Delivery.
