(* ===== verification/ProtocolExamples.v ===== *)
(** * ProtocolExamples: one pool, end to end

    The snapshotter's run on the pool of VaultExamples (Alice holds 600 LP, Bob
    300 with 100 more locked), its document, and the claim it pays; and a pool
    certified by the scanner and then salvaged on that certificate. *)

From Stdlib Require Import String.
From S2P Require Import Prelude Bytes Solana Criteria Attestation Adapters Locker ScannerState Scanner.
From S2P Require Import ScannerExamples Runtime Merkle VaultState AmmCpi Salvage SalvageSpec Vault VaultInv.
From S2P Require Import VaultSpec VaultExamples Payout Snapshot Builder BuilderSpec Tree Artifact Document.
From S2P Require Import DocumentExamples Protocol.

#[local] Existing Instance toy_sha256.
#[local] Existing Instance toy_sha256_laws.
#[local] Existing Instance toy_pda.
#[local] Existing Instance toy_runtime.
#[local] Existing Instance toy_laws.
#[local] Existing Instance toy_format.
#[local] Existing Instance toy_base58.

(** ** The snapshot of the example pool *)

Definition ex_custody : Pubkey := key_of x05.
Definition ex_accounts : list TokenAccountSnapshot :=
  [mkTokenAccountSnapshot (key_of x32) bob 300; mkTokenAccountSnapshot (key_of x33) ex_custody 100;
   mkTokenAccountSnapshot (key_of x31) alice 600].
Definition ex_records : list TokenLockRecord := [mkTokenLockRecord (key_of x41) 7 100 bob].
Definition ex_source : LpAccountSource := InMemorySource ex_lp_mint 1000 1000 ex_accounts.
Definition ex_locks : LockedLpEvidence := InMemoryLocks ex_pool ex_lp_mint ex_records.
Definition ex_request : SnapshotRequest :=
  mkSnapshotRequest ex_pool RAYDIUM_V4_PROGRAM_ID ex_lp_mint [] [].

#[local] Existing Instance ex_source.
#[local] Existing Instance ex_locks.

Definition ex_snapshot : LpSnapshot := Eval vm_compute in
  match build ex_request with Ok sn => sn | Err _ => mkLpSnapshot [] [] [] 0 0 [] []
    (mkLockedReport 0 0 [] None) (mkReconciliation 0 0 0) end.
Definition ex_snapshot_tree : SnapshotMerkleTree.t := Eval vm_compute in
  match SnapshotMerkleTree.from_snapshot ex_snapshot with Ok tr => tr | Err _ => SnapshotMerkleTree.mkTree [] end.
Definition ex_artifact : SnapshotArtifact := Eval vm_compute in
  match seal ex_snapshot ex_snapshot_tree with Ok a => a | Err _ => mkSnapshotArtifact 0 [] [] [] 0 0 [] 0 0 []
    (mkReconciliation 0 0 0) end.

Lemma ex_built : build ex_request = Ok ex_snapshot.
Proof. vm_compute. reflexivity. Qed.
Lemma ex_sealed : seal ex_snapshot ex_snapshot_tree = Ok ex_artifact.
Proof. vm_compute. reflexivity. Qed.
Lemma ex_verified : verify_integrity ex_artifact = Ok tt.
Proof. vm_compute. reflexivity. Qed.

Example ex_leaves : entries ex_snapshot = [mkHolderEntry alice 600; mkHolderEntry bob 400].
Proof. reflexivity. Qed.

Definition ex_supply : MintSupply := mkMintSupply 1000 1000.

Lemma ex_serves : serves ex_request ex_supply ex_accounts ex_records.
Proof. split_and!; vm_compute; reflexivity. Qed.

Lemma ex_wf_served : wf_served ex_supply ex_accounts ex_records.
Proof. split_and!; [in_range|repeat (constructor; [in_range|]); constructor..]. Qed.

Lemma build_sound_witness :
  faithful_snapshot ex_request ex_supply ex_accounts ex_records ex_snapshot.
Proof. exact (build_sound ex_request ex_supply ex_accounts ex_records ex_snapshot ex_serves ex_wf_served ex_built). Defined.

(** The same accounts in another order. *)
Definition ex_source' : LpAccountSource := InMemorySource ex_lp_mint 1000 1000 (reverse ex_accounts).

Lemma build_deterministic_witness :
  @build ex_source ex_locks ex_request = @build ex_source' ex_locks ex_request.
Proof.
  apply (build_deterministic ex_source ex_source' ex_locks ex_locks ex_request ex_supply
    ex_accounts (reverse ex_accounts) ex_records ex_records ex_serves).
  - split_and!; vm_compute; reflexivity.
  - exact ex_wf_served.
  - symmetry. apply reverse_Permutation.
  - reflexivity.
Defined.

Definition no_locks : LockedLpEvidence := InMemoryLocks ex_pool ex_lp_mint [].

Lemma build_unlocked_iff_witness :
  (exists sn, @build ex_source no_locks ex_request = Ok sn) <->
  enumerated_sum ex_accounts = ms_amount ex_supply
  /\ exists o, o ∉ sink_exclusions ex_request /\ held ex_accounts o <> 0.
Proof.
  apply (@build_unlocked_iff ex_source no_locks ex_request ex_supply ex_accounts).
  - split_and!; vm_compute; reflexivity.
  - split_and!; [in_range|repeat (constructor; [in_range|]); constructor|constructor].
Defined.

(** A lock withdrawn to zero, whose owner left. *)
Definition emptied : TokenLockRecord := mkTokenLockRecord (key_of x42) 8 0 (key_of x09).
Definition emptied_locks : LockedLpEvidence := InMemoryLocks ex_pool ex_lp_mint [emptied].

Lemma emptied_lock_blocks_snapshot_witness :
  @build ex_source emptied_locks ex_request <> Ok ex_snapshot.
Proof.
  apply (@emptied_lock_blocks_snapshot ex_source emptied_locks ex_request ex_supply ex_accounts [emptied] emptied
    ex_snapshot).
  - split_and!; vm_compute; reflexivity.
  - split_and!; [in_range|repeat (constructor; [in_range|]); constructor..].
  - reflexivity.
  - left.
  - vm_compute. reflexivity.
Defined.

Lemma snapshot_pipeline_witness :
  exists tr a, SnapshotMerkleTree.from_snapshot ex_snapshot = Ok tr /\ seal ex_snapshot tr = Ok a
    /\ sealed_from ex_snapshot tr a /\ verify_integrity a = Ok tt /\ published a.
Proof. exact (snapshot_pipeline ex_request ex_supply ex_accounts ex_records ex_snapshot ex_serves ex_wf_served ex_built). Defined.

Lemma ex_wf_artifact : wf_artifact ex_artifact.
Proof. constructor; try in_range. repeat (constructor; [in_range|]). constructor. Qed.

Lemma verify_integrity_spec_witness : published ex_artifact.
Proof. apply (verify_integrity_spec ex_artifact ex_wf_artifact). vm_compute. reflexivity. Defined.

Lemma hex32_roundtrip_witness :
  decode_hex32 (encode_hex (merkle_root ex_artifact)) = Ok (merkle_root ex_artifact).
Proof. apply hex32_roundtrip. vm_compute. done. Defined.

(** ** Bob's claim *)

Lemma ex_tree_known : tree_known ex_known ex_artifact.
Proof.
  intros mt Hmt. assert (mt = ex_tree) as ->.
  { assert (Hx : merkle_tree_of (artifact_leaves ex_artifact) = Some ex_tree) by (vm_compute; reflexivity).
    rewrite Hx in Hmt. by injection Hmt. }
  apply ex_honest.
Qed.

Lemma ex_sealed_into : sealed_into ex_registry_claimed ex_artifact.
Proof. split; vm_compute; reflexivity. Qed.

Lemma ex_wf_owners : wf_owners ex_artifact.
Proof. repeat (constructor; [reflexivity|]). constructor. Qed.

Lemma lp_holder_gets_paid_witness :
  exists e st', proof_for ex_artifact bob = Some e /\ ae_lp_balance e = 400
    /\ claim_lp_proceeds (Some ex_clock) bob (mkClaimLpProceedsParams ex_pool 400 (ae_proof e)) ex_claimed
       = Ok (st', [LpClaimProcessed ex_pool bob (owed ex_registry_claimed 400)])
    /\ forall k, lamports (vs_ledger st') k = lamports (vs_ledger ex_claimed) k
         - to_account (lp_holder_pool_vault ex_pool) (owed ex_registry_claimed 400) k
         + to_account bob (owed ex_registry_claimed 400) k.
Proof.
  apply (lp_holder_gets_paid ex_P ex_known ex_request ex_supply ex_accounts ex_records ex_snapshot
    ex_snapshot_tree ex_artifact ex_claimed ex_pool ex_registry_claimed bob ex_clock).
  - exact ex_serves.
  - exact ex_wf_served.
  - repeat (constructor; [reflexivity|]). constructor.
  - repeat (constructor; [reflexivity|]). constructor.
  - exact ex_built.
  - exact ex_sealed.
  - exact ex_distinct.
  - exact ex_reach_claimed.
  - exact ex_collision_free.
  - exact ex_tree_known.
  - vm_compute. reflexivity.
  - exact ex_sealed_into.
  - by apply not_elem_of_nil.
  - by vm_compute.
  - by vm_compute.
  - vm_compute. reflexivity.
Defined.

Definition bob_entry : ArtifactEntry := Eval vm_compute in
  match proof_for ex_artifact bob with Some e => e | None => mkArtifactEntry [] 0 [] [] end.

Lemma published_entries_pay_witness :
  exists st', claim_lp_proceeds (Some ex_clock) (ae_owner bob_entry)
      (mkClaimLpProceedsParams ex_pool (ae_lp_balance bob_entry) (ae_proof bob_entry)) ex_claimed
    = Ok (st', [LpClaimProcessed ex_pool (ae_owner bob_entry) (owed ex_registry_claimed (ae_lp_balance bob_entry))])
  /\ vs_claims st' !! (ex_pool, ae_owner bob_entry) <> None
  /\ forall k, lamports (vs_ledger st') k = lamports (vs_ledger ex_claimed) k
       - to_account (lp_holder_pool_vault ex_pool) (owed ex_registry_claimed (ae_lp_balance bob_entry)) k
       + to_account (ae_owner bob_entry) (owed ex_registry_claimed (ae_lp_balance bob_entry)) k.
Proof.
  apply (published_entries_pay ex_P ex_known ex_claimed ex_pool ex_registry_claimed ex_artifact bob_entry ex_clock).
  - exact ex_distinct.
  - exact ex_reach_claimed.
  - exact ex_collision_free.
  - vm_compute. reflexivity.
  - exact ex_sealed_into.
  - exact ex_wf_artifact.
  - exact ex_wf_owners.
  - exact ex_verified.
  - exact ex_tree_known.
  - right. left.
  - vm_compute. reflexivity.
Defined.

(** ** Alice and Bob, in either order *)

Definition ex_tickets : list Ticket := [mkTicket alice 600 alice_proof; mkTicket bob 400 bob_proof].

Lemma ex_known_hashed x : x ∈ ex_hashed -> ex_known x.
Proof. done. Qed.

Lemma ex_honest_unclaimed : honest_snapshot ex_known ex_registry ex_tree.
Proof. exact (honest_with_claimed ex_known ex_registry_claimed ex_tree 0 ex_honest). Qed.

Lemma ex_payable x : x ∈ ex_tickets -> payable ex_P ex_known ex_registry ex_tree x.
Proof.
  intros Hx. apply elem_of_cons in Hx as [->|Hx]; [|apply elem_of_cons in Hx as [->|Hx]; [|by apply elem_of_nil in Hx]].
  all: constructor; [computed|done|vm_compute; reflexivity|computed| |by intros q ->; computed].
  all: apply Forall_forall; intros y Hy; apply ex_known_hashed; unfold ex_hashed; rewrite !elem_of_app; auto.
Qed.

Lemma holders_paid_in_any_order_witness :
  exists st1 st2,
    run_claims ex_clock ex_pool ex_tickets ex_salvaged
      = Ok (st1, [LpClaimProcessed ex_pool alice 4800000; LpClaimProcessed ex_pool bob 3200000])
    /\ run_claims ex_clock ex_pool (reverse ex_tickets) ex_salvaged
      = Ok (st2, [LpClaimProcessed ex_pool bob 3200000; LpClaimProcessed ex_pool alice 4800000])
    /\ paid_out ex_P ex_known ex_clock ex_pool ex_registry ex_tickets ex_salvaged st1
    /\ vs_registries st1 = vs_registries st2 /\ vs_receipts st1 = vs_receipts st2
    /\ vs_claims st1 = vs_claims st2
    /\ (forall k, lamports (vs_ledger st1) k = lamports (vs_ledger st2) k)
    /\ (lp_holder_pool_claimed_lamports ex_registry = 0 -> 0 < lp_total_supply_at_snapshot ex_registry ->
        forall r1, vs_registries st1 !! ex_pool = Some r1 ->
        lp_total_supply_at_snapshot ex_registry * remaining_lamports r1
        <= lp_holder_pool_total_lamports ex_registry
             * (lp_total_supply_at_snapshot ex_registry - balances_of ex_tickets)
           + Z.of_nat (length ex_tickets) * (lp_total_supply_at_snapshot ex_registry - 1)).
Proof.
  apply (holders_paid_in_any_order ex_P ex_known ex_distinct ex_collision_free ex_clock ex_pool
    ex_registry ex_tree ex_tickets (reverse ex_tickets) ex_salvaged).
  - exact ex_reach_salvaged.
  - vm_compute. reflexivity.
  - exact ex_honest_unclaimed.
  - computed.
  - apply Forall_forall. exact ex_payable.
  - computed.
  - symmetry. apply reverse_Permutation.
Defined.

Lemma document_pays_everyone_witness :
  exists st', run_claims ex_clock ex_pool (reverse (map ticket_of (ar_entries ex_artifact))) ex_salvaged
      = Ok (st', [LpClaimProcessed ex_pool bob 3200000; LpClaimProcessed ex_pool alice 4800000])
    /\ paid_out ex_P ex_known ex_clock ex_pool ex_registry
         (reverse (map ticket_of (ar_entries ex_artifact))) ex_salvaged st'
    /\ (lp_holder_pool_claimed_lamports ex_registry = 0 -> 0 < ar_lp_total_supply ex_artifact ->
        forall r1, vs_registries st' !! ex_pool = Some r1 ->
        ar_lp_total_supply ex_artifact * remaining_lamports r1
        <= lp_holder_pool_total_lamports ex_registry * sink_exclusions_total (ar_reconciliation ex_artifact)
           + Z.of_nat (length (ar_entries ex_artifact)) * (ar_lp_total_supply ex_artifact - 1)).
Proof.
  apply (document_pays_everyone ex_P ex_known ex_salvaged ex_pool ex_registry ex_artifact
    (reverse (map ticket_of (ar_entries ex_artifact))) ex_clock).
  - exact ex_distinct.
  - exact ex_reach_salvaged.
  - exact ex_collision_free.
  - vm_compute. reflexivity.
  - split; vm_compute; reflexivity.
  - exact ex_wf_artifact.
  - exact ex_wf_owners.
  - exact ex_verified.
  - exact ex_tree_known.
  - repeat (constructor; [apply Forall_forall; intros y Hy; apply ex_known_hashed; unfold ex_hashed;
      rewrite !elem_of_app; auto|]). constructor.
  - repeat (constructor; [split; [by intros q ->; computed|vm_compute; reflexivity]|]). constructor.
  - apply reverse_Permutation.
Defined.

(** ** The document as text *)

Definition ex_text : string := match to_json ex_artifact with Ok s => s | Err _ => EmptyString end.

Lemma ex_loaded : from_json ex_text = Ok ex_artifact.
Proof. vm_compute. reflexivity. Qed.

Lemma loaded_document_typed_witness : wf_document ex_artifact /\ published ex_artifact.
Proof.
  destruct (loaded_document_typed ex_text ex_artifact ex_loaded) as (Hw & _ & Hp & _).
  split; [exact Hw|exact (Hp ex_verified)].
Defined.

Lemma document_roundtrip_witness :
  exists s p, to_json ex_artifact = Ok s /\ to_json_pretty ex_artifact = Ok p
    /\ Forall (fun t => from_json t = Ok ex_artifact) [s; String.append s newline; p; String.append p newline].
Proof.
  apply (document_roundtrip ex_artifact). exact (from_json_typed ex_text ex_artifact ex_loaded).
Defined.

Lemma published_text_pays_everyone_witness :
  exists st', run_claims ex_clock ex_pool (map ticket_of (ar_entries ex_artifact)) ex_salvaged
      = Ok (st', [LpClaimProcessed ex_pool alice 4800000; LpClaimProcessed ex_pool bob 3200000])
    /\ paid_out ex_P ex_known ex_clock ex_pool ex_registry (map ticket_of (ar_entries ex_artifact)) ex_salvaged st'
    /\ (lp_holder_pool_claimed_lamports ex_registry = 0 -> 0 < ar_lp_total_supply ex_artifact ->
        forall r1, vs_registries st' !! ex_pool = Some r1 ->
        ar_lp_total_supply ex_artifact * remaining_lamports r1
        <= lp_holder_pool_total_lamports ex_registry * sink_exclusions_total (ar_reconciliation ex_artifact)
           + Z.of_nat (length (ar_entries ex_artifact)) * (ar_lp_total_supply ex_artifact - 1)).
Proof.
  apply (published_text_pays_everyone ex_P ex_known ex_text ex_salvaged ex_pool ex_registry ex_artifact
    (map ticket_of (ar_entries ex_artifact)) ex_clock).
  - exact ex_loaded.
  - exact ex_verified.
  - exact ex_distinct.
  - exact ex_reach_salvaged.
  - exact ex_collision_free.
  - vm_compute. reflexivity.
  - split; vm_compute; reflexivity.
  - exact ex_tree_known.
  - repeat (constructor; [apply Forall_forall; intros y Hy; apply ex_known_hashed; unfold ex_hashed;
      rewrite !elem_of_app; auto|]). constructor.
  - repeat (constructor; [split; [by intros q ->; computed|vm_compute; reflexivity]|]). constructor.
  - reflexivity.
Defined.

Lemma published_root_is_exact_witness :
  mkHolderEntry bob 400 ∈ artifact_leaves ex_artifact
  \/ exists mt, merkle_tree_of (artifact_leaves ex_artifact) = Some mt
       /\ collision (path_preimages bob 400 bob_proof) (mpreimages mt).
Proof.
  apply (published_root_is_exact ex_artifact bob 400 bob_proof).
  - exact ex_verified.
  - exact ex_wf_artifact.
  - exact ex_wf_owners.
  - split; [reflexivity|in_range].
  - repeat (constructor; [reflexivity|]). constructor.
  - vm_compute. reflexivity.
Defined.

(** ** A pool certified and salvaged *)

(** The scanner's run of ScannerExamples, under this file's derivation. *)
Definition pr_accounts : list AccountInfo :=
  sample_vaults 100000000000 500000000 1000000 ++
  [mkAccountInfo (marker_address sample_pool) 0 [] default_key false].
Definition pr_env (epoch now off : Z) (msg : list byte) : ScannerEnv :=
  mkScannerEnv (Some (mkClock 600 epoch now)) (sysvar_of_tx (sample_tx off msg) 1)
    sample_slot_hashes pr_accounts.
Definition pr_run (st : ScannerState) (step : ScannerEnv * ScannerIx) : ScannerState :=
  match scanner_exec (fst step) (snd step) st with Ok (st', _) => st' | Err _ => st end.

Definition pr_initialized := Eval vm_compute in
  pr_run scanner_genesis (pr_env 100 2000 152 run_launch_msg, Scanner.IxInitialize run_init).
Definition pr_launched := Eval vm_compute in
  pr_run pr_initialized (pr_env 100 2000 152 run_launch_msg, IxRecordLaunchPrice run_launch).
Definition pr_anchored := Eval vm_compute in
  pr_run pr_launched (pr_env 100 9000000 72 (ev_msg run_eval), ix_phase1).
Definition pr_certified := Eval vm_compute in
  pr_run pr_anchored (pr_env 102 9200000 72 (ev_msg run_eval), ix_phase2).

Lemma pr_reach env ix st :
  scanner_reachable st -> wf_env env -> wf_ix ix ->
  is_ok (scanner_exec env ix st) = true -> scanner_reachable (pr_run st (env, ix)).
Proof.
  intros Hr He Hi Ho. unfold pr_run. simpl.
  destruct (scanner_exec env ix st) as [[st' evs]|] eqn:Hx; [|done].
  simpl. eapply scanner_reachable_step; [done|]. by econstructor.
Qed.

Lemma pr_env_wf epoch now off msg : is_u64 epoch -> is_i64 now -> wf_env (pr_env epoch now off msg).
Proof. constructor. intros c [= <-]. by constructor; [in_range|..]. Qed.

Lemma pr_certified_reachable : scanner_reachable pr_certified.
Proof.
  apply (pr_reach (pr_env 102 9200000 72 (ev_msg run_eval)) ix_phase2 pr_anchored);
    [|by apply pr_env_wf; in_range|reflexivity|vm_compute; reflexivity].
  apply (pr_reach (pr_env 100 9000000 72 (ev_msg run_eval)) ix_phase1 pr_launched);
    [|by apply pr_env_wf; in_range|reflexivity|vm_compute; reflexivity].
  apply (pr_reach (pr_env 100 2000 152 run_launch_msg) (IxRecordLaunchPrice run_launch) pr_initialized);
    [|by apply pr_env_wf; in_range|reflexivity|vm_compute; reflexivity].
  apply (pr_reach (pr_env 100 2000 152 run_launch_msg) (Scanner.IxInitialize run_init) scanner_genesis);
    [constructor|by apply pr_env_wf; in_range| |vm_compute; reflexivity].
  split_and!; in_range.
Qed.

(** The salvage of that pool, ten minutes into its certificate. *)
Definition pr_remaining : list AccountMeta :=
  meta_new RAYDIUM_V4_AMM_AUTHORITY false :: meta_new (key_of x60) false :: meta_new (key_of x61) false
  :: meta_new (key_of x11) false :: meta_new (key_of x12) false
  :: map (fun b => meta_new (key_of b) false) [x62; x63; x64; x65; x66; x67; x68; x69]
  ++ [meta_new (associated_token vault_authority (key_of x13)) false; meta_new base_ata false].
Definition pr_ctx : SalvageCtx := {|
  sx_clock := Some (mkClock 1000 102 9200600);
  sx_certs := sc_certs pr_certified;
  sx_salvor := ex_salvor;
  sx_pool := sample_pool_account sample_pool;
  sx_amm_program := mkAccountInfo RAYDIUM_V4_PROGRAM_ID 1 [] (key_of x70) true;
  sx_jupiter_program := JUPITER_V6_PROGRAM_ID;
  sx_salvor_lp_token_account := ex_salvor_lp;
  sx_lp_mint := key_of x14;
  sx_lp_mint_supply := 1000000;
  sx_memecoin_mint := key_of x13;
  sx_wsol_mint := WSOL_MINT;
  sx_remaining_accounts := pr_remaining;
|}.
Definition pr_params : SalvagePoolParams := {|
  sp_amm_program_id := sample_amm;
  sp_pool_address := sample_pool;
  sp_lp_snapshot_merkle_root := key_of x99;
  sp_lp_total_supply_at_snapshot := 1000000;
  sp_min_quote_output_lamports := 9900000;
  sp_salvor_lp_amount := 1000;
  sp_jupiter_route_data := [x01];
  sp_max_slippage_bps_override := None;
  sp_jupiter_route_accounts_len := 2;
|}.
Definition pr_ledger : Ledger := mkLedger
  {[ ex_salvor := 10000000000 ]}
  (<[ ex_salvor_lp := mkTokenAcc (key_of x14) ex_salvor 1000 ]>
   (<[ key_of x11 := mkTokenAcc (key_of x13) (key_of x71) 2000000 ]>
   {[ key_of x12 := mkTokenAcc WSOL_MINT (key_of x71) 20000003 ]})).
Definition pr_vault : VaultState :=
  VaultExamples.after (vault_exec (IxInitialize ex_init) (vault_genesis pr_ledger)).
Example pr_salvage : is_ok (vault_exec (IxSalvagePool pr_ctx pr_params) pr_vault) = true.
Proof. vm_compute. reflexivity. Qed.

Definition pr_salvaged : VaultState := VaultExamples.after (vault_exec (IxSalvagePool pr_ctx pr_params) pr_vault).

Lemma pr_salvage_ok : exists evs, salvage_pool pr_ctx pr_params pr_vault = Ok (pr_salvaged, evs).
Proof.
  rewrite salvage_exec.
  exact (after_ok (vault_exec (IxSalvagePool pr_ctx pr_params) pr_vault) pr_salvage).
Qed.

Lemma salvage_twice_certified_witness :
  exists clock env pool prm sst0 cfg l ck anchor old,
    sx_clock pr_ctx = Some clock
    /\ anchor_origin (sample_amm, sample_pool) (first_eligible_epoch anchor)
    /\ scanner_reachable sst0 /\ wf_env env /\ pool_key prm = (sample_amm, sample_pool)
    /\ phase2_ready env pool prm sst0 cfg l ck anchor old
    /\ first_eligible_epoch anchor + MIN_EPOCH_CONFIRMATION <= clock_epoch ck
    /\ clock_unix_timestamp clock < clock_unix_timestamp ck + cfg_cert_ttl_seconds cfg.
Proof.
  destruct pr_salvage_ok as [evs He].
  exact (salvage_twice_certified pr_certified pr_ctx pr_params pr_vault pr_salvaged evs
    pr_certified_reachable eq_refl He).
Defined.

(** The scanner's view of the pool in the certified state's accounts. *)
Lemma scanner_and_vault_read_one_pool_witness :
  sx_lp_mint pr_ctx = key_of x14
  /\ ((key_of x13, WSOL_MINT) = (WSOL_MINT, sx_memecoin_mint pr_ctx)
      \/ (key_of x13, WSOL_MINT) = (sx_memecoin_mint pr_ctx, WSOL_MINT)).
Proof.
  destruct pr_salvage_ok as [evs He].
  apply (scanner_and_vault_read_one_pool pr_ctx pr_params pr_vault pr_salvaged evs
    (sample_pool_account sample_pool) pr_accounts
    (mkPoolData 100000000000 500000000 1000000 (key_of x13) WSOL_MINT (key_of x14)) He).
  - apply raydium_v4_parse_Ok. vm_compute. reflexivity.
  - reflexivity.
Defined.

(** ** The lock parsers *)

Definition sample_lock : AccountInfo :=
  mkAccountInfo (token_lock_address 7) 1
    (TOKEN_LOCK_DISC ++ [xff] ++ ex_pool ++ ex_lp_mint ++ le_bytes 8 7 ++ zeroes 25 ++ le_bytes 8 100 ++ bob)
    UNCX_PROGRAM_ID false.
Definition sample_client : RpcClient := {|
  get_account_with_commitment _ := Err "unused"%string;
  get_program_accounts_with_config _ _ := Ok [(token_lock_address 7, sample_lock)];
|}.

Lemma lock_parsers_agree_witness :
  exists r, parse_token_lock (ai_key sample_lock) (ai_data sample_lock) ex_pool ex_lp_mint = Ok r
    /\ current_locked_amount r = 100.
Proof.
  apply (lock_parsers_agree ex_lp_mint ex_pool sample_lock 100).
  - by intros [? ?].
  - reflexivity.
  - by vm_compute.
  - vm_compute. reflexivity.
Defined.

Definition ex_record : TokenLockRecord := mkTokenLockRecord (token_lock_address 7) 7 100 bob.

Lemma rpc_locks_validated_witness :
  is_u64 (current_locked_amount ex_record)
  /\ tl_address ex_record = uncx.token_lock_address (lock_global_id ex_record)
  /\ exists a, valid_lock ex_lp_mint ex_pool a /\ ai_key a = tl_address ex_record
       /\ le_Z (slice uncx.CURRENT_LOCKED_AMOUNT 8 (ai_data a)) = current_locked_amount ex_record
       /\ slice uncx.LOCK_OWNER 32 (ai_data a) = lock_owner ex_record.
Proof.
  apply (@rpc_locks_validated sample_client _ ex_pool ex_lp_mint [ex_record]).
  - vm_compute. reflexivity.
  - apply list_elem_of_here.
Defined.
