(* ===== verification/StorageExamples.v ===== *)
(** * StorageExamples: the certified pool's accounts as bytes

    The scanner's run of ProtocolExamples and the vault's of VaultExamples, as
    typed runs: the witness of Storage.v. *)

From S2P Require Import Prelude Bytes Solana Criteria Attestation Adapters Locker Merkle ScannerState Scanner.
From S2P Require Import ScannerExamples Runtime VaultState Borsh Accounts AmmCpi Salvage SalvageSpec Vault VaultInv.
From S2P Require Import VaultExamples ProtocolExamples Storage.

#[local] Existing Instance toy_sha256.
#[local] Existing Instance toy_sha256_laws.
#[local] Existing Instance toy_pda.
#[local] Existing Instance toy_runtime.
#[local] Existing Instance toy_laws.

#[local] Instance toy_pda_typed : PdaTyped.
Proof. constructor; [intros; apply sha256_length|intros; simpl; in_range]. Qed.

Lemma pr_typed env ix st :
  scanner_typed_run st -> wf_env env -> wf_ix ix -> forallb (fun k => length k =? 32)%nat (scanner_ix_keys ix) = true ->
  is_ok (scanner_exec env ix st) = true -> scanner_typed_run (pr_run st (env, ix)).
Proof.
  intros Hr He Hi Hk Ho. unfold pr_run. simpl.
  destruct (scanner_exec env ix st) as [[st' evs]|] eqn:Hx; [|done].
  simpl. eapply scanner_typed_step; [done..| |done].
  apply Forall_forall. intros k Hin. rewrite forallb_forall in Hk. apply Nat.eqb_eq, Hk. by apply list_elem_of_In.
Qed.

Lemma pr_certified_typed : scanner_typed_run pr_certified.
Proof.
  apply (pr_typed (pr_env 102 9200000 72 (ev_msg run_eval)) ix_phase2 pr_anchored);
    [|by apply pr_env_wf; in_range|reflexivity|vm_compute; reflexivity..].
  apply (pr_typed (pr_env 100 9000000 72 (ev_msg run_eval)) ix_phase1 pr_launched);
    [|by apply pr_env_wf; in_range|reflexivity|vm_compute; reflexivity..].
  apply (pr_typed (pr_env 100 2000 152 run_launch_msg) (IxRecordLaunchPrice run_launch) pr_initialized);
    [|by apply pr_env_wf; in_range|reflexivity|vm_compute; reflexivity..].
  apply (pr_typed (pr_env 100 2000 152 run_launch_msg) (Scanner.IxInitialize run_init) scanner_genesis);
    [constructor|by apply pr_env_wf; in_range| |vm_compute; reflexivity..].
  split_and!; in_range.
Qed.

Lemma ex_typed ix st :
  vault_typed_run st -> vault_ix_typed ix -> commits ix st = true -> vault_typed_run (after (vault_exec ix st)).
Proof.
  intros Hst Hty Hc. unfold commits in Hc. destruct (vault_exec ix st) as [[st' evs]|] eqn:Hx; [|done].
  simpl. by eapply vault_typed_step.
Qed.

Lemma ex_claimed_typed : vault_typed_run ex_claimed.
Proof.
  assert (Hck : clock_typed (Some ex_clock)) by (intros c [= <-]; constructor; in_range).
  apply ex_typed; [|split_and!; [reflexivity..|in_range|exact Hck]|vm_compute; reflexivity].
  apply ex_typed; [|split_and!; [reflexivity..|in_range|exact Hck]|vm_compute; reflexivity].
  apply ex_typed; [|split_and!; [reflexivity|in_range..]|vm_compute; reflexivity].
  apply vault_typed_genesis. computed.
Qed.

(** The certificate, followed by four more bytes. *)
Lemma accounts_survive_storage_witness :
  exists c : account_type KCert, sc_certs pr_certified !! pool_key run_eval = Some c
    /\ valid_account c
    /\ length (try_serialize c) = (8 + INIT_SPACE (account_type KCert))%nat
    /\ try_deserialize (try_serialize c ++ zeroes 4) = Some c.
Proof.
  destruct (sc_certs pr_certified !! pool_key run_eval) as [c|] eqn:Hc; [|vm_compute in Hc; discriminate Hc].
  exists c. split; [reflexivity|].
  exact (accounts_survive_storage pr_certified ex_claimed KCert c (zeroes 4) pr_certified_typed ex_claimed_typed
    (on_cert _ _ _ c Hc)).
Defined.
