(* ===== verification/CliExamples.v ===== *)
(** * CliExamples: a command line and a run

    The binary on a node that serves Alice's 600 and Bob's 400 LP. *)

From Stdlib Require Import Ascii String.
From S2P Require Import Prelude Bytes Solana Runtime Merkle VaultState AmmCpi Salvage SalvageSpec Vault VaultInv.
From S2P Require Import VaultSpec VaultExamples Locker Snapshot Builder BuilderSpec Tree.
From S2P Require Import Artifact Document DocumentExamples Protocol ProtocolExamples.
From S2P Require Import Cli Delivery.

#[local] Existing Instance toy_sha256.
#[local] Existing Instance toy_sha256_laws.
#[local] Existing Instance toy_pda.
#[local] Existing Instance toy_runtime.
#[local] Existing Instance toy_laws.

(** A classic SPL mint and token accounts, as the node returns them. *)
Definition spl_mint (supply : Z) : AccountInfo :=
  mkAccountInfo ex_lp_mint 1 (zeroes 36 ++ le_bytes 8 supply ++ zeroes 38) SPL_TOKEN_PROGRAM_ID false.
Definition spl_account (address owner : Pubkey) (amount : Z) : Pubkey * AccountInfo :=
  (address, mkAccountInfo address 1 (ex_lp_mint ++ owner ++ le_bytes 8 amount ++ zeroes 93)
    SPL_TOKEN_PROGRAM_ID false).

Definition cli_node : RpcClient := {|
  get_account_with_commitment _ := Ok (Some (spl_mint 1000), 77);
  get_program_accounts_with_config _ _ :=
    Ok [spl_account (key_of x31) alice 600; spl_account (key_of x32) bob 400];
|}.

(** The file system takes everything. *)
Definition cli_host : Host := {|
  new_client _ := cli_node;
  fs_write _ _ := true;
|}.
#[local] Existing Instance cli_host.
#[local] Existing Instance toy_format.
#[local] Existing Instance toy_base58.

#[local] Instance cli_host_laws : HostLaws.
Proof. intros url k acc slot [= <- <-]. in_range. Qed.

Definition cli_args : Args := mkArgs "http://localhost" ex_pool RAYDIUM_V4_PROGRAM_ID ex_lp_mint "out.json".

(** The pool given twice and the flags in an order of their own. *)
Definition cli_flags : list Flag :=
  [FOut "out.json"; FPool ex_lp_mint; FLpMint ex_lp_mint; FUrl "http://localhost"; FPool ex_pool;
   FAmm RAYDIUM_V4_PROGRAM_ID].

Lemma cli_flags_wf : Forall wf_flag cli_flags.
Proof. repeat (constructor; [done|]). constructor. Qed.

Lemma parse_args_spec_witness :
  parse_args (command_line cli_flags) = Ok cli_args
  /\ parse_args (command_line cli_flags ++ ["--amm"%string]) = Err Aborted.
Proof.
  destruct (parse_args_spec cli_flags cli_flags_wf) as (H1 & H2 & _).
  split; [exact H1|apply H2; unfold value_flag; auto].
Defined.

Definition cli_accounts : list TokenAccountSnapshot :=
  [mkTokenAccountSnapshot (key_of x31) alice 600; mkTokenAccountSnapshot (key_of x32) bob 400].

Lemma cli_run_spec_witness :
  exists a, verify_integrity a = Ok tt /\ credits a cli_args (mkMintSupply 1000 77) cli_accounts
    /\ run cli_args = publish cli_args a.
Proof.
  assert (Hspec := cli_run_spec cli_args). cbn zeta in Hspec.
  assert (Hsup : @lp_mint_supply (@ClassicLpAccountSource (new_client (url cli_args))) (lp_mint cli_args)
    = Ok (mkMintSupply 1000 77)) by (vm_compute; reflexivity).
  assert (Hacc : @token_accounts (@ClassicLpAccountSource (new_client (url cli_args))) (lp_mint cli_args)
    = Ok cli_accounts) by (vm_compute; reflexivity).
  rewrite Hsup, Hacc, decide_True in Hspec; [exact Hspec|]. split; vm_compute; congruence.
Defined.

(** ** The file and the claims it pays *)

Definition cli_argv : list string := command_line cli_flags.

(** What [main] finishes with, and what its file loads as. *)
Definition cli_rep : Report :=
  match main cli_argv with Finished r => r | _ => mkReport EmptyString EmptyString EmptyString 0 0 end.
Definition cli_artifact : SnapshotArtifact := Eval vm_compute in
  match from_json (rp_contents cli_rep) with Ok a => a | Err _ => ex_artifact end.

Lemma cli_finished : main cli_argv = Finished cli_rep.
Proof. vm_compute. reflexivity. Qed.

Lemma cli_serves : node_serves cli_args (mkMintSupply 1000 77) cli_accounts.
Proof. split_and!; vm_compute; congruence. Qed.

Lemma cli_delivers_witness :
  (exists args supply accounts a, parse_args cli_argv = Ok args /\ node_serves args supply accounts
     /\ fs_write (rp_path cli_rep) (rp_contents cli_rep) = true /\ delivered args supply accounts cli_rep a)
  /\ exists rep a, delivered cli_args (mkMintSupply 1000 77) cli_accounts rep a.
Proof.
  destruct (cli_delivers cli_argv) as [H1 H2]. split; [exact (H1 cli_rep cli_finished)|].
  destruct (H2 cli_args (mkMintSupply 1000 77) cli_accounts) as (rep & a & Hd & _);
    [vm_compute; reflexivity|exact cli_serves|]. exists rep, a. exact Hd.
Defined.

(** The vault of VaultExamples salvaged the same pool for the same holders. *)
Lemma file_pays_holders_witness :
  exists e st', proof_for cli_artifact bob = Some e /\ ae_lp_balance e = 400
    /\ claim_lp_proceeds (Some ex_clock) bob (mkClaimLpProceedsParams ex_pool 400 (ae_proof e)) ex_claimed
       = Ok (st', [LpClaimProcessed ex_pool bob 3200000])
    /\ forall k, lamports (vs_ledger st') k = lamports (vs_ledger ex_claimed) k
         - to_account (lp_holder_pool_vault ex_pool) 3200000 k + to_account bob 3200000 k.
Proof.
  apply (file_pays_holders ex_P ex_known cli_argv cli_args (mkMintSupply 1000 77) cli_accounts cli_rep
    cli_artifact ex_claimed ex_registry_claimed bob ex_clock).
  - exact cli_finished.
  - vm_compute. reflexivity.
  - exact cli_serves.
  - vm_compute. reflexivity.
  - exact ex_distinct.
  - exact ex_reach_claimed.
  - exact ex_collision_free.
  - exact ex_tree_known.
  - vm_compute. reflexivity.
  - vm_compute. reflexivity.
  - vm_compute. reflexivity.
  - by vm_compute.
  - vm_compute. reflexivity.
Defined.

(** The closing line. *)
Example cli_report : rp_path cli_rep = "out.json"%string /\ rp_leaves cli_rep = 2%nat /\ rp_depth cli_rep = 1%nat
  /\ rp_root cli_rep = encode_hex (merkle_root ex_artifact).
Proof. vm_compute. done. Qed.
